(* ===== verification/_CoqProject ===== *)
-Q . S2P
Prelude.v
GoTime.v
TimeText.v
Display.v
Tabwriter.v
Json.v
Url.v
Sql.v
Storage.v
Sqlite.v
SqliteSpec.v
Rows.v
SqliteRows.v
SqliteSelect.v
Postgres.v
PostgresRows.v
PostgresSpec.v
Contract.v
Regex.v
Normalize.v
NetIP.v
Fingerprint.v
Differ.v
Proto.v
Parsing.v
Wire.v
Sensor.v
SensorLife.v
Smoke.v
Dispatcher.v
Notifier.v
Api.v
Serve.v
Metrics.v
Agent.v
Pipeline.v
Sandbox.v
Docker.v
Runner.v
Watcher.v
Config.v
Migrate.v
Lineage.v
Orchestrator.v
Pending.v
Cli.v
Print.v
Args.v
Triage.v
RunnerMain.v
Requests.v
Ui.v
OrchestratorMain.v
Render.v
