(* ===== verification/Prelude.v ===== *)
(** * FANGS: a verification development

    FANGS watches npm packages.  An orchestrator polls the registry, queues a
    scan of each new release, and a runner installs the release in a sandbox
    observed by an eBPF sensor; the events come back, are reduced to
    fingerprints and compared with the package's baseline, and what is new is
    stored as deviations and sent to webhooks.  This library models the Go
    code of that pipeline (src/internal) and proves what makes it correct.

    ** Program, files and correspondence

    - [Prelude.v]: errors, the state monad, machine integers, Go strings,
      list lemmas, tactics and the hint database [fangs].
    - [GoTime.v], [TimeText.v], [Json.v]: instants, durations and the RFC 3339
      text that the SQLite schema sorts by; the calendar and [time.Parse] of
      that text; decoded JSON values and what [json.Unmarshal] does with them.
    - [Display.v] (orchestrator/ui/ui.go and the CLI's pending.go): times,
      durations and ages as the dashboard and the command line show them;
      [Tabwriter.v] (the CLI's format.go): aligned columns, on Go's
      text/tabwriter.
    - [Url.v]: percent-escaping, queries and the path of a request, as
      net/url has them.
    - [Sql.v]: tables as lists of rows (update, delete, upsert, order, limit)
      and their view as finite maps by primary key.
    - [Storage.v] (orchestrator/storage/storage.go): row types, the [Backend]
      interface as a class, the abstract [Store] with a specification per
      operation, and [BackendLaws], the refinement obligations.
    - [Sqlite.v], [SqliteSpec.v] (orchestrator/storage/sqlite/sqlite.go and the
      SQL migrations): every statement with its keys, foreign keys, cascades,
      CHECKs and orderings; the schema invariant [wf] over every reachable
      database, and the instance of [BackendLaws].
    - [Rows.v], [SqliteRows.v], [SqliteSelect.v], [PostgresRows.v]: below the
      two backends, rows of database/sql values: the arguments of the INSERTs,
      the columns the UPDATEs set, the queries, and the [Scan] calls that read
      rows back.
    - [Postgres.v], [PostgresSpec.v] (orchestrator/storage/postgres): the same
      statements on the PostgreSQL schema, its column ranges, microsecond
      timestamps and sequences; what the two backends share and where they
      differ.
    - [Contract.v] (orchestrator/storage/storagetest/contract.go): the
      repository's contract suite as a program, run on both backends.
    - [Migrate.v] (orchestrator/storage/migrate.go): the migration loop.
    - [Regex.v], [Normalize.v] (orchestrator/differ/normalize.go): leftmost
      replacement for the fragment of regular expressions used, and the path
      rules.
    - [NetIP.v]: net.ParseIP, net.ParseCIDR, Contains and String.
    - [Fingerprint.v] (orchestrator/differ/differ.go, filter.go,
      fingerprint.go, allowlist.go): extraction and aggregation of
      fingerprints under the allowlist.
    - [Differ.v] (orchestrator/differ/analyze.go): the analysis of a run,
      written against [Backend] and proved against [BackendLaws].
    - [Proto.v] (shared/proto): event layouts and messages.
    - [Parsing.v], [Wire.v], [Sensor.v], [SensorLife.v]
      (runner/sensor/parsing.go, events.go, sensor.go): DNS and ClientHello parsers, little-endian decoding of the
      ring-buffer records, cgroup registration over the kernel maps, whose
      every Put and Delete may fail, connect
      and TLS deduplication, the body of the event loop; start-up and release
      of the probes, and the event goroutine with its channel as a step
      relation.
    - [Smoke.v] (cmd/sensor-smoketest): its flags, its run around one sensor,
      and the JSON line of each event.
    - [Dispatcher.v] (orchestrator/core/dispatcher.go): the job queue; its
      calls are threads of a step relation.
    - [Api.v] (orchestrator/api/server.go): the HTTP handlers as functions of
      the server's state, the runner registry, and the debounced analysis as
      a step relation.
    - [Serve.v] (the [Mount] functions of api, ui and metrics, put together by
      cmd/fangs-orchestrator; [ServeWith]): routing on Go's request mux, and
      the transport.
    - [Metrics.v] (orchestrator/metrics/metrics.go): the counters, over an
      interface of the Prometheus client, and what [Api]'s handlers do to them.
    - [Notifier.v] (orchestrator/notifier): target selection, requests,
      retries, audit rows, payloads, the boot-time file.
    - [Watcher.v] (orchestrator/watcher), [Config.v] (orchestrator/config).
    - [Agent.v] (runner/agent, and the heartbeat and forwarding goroutines of
      cmd/fangs-runner): the client of the control plane over [Api]'s
      responses; the event streamer and the forwarder as step relations.
    - [Pipeline.v]: the streamer, the event handler and the Differ composed.
    - [Sandbox.v], [Docker.v] (runner/sandbox): finding a process's cgroup,
      the parent cgroup of a run, and the Docker driver as computations over
      the exchange with the daemon.
    - [Runner.v] (cmd/fangs-runner/main.go): [runJob] over [Sensor], [Sandbox],
      [Docker] and [Agent], with its deferred clean-ups; the race at the end
      of a job as a step relation; the poll loop.
    - [Orchestrator.v] (cmd/fangs-orchestrator/main.go): storage choice and
      start-up, the watcher's submissions to the API server, the retention
      loop.
    - [Lineage.v] (orchestrator/ui/lineage.go), [Pending.v]
      (orchestrator/ui/pending.go and the CLI's pending.go), [Ui.v] (the other
      pages of orchestrator/ui): what each page of the dashboard is rendered
      from; [Render.v] (orchestrator/ui/ui.go): the templates.
    - [OrchestratorMain.v] (cmd/fangs-orchestrator/main.go): the orchestrator's
      process from its flags to its exit status; in between, any interleaving
      of requests routed by [Serve] to the handlers of [Api] and [Ui], of the
      debounced analyses ([Differ]) and their deliveries ([Notifier]), and of
      the ticks of [Watcher], of the retention loop and of the eviction.
    - [Cli.v] (cmd/fangs-cli/internal/cli): the operator's commands over any
      [Backend], and the exchange of [fangs scan submit] with [Api]; [Print.v]
      (the same files): the table, the lines or the JSON value each command
      prints; [Args.v] (cli.go and the flags of each command): from the
      argument vector to the command, its output and its exit status, on a
      model of Go's flag package; [Triage.v]: the pending queue and the command
      it advises, as command lines.
    - [RunnerMain.v] (cmd/fangs-runner/main.go, agent.New): the runner's process
      from its flags to its exit, around [SensorLife], [Agent] and [Runner], with
      the point at which its forwarding goroutine may panic.

    - [Requests.v] (runner/agent, the CLI's scan.go, sandbox/docker.go): the
      URLs of the clients, on the mux of [Serve.v], and the requests of the
      Docker driver.

    A definition carries the name of the function it models where that name is
    free.  A method is a function from the receiver's state to its result and
    the new state ([M], or an explicit pair); an error is a value of [error]
    that keeps the wrapping [errors.Is] looks through; the text of a message
    is kept only where code reads it.  A Go panic is [None] in the parsers,
    whose theorems exclude it, [Panicked] in the notifier, the error
    [runtime_panic] in its loader and in the retention loop, and an ending of
    its own in the two processes ([BootPanic], [Crashed], [Killed]).

    ** What is proved

    - Storage: every database that statements can reach satisfies the schema
      invariant, and the SQLite backend refines the abstract contract; the
      functional behaviour of appends, listings, pruning, state updates and
      short-id resolution; each migration runs exactly once.  On columns, what
      an INSERT writes is what a scan reads, timestamps included, and the
      queries and updates of columns agree with those of rows.
    - Analysis: a first run seeds the baseline and reports nothing; a later
      run reports exactly the fingerprints the baseline lacks and learns the
      others; repeating an analysis changes neither the deviations nor the
      baseline's keys.  Fingerprints are characterised independently of event
      order, and an allowlist entry can only remove findings.
    - Sensor: the parsers and decoders never read out of bounds, invert the
      encodings of well-formed packets, and dispatch on the right type; the
      kernel maps hold what registered cgroups own and, beyond that, only the
      entries whose deletion failed, and up to those registration is a
      transaction; deduplication never loses a connection, and a TLS record
      is tagged only when its first source was seen.  Start-up leaves nothing
      attached when it fails; the event channel keeps order, loses at most one
      event, and ends after the reader is closed.  The smoke test leaves nothing
      open whatever fails, and prints what the runner would send.
    - End to end: at any point of a scan, a behaviour is a deviation of the
      run exactly when an event that reached the orchestrator shows it and the
      baseline does not know it.
    - Control plane: no job is lost, duplicated or reordered, and a single
      waiting runner never misses one; a submitted scan is queued with its
      run row; accepted streams are stored completely and in order and always
      analysed afterwards; a runner with a heartbeat is never evicted.  Mounting
      the routes never panics and every endpoint reaches its handler; the
      counters grow by exactly what the handlers did.
    - Notification: retries end, within the attempt limit and the jitter
      window, with one audit row per attempt; requests leave only over https
      or to loopback and are signed when configured.

    - Runner: on every path out of a job the sensor, the streamer and the
      containers are released in a safe order and exactly one result is
      posted, last; the orchestrator accepts that result and its verdict
      becomes the run's state.  A container is created only from a confined
      payload, is removed whenever the launch fails, and a launch always
      returns; so does the process, which releases the sensor on every exit
      but a failed registration and a panic of the forwarder.  The streamer conserves events and numbers its batches.
    - Lineage: every process below a root has exactly one row, the totals
      count each event once, and the path to the target event is marked.
    - Operation: a promoted run is not reported again, by an analysis of it
      or of a run that shows nothing else; an accepted allow entry suppresses
      what it covers; a new release found by the watcher reaches the queue of
      a registered runner, once; every command has a command line that is read
      as that command, and the commands that only look change nothing; the
      command a row of the triage queue advises promotes that row's run, unless
      it has no package name, and takes it alone off the queue; tables print aligned; the watcher submits
      each change the registry shows, in order, and nothing twice in a row;
      retention deletes what is past its days and is not evidence, for every
      bound that does not overflow and whichever passes fail, and ends the
      process when its interval is not positive.
    - The orchestrator's process: whatever is requested and however its parts
      interleave, the database stays one the statements can reach, every queued
      job is complete and has its run row, no goroutine takes the process down
      but the pruner with such an interval, and the exit status is determined
      by how the start or the serving ended.
    - On the wire: the agent's and the CLI's requests reach their handlers with
      the ids they carry, for ids that need no escaping; in the text the Docker
      driver sends, no image reference makes one call look like another.
    - Dashboard: the triage queue has one row per open run with its count and
      window; chip counts agree with the rows behind them; the allowlist page
      shows what the analysis applies; the payload view drops only the raw
      arrays; the hand-written sort agrees with the library's.

    ** Bounds and fuel

    The DNS label walk and the ClientHello extension walk take the length of
    their buffer as fuel, and each step consumes at least one byte;
    [parsers_total] proves the fuel enough.  Regular-expression matching is
    structural in the pattern with the length of the subject as the bound of a
    repetition.  The delivery loop takes [maxAttempt] as fuel, as the code's
    own loop bound.  The polling loops of [Docker.Launch] return [None] when
    the fuel runs out; [Launch_returns] shows that 2001 is enough (10 s at 5 ms
    a poll, the first poll at once).  The walk of a lineage takes the number of
    processes as fuel.  Integers are [Z] with [wrapU] and [wrapS] where the code
    can overflow.  A duration of the command line is read with its length as
    fuel; [units_fuel] shows that more changes nothing.

    ** Not modelled

    The text of templates, what goes to standard error (the flag package's
    usage among it), the text of an encoded JSON value; signals and logging;
    the Prometheus client and its text format; listening sockets; the data
    source names the backends are opened with, and the errors of their drivers
    other than those of the statements themselves (only a pass of the retention
    loop may fail for any reason); interleavings inside one
    handler or one analysis of the process model (the dispatcher, the debounce
    scheduler, the streamer and the end of a job have step relations of their
    own); the kernel's side of the probes and of the
    ring buffer, the eBPF C code.  Behaviour of code outside the repository (JSON
    and YAML text, HMAC, SHA-256, the HTTP client, random sources, clocks) is
    an argument of the definitions that use it.  Strings are byte sequences;
    case folding and trimming act on their ASCII part, which is all the data
    they are applied to (host names, SQL LIKE patterns, file contents)
    relies on. *)
From Stdlib Require Import Ascii.
From stdpp Require Import prelude strings gmap list sorting.

(** ** Errors and fallible results

    Go errors are values.  The program only ever inspects an error with
    [errors.Is] against a package-level sentinel, or wraps it with
    [fmt.Errorf("...: %w", err)]; [error] keeps exactly that structure. *)
Inductive error : Type :=
  | Sentinel (name : string)
  | Errorf (msg : string)
  | Wrapf (msg : string) (inner : error).

#[export] Instance error_eq_dec : EqDecision error.
Proof. solve_decision. Defined.

(** [errors.Is(err, target)]: walk the wrap chain. *)
Fixpoint errors_Is (e target : error) : bool :=
  bool_decide (e = target) ||
  match e with Wrapf _ inner => errors_Is inner target | _ => false end.

Inductive res (A : Type) : Type :=
  | Ok (a : A)
  | Err (e : error).
Arguments Ok {A} a.
Arguments Err {A} e.

#[export] Instance res_eq_dec {A} `{EqDecision A} : EqDecision (res A).
Proof. solve_decision. Defined.

#[export] Instance res_ret : MRet res := fun A => @Ok A.
#[export] Instance res_bind : MBind res := fun A B f r =>
  match r with Ok a => f a | Err e => Err e end.
#[export] Instance res_fmap : FMap res := fun A B f r =>
  match r with Ok a => Ok (f a) | Err e => Err e end.

Definition is_Ok {A} (r : res A) : bool := match r with Ok _ => true | Err _ => false end.

(** ** A state monad with errors as values

    A Go method on a shared object is a function from the object's state to
    a result and the new state; an error does not undo the state change. *)
Definition M (S A : Type) : Type := S -> res A * S.

#[export] Instance M_ret {S} : MRet (M S) := fun A a s => (Ok a, s).
#[export] Instance M_bind {S} : MBind (M S) := fun A B f m s =>
  match m s with
  | (Ok a, s') => f a s'
  | (Err e, s') => (Err e, s')
  end.

Definition fail {S A} (e : error) : M S A := fun s => (Err e, s).
(** Run [m] and hand its result, error or not, to the continuation: the
    shape [x, err := m(); if err != nil { ... }]. *)
Definition attempt {S A} (m : M S A) : M S (res A) := fun s =>
  let '(r, s') := m s in (Ok r, s').
(** [m()] with its error wrapped by [fmt.Errorf(msg + ": %w", err)]. *)
Definition wrap_err {S A} (msg : string) (m : M S A) : M S A := fun s =>
  match m s with
  | (Ok a, s') => (Ok a, s')
  | (Err e, s') => (Err (Wrapf msg e), s')
  end.

Section monad_lemmas.
Context {S A B : Type}.
Implicit Types (m : M S A) (s : S).

Lemma M_bind_ok m (f : A -> M S B) s a s' : m s = (Ok a, s') -> (m ≫= f) s = f a s'.
Proof. intros E. unfold mbind, M_bind. by rewrite E. Qed.

Lemma M_bind_err m (f : A -> M S B) s e s' : m s = (Err e, s') -> (m ≫= f) s = (Err e, s').
Proof. intros E. unfold mbind, M_bind. by rewrite E. Qed.

Lemma wrap_err_ok msg m s a s' : m s = (Ok a, s') -> wrap_err msg m s = (Ok a, s').
Proof. intros E. unfold wrap_err. by rewrite E. Qed.

Lemma wrap_err_err msg m s e s' : m s = (Err e, s') -> wrap_err msg m s = (Err (Wrapf msg e), s').
Proof. intros E. unfold wrap_err. by rewrite E. Qed.

Lemma attempt_run m s r s' : m s = (r, s') -> attempt m s = (Ok r, s').
Proof. intros E. unfold attempt. by rewrite E. Qed.
End monad_lemmas.

(** Run the first statement of a sequence, given what it returns. *)
Ltac step_ok E := rewrite (M_bind_ok _ _ _ _ _ E).

(** ** Machine integers *)
Definition wrapU (w : Z) (z : Z) : Z := z `mod` 2 ^ w.
Definition wrapS (w : Z) (z : Z) : Z := (z + 2 ^ (w - 1)) `mod` 2 ^ w - 2 ^ (w - 1).

Lemma wrapU_range w z : (0 <= w)%Z -> (0 <= wrapU w z < 2 ^ w)%Z.
Proof. intros. apply Z.mod_pos_bound. by apply Z.pow_pos_nonneg. Qed.

Lemma wrapU_small w z : (0 <= z < 2 ^ w)%Z -> wrapU w z = z.
Proof. apply Z.mod_small. Qed.

Lemma wrapS_small w z :
  (0 < w)%Z -> (- 2 ^ (w - 1) <= z < 2 ^ (w - 1))%Z -> wrapS w z = z.
Proof.
  intros Hw Hz. unfold wrapS.
  assert (2 ^ w = 2 * 2 ^ (w - 1))%Z as E.
  { rewrite <- Z.pow_succ_r by lia. f_equal. lia. }
  rewrite Z.mod_small; lia.
Qed.

(** ** Tactics shared by the components *)
Ltac split_and_all := repeat match goal with |- _ /\ _ => split end.
(** Turn every [Forall] hypothesis into its element-wise form. *)
Ltac elementwise := repeat match goal with H : Forall _ _ |- _ => rewrite Forall_forall in H end.
(** Case split on every [bool_decide]/[decide]/[match] in the goal. *)
Ltac cases := repeat (case_match || case_bool_decide); simplify_eq/=.

(** ** Lists *)
Section list_lemmas.
Context {A B : Type}.
Implicit Types l : list A.

Lemma take_app_exact (l k : list A) : take (length l) (l ++ k) = l.
Proof. by rewrite take_app_length. Qed.

Lemma drop_app_exact (l k : list A) : drop (length l) (l ++ k) = k.
Proof. by rewrite drop_app_length. Qed.

Lemma filter_all (P : A -> Prop) `{!forall x, Decision (P x)} l :
  Forall P l -> filter P l = l.
Proof.
  induction 1 as [|x l Hx _ IH]; [done|]. by rewrite filter_cons_True, IH.
Qed.

Lemma filter_none (P : A -> Prop) `{!forall x, Decision (P x)} l :
  Forall (fun x => ~ P x) l -> filter P l = [].
Proof.
  induction 1 as [|x l Hx _ IH]; [done|]. by rewrite filter_cons_False.
Qed.

Lemma filter_ext_elem (P Q : A -> Prop) `{!forall x, Decision (P x)} `{!forall x, Decision (Q x)} l :
  (forall x, x ∈ l -> P x <-> Q x) -> filter P l = filter Q l.
Proof.
  induction l as [|x l IH]; intros HPQ; [done|]. rewrite !filter_cons.
  rewrite IH by (intros y Hy; apply HPQ; by right).
  pose proof (HPQ x ltac:(by left)). by repeat case_decide; try tauto.
Qed.

Lemma filter_idemp (P : A -> Prop) `{!forall x, Decision (P x)} l :
  filter P (filter P l) = filter P l.
Proof.
  apply filter_all, Forall_forall. intros x Hx.
  by apply list_elem_of_filter in Hx as [? _].
Qed.

Lemma NoDup_fmap_filter (f : A -> B) (P : A -> Prop) `{!forall x, Decision (P x)} l :
  NoDup (f <$> l) -> NoDup (f <$> filter P l).
Proof.
  induction l as [|x l IH]; [done|]. rewrite fmap_cons, NoDup_cons. intros [Hx Hl].
  rewrite filter_cons. case_decide; [|by apply IH].
  rewrite fmap_cons, NoDup_cons. split; [|by apply IH].
  rewrite list_elem_of_fmap in *. intros (y & Ey & Hy). apply Hx.
  apply list_elem_of_filter in Hy as [_ Hy]. eauto.
Qed.

Lemma NoDup_fmap_inj_elem (f : A -> B) l x y :
  NoDup (f <$> l) -> x ∈ l -> y ∈ l -> f x = f y -> x = y.
Proof.
  intros Hnd Hx Hy E. induction l as [|z l IH]; [by apply not_elem_of_nil in Hx|].
  rewrite fmap_cons, NoDup_cons in Hnd. destruct Hnd as [Hz Hnd].
  rewrite list_elem_of_fmap in Hz.
  apply elem_of_cons in Hx as [->|Hx]; apply elem_of_cons in Hy as [->|Hy]; auto.
  - exfalso. apply Hz. exists y. auto.
  - exfalso. apply Hz. exists x. auto.
Qed.
End list_lemmas.

(** ** Go strings

    A Go string is a sequence of bytes; [string] is a sequence of 8-bit
    characters.  [to_lower] and [trim_space] act on the ASCII range (see the
    header for what this leaves out). *)
Declare Scope go_scope.
Delimit Scope go_scope with go.

Definition slen (s : string) : Z := Z.of_nat (String.length s).

Definition string_of_list (l : list Ascii.ascii) : string := String.string_of_list_ascii l.
Definition list_of_string (s : string) : list Ascii.ascii := String.list_ascii_of_string s.

Definition ascii_Z (c : Ascii.ascii) : Z := Z.of_N (Ascii.N_of_ascii c).

Definition HasPrefix (s pre : string) : bool := String.prefix pre s.

(** [s[:n]] and [s[n:]]; both panic in Go when [n > len(s)], so callers
    guard them as the source does. *)
Definition slice_to (s : string) (n : nat) : string := string_of_list (take n (list_of_string s)).
Definition slice_from (s : string) (n : nat) : string := string_of_list (drop n (list_of_string s)).

Definition HasSuffix (s suf : string) : bool :=
  (String.length suf <=? String.length s) &&
  bool_decide (slice_from s (String.length s - String.length suf) = suf).

Definition TrimSuffix (s suf : string) : string :=
  if HasSuffix s suf then slice_to s (String.length s - String.length suf) else s.

Definition lower_ascii (c : Ascii.ascii) : Ascii.ascii :=
  let n := Ascii.N_of_ascii c in
  if ((65 <=? n) && (n <=? 90))%N then Ascii.ascii_of_N (n + 32) else c.

Fixpoint ToLower (s : string) : string :=
  match s with
  | EmptyString => EmptyString
  | String c s' => String (lower_ascii c) (ToLower s')
  end.

(** strings.EqualFold on ASCII. *)
Definition EqualFold (s t : string) : bool := bool_decide (ToLower s = ToLower t).

Definition is_space (c : Ascii.ascii) : bool :=
  let n := Ascii.N_of_ascii c in
  ((n =? 32) || ((9 <=? n) && (n <=? 13)))%N.

Fixpoint drop_while {A} (p : A -> bool) (l : list A) : list A :=
  match l with
  | [] => []
  | x :: l' => if p x then drop_while p l' else l
  end.

Definition trim_right (p : Ascii.ascii -> bool) (s : string) : string :=
  string_of_list (reverse (drop_while p (reverse (list_of_string s)))).
Definition trim_left (p : Ascii.ascii -> bool) (s : string) : string :=
  string_of_list (drop_while p (list_of_string s)).
Definition TrimSpace (s : string) : string := trim_right is_space (trim_left is_space s).

(** strings.Index / LastIndex of a one-byte separator. *)
Fixpoint index_from (c : Ascii.ascii) (l : list Ascii.ascii) (i : nat) : option nat :=
  match l with
  | [] => None
  | x :: l' => if Ascii.eqb x c then Some i else index_from c l' (S i)
  end.
Definition IndexByte (s : string) (c : Ascii.ascii) : option nat :=
  index_from c (list_of_string s) 0.
Definition LastIndexByte (s : string) (c : Ascii.ascii) : option nat :=
  (fun i => String.length s - 1 - i) <$> index_from c (reverse (list_of_string s)) 0.

(** Lexicographic order on bytes: Go's [<] on strings, SQLite's BINARY
    collation. *)
Fixpoint string_le (s t : string) : bool :=
  match s, t with
  | EmptyString, _ => true
  | String _ _, EmptyString => false
  | String a s', String b t' =>
      if (Ascii.N_of_ascii a <? Ascii.N_of_ascii b)%N then true
      else if (Ascii.N_of_ascii b <? Ascii.N_of_ascii a)%N then false
      else string_le s' t'
  end.

Lemma string_of_list_of_string s : string_of_list (list_of_string s) = s.
Proof. apply String.string_of_list_ascii_of_string. Qed.
Lemma list_of_string_of_list l : list_of_string (string_of_list l) = l.
Proof. apply String.list_ascii_of_string_of_list_ascii. Qed.

Lemma length_list_of_string s : length (list_of_string s) = String.length s.
Proof. induction s as [|c s IH]; [done|]. simpl. f_equal. exact IH. Qed.

Lemma list_of_string_inj s t : list_of_string s = list_of_string t -> s = t.
Proof.
  intros E. rewrite <- (string_of_list_of_string s), <- (string_of_list_of_string t).
  by rewrite E.
Qed.

Lemma list_of_string_app s t :
  list_of_string (s +:+ t) = list_of_string s ++ list_of_string t.
Proof. induction s as [|c s IH]; [done|]. apply (f_equal (cons c)), IH. Qed.

Lemma string_of_list_app l k :
  string_of_list (l ++ k) = string_of_list l +:+ string_of_list k.
Proof.
  apply list_of_string_inj. by rewrite list_of_string_app, !list_of_string_of_list.
Qed.

Lemma string_app_nil_r s : s +:+ "" = s.
Proof. induction s as [|c s IH]; [done|]. apply (f_equal (String c)), IH. Qed.

Lemma string_app_assoc s t u : (s +:+ t) +:+ u = s +:+ (t +:+ u).
Proof. induction s as [|c s IH]; [done|]. apply (f_equal (String c)), IH. Qed.

Lemma HasPrefix_app s t : HasPrefix (s +:+ t) s = true.
Proof.
  unfold HasPrefix. induction s as [|c s IH]; simpl; [by destruct t|].
  by destruct (Ascii.ascii_dec c c).
Qed.

Lemma HasPrefix_spec s pre : HasPrefix s pre = true <-> exists t, s = pre +:+ t.
Proof.
  split; [|intros [t ->]; apply HasPrefix_app].
  unfold HasPrefix. revert s. induction pre as [|c pre IH]; intros s H; [by exists s|].
  destruct s as [|d s]; simpl in H; [done|].
  destruct (Ascii.ascii_dec c d) as [->|]; [|done].
  destruct (IH s H) as [t ->]. by exists t.
Qed.

Lemma lower_ascii_idemp c : lower_ascii (lower_ascii c) = lower_ascii c.
Proof. destruct c as [[] [] [] [] [] [] [] []]; reflexivity. Qed.

Lemma ToLower_idemp s : ToLower (ToLower s) = ToLower s.
Proof. induction s as [|c s IH]; [done|]. simpl. by rewrite lower_ascii_idemp, IH. Qed.

Lemma string_le_refl s : string_le s s = true.
Proof. induction s as [|c s IH]; [done|]. simpl. by rewrite N.ltb_irrefl. Qed.

Lemma string_le_total s t : string_le s t = true \/ string_le t s = true.
Proof.
  revert t. induction s as [|a s IH]; intros t; [by left|].
  destruct t as [|b t]; [by right|]. simpl.
  destruct (N.ltb_spec (Ascii.N_of_ascii a) (Ascii.N_of_ascii b)) as [|?]; [by left|].
  destruct (N.ltb_spec (Ascii.N_of_ascii b) (Ascii.N_of_ascii a)); [by right|]. apply IH.
Qed.

Lemma string_le_antisym s t : string_le s t = true -> string_le t s = true -> s = t.
Proof.
  revert t. induction s as [|a s IH]; intros [|b t]; simpl; try done.
  destruct (N.ltb_spec (N_of_ascii a) (N_of_ascii b)), (N.ltb_spec (N_of_ascii b) (N_of_ascii a)); try done; [lia|].
  intros H1 H2. rewrite (IH t H1 H2). f_equal.
  rewrite <- (ascii_N_embedding a), <- (ascii_N_embedding b). f_equal. lia.
Qed.

Lemma string_le_trans s t u :
  string_le s t = true -> string_le t u = true -> string_le s u = true.
Proof.
  revert t u. induction s as [|a s IH]; intros [|b t] [|c u]; simpl; try done.
  destruct (N.ltb_spec (Ascii.N_of_ascii a) (Ascii.N_of_ascii b)),
    (N.ltb_spec (Ascii.N_of_ascii b) (Ascii.N_of_ascii c)),
    (N.ltb_spec (Ascii.N_of_ascii b) (Ascii.N_of_ascii a)),
    (N.ltb_spec (Ascii.N_of_ascii c) (Ascii.N_of_ascii b)),
    (N.ltb_spec (Ascii.N_of_ascii a) (Ascii.N_of_ascii c)),
    (N.ltb_spec (Ascii.N_of_ascii c) (Ascii.N_of_ascii a)); try done; try lia.
  apply IH.
Qed.

(** Decimal rendering of non-negative and negative integers ([%d]). *)
Definition digit (d : Z) : Ascii.ascii := Ascii.ascii_of_N (Z.to_N (48 + d)).
Fixpoint dec_aux (fuel : nat) (z : Z) (acc : string) : string :=
  match fuel with
  | O => acc
  | S f => let acc' := String (digit (z `mod` 10)) acc in
           if (z `div` 10 =? 0)%Z then acc' else dec_aux f (z `div` 10) acc'
  end.
(** [Z.log2 z + 1] digits are always enough. *)
Definition decimal (z : Z) : string :=
  if (z <? 0)%Z then String "-"%char (dec_aux (S (Z.to_nat (Z.log2 (- z)))) (- z) "")
  else dec_aux (S (Z.to_nat (Z.log2 z))) z "".

(** [strconv.ParseInt] in base 10 and 64 bits: an optional sign, digits, and
    no value out of range. *)
Definition digit_of (c : Ascii.ascii) : option Z :=
  let n := ascii_Z c in if decide (48 <= n <= 57)%Z then Some (n - 48)%Z else None.
Definition ParseInt (s : string) : option Z :=
  let digits := fold_left (fun acc c => match acc, digit_of c with
                                         | Some v, Some d => Some (10 * v + d)%Z
                                         | _, _ => None
                                         end) in
  let '(neg, l) := match list_of_string s with
    | "-"%char :: l => (true, l)
    | "+"%char :: l => (false, l)
    | l => (false, l)
    end in
  match l with
  | [] => None
  | _ => match digits l (Some 0%Z) with
         | Some v => let v := if neg : bool then (- v)%Z else v in
                     if decide (- 2 ^ 63 <= v < 2 ^ 63)%Z then Some v else None
         | None => None
         end
  end.

Lemma digit_of_digit d : (0 <= d < 10)%Z -> digit_of (digit d) = Some d.
Proof.
  intros Hd. unfold digit_of, ascii_Z, digit. rewrite N_ascii_embedding by lia.
  case_decide; [f_equal|]; lia.
Qed.

Lemma index_from_app c l k n :
  Forall (fun x => x <> c) l -> index_from c (l ++ c :: k) n = Some (n + length l).
Proof.
  revert n. induction l as [|x l IH]; intros n Hf; simpl.
  - rewrite Ascii.eqb_refl. f_equal. lia.
  - apply Forall_cons in Hf as [Hx Hf]. destruct (Ascii.eqb_spec x c); [done|]. rewrite IH by done. f_equal. lia.
Qed.

Lemma index_from_Some c l n i :
  index_from c l n = Some i ->
  exists j, i = n + j /\ Forall (fun x => x <> c) (take j l) /\ exists k, l = take j l ++ c :: k.
Proof.
  revert n. induction l as [|x l IH]; intros n H; simpl in H; [done|].
  destruct (Ascii.eqb_spec x c) as [->|].
  - injection H as <-. exists 0. split; [lia|]. split; [by constructor|]. by exists l.
  - apply IH in H as (j & -> & Hf & k & E). exists (S j). split; [lia|]. split; [by constructor|].
    exists k. simpl. by rewrite <- E.
Qed.

Lemma index_from_None c l n : Forall (fun x => x <> c) l -> index_from c l n = None.
Proof.
  intros H. destruct (index_from c l n) as [i|] eqn:E; [|done].
  apply index_from_Some in E as (j & _ & _ & k & E). rewrite E in H.
  apply Forall_app in H as [_ H]. by apply Forall_cons in H as [? _].
Qed.

(** A byte that does not occur. *)
Definition free_of (c : Ascii.ascii) (s : string) : Prop := Forall (fun x => x <> c) (list_of_string s).

Lemma free_of_app c s t : free_of c (s +:+ t) <-> free_of c s /\ free_of c t.
Proof. unfold free_of. by rewrite list_of_string_app, Forall_app. Qed.

Lemma LastIndexByte_None c s : free_of c s -> LastIndexByte s c = None.
Proof. intros H. unfold LastIndexByte. rewrite index_from_None; [done|]. by apply Forall_reverse. Qed.

Lemma length_string_app s t : String.length (s +:+ t) = String.length s + String.length t.
Proof. rewrite <- !length_list_of_string, list_of_string_app. apply length_app. Qed.

Lemma LastIndexByte_last c s t : free_of c t -> LastIndexByte (s +:+ String c t) c = Some (String.length s).
Proof.
  intros H. unfold LastIndexByte. rewrite list_of_string_app. simpl. rewrite reverse_app, reverse_cons.
  rewrite <- app_assoc. simpl. rewrite index_from_app by by apply Forall_reverse.
  rewrite length_reverse, length_string_app, length_list_of_string. simpl. f_equal. lia.
Qed.

Lemma LastIndexByte_Some c s i :
  LastIndexByte s c = Some i -> exists a b, s = a +:+ String c b /\ free_of c b /\ i = String.length a.
Proof.
  intros E. pose proof E as E0. unfold LastIndexByte in E. apply fmap_Some in E as (j & E & ->).
  apply index_from_Some in E as (k & -> & Hf & r & E).
  assert (free_of c (string_of_list (reverse (take k (reverse (list_of_string s)))))) as Hl.
  { unfold free_of. rewrite list_of_string_of_list. by apply Forall_reverse. }
  remember (reverse (take k (reverse (list_of_string s)))) as u eqn:Eu.
  assert (s = string_of_list (reverse r) +:+ String c (string_of_list u)) as Es.
  { apply list_of_string_inj. rewrite list_of_string_app. simpl. rewrite !list_of_string_of_list, Eu.
    apply (f_equal reverse) in E. rewrite reverse_involutive, reverse_app, reverse_cons, <- app_assoc in E.
    exact E. }
  exists (string_of_list (reverse r)), (string_of_list u). split_and_all; [done..|].
  rewrite Es, (LastIndexByte_last c _ _ Hl) in E0. rewrite Es. congruence.
Qed.

Lemma LastIndexByte_lt c s i : LastIndexByte s c = Some i -> i < String.length s.
Proof.
  intros (a & b & -> & _ & ->)%LastIndexByte_Some. rewrite length_string_app. simpl. lia.
Qed.

Lemma LastIndexByte_free c s : LastIndexByte s c = None -> free_of c s.
Proof.
  unfold LastIndexByte, free_of. intros E%fmap_None.
  rewrite <- (reverse_involutive (list_of_string s)). apply Forall_reverse. revert E.
  generalize 0, (reverse (list_of_string s)). intros n l. revert n.
  induction l as [|x l IH]; intros n E; [done|]. simpl in E.
  destruct (Ascii.eqb_spec x c); [done|]. constructor; eauto.
Qed.

(** The last occurrence in [s ++ t] is the last in [s] when [t] has none. *)
Lemma LastIndexByte_app_free c s t : free_of c t -> LastIndexByte (s +:+ t) c = LastIndexByte s c.
Proof.
  intros H. destruct (LastIndexByte s c) as [i|] eqn:E.
  - apply LastIndexByte_Some in E as (a & b & -> & Hb & ->). rewrite string_app_assoc.
    apply LastIndexByte_last, free_of_app. done.
  - apply LastIndexByte_None, free_of_app. split; [by apply LastIndexByte_free|done].
Qed.

Lemma slice_to_app s t : slice_to (s +:+ t) (String.length s) = s.
Proof.
  unfold slice_to. rewrite list_of_string_app, <- (length_list_of_string s), take_app_exact.
  apply string_of_list_of_string.
Qed.
Lemma slice_from_app s t : slice_from (s +:+ t) (String.length s) = t.
Proof.
  unfold slice_from. rewrite list_of_string_app, <- (length_list_of_string s), drop_app_exact.
  apply string_of_list_of_string.
Qed.

(** ** Hints and rewriting of the common cases *)
Create HintDb fangs.
#[export] Hint Rewrite string_of_list_of_string list_of_string_of_list
  list_of_string_app ToLower_idemp string_app_nil_r string_app_assoc : fangs.
#[export] Hint Resolve string_le_refl HasPrefix_app wrapU_range : fangs.
