(* ===== verification/GoTime.v ===== *)
(** * Time

    [time.Time] and [time.Duration] as the source uses them: an instant is a
    number of nanoseconds since the Unix epoch (UTC), a duration a number of
    nanoseconds.  [rfc3339nano] is [t.UTC().Format(time.RFC3339Nano)], the
    text both timestamps and sort keys of the SQLite schema are made of. *)
From Stdlib Require Import Ascii.
From stdpp Require Import prelude strings list.
From S2P Require Import Prelude.
#[local] Open Scope Z_scope.

Definition time : Type := Z.
Definition duration : Type := Z.
Bind Scope Z_scope with time duration.

Definition Nanosecond : duration := 1.
Definition Millisecond : duration := 1000000.
Definition Second : duration := 1000000000.
Definition Minute : duration := 60 * Second.

(** The zero [time.Time] is 0001-01-01T00:00:00Z. *)
Definition zero_time : time := -62135596800 * Second.
Definition IsZero (t : time) : bool := t =? zero_time.

(** Days since the epoch to (year, month, day), proleptic Gregorian. *)
Definition civil_from_days (days : Z) : Z * Z * Z :=
  let z := days + 719468 in
  let era := z / 146097 in
  let doe := z mod 146097 in
  let yoe := (doe - doe / 1460 + doe / 36524 - doe / 146096) / 365 in
  let doy := doe - (365 * yoe + yoe / 4 - yoe / 100) in
  let mp := (5 * doy + 2) / 153 in
  let d := doy - (153 * mp + 2) / 5 + 1 in
  let m := if mp <? 10 then mp + 3 else mp - 9 in
  let y := yoe + era * 400 + (if m <=? 2 then 1 else 0) in
  (y, m, d).

(** Fixed-width decimal. *)
Fixpoint pad (w : nat) (n : Z) : string :=
  match w with
  | O => ""
  | S w' => pad w' (n / 10) +:+ String (digit (n mod 10)) ""
  end.

(** Fractional seconds with trailing zeros removed; nothing for a whole
    second. *)
Definition frac (ns : Z) : string :=
  if ns =? 0 then "" else
  "." +:+ trim_right (fun c => Ascii.eqb c "0"%char) (pad 9 ns).

Definition rfc3339nano (t : time) : string :=
  let secs := t / Second in
  let days := secs / 86400 in
  let sod := secs mod 86400 in
  let '(y, m, d) := civil_from_days days in
  pad 4 y +:+ "-" +:+ pad 2 m +:+ "-" +:+ pad 2 d +:+ "T" +:+
  pad 2 (sod / 3600) +:+ ":" +:+ pad 2 (sod / 60 mod 60) +:+ ":" +:+ pad 2 (sod mod 60) +:+
  frac (t mod Second) +:+ "Z".

Arguments rfc3339nano : simpl never.

Example rfc3339nano_epoch : rfc3339nano 0 = "1970-01-01T00:00:00Z".
Proof. reflexivity. Qed.
Example rfc3339nano_frac :
  rfc3339nano (1779471600 * Second + 120000000) = "2026-05-22T17:40:00.12Z".
Proof. vm_compute. reflexivity. Qed.
Example rfc3339nano_zero : rfc3339nano zero_time = "0001-01-01T00:00:00Z".
Proof. vm_compute. reflexivity. Qed.

(** The textual order the SQLite backend sorts by. *)
Definition text_le (t u : time) : Prop := string_le (rfc3339nano t) (rfc3339nano u) = true.
#[export] Instance text_le_dec t u : Decision (text_le t u).
Proof. unfold text_le. apply _. Defined.
