(* ===== verification/TimeText.v ===== *)
(** * Timestamps as text

    [time.Parse(time.RFC3339Nano, s)] of the Go library, which reads back the
    TEXT timestamps of the SQLite schema, and its inverse relation with
    [GoTime.rfc3339nano]: the calendar arithmetic of the two directions, the
    digit fields, and the fraction whose trailing zeros are dropped. *)
From Stdlib Require Import Ascii.
From stdpp Require Import prelude strings list.
From S2P Require Import Prelude GoTime.
#[local] Open Scope Z_scope.

Module TimeText.

(** ** The calendar *)
Definition is_leap (y : Z) : bool :=
  (y mod 4 =? 0) && (negb (y mod 100 =? 0) || (y mod 400 =? 0)).

Definition daysIn (m y : Z) : Z :=
  if m =? 2 then (if is_leap y then 29 else 28)
  else if bool_decide (m ∈ [4; 6; 9; 11]) then 30 else 31.

(** Days since the epoch of a date; years are counted from March. *)
Definition days_from_civil (y m d : Z) : Z :=
  let y := if m <=? 2 then y - 1 else y in
  let yoe := y mod 400 in
  let doy := (153 * (if m <=? 2 then m + 9 else m - 3) + 2) / 5 + d - 1 in
  y / 400 * 146097 + (yoe * 365 + yoe / 4 - yoe / 100 + doy) - 719468.

(** ** The parser *)
Definition isDigit (c : ascii) : bool := bool_decide (is_Some (digit_of c)).

(** A literal character of the layout. *)
Definition skip (x : ascii) (s : string) : option string :=
  match s with
  | String c s' => if Ascii.eqb c x then Some s' else None
  | EmptyString => None
  end.

(** [getnum]: two digits, or one when the field may be short. *)
Definition getnum (fixed : bool) (s : string) : option (Z * string) :=
  match s with
  | String a s' =>
      match digit_of a with
      | None => None
      | Some x =>
          match s' with
          | String b s'' =>
              match digit_of b with
              | Some y => Some (10 * x + y, s'')
              | None => if fixed then None else Some (x, s')
              end
          | EmptyString => if fixed then None else Some (x, s')
          end
      end
  | EmptyString => None
  end.

(** A field followed by its range check. *)
Definition field (fixed : bool) (lo hi : Z) (s : string) : option (Z * string) :=
  match getnum fixed s with
  | Some (n, s') => if (lo <=? n) && (n <=? hi) then Some (n, s') else None
  | None => None
  end.

Definition year_field (s : string) : option (Z * string) :=
  match s with
  | String a (String b (String c (String d s'))) =>
      match digit_of a, digit_of b, digit_of c, digit_of d with
      | Some w, Some x, Some y, Some z => Some (1000 * w + 100 * x + 10 * y + z, s')
      | _, _, _, _ => None
      end
  | _ => None
  end.

Fixpoint take_digits (s : string) : list Z * string :=
  match s with
  | String c s' => match digit_of c with
                   | Some d => let '(l, r) := take_digits s' in (d :: l, r)
                   | None => ([], s)
                   end
  | EmptyString => ([], s)
  end.

Definition value (l : list Z) : Z := foldl (fun a d => 10 * a + d) 0 l.

(** [parseNanoseconds]: at most nine digits count. *)
Definition nanos (l : list Z) : Z :=
  value (take 9 l) * 10 ^ (9 - Z.of_nat (length (take 9 l))).

(** The fraction is optional, begins with a period or a comma, and needs a
    digit. *)
Definition fraction (s : string) : Z * string :=
  match s with
  | String p (String c _ as s') =>
      if (Ascii.eqb p "." || Ascii.eqb p ",") && isDigit c
      then let '(l, r) := take_digits s' in (nanos l, r)
      else (0, s)
  | _ => (0, s)
  end.

(** [Z], or a signed offset [hh:mm]; the result is in seconds. *)
Definition zone (s : string) : option (Z * string) :=
  match s with
  | String c s' =>
      if Ascii.eqb c "Z" then Some (0, s')
      else
        '(hr, s1) ← field true 0 24 s';
        s2 ← skip ":" s1;
        '(mm, s3) ← field true 0 60 s2;
        let off := (hr * 60 + mm) * 60 in
        if Ascii.eqb c "+" then Some (off, s3)
        else if Ascii.eqb c "-" then Some (- off, s3) else None
  | EmptyString => None
  end.

Definition Parse (s : string) : option time :=
  '(y, s) ← year_field s;
  s ← skip "-" s;
  '(m, s) ← field true 1 12 s;
  s ← skip "-" s;
  '(d, s) ← getnum true s;
  s ← skip "T" s;
  '(hh, s) ← field false 0 23 s;
  s ← skip ":" s;
  '(mi, s) ← field true 0 59 s;
  s ← skip ":" s;
  '(ss, s) ← field true 0 59 s;
  let '(ns, s) := fraction s in
  '(off, s) ← zone s;
  if bool_decide (s = "") && (1 <=? d) && (d <=? daysIn m y)
  then Some ((days_from_civil y m d * 86400 + hh * 3600 + mi * 60 + ss - off) * Second + ns)
  else None.

Example Parse_zone : Parse "2026-05-22T19:40:00.12+02:00" = Some (1779471600 * Second + 120000000).
Proof. vm_compute. reflexivity. Qed.
Example Parse_feb29 : Parse "2026-02-29T00:00:00Z" = None.
Proof. vm_compute. reflexivity. Qed.
Example Parse_short_hour : Parse "1970-01-01T7:00:00,5Z" = Some (25200 * Second + 500000000).
Proof. vm_compute. reflexivity. Qed.
Example Parse_trailing : Parse "1970-01-01T00:00:00Z " = None.
Proof. vm_compute. reflexivity. Qed.

(** The instants whose year has four digits: what RFC 3339 can write. *)
Definition storable (t : time) : bool :=
  let '(y, _, _) := civil_from_days (t / Second / 86400) in (0 <=? y) && (y <=? 9999).

(** ** Dates: the two directions of the calendar *)
Definition year_of (doe : Z) : Z := (doe - doe / 1460 + doe / 36524 - doe / 146096) / 365.
Definition year_start (k : Z) : Z := 365 * k + k / 4 - k / 100.
Definition year_end (k : Z) : Z := year_start k + (if is_leap (k + 1) then 365 else 364).

Lemma year_of_mono a b : 0 <= a <= b -> b < 146097 -> year_of a <= year_of b.
Proof.
  intros Hab Hb. apply Z.div_le_mono; [lia|].
  assert (a - a / 1460 <= b - b / 1460) by (Z.div_mod_to_equations; lia).
  assert (a / 36524 - a / 146096 <= b / 36524 - b / 146096); [|lia].
  destruct (decide (b = 146096)) as [->|]; [|rewrite (Z.div_small a 146096), (Z.div_small b 146096) by lia;
    pose proof (Z.div_le_mono a b 36524); lia].
  change (146096 / 36524) with 4. change (146096 / 146096) with 1.
  destruct (decide (a = 146096)) as [->|]; [done|]. rewrite (Z.div_small a 146096) by lia.
  pose proof (Z.div_lt_upper_bound a 36524 4). lia.
Qed.

(** The 400 years of a cycle, checked one by one. *)
Definition year_ok (k : Z) : bool :=
  (year_of (year_start k) =? k) && (year_of (year_end k) =? k) &&
  (if k =? 0 then year_start k =? 0 else year_end (k - 1) + 1 =? year_start k).
Lemma years_ok : forallb year_ok (seqZ 0 400) = true.
Proof. vm_compute. reflexivity. Qed.

Lemma year_spec k : 0 <= k < 400 ->
  year_of (year_start k) = k /\ year_of (year_end k) = k /\
  (k = 0 -> year_start k = 0) /\ (0 < k -> year_end (k - 1) + 1 = year_start k).
Proof.
  intros Hk. pose proof years_ok as H. rewrite forallb_forall in H.
  specialize (H k). rewrite <- list_elem_of_In, elem_of_seqZ in H. specialize (H ltac:(lia)).
  unfold year_ok in H. rewrite !andb_true_iff, !Z.eqb_eq in H. destruct H as [[H1 H2] H3].
  repeat split; [done|done| |]; intros H0; destruct (Z.eqb_spec k 0); lia.
Qed.

Lemma year_of_bounds doe : 0 <= doe < 146097 -> 0 <= year_of doe < 400.
Proof.
  intros Hd. pose proof (year_of_mono 0 doe ltac:(lia) ltac:(lia)).
  pose proof (year_of_mono doe 146096 ltac:(lia) ltac:(lia)).
  change (year_of 0) with 0 in *. change (year_of 146096) with 399 in *. lia.
Qed.

Lemma year_start_lt k : 0 <= k < 400 -> 0 <= year_start k < 146097.
Proof. intros Hk. unfold year_start. Z.div_mod_to_equations. lia. Qed.

Lemma year_of_spec doe : 0 <= doe < 146097 ->
  year_start (year_of doe) <= doe <= year_end (year_of doe).
Proof.
  intros Hd. pose proof (year_of_bounds doe Hd) as Hk.
  destruct (year_spec _ Hk) as (Hs & He & H0 & Hp). split.
  - destruct (Z.le_gt_cases (year_start (year_of doe)) doe) as [|Hlt]; [done|].
    destruct (decide (year_of doe = 0)) as [E|]; [specialize (H0 E); lia|].
    specialize (Hp ltac:(lia)). destruct (year_spec (year_of doe - 1) ltac:(lia)) as (_ & He' & _).
    pose proof (year_start_lt (year_of doe) Hk).
    pose proof (year_of_mono doe (year_end (year_of doe - 1)) ltac:(lia)). lia.
  - destruct (Z.le_gt_cases doe (year_end (year_of doe))) as [|Hlt]; [done|].
    destruct (decide (year_of doe = 399)) as [E|].
    { rewrite E in Hlt. change (year_end 399) with 146096 in Hlt. lia. }
    destruct (year_spec (year_of doe + 1) ltac:(lia)) as (Hs' & _ & _ & Hn).
    specialize (Hn ltac:(lia)). replace (year_of doe + 1 - 1) with (year_of doe) in Hn by lia.
    pose proof (year_start_lt (year_of doe + 1)). pose proof (year_of_mono (year_start (year_of doe + 1)) doe). lia.
Qed.

(** The 366 days of a year that starts in March. *)
Definition month_of (doy : Z) : Z := let mp := (5 * doy + 2) / 153 in if mp <? 10 then mp + 3 else mp - 9.
Definition day_of (doy : Z) : Z := doy - (153 * ((5 * doy + 2) / 153) + 2) / 5 + 1.
Definition day_ok (doy : Z) : bool :=
  let m := month_of doy in let d := day_of doy in
  (1 <=? m) && (m <=? 12) && (1 <=? d) &&
  (d <=? (if m =? 2 then (if doy =? 365 then 29 else 28) else daysIn m 0)) &&
  ((153 * (if m <=? 2 then m + 9 else m - 3) + 2) / 5 + d - 1 =? doy).
Lemma days_ok : forallb day_ok (seqZ 0 366) = true.
Proof. vm_compute. reflexivity. Qed.

Lemma is_leap_shift y k : is_leap (y + k * 400) = is_leap y.
Proof.
  unfold is_leap. replace (y + k * 400) with (y + k * 100 * 4) at 1 by lia.
  replace (y + k * 400) with (y + k * 4 * 100) at 1 by lia. by rewrite !Z.mod_add.
Qed.

Lemma day_spec doy : 0 <= doy < 366 ->
  let m := month_of doy in let d := day_of doy in
  1 <= m <= 12 /\ 1 <= d /\
  (forall y, (doy = 365 -> is_leap y = true) -> d <= daysIn m y) /\
  (153 * (if m <=? 2 then m + 9 else m - 3) + 2) / 5 + d - 1 = doy.
Proof.
  intros Hd m d. pose proof days_ok as H. rewrite forallb_forall in H.
  specialize (H doy). rewrite <- list_elem_of_In, elem_of_seqZ in H. specialize (H ltac:(lia)).
  unfold day_ok in H. fold m d in H. rewrite !andb_true_iff, !Z.leb_le, Z.eqb_eq in H.
  destruct H as [[[[H1 H2] H3] H4] H5]. repeat split; [done..| |done].
  intros y Hy. unfold daysIn in *. destruct (m =? 2); [|done].
  destruct (Z.eqb_spec doy 365) as [E|]; [by rewrite (Hy E)|]. destruct (is_leap y); lia.
Qed.

Theorem civil_from_days_spec days :
  let '(y, m, d) := civil_from_days days in
  1 <= m <= 12 /\ 1 <= d <= daysIn m y /\ days_from_civil y m d = days.
Proof.
  unfold civil_from_days. set (z := days + 719468). set (era := z / 146097). set (doe := z mod 146097).
  fold (year_of doe). set (yoe := year_of doe).
  assert (Hdoe : 0 <= doe < 146097) by (apply Z.mod_pos_bound; lia).
  pose proof (year_of_bounds doe Hdoe) as Hy. pose proof (year_of_spec doe Hdoe) as Hspec.
  fold yoe in Hy, Hspec. set (doy := doe - (365 * yoe + yoe / 4 - yoe / 100)).
  assert (Hdoy : doy = doe - year_start yoe) by (unfold doy, year_start; lia).
  assert (Hleap : doy = 365 -> is_leap (yoe + 1) = true).
  { unfold year_end in Hspec. destruct (is_leap (yoe + 1)); lia. }
  assert (Hr : 0 <= doy < 366) by (unfold year_end in Hspec; destruct (is_leap (yoe + 1)); lia).
  destruct (day_spec doy Hr) as (Hm & Hd & Hin & Hinv).
  change (if (5 * doy + 2) / 153 <? 10 then (5 * doy + 2) / 153 + 3 else (5 * doy + 2) / 153 - 9)
    with (month_of doy).
  change (doy - (153 * ((5 * doy + 2) / 153) + 2) / 5 + 1) with (day_of doy).
  split; [done|]. split; [split; [done|]|].
  - apply Hin. intros E. destruct (Z.leb_spec (month_of doy) 2) as [_|Hgt]; [|by rewrite E in Hgt].
    replace (yoe + era * 400 + 1) with (yoe + 1 + era * 400) by lia. rewrite is_leap_shift. auto.
  - unfold days_from_civil.
    assert (Ey : (if month_of doy <=? 2 then yoe + era * 400 + (if month_of doy <=? 2 then 1 else 0) - 1
       else yoe + era * 400 + (if month_of doy <=? 2 then 1 else 0)) = yoe + era * 400)
      by (destruct (month_of doy <=? 2); lia).
    rewrite Ey, Z.div_add, Z.mod_add, Z.div_small, Z.mod_small, Hinv by lia.
    pose proof (Z.div_mod z 146097 ltac:(lia)). fold era doe in H. lia.
Qed.

(** ** Digits *)
Fixpoint digits (w : nat) (n : Z) : list Z :=
  match w with
  | O => []
  | S w' => digits w' (n / 10) ++ [n mod 10]
  end.

Lemma length_digits w n : length (digits w n) = w.
Proof. revert n. induction w as [|w IH]; intros n; simpl; [done|]. rewrite length_app, IH. simpl. lia. Qed.

Lemma digits_range w n : Forall (fun d => 0 <= d < 10) (digits w n).
Proof.
  revert n. induction w as [|w IH]; intros n; simpl; [by constructor|].
  apply Forall_app. split; [apply IH|]. constructor; [apply Z.mod_pos_bound; lia|by constructor].
Qed.

Lemma value_snoc l d : value (l ++ [d]) = 10 * value l + d.
Proof. unfold value. by rewrite foldl_app. Qed.

Lemma value_zeros l k : value (l ++ replicate k 0) = value l * 10 ^ Z.of_nat k.
Proof.
  induction k as [|k IH]; [cbn [replicate]; rewrite app_nil_r; change (Z.of_nat 0) with 0; lia|].
  rewrite replicate_S_end, app_assoc, value_snoc, IH.
  rewrite Nat2Z.inj_succ, Z.pow_succ_r by lia. lia.
Qed.

Lemma value_digits w n : 0 <= n < 10 ^ Z.of_nat w -> value (digits w n) = n.
Proof.
  revert n. induction w as [|w IH]; intros n Hn; [change (10 ^ Z.of_nat 0) with 1 in Hn; change (value (digits 0 n)) with 0; lia|].
  rewrite Nat2Z.inj_succ, Z.pow_succ_r in Hn by lia. simpl. rewrite value_snoc, IH.
  - pose proof (Z.div_mod n 10). lia.
  - split; [apply Z.div_pos; lia|apply Z.div_lt_upper_bound; lia].
Qed.

Lemma pad_digits w n : list_of_string (pad w n) = digit <$> digits w n.
Proof.
  revert n. induction w as [|w IH]; intros n; simpl; [done|].
  rewrite list_of_string_app, IH, fmap_app. done.
Qed.

Lemma take_digits_digits l c s :
  Forall (fun d => 0 <= d < 10) l -> digit_of c = None ->
  take_digits (string_of_list (digit <$> l) +:+ String c s) = (l, String c s).
Proof.
  intros Hl Hc. induction Hl as [|d l Hd _ IH].
  - change (take_digits (String c s) = ([], String c s)). simpl. by rewrite Hc.
  - change (take_digits (String (digit d) (string_of_list (digit <$> l) +:+ String c s)) = (d :: l, String c s)).
    simpl. rewrite digit_of_digit by done. by rewrite IH.
Qed.

(** Dropping trailing zeros of a list of digits. *)
Lemma digit_zero d : 0 <= d < 10 -> Ascii.eqb (digit d) "0" = (d =? 0).
Proof.
  intros Hd. assert (Hin : d ∈ seqZ 0 10) by (apply elem_of_seqZ; lia).
  assert (Hall : forallb (fun d => eqb (Ascii.eqb (digit d) "0") (d =? 0)) (seqZ 0 10) = true) by reflexivity.
  rewrite forallb_forall in Hall. apply eqb_prop, Hall. by apply list_elem_of_In.
Qed.

Lemma drop_zeros l :
  Forall (fun d => 0 <= d < 10) l ->
  exists k r, drop_while (fun c => Ascii.eqb c "0") (digit <$> l) = digit <$> r /\ l = replicate k 0 ++ r.
Proof.
  induction 1 as [|d l Hd Hl (k & r & E & ->)]; [by exists 0%nat, []|].
  csimpl. rewrite digit_zero by done. destruct (Z.eqb_spec d 0) as [->|].
  - exists (S k), r. by rewrite E.
  - by exists 0%nat, (d :: replicate k 0 ++ r).
Qed.

Lemma trim_zeros w n : exists k r,
  trim_right (fun c => Ascii.eqb c "0") (pad w n) = string_of_list (digit <$> r) /\
  digits w n = r ++ replicate k 0.
Proof.
  destruct (drop_zeros (reverse (digits w n))) as (k & r & E & Er).
  { apply Forall_reverse, digits_range. }
  exists k, (reverse r). unfold trim_right.
  rewrite pad_digits, <- fmap_reverse, E, <- fmap_reverse. split; [done|].
  rewrite <- (reverse_involutive (digits w n)), Er, reverse_app, reverse_replicate. done.
Qed.

(** ** Fields *)
Lemma digit_mod n : digit_of (digit (n mod 10)) = Some (n mod 10).
Proof. apply digit_of_digit, Z.mod_pos_bound. lia. Qed.

Lemma pad2 n s : pad 2 n +:+ s = String (digit ((n / 10) mod 10)) (String (digit (n mod 10)) s).
Proof. reflexivity. Qed.
Lemma pad4 n s : pad 4 n +:+ s =
  String (digit ((n / 10 / 10 / 10) mod 10)) (String (digit ((n / 10 / 10) mod 10)) (pad 2 n +:+ s)).
Proof. reflexivity. Qed.

Lemma field_pad fixed lo hi n s :
  0 <= n < 100 -> lo <= n <= hi -> field fixed lo hi (pad 2 n +:+ s) = Some (n, s).
Proof.
  intros Hn Hr. rewrite pad2. unfold field, getnum.
  rewrite !digit_mod. replace (10 * ((n / 10) mod 10) + n mod 10) with n.
  - destruct (Z.leb_spec lo n), (Z.leb_spec n hi); [done|lia..].
  - rewrite (Z.mod_small (n / 10)) by (split; [apply Z.div_pos|apply Z.div_lt_upper_bound]; lia).
    pose proof (Z.div_mod n 10). lia.
Qed.

Lemma getnum_pad n s : 0 <= n < 100 -> getnum true (pad 2 n +:+ s) = Some (n, s).
Proof.
  intros Hn. pose proof (field_pad true 0 99 n s Hn ltac:(lia)) as H. unfold field in H.
  destruct (getnum true (pad 2 n +:+ s)) as [[x r]|]; [|done].
  destruct ((0 <=? x) && (x <=? 99)); [done|done].
Qed.

Lemma year_pad n s : 0 <= n <= 9999 -> year_field (pad 4 n +:+ s) = Some (n, s).
Proof.
  intros Hn. rewrite pad4, pad2. unfold year_field. rewrite !digit_mod.
  pose proof (value_digits 4 n ltac:(simpl; lia)) as H. cbn [digits value foldl app] in H.
  f_equal. f_equal. unfold value in H. cbn [foldl app] in H. lia.
Qed.

Lemma fraction_frac ns s : 0 <= ns < Second ->
  fraction (frac ns +:+ String "Z" s) = (ns, String "Z" s).
Proof.
  intros Hns. unfold frac. destruct (Z.eqb_spec ns 0) as [->|Hz].
  { unfold fraction. cbn. by destruct s. }
  destruct (trim_zeros 9 ns) as (k & r & -> & E).
  pose proof (value_digits 9 ns Hns) as Hv. rewrite E, value_zeros in Hv.
  pose proof (length_digits 9 ns) as Hlen. rewrite E, length_app, length_replicate in Hlen.
  pose proof (digits_range 9 ns) as Hr. rewrite E in Hr. apply Forall_app in Hr as [Hr _].
  assert (Hnanos : nanos r = ns).
  { unfold nanos. rewrite take_ge by lia. replace (9 - Z.of_nat (length r)) with (Z.of_nat k) by lia. done. }
  destruct r as [|d r]; [change (value []) with 0 in Hv; lia|]. apply Forall_cons in Hr as Hd. destruct Hd as [Hd _].
  pose proof (take_digits_digits (d :: r) "Z" s Hr eq_refl) as Ht.
  set (rest := string_of_list (digit <$> r) +:+ String "Z" s).
  change (take_digits (String (digit d) rest) = (d :: r, String "Z" s)) in Ht.
  change (fraction (String "." (String (digit d) rest)) = (ns, String "Z" s)).
  unfold fraction. rewrite Ht. unfold isDigit. rewrite digit_of_digit by done.
  rewrite bool_decide_eq_true_2 by done. cbn. by rewrite Hnanos.
Qed.

Lemma skip_hd x s : skip x (String x "" +:+ s) = Some s.
Proof. change (skip x (String x s) = Some s). simpl. by rewrite Ascii.eqb_refl. Qed.

(** The literal between two fields. *)
Ltac next_field := cbn [mbind option_bind]; rewrite skip_hd; cbn [mbind option_bind].

(** Reading back the text of an instant whose year has four digits gives the
    instant, to the nanosecond. *)
Lemma Parse_rfc3339nano t : storable t = true -> Parse (rfc3339nano t) = Some t.
Proof.
  unfold storable, rfc3339nano. pose proof (civil_from_days_spec (t / Second / 86400)) as Hciv.
  destruct (civil_from_days (t / Second / 86400)) as [[y m] d].
  rewrite andb_true_iff, !Z.leb_le. intros Hy. destruct Hciv as (Hm & Hd & Hinv).
  set (sod := (t / Second) mod 86400).
  assert (Hsod : 0 <= sod < 86400) by (apply Z.mod_pos_bound; lia).
  assert (Hh : 0 <= sod / 3600 < 24) by (split; [apply Z.div_pos|apply Z.div_lt_upper_bound]; lia).
  assert (Hmi : 0 <= sod / 60 mod 60 < 60) by (apply Z.mod_pos_bound; lia).
  assert (Hs : 0 <= sod mod 60 < 60) by (apply Z.mod_pos_bound; lia).
  assert (Hdm : daysIn m y <= 31) by (unfold daysIn; destruct (m =? 2), (is_leap y); repeat case_bool_decide; lia).
  unfold Parse. rewrite year_pad by lia. next_field.
  rewrite field_pad by lia. next_field. rewrite getnum_pad by lia. next_field.
  rewrite field_pad by lia. next_field. rewrite field_pad by lia. next_field.
  rewrite field_pad by lia. cbn [mbind option_bind].
  rewrite fraction_frac by (apply Z.mod_pos_bound; done). cbn.
  destruct (Z.leb_spec 1 d), (Z.leb_spec d (daysIn m y)); [|lia..]. cbn. f_equal. rewrite Hinv.
  pose proof (Z.div_mod t Second ltac:(done)). pose proof (Z.div_mod (t / Second) 86400 ltac:(done)).
  fold sod in H0. assert (sod / 3600 * 3600 + (sod / 60) mod 60 * 60 + sod mod 60 = sod); [|lia].
  clear. Z.div_mod_to_equations. lia.
Qed.

End TimeText.
