(* ===== verification/Display.v ===== *)
(** * Times and durations on display

    [time.Time.Format] for the layouts of the dashboard and of the command
    line, [time.Duration.String] and [Round], and the helpers built on them:
    [relTime] (ui.go, and its copy in the CLI's pending.go), [nsToDuration]
    and [formatTS] (ui.go).  The offset of a time's location from UTC is an
    argument where the code does not convert to UTC.  The float64 arithmetic
    of [Duration.Seconds], [Minutes] and [Hours] is the Standard Library's
    specification of binary64. *)
From Stdlib Require Import Ascii SpecFloat.
From stdpp Require Import prelude strings list.
From S2P Require Import Prelude GoTime.
#[local] Open Scope Z_scope.

Module Display.

(** ** Layouts *)

(** A year of at least four digits. *)
Definition year_text (y : Z) : string :=
  (if y <? 0 then "-" else "") +:+ (if Z.abs y <? 10000 then pad 4 (Z.abs y) else decimal (Z.abs y)).

(** The date, the time of day and what separates them, of the wall clock of a
    location [off] ahead of UTC. *)
Definition wall (sep : string) (off : duration) (t : time) : string :=
  let secs := (t + off) / Second in
  let sod := secs mod 86400 in
  let '(y, m, d) := civil_from_days (secs / 86400) in
  year_text y +:+ "-" +:+ pad 2 m +:+ "-" +:+ pad 2 d +:+ sep +:+
  pad 2 (sod / 3600) +:+ ":" +:+ pad 2 (sod / 60 mod 60) +:+ ":" +:+ pad 2 (sod mod 60).

(** "2006-01-02 15:04:05". *)
Definition date_time : duration -> time -> string := wall " ".

(** "Z07:00". *)
Definition zone_text (off : duration) : string :=
  if off =? 0 then "Z" else
  let m := Z.abs off / Minute in
  (if off <? 0 then "-" else "+") +:+ pad 2 (m / 60) +:+ ":" +:+ pad 2 (m mod 60).

Definition rfc3339 (off : duration) (t : time) : string := wall "T" off t +:+ zone_text off.

(** What [Time.MarshalJSON] writes. *)
Definition rfc3339nano_in (off : duration) (t : time) : string :=
  wall "T" off t +:+ frac ((t + off) mod Second) +:+ zone_text off.

Definition em_dash : string := "—".

Definition formatTS (off : duration) (t : time) : string := if IsZero t then em_dash else date_time off t.

(** ** Durations *)
Definition Microsecond : duration := 1000.
Definition Hour : duration := 60 * Minute.

(** [fmtFrac]: the fraction of [v / 10^prec] without its trailing zeros. *)
Definition fmtFrac (prec : nat) (v : Z) : string :=
  let f := v mod 10 ^ Z.of_nat prec in
  if f =? 0 then "" else "." +:+ trim_right (fun c => Ascii.eqb c "0"%char) (pad prec f).

Definition Duration_String (d : duration) : string :=
  let u := Z.abs d in
  let small (unit : string) (prec : nat) := decimal (u / 10 ^ Z.of_nat prec) +:+ fmtFrac prec u +:+ unit in
  (if d <? 0 then "-" else "") +:+
  (if u <? Second then
     if u =? 0 then "0s"
     else if u <? Microsecond then small "ns" 0%nat
     else if u <? Millisecond then small "µs" 3%nat
     else small "ms" 6%nat
   else
     let s := u / Second in let m := s / 60 in let h := m / 60 in
     (if 0 <? h then decimal h +:+ "h" else "") +:+ (if 0 <? m then decimal (m mod 60) +:+ "m" else "") +:+
     decimal (s mod 60) +:+ fmtFrac 9 u +:+ "s").

Definition maxDuration : duration := 2 ^ 63 - 1.
Definition minDuration : duration := - 2 ^ 63.

(** [d.Round(m)]: to the nearest multiple, halves away from zero, saturating;
    [%] truncates. *)
Definition Round (d m : duration) : duration :=
  if m <=? 0 then d else
  let r := Z.rem d m in
  if d <? 0 then
    let r := - r in
    if 2 * r <? m then d + r else if minDuration <=? d - m + r then d - m + r else minDuration
  else
    if 2 * r <? m then d - r else if d + m - r <=? maxDuration then d + m - r else maxDuration.

Definition nsToDuration (ns : Z) : string :=
  if ns =? 0 then em_dash
  else if ns <? Millisecond then Duration_String ns
  else if ns <? Second then Duration_String (Round ns Millisecond)
  else if ns <? Minute then Duration_String (Round ns (100 * Millisecond))
  else Duration_String (Round ns Second).

(** ** float64 *)
Definition float64 (z : Z) : spec_float := binary_normalize 53 1024 z 0 false.
Definition fadd : spec_float -> spec_float -> spec_float := SFadd 53 1024.
Definition fdiv : spec_float -> spec_float -> spec_float := SFdiv 53 1024.

(** [int(x)]: towards zero; the code applies it to finite values only. *)
Definition int_of (x : spec_float) : Z :=
  match x with
  | S754_finite s m e =>
      let v := if 0 <=? e then Zpos m * 2 ^ e else Zpos m / 2 ^ (- e) in if s then - v else v
  | _ => 0
  end.

(** [d.Seconds()], [d.Minutes()], [d.Hours()]. *)
Definition in_units (unit : duration) (d : duration) : spec_float :=
  fadd (float64 (Z.quot d unit)) (fdiv (float64 (Z.rem d unit)) (float64 unit)).

(** [time.Since] saturates. *)
Definition since (now t : time) : duration := Z.max minDuration (Z.min maxDuration (now - t)).

Definition relTime (now t : time) : string :=
  if IsZero t then em_dash else
  let d := since now t in
  if d <? 0 then "future"
  else if d <? Minute then decimal (int_of (in_units Second d)) +:+ "s ago"
  else if d <? Hour then decimal (int_of (in_units Minute d)) +:+ "m ago"
  else if d <? 24 * Hour then decimal (int_of (in_units Hour d)) +:+ "h ago"
  else decimal (int_of (fdiv (in_units Hour d) (float64 24))) +:+ "d ago".

(** ** Examples *)
Example relTime_units :
  (fun d => relTime (1779471600 * Second + d) (1779471600 * Second)) <$>
    [-1; 0; 59999999999; 60 * Second; 3599999999999; 24 * Hour - 1; 24 * Hour; 300 * 24 * Hour - 1] =
  ["future"; "0s ago"; "59s ago"; "1m ago"; "59m ago"; "23h ago"; "1d ago"; "300d ago"].
Proof. vm_compute. reflexivity. Qed.

Example nsToDuration_units :
  nsToDuration <$> [0; 950; 1500; -5000000; 12345678; 4349999999; 4350000000; 59960000000; 754400000000; 2 ^ 63 - 1] =
  [em_dash; "950ns"; "1.5µs"; "-5ms"; "12ms"; "4.3s"; "4.4s"; "1m0s"; "12m34s"; "2562047h47m16.854775807s"].
Proof. vm_compute. reflexivity. Qed.

Example layouts :
  (date_time 0 (1779471600 * Second), rfc3339 (7200 * Second) (1779471600 * Second),
   rfc3339nano_in (-1800 * Second) (1779471600 * Second + 120000000), formatTS 0 zero_time) =
  ("2026-05-22 17:40:00", "2026-05-22T19:40:00+02:00", "2026-05-22T17:10:00.12-00:30", em_dash).
Proof. vm_compute. reflexivity. Qed.

(** [Round] gives a multiple of the unit, at most half a unit away, wherever
    the int64 range leaves room for it. *)
Lemma Round_nearest d m :
  0 < m -> minDuration + m <= d <= maxDuration - m -> (m | Round d m) /\ 2 * Z.abs (Round d m - d) <= m.
Proof.
  intros Hm Hd. unfold Round. destruct (Z.leb_spec m 0); [lia|].
  pose proof (Z.quot_rem' d m) as E. set (q := Z.quot d m) in *. set (r := Z.rem d m) in *.
  destruct (Z.ltb_spec d 0) as [Hn|Hp].
  - assert (- m < r <= 0) as Hr by (pose proof (Z.rem_bound_pos (- d) m ltac:(lia) Hm); rewrite Z.rem_opp_l in H0 by lia; subst r; lia).
    destruct (Z.ltb_spec (2 * - r) m).
    + split; [exists q; lia|]. rewrite Z.abs_eq; lia.
    + destruct (Z.leb_spec minDuration (d - m + - r)); [|lia]. split; [exists (q - 1); lia|]. rewrite Z.abs_neq; lia.
  - assert (0 <= r < m) as Hr by (apply Z.rem_bound_pos; lia).
    destruct (Z.ltb_spec (2 * r) m).
    + split; [exists q; lia|]. rewrite Z.abs_neq; lia.
    + destruct (Z.leb_spec (d + m - r) maxDuration); [|lia]. split; [exists (q + 1); lia|]. rewrite Z.abs_eq; lia.
Qed.

(** At offset 0 the two renderings of RFC 3339 are one. *)
Lemma rfc3339nano_utc t :
  0 <= (civil_from_days (t / Second / 86400)).1.1 < 10000 -> rfc3339nano_in 0 t = rfc3339nano t.
Proof.
  intros Hy. unfold rfc3339nano_in, rfc3339nano, wall, zone_text. rewrite Z.add_0_r.
  destruct (civil_from_days _) as [[y m] d]. cbn in Hy. unfold year_text.
  destruct (Z.ltb_spec y 0); [lia|]. rewrite Z.abs_eq by lia. destruct (Z.ltb_spec y 10000); [|lia].
  cbn [Z.eqb]. rewrite <- !string_app_assoc. reflexivity.
Qed.
End Display.
