(* ===== verification/Tabwriter.v ===== *)
(** * Aligned columns

    [renderTable] of cmd/fangs-cli/internal/cli/format.go, on Go's
    text/tabwriter with the settings the code uses: no minimal width, padding
    of two blanks, no flags.  A tab or vertical tab ends a cell, a newline or
    form feed ends a line, the byte 0xFF starts and ends a literal section; a
    column is a run of lines that have a cell there which is not their last,
    and widths count runes. *)
From Stdlib Require Import Ascii.
From stdpp Require Import prelude strings list.
From S2P Require Import Prelude.

Module Tabwriter.

(** ** utf8.RuneCount *)

(** The bytes the rune at the head of [l] takes: one if it is invalid. *)
Definition rune_size (l : list ascii) : nat :=
  let b c := ascii_Z c in
  let cont c := bool_decide (128 <= b c <= 191)%Z in
  match l with
  | c0 :: c1 :: l1 =>
      if bool_decide (194 <= b c0 <= 223)%Z then if cont c1 then 2 else 1
      else if bool_decide (224 <= b c0 <= 239)%Z then
        let lo := if (b c0 =? 224)%Z then 160%Z else 128%Z in
        let hi := if (b c0 =? 237)%Z then 159%Z else 191%Z in
        match l1 with
        | c2 :: _ => if bool_decide (lo <= b c1 <= hi)%Z && cont c2 then 3 else 1
        | [] => 1
        end
      else if bool_decide (240 <= b c0 <= 244)%Z then
        let lo := if (b c0 =? 240)%Z then 144%Z else 128%Z in
        let hi := if (b c0 =? 244)%Z then 143%Z else 191%Z in
        match l1 with
        | c2 :: c3 :: _ => if bool_decide (lo <= b c1 <= hi)%Z && cont c2 && cont c3 then 4 else 1
        | _ => 1
        end
      else 1
  | _ => 1
  end.

(** [skip] bytes belong to the rune already counted. *)
Fixpoint runes (skip : nat) (l : list ascii) : nat :=
  match l with
  | [] => 0
  | _ :: l' => match skip with
               | O => S (runes (rune_size l - 1) l')
               | S k => runes k l'
               end
  end.
Definition RuneCount (l : list ascii) : nat := runes 0 l.

(** ** Cells *)
Record cell : Type := mkCell { c_text : list ascii; c_width : nat }.
Abbreviation line := (list cell).

Definition tab : ascii := "009"%char.
Definition newline : ascii := "010"%char.
Definition vtab : ascii := "011"%char.
Definition formfeed : ascii := "012"%char.
Definition Escape : ascii := "255"%char.

(** The writer: the lines that are complete, latest first, each with whether a
    form feed ended it; the cells of the current line, latest first; the
    current cell up to its last width update, and what came since. *)
Record Writer : Type := mkWriter {
  w_lines : list (line * bool);
  w_line : list cell;
  w_cell : cell;
  w_since : list ascii;
  w_escaped : bool
}.

Definition no_cell : cell := mkCell [] 0.
Definition fresh : Writer := mkWriter [] [] no_cell [] false.

(** [updateWidth]. *)
Definition updateWidth (w : Writer) : Writer :=
  mkWriter (w_lines w) (w_line w)
    (mkCell (c_text (w_cell w) ++ w_since w) (c_width (w_cell w) + RuneCount (w_since w))) [] (w_escaped w).

Definition terminateCell (w : Writer) : Writer :=
  mkWriter (w_lines w) (w_cell w :: w_line w) no_cell (w_since w) (w_escaped w).

Definition addLine (flushed : bool) (w : Writer) : Writer :=
  mkWriter ((reverse (w_line w), flushed) :: w_lines w) [] (w_cell w) (w_since w) (w_escaped w).

Definition append (c : ascii) (w : Writer) : Writer :=
  mkWriter (w_lines w) (w_line w) (w_cell w) (w_since w ++ [c]) (w_escaped w).

Definition set_escaped (b : bool) (w : Writer) : Writer :=
  mkWriter (w_lines w) (w_line w) (w_cell w) (w_since w) b.

(** [endEscape]: the two escape bytes have no width. *)
Definition endEscape (w : Writer) : Writer :=
  let w := updateWidth w in
  mkWriter (w_lines w) (w_line w) (mkCell (c_text (w_cell w)) (c_width (w_cell w) - 2)) [] false.

(** One byte of [Write]. *)
Definition write_byte (w : Writer) (c : ascii) : Writer :=
  if w_escaped w then
    if decide (c = Escape) then endEscape (append c w) else append c w
  else if decide (c = tab \/ c = vtab) then terminateCell (updateWidth w)
  else if decide (c = newline \/ c = formfeed) then
    addLine (bool_decide (c = formfeed)) (terminateCell (updateWidth w))
  else if decide (c = Escape) then set_escaped true (append c (updateWidth w))
  else append c w.

Definition Write (text : string) (w : Writer) : Writer := foldl write_byte w (list_of_string text).

(** ** Layout *)

(** The line has a cell in column [j] that is not its last. *)
Definition in_column (j : nat) (l : line) : bool := S j <? length l.

Fixpoint take_while {A} (p : A -> bool) (l : list A) : list A :=
  match l with
  | [] => []
  | x :: l' => if p x then x :: take_while p l' else []
  end.

Definition cell_width (j : nat) (l : line) : nat := match l !! j with Some c => c_width c + 2 | None => 0 end.

(** The width of column [j] for a line between the lines [above], nearest
    first, and [below]: the widest cell of the block. *)
Definition column_width (above below : list line) (j : nat) : nat :=
  max_list (cell_width j <$> take_while (in_column j) above ++ take_while (in_column j) below).

Definition blanks (n : nat) : list ascii := replicate n " "%char.

Fixpoint write_cells (widths : nat -> nat) (j : nat) (l : line) : list ascii :=
  match l with
  | [] => []
  | [c] => c_text c
  | c :: l' => c_text c ++ blanks (widths j - c_width c) ++ write_cells widths (S j) l'
  end.

(** The lines between two flushes, each without its newline. *)
Fixpoint format (above lines : list line) : list (list ascii) :=
  match lines with
  | [] => []
  | l :: lines' => write_cells (column_width above lines) 0 l :: format (l :: above) lines'
  end.

(** A form feed flushes: the lines after it are laid out on their own. *)
Fixpoint blocks (lines : list (line * bool)) (acc : list line) : list (list line) :=
  match lines with
  | [] => [acc]
  | (l, flushed) :: lines' => if flushed : bool then (acc ++ [l]) :: blocks lines' [] else blocks lines' (acc ++ [l])
  end.

Fixpoint separated (ls : list (list ascii)) : list ascii :=
  match ls with
  | [] => []
  | [l] => l
  | l :: ls' => l ++ newline :: separated ls'
  end.

(** The line that is not complete when [Flush] is called; an open literal
    section is closed. *)
Definition last_line (w : Writer) : line :=
  let w := if w_escaped w then endEscape w else updateWidth w in
  reverse (match c_text (w_cell w) with [] => w_line w | _ => w_cell w :: w_line w end).

Definition Flush (w : Writer) : string :=
  string_of_list (separated (mjoin (format [] <$> blocks (reverse (w_lines w) ++ [(last_line w, false)]) []))).

(** ** renderTable *)
Definition Join (sep : string) (l : list string) : string :=
  match l with [] => "" | s :: l' => foldl (fun out s => out +:+ sep +:+ s) s l' end.

Definition tab_text : string := String tab "".
Definition newline_text : string := String newline "".

(** [fmt.Fprintln]. *)
Definition Fprintln (s : string) : string := s +:+ newline_text.

Definition table_text (header : list string) (rows : list (list string)) : string :=
  foldr (fun r s => Fprintln (Join tab_text r) +:+ s) "" (header :: rows).

Definition renderTable (header : list string) (rows : list (list string)) : string :=
  match rows with
  | [] => Fprintln "(none)"
  | _ => Flush (Write (table_text header rows) fresh)
  end.

Example aligned :
  renderTable ["RUN_ID"; "STATE"; "BASE"] [["18b1f8"; "done"; "★"]; ["1"; "pending"; "·"]] =
  "RUN_ID  STATE    BASE
18b1f8  done     ★
1       pending  ·
".
Proof. vm_compute. reflexivity. Qed.

(** A line without the column ends the block; runes count, not bytes. *)
Example broken :
  renderTable ["A"; "B"] [["×××"; "1"]; ["x
y"; "2"]] = "A    B
×××  1
x
y  2
".
Proof. vm_compute. reflexivity. Qed.

(** ** The table of clean cells *)
Definition plain_char (c : ascii) : Prop := c ∉ [tab; newline; vtab; formfeed; Escape].
Definition clean (s : string) : Prop := Forall plain_char (list_of_string s).

Definition text_width (s : string) : nat := RuneCount (list_of_string s).
Definition cell_of (s : string) : cell := mkCell (list_of_string s) (text_width s).

(** The widest cell of column [j], and two blanks. *)
Definition widest (rows : list (list string)) (j : nat) : nat :=
  max_list ((fun r => text_width (default "" (r !! j)) + 2) <$> rows).

(** A row whose cells but the last are padded to their column. *)
Fixpoint padded (widths : nat -> nat) (j : nat) (r : list string) : string :=
  match r with
  | [] => ""
  | [s] => s
  | s :: r' => s +:+ string_of_list (blanks (widths j - text_width s)) +:+ padded widths (S j) r'
  end.

(** The line the writer holds for a row. *)
Definition line_of (r : list string) : line := cell_of <$> r.

Definition laid_out (rows : list (list string)) : string :=
  foldr (fun r s => Fprintln (padded (widest rows) 0 r) +:+ s) "" rows.

Lemma max_list_perm l l' : l ≡ₚ l' -> max_list l = max_list l'.
Proof. induction 1; cbn; lia. Qed.

Lemma take_while_all {A} (p : A -> bool) l : Forall (fun x => p x = true) l -> take_while p l = l.
Proof. induction 1 as [|x l Hx _ IH]; [done|]. cbn [take_while]. by rewrite Hx, IH. Qed.

Lemma write_plain l w :
  Forall plain_char l -> w_escaped w = false ->
  foldl write_byte w l = mkWriter (w_lines w) (w_line w) (w_cell w) (w_since w ++ l) false.
Proof.
  intros Hl. revert w. induction Hl as [|c l Hc _ IH]; intros w Hw; cbn [foldl].
  { destruct w. cbn in *. by rewrite app_nil_r, Hw. }
  unfold plain_char in Hc. rewrite !not_elem_of_cons in Hc. destruct Hc as (H1 & H2 & H3 & H4 & H5 & _).
  assert (write_byte w c = append c w) as ->.
  { unfold write_byte. rewrite Hw. rewrite !decide_False by tauto. done. }
  rewrite IH by done. cbn. by rewrite <- (assoc app).
Qed.

Lemma write_tab ls cs s :
  write_byte (mkWriter ls cs no_cell (list_of_string s) false) tab = mkWriter ls (cell_of s :: cs) no_cell [] false.
Proof. reflexivity. Qed.

Lemma write_newline ls cs s :
  write_byte (mkWriter ls cs no_cell (list_of_string s) false) newline =
  mkWriter ((reverse (cell_of s :: cs), false) :: ls) [] no_cell [] false.
Proof. reflexivity. Qed.

Lemma Join_cons sep s t r : Join sep (s :: t :: r) = s +:+ sep +:+ Join sep (t :: r).
Proof.
  cbn. revert t. induction r as [|u r IH]; intros t; [done|]. cbn.
  rewrite <- (IH (t +:+ sep +:+ u)). by rewrite <- !string_app_assoc.
Qed.

(** One row from a fresh line. *)
Lemma write_row r lines cells :
  r <> [] -> Forall clean r ->
  Write (Fprintln (Join tab_text r)) (mkWriter lines cells no_cell [] false) =
  mkWriter ((reverse cells ++ (cell_of <$> r), false) :: lines) [] no_cell [] false.
Proof.
  intros Hr Hc. revert cells. induction Hc as [|s r Hs Hc IH]; intros cells; [done|].
  unfold Write, Fprintln in *. destruct r as [|t r].
  - cbn [Join foldl]. rewrite list_of_string_app, foldl_app, (write_plain (list_of_string s)) by (exact Hs || done).
    cbn [w_lines w_line w_cell w_since app]. etrans; [apply write_newline|]. by rewrite reverse_cons.
  - rewrite Join_cons, !list_of_string_app, !foldl_app, (write_plain (list_of_string s)) by (exact Hs || done).
    cbn [w_lines w_line w_cell w_since app]. rewrite <- foldl_app, <- list_of_string_app.
    etrans; [apply (f_equal (fun w => foldl write_byte w _) (write_tab lines cells s))|].
    etrans; [exact (IH ltac:(done) (cell_of s :: cells))|]. by rewrite reverse_cons, <- (assoc app).
Qed.

Lemma write_table header rows :
  Forall (fun r => r <> [] /\ Forall clean r) (header :: rows) ->
  Write (table_text header rows) fresh =
  mkWriter (reverse ((fun r : list string => (line_of r, false)) <$> header :: rows)) [] no_cell [] false.
Proof.
  unfold table_text, fresh. generalize (header :: rows). clear header rows. intros rows Hr.
  transitivity (mkWriter (reverse ((fun r : list string => (line_of r, false)) <$> rows) ++ []) [] no_cell [] false);
    [|by rewrite app_nil_r].
  generalize (@nil (line * bool)). induction Hr as [|r rows [Hne Hc] _ IH]; intros lines; [done|].
  cbn [foldr]. unfold Write. rewrite list_of_string_app, foldl_app.
  etrans; [apply (f_equal (fun w => foldl write_byte w _) (write_row r lines [] Hne Hc))|].
  etrans; [apply IH|]. by rewrite fmap_cons, reverse_cons, <- (assoc app).
Qed.

Lemma blocks_one rows acc last :
  blocks (((fun r : list string => (line_of r, false)) <$> rows) ++ [(last, false)]) acc = [acc ++ (line_of <$> rows) ++ [last]].
Proof. revert acc. induction rows as [|r rows IH]; intros acc; [done|]. cbn. by rewrite IH, <- (assoc app). Qed.

(** Cells of a full table: every line is in every column but the last. *)
Lemma column_width_full n above below j rows :
  Forall (fun r => length r = n) rows -> S j < n ->
  reverse above ++ below = (line_of <$> rows) ++ [[]] ->
  below <> [] ->
  column_width above below j = widest rows j.
Proof.
  intros Hlen Hj Hab Hne.
  assert (exists below', below = below' ++ [[]] /\ reverse above ++ below' = line_of <$> rows) as (below' & -> & E).
  { destruct below as [|x below _] using rev_ind; [done|]. rewrite (assoc app) in Hab.
    apply app_inj_tail in Hab as [Hab ->]. eauto. }
  assert (Forall (fun l => in_column j l = true) (above ++ below')) as Hin.
  { apply Forall_app. rewrite <- (Forall_reverse _ above), <- Forall_app, E. apply Forall_fmap.
    eapply Forall_impl; [exact Hlen|]. intros r Hr. unfold compose, in_column, line_of. rewrite length_fmap, Hr. by apply Nat.ltb_lt. }
  apply Forall_app in Hin as [Ha Hb]. unfold column_width. rewrite (take_while_all _ above) by done.
  assert (take_while (in_column j) (below' ++ [[]]) = below') as ->.
  { clear - Hb. induction Hb as [|l b Hl _ IH]; [done|]. cbn [app take_while]. by rewrite Hl, IH. }
  unfold widest. rewrite (max_list_perm _ (cell_width j <$> (reverse above ++ below'))).
  - rewrite E, <- list_fmap_compose. f_equal. apply list_fmap_ext. intros i r Hr. unfold compose, cell_width, line_of.
    rewrite list_lookup_fmap. destruct (r !! j) as [s|] eqn:Es; [done|]. exfalso.
    apply lookup_ge_None in Es. rewrite Forall_lookup in Hlen. specialize (Hlen i r Hr). lia.
  - apply fmap_Permutation. by rewrite reverse_Permutation.
Qed.

Lemma write_cells_padded ws ws' j r :
  (forall i, j <= i -> S i < j + length r -> ws i = ws' i) ->
  write_cells ws j (cell_of <$> r) = list_of_string (padded ws' j r).
Proof.
  revert j. induction r as [|s r IH]; intros j Hw; [done|]. destruct r as [|t r]; [done|].
  cbn [fmap list_fmap write_cells padded]. rewrite !list_of_string_app, list_of_string_of_list.
  rewrite (Hw j) by (cbn; lia). cbn [cell_of c_text c_width]. do 2 f_equal.
  apply (IH (S j)). intros i H1 H2. apply Hw; [lia|]. cbn in *. lia.
Qed.

Lemma format_padded n rows above rest :
  Forall (fun r => length r = n) rows ->
  reverse above ++ (line_of <$> rest) = line_of <$> rows ->
  format above ((line_of <$> rest) ++ [[]]) =
  ((fun r => list_of_string (padded (widest rows) 0 r)) <$> rest) ++ [[]].
Proof.
  intros Hlen. revert above. induction rest as [|r rest IH]; intros above Hab; [done|].
  cbn [fmap list_fmap app format]. f_equal.
  - apply write_cells_padded. intros i _ Hi. apply (column_width_full n); [done| | |done].
    + assert (line_of r ∈ line_of <$> rows) as Hin.
      { rewrite <- Hab. cbn. apply elem_of_app. right. left. }
      apply list_elem_of_fmap in Hin as (r' & Er & Hin). rewrite Forall_forall in Hlen. specialize (Hlen r' Hin).
      apply (f_equal length) in Er. unfold line_of in Er. rewrite !length_fmap in Er. lia.
    + rewrite <- Hab. cbn. by rewrite <- (assoc app).
  - apply IH. rewrite reverse_cons, <- (assoc app). exact Hab.
Qed.

Lemma separated_lines {A} (f : A -> string) rows :
  string_of_list (separated (((fun r => list_of_string (f r)) <$> rows) ++ [[]])) = foldr (fun r t => Fprintln (f r) +:+ t) "" rows.
Proof.
  induction rows as [|r rows IH]; [done|]. cbn [fmap list_fmap app foldr].
  assert (forall l, separated (l :: ((fun r => list_of_string (f r)) <$> rows) ++ [[]]) =
          l ++ newline :: separated (((fun r => list_of_string (f r)) <$> rows) ++ [[]])) as Hs by by destruct rows.
  etrans; [apply (f_equal string_of_list), Hs|].
  rewrite string_of_list_app, string_of_list_of_string, <- IH. unfold Fprintln. by rewrite string_app_assoc.
Qed.

(** C36: a table prints aligned.  When there is a row (an empty table prints
    "(none)"), the header and every row have the same
    number of cells and no cell has a tab, a line break or an escape byte in
    it, [renderTable] prints one line per row, in order, with every cell but
    the last padded to two runes more than the widest cell of its column, so
    each column starts at one offset in all lines. *)
Theorem renderTable_aligned header rows :
  rows <> [] -> header <> [] -> Forall (fun r => length r = length header) rows -> Forall (Forall clean) (header :: rows) ->
  renderTable header rows = laid_out (header :: rows).
Proof.
  intros Hr Hh Hlen Hc.
  assert (renderTable header rows = Flush (Write (table_text header rows) fresh)) as -> by by destruct rows.
  rewrite write_table.
  2:{ apply Forall_cons in Hc as [Hc0 Hc]. apply Forall_cons. split; [done|]. rewrite Forall_forall in *.
      intros r Hin. split; [|by apply Hc]. intros ->. specialize (Hlen _ Hin). by destruct header. }
  unfold Flush, last_line. cbn [w_lines w_line w_escaped updateWidth w_cell c_text no_cell w_since app].
  rewrite reverse_involutive, reverse_nil.
  rewrite blocks_one. rewrite app_nil_l.
  match goal with |- context [mjoin (format [] <$> [?l])] => change (mjoin (format [] <$> [l])) with (format [] l ++ []) end.
  rewrite app_nil_r.
  rewrite (format_padded (length header) (header :: rows) [] (header :: rows)) by (done || by constructor).
  apply (separated_lines (padded (widest (header :: rows)) 0)).
Qed.

Lemma renderTable_aligned_witness :
  renderTable ["RUN_ID"; "BASE"; "STARTED"] [["18b1f8…"; "★"; "-"]; ["2"; "·"; "2026-05-22"]] =
  laid_out [["RUN_ID"; "BASE"; "STARTED"]; ["18b1f8…"; "★"; "-"]; ["2"; "·"; "2026-05-22"]] /\
  laid_out [["RUN_ID"; "BASE"; "STARTED"]; ["18b1f8…"; "★"; "-"]; ["2"; "·"; "2026-05-22"]] =
"RUN_ID   BASE  STARTED
18b1f8…  ★     -
2        ·     2026-05-22
".
Proof.
  split; [|vm_compute; reflexivity].
  apply renderTable_aligned; [done|done|by repeat constructor|].
  apply (bool_decide_unpack _). vm_compute. exact I.
Defined.
End Tabwriter.
