(* ===== verification/Json.v ===== *)
(** * JSON values

    The persisted event payloads are JSON documents.  A payload is
    represented by the value its bytes decode to ([None] when
    [json.Unmarshal] rejects the bytes as syntax); the functions below are
    what [json.Unmarshal] does with such a value when the target is one of
    the small structs of the source: unknown keys are skipped, [null] leaves
    the field alone, a later key overwrites an earlier one, keys match
    case-insensitively, and a type mismatch makes the whole call return an
    error. *)
From stdpp Require Import prelude strings list.
From S2P Require Import Prelude.

Inductive json : Type :=
  | JNull
  | JBool (b : bool)
  | JNum (n : Z)              (* integer literal *)
  | JFrac (lit : string)      (* any other number literal *)
  | JStr (s : string)
  | JArr (l : list json)
  | JObj (o : list (string * json)).

(** Bytes of a payload, up to decoding. *)
Definition jdata : Type := option json.

Definition conv_string (j : json) (old : string) : option string :=
  match j with JStr s => Some s | JNull => Some old | _ => None end.

(** A Go integer field of range [lo, hi]. *)
Definition conv_int (lo hi : Z) (j : json) (old : Z) : option Z :=
  match j with
  | JNum n => if decide (lo <= n <= hi)%Z then Some n else None
  | JNull => Some old
  | _ => None
  end.

Definition unmarshal_field {A} (name : string) (conv : json -> A -> option A) (zero : A)
    (o : list (string * json)) : option A :=
  foldl (fun (acc : option A) (kv : string * json) => match acc with
         | None => None
         | Some a => if EqualFold name kv.1 then conv kv.2 a else Some a
         end) (Some zero) o.

(** The object [json.Unmarshal] fills a struct from: [null] fills nothing. *)
Definition unmarshal_object (d : jdata) : option (list (string * json)) :=
  match d with
  | Some (JObj o) => Some o
  | Some JNull => Some []
  | _ => None
  end.
