(* ===== verification/Url.v ===== *)
(** * URLs

    The parts of net/url the clients rely on, in Go's terms: percent-escaping
    of a path segment, of a query value and of a whole path, its inverse, and
    what [http.NewRequest] keeps of a URL's text as the path of the request
    line.  Bytes are [ascii].  The authority of a URL is taken as accepted: a
    host that [url.Parse] refuses makes every request fail alike. *)
From Stdlib Require Import Ascii.
From stdpp Require Import prelude strings list sorting.
From S2P Require Import Prelude.

Module Url.
(** ** Escaping *)
Inductive encoding : Type := encodePath | encodePathSegment | encodeQueryComponent.

Definition between (lo hi c : ascii) : bool := ((N_of_ascii lo <=? N_of_ascii c) && (N_of_ascii c <=? N_of_ascii hi))%N.
Definition alphanum (c : ascii) : bool := between "a" "z" c || between "A" "Z" c || between "0" "9" c.
Definition one_of (l : string) (c : ascii) : bool := existsb (Ascii.eqb c) (list_of_string l).

Definition shouldEscape (mode : encoding) (c : ascii) : bool :=
  if alphanum c || one_of "-_.~" c then false
  else if one_of "$&+,/:;=?@" c then
    match mode with
    | encodePath => Ascii.eqb c "?"
    | encodePathSegment => one_of "/;,?" c
    | encodeQueryComponent => true
    end
  else true.

Definition upperhex (d : N) : ascii := ascii_of_N (if (d <? 10)%N then 48 + d else 55 + d)%N.

Definition escape_byte (mode : encoding) (c : ascii) : list ascii :=
  if shouldEscape mode c then
    if (match mode with encodeQueryComponent => true | _ => false end) && Ascii.eqb c " " then ["+"%char]
    else ["%"%char; upperhex (N_of_ascii c / 16); upperhex (N_of_ascii c `mod` 16)]
  else [c].
Definition escape (mode : encoding) (l : list ascii) : list ascii := l ≫= escape_byte mode.

Definition unhex (c : ascii) : option N :=
  let n := N_of_ascii c in
  if between "0" "9" c then Some (n - 48)%N
  else if between "a" "f" c then Some (n - 87)%N
  else if between "A" "F" c then Some (n - 55)%N else None.

(** [None] is [EscapeError]. *)
Fixpoint unescape (mode : encoding) (l : list ascii) : option (list ascii) :=
  match l with
  | [] => Some []
  | c :: l' =>
      if Ascii.eqb c "%" then
        match l' with
        | a :: b :: l'' =>
            h ← unhex a; k ← unhex b; r ← unescape mode l''; Some (ascii_of_N (16 * h + k) :: r)
        | _ => None
        end
      else
        let c' := match mode with encodeQueryComponent => if Ascii.eqb c "+" then " "%char else c | _ => c end in
        cons c' <$> unescape mode l'
  end.

Definition PathEscape (s : string) : string := string_of_list (escape encodePathSegment (list_of_string s)).
Definition QueryEscape (s : string) : string := string_of_list (escape encodeQueryComponent (list_of_string s)).

(** [url.PathUnescape], as the mux applies it to a segment: one that is not
    well escaped stays as it is. *)
Definition pathUnescape (s : string) : string :=
  match unescape encodePathSegment (list_of_string s) with Some l => string_of_list l | None => s end.

(** ** Queries

    [Values.Encode]: the keys in order, the values of a key in theirs. *)
Definition Values : Type := list (string * list string).
Definition key_le (x y : string * list string) : Prop := string_le x.1 y.1 = true.
#[export] Instance key_le_dec : RelDecision key_le.
Proof. intros x y. unfold key_le. apply _. Defined.

Fixpoint join (sep : string) (l : list string) : string :=
  match l with
  | [] => ""
  | [s] => s
  | s :: l' => s +:+ sep +:+ join sep l'
  end.
Definition Encode (v : Values) : string :=
  join "&" (merge_sort key_le v ≫= fun kv => (fun x => QueryEscape kv.1 +:+ "=" +:+ QueryEscape x) <$> kv.2).

(** ** The path of a request *)
Definition before (c : ascii) (l : list ascii) : list ascii := match index_from c l 0 with Some i => take i l | None => l end.
Definition from (c : ascii) (l : list ascii) : list ascii := match index_from c l 0 with Some i => drop i l | None => [] end.
Definition is_ctl (c : ascii) : bool := ((N_of_ascii c <? 32) || (N_of_ascii c =? 127))%N.

(** The text after an http or https scheme. *)
Definition after_scheme (u : string) : option string :=
  if HasPrefix u "http://" then Some (slice_from u 7)
  else if HasPrefix u "https://" then Some (slice_from u 8) else None.

(** [validEncoded] in the path mode. *)
Definition validEncoded (l : list ascii) : bool :=
  forallb (fun c => one_of "!$&'()*+,;=:@[]%" c || negb (shouldEscape encodePath c)) l.

(** [setPath] and [EscapedPath]: the text stays when it is a valid encoding,
    and is encoded afresh from the decoded path otherwise. *)
Definition EscapedPath (p : list ascii) : option (list ascii) :=
  d ← unescape encodePath p; Some (if validEncoded p then p else escape encodePath d).

(** The path of the request line; [None] when [http.NewRequest] or the
    client refuses the URL. *)
Definition wire_path (url : string) : option (list ascii) :=
  let u := before "#" (list_of_string url) in
  if existsb is_ctl u then None
  else rest ← after_scheme (string_of_list u);
       p ← EscapedPath (from "/" (before "?" (list_of_string rest)));
       Some (match p with [] => ["/"%char] | _ => p end).

(** ** Escaping is undone by unescaping *)

(** A boolean fact about every byte, by computation. *)
Definition all_bytes : list ascii := (fun n => ascii_of_nat n) <$> seq 0 256.
Lemma every_byte (P : ascii -> bool) : forallb P all_bytes = true -> forall c, P c = true.
Proof.
  intros H c. rewrite forallb_forall in H. apply H. unfold all_bytes.
  apply in_map_iff. exists (nat_of_ascii c). split; [apply ascii_nat_embedding|].
  apply in_seq. pose proof (nat_ascii_bounded c). lia.
Qed.
Ltac by_bytes c := revert c; apply every_byte; vm_compute; reflexivity.

Definition undoes (mode : encoding) (c : ascii) : bool :=
  match escape_byte mode c with
  | [x] => negb (Ascii.eqb x "%") &&
           Ascii.eqb (match mode with encodeQueryComponent => if Ascii.eqb x "+" then " "%char else x | _ => x end) c
  | [x; a; b] => Ascii.eqb x "%" &&
                 match unhex a, unhex b with Some h, Some k => Ascii.eqb (ascii_of_N (16 * h + k)) c | _, _ => false end
  | _ => false
  end.
Lemma escape_byte_undone mode c : undoes mode c = true.
Proof. destruct mode; by_bytes c. Qed.

Lemma unescape_escape_byte mode c l :
  unescape mode (escape_byte mode c ++ l) = cons c <$> unescape mode l.
Proof.
  pose proof (escape_byte_undone mode c) as H. unfold undoes in H.
  destruct (escape_byte mode c) as [|x [|a [|b [|? ?]]]]; try done.
  - apply andb_true_iff in H as [Hx Hc]. apply negb_true_iff in Hx. apply Ascii.eqb_eq in Hc.
    simpl. by rewrite Hx, Hc.
  - apply andb_true_iff in H as [Hx H]. simpl. rewrite Hx.
    destruct (unhex a) as [h|]; [|done]. destruct (unhex b) as [k|]; [|done].
    apply Ascii.eqb_eq in H. cbn [mbind option_bind]. rewrite H. by destruct (unescape mode l).
Qed.

Lemma unescape_escape mode l : unescape mode (escape mode l) = Some l.
Proof.
  induction l as [|c l IH]; [done|]. change (escape mode (c :: l)) with (escape_byte mode c ++ escape mode l).
  by rewrite unescape_escape_byte, IH.
Qed.

Lemma escape_inj mode l k : escape mode l = escape mode k -> l = k.
Proof. intros E. apply (f_equal (unescape mode)) in E. rewrite !unescape_escape in E. by simplify_eq. Qed.

Lemma PathEscape_undone s : pathUnescape (PathEscape s) = s.
Proof.
  unfold pathUnescape, PathEscape. rewrite list_of_string_of_list, unescape_escape. apply string_of_list_of_string.
Qed.
Lemma PathEscape_inj s t : PathEscape s = PathEscape t -> s = t.
Proof. intros E. by rewrite <- (PathEscape_undone s), <- (PathEscape_undone t), E. Qed.
Lemma QueryEscape_inj s t : QueryEscape s = QueryEscape t -> s = t.
Proof.
  unfold QueryEscape. intros E. apply (f_equal list_of_string) in E. rewrite !list_of_string_of_list in E.
  by apply escape_inj, list_of_string_inj in E.
Qed.

(** ** What an escaped text cannot contain *)
Definition absent (mode : encoding) (c : ascii) : bool :=
  forallb (fun x => forallb (fun y => negb (Ascii.eqb y c)) (escape_byte mode x)) all_bytes.

Lemma escape_free mode c l : absent mode c = true -> Forall (fun x => x <> c) (escape mode l).
Proof.
  intros H. unfold escape. apply Forall_bind, Forall_forall. intros x _.
  pose proof (every_byte _ H x) as Hx. cbn beta in Hx. rewrite forallb_forall in Hx.
  apply Forall_forall. intros y Hy%list_elem_of_In. apply Hx in Hy.
  apply negb_true_iff, Ascii.eqb_neq in Hy. done.
Qed.

Lemma PathEscape_free c s : absent encodePathSegment c = true -> free_of c (PathEscape s).
Proof. intros H. unfold free_of, PathEscape. rewrite list_of_string_of_list. by apply escape_free. Qed.
Lemma QueryEscape_free c s : absent encodeQueryComponent c = true -> free_of c (QueryEscape s).
Proof. intros H. unfold free_of, QueryEscape. rewrite list_of_string_of_list. by apply escape_free. Qed.

Lemma escape_app mode l k : escape mode (l ++ k) = escape mode l ++ escape mode k.
Proof. apply bind_app. Qed.

Lemma unescape_plain mode l : mode <> encodeQueryComponent -> Forall (fun x => x <> "%"%char) l -> unescape mode l = Some l.
Proof.
  intros Hm H. induction H as [|c l Hc _ IH]; [done|]. simpl.
  rewrite (proj2 (Ascii.eqb_neq c "%") Hc), IH. by destruct mode.
Qed.

Lemma escape_validEncoded l : validEncoded (escape encodePath l) = true.
Proof.
  unfold validEncoded, escape. apply forallb_forall. intros y Hy%list_elem_of_In.
  apply list_elem_of_bind in Hy as (x & Hy & _). revert y Hy.
  cut (forallb (fun y => one_of "!$&'()*+,;=:@[]%" y || negb (shouldEscape encodePath y)) (escape_byte encodePath x) = true).
  { intros H y Hy%list_elem_of_In. rewrite forallb_forall in H. by apply H. }
  by_bytes x.
Qed.

(** Escaping again what was escaped changes nothing: the server sees the path
    the client wrote. *)
Lemma EscapedPath_wire p q : EscapedPath p = Some q -> EscapedPath q = Some q.
Proof.
  unfold EscapedPath. destruct (unescape encodePath p) as [d|] eqn:E; [|done]. simpl. intros [= <-].
  destruct (validEncoded p) eqn:Hv; [by rewrite E, Hv|]. by rewrite unescape_escape, escape_validEncoded.
Qed.

(** ** Cutting *)
Lemma before_free c l : Forall (fun x => x <> c) l -> before c l = l.
Proof. intros H. unfold before. by rewrite index_from_None. Qed.
Lemma from_app c l k : Forall (fun x => x <> c) l -> from c (l ++ c :: k) = c :: k.
Proof. intros H. unfold from. rewrite index_from_app by done. simpl. by rewrite drop_app_exact. Qed.

Lemma after_scheme_http s : after_scheme ("http://" +:+ s) = Some s.
Proof. unfold after_scheme. rewrite HasPrefix_app. f_equal. exact (slice_from_app "http://" s). Qed.
Lemma after_scheme_https s : after_scheme ("https://" +:+ s) = Some s.
Proof.
  unfold after_scheme. rewrite (HasPrefix_app "https://" s).
  replace (HasPrefix ("https://" +:+ s) "http://") with false by (by destruct s).
  f_equal. exact (slice_from_app "https://" s).
Qed.

Example escapes :
  PathEscape "ghcr.io/a b@sha256:0?x=1" = "ghcr.io%2Fa%20b@sha256:0%3Fx=1" /\
  Encode [("tag", ["1&2"]); ("fromImage", ["a/b"])] = "fromImage=a%2Fb&tag=1%262" /\
  string_of_list <$> wire_path "http://h:1/v1/runners/a b/jobs?x#y" = Some "/v1/runners/a%20b/jobs" /\
  wire_path "http://h/50%" = None /\ wire_path "ftp://h/" = None.
Proof. vm_compute. split_and!; reflexivity. Qed.
End Url.
