(* ===== verification/Sql.v ===== *)
(** * Relational tables

    The fragment of SQL the storage backends are written in, over tables
    represented as lists of rows in insertion order: filtered selects,
    updates, deletes and upserts, ordering and limits, and the view of a table
    with a primary key as a finite map.  Ties of an ORDER BY are unspecified
    in SQL; [order_by] fixes one order and no theorem depends on it. *)
From stdpp Require Import prelude strings gmap list sorting.
From S2P Require Import Prelude.

Section tables.
Context {A : Type}.
Implicit Types (t : list A) (P : A -> Prop).

(** [UPDATE t SET f WHERE P] and the number of rows it reports. *)
Definition update P `{!forall r, Decision (P r)} (f : A -> A) t : list A :=
  (fun r => if decide (P r) then f r else r) <$> t.
Definition rows_affected P `{!forall r, Decision (P r)} t : nat := length (filter P t).

(** [DELETE FROM t WHERE P]. *)
Definition delete_where P `{!forall r, Decision (P r)} t : list A :=
  filter (fun r => ~ P r) t.

Definition order_by (R : relation A) `{!forall x y, Decision (R x y)} t : list A :=
  merge_sort R t.

(** [LIMIT n] for an [int] the caller made positive. *)
Definition limit_to (n : Z) t : list A := take (Z.to_nat n) t.

(** Ordering on a string or an integer column. *)
Definition key_le (f : A -> string) : relation A := fun x y => string_le (f x) (f y) = true.
Definition key_ge (f : A -> string) : relation A := fun x y => string_le (f y) (f x) = true.
Definition num_le (f : A -> Z) : relation A := fun x y => (f x <= f y)%Z.
#[export] Instance key_le_dec f x y : Decision (key_le f x y).
Proof. unfold key_le. apply _. Defined.
#[export] Instance key_ge_dec f x y : Decision (key_ge f x y).
Proof. unfold key_ge. apply _. Defined.
#[export] Instance num_le_dec f x y : Decision (num_le f x y).
Proof. unfold num_le. apply _. Defined.

Lemma order_by_perm (R : relation A) `{!forall x y, Decision (R x y)} t :
  order_by R t ≡ₚ t.
Proof. apply merge_sort_Permutation. Qed.

Lemma rows_affected_0 P `{!forall r, Decision (P r)} t :
  rows_affected P t = 0 <-> Forall (fun r => ~ P r) t.
Proof.
  unfold rows_affected. rewrite length_zero_iff_nil. split.
  - intros Hnil. apply Forall_forall. intros x Hx HP.
    assert (x ∈ filter P t) as Hin by (by apply list_elem_of_filter).
    rewrite Hnil in Hin. by apply not_elem_of_nil in Hin.
  - apply filter_none.
Qed.

Lemma delete_where_idemp P `{!forall r, Decision (P r)} t :
  delete_where P (delete_where P t) = delete_where P t.
Proof. apply filter_idemp. Qed.

Lemma elem_of_delete_where P `{!forall r, Decision (P r)} t r :
  r ∈ delete_where P t <-> ~ P r /\ r ∈ t.
Proof. unfold delete_where. by rewrite list_elem_of_filter. Qed.

Section keyed.
Context {K : Type} `{Countable K} (key : A -> K).

(** The finite map a table with primary key [key] stands for. *)
Definition tbl t : gmap K A := list_to_map ((fun r => (key r, r)) <$> t).

Definition keyed t : Prop := NoDup (key <$> t).

(** INSERT against a primary key. *)
Definition insert_unique (r : A) t : option (list A) :=
  if decide (key r ∈ key <$> t) then None else Some (t ++ [r]).

(** [INSERT ... ON CONFLICT (key) DO UPDATE SET f]. *)
Definition upsert (merge : A -> A -> A) (r : A) t : list A :=
  if decide (key r ∈ key <$> t)
  then update (fun r' => key r' = key r) (fun old => merge old r) t
  else t ++ [r].

Lemma tbl_fmap_fst t : ((fun r => (key r, r)) <$> t).*1 = key <$> t.
Proof. rewrite <- list_fmap_compose. by apply list_fmap_ext. Qed.

Lemma tbl_lookup t k r : keyed t -> tbl t !! k = Some r <-> r ∈ t /\ key r = k.
Proof.
  intros Hnd. unfold tbl. rewrite <- elem_of_list_to_map.
  - rewrite list_elem_of_fmap. split.
    + intros (r' & E & Hr'). by injection E as -> ->.
    + intros [Hr <-]. eauto.
  - by rewrite tbl_fmap_fst.
Qed.

Lemma tbl_lookup_None t k : tbl t !! k = None <-> k ∉ key <$> t.
Proof. unfold tbl. rewrite <- not_elem_of_list_to_map. by rewrite tbl_fmap_fst. Qed.

Lemma tbl_lookup_Some_key t k r : keyed t -> tbl t !! k = Some r -> key r = k.
Proof. intros Hk Hr. by apply tbl_lookup in Hr as [_ ?]. Qed.

Lemma keyed_app_one t r : keyed t -> key r ∉ key <$> t -> keyed (t ++ [r]).
Proof.
  intros Hk Hr. unfold keyed. rewrite fmap_app, NoDup_app. split_and!; [done| |].
  - intros x Hx. set_solver.
  - apply NoDup_singleton.
Qed.

Lemma tbl_app_one t r : key r ∉ key <$> t -> tbl (t ++ [r]) = <[key r := r]> (tbl t).
Proof.
  intros Hr. unfold tbl. rewrite fmap_app, list_to_map_app.
  simpl. rewrite insert_empty. rewrite <- insert_union_singleton_r; [done|].
  by apply tbl_lookup_None.
Qed.

Lemma insert_unique_Some t r t' :
  keyed t -> insert_unique r t = Some t' ->
  tbl t !! key r = None /\ keyed t' /\ tbl t' = <[key r := r]> (tbl t) /\ t' = t ++ [r].
Proof.
  unfold insert_unique. intros Hk. case_decide as Hin; [done|]. intros [= <-].
  split_and!; auto using tbl_app_one, keyed_app_one. by apply tbl_lookup_None.
Qed.

Lemma insert_unique_None t r : insert_unique r t = None <-> is_Some (tbl t !! key r).
Proof.
  unfold insert_unique. rewrite <- not_eq_None_Some, tbl_lookup_None.
  case_decide; split; naive_solver.
Qed.

Lemma update_keys P `{!forall r, Decision (P r)} f t :
  (forall r, key (f r) = key r) -> key <$> update P f t = key <$> t.
Proof.
  intros Hf. unfold update. rewrite <- list_fmap_compose.
  apply list_fmap_ext. intros ? r _. simpl. by case_decide.
Qed.

Lemma keyed_update P `{!forall r, Decision (P r)} f t :
  (forall r, key (f r) = key r) -> keyed t -> keyed (update P f t).
Proof. unfold keyed. intros Hf. by rewrite update_keys. Qed.

Lemma tbl_update P `{!forall r, Decision (P r)} f t :
  (forall r, key (f r) = key r) ->
  tbl (update P f t) = (fun r => if decide (P r) then f r else r) <$> tbl t.
Proof.
  intros Hf. unfold tbl, update. rewrite <- list_to_map_fmap, <- !list_fmap_compose.
  f_equal. apply list_fmap_ext. intros ? r _. simpl. by case_decide; rewrite ?Hf.
Qed.

Lemma keyed_filter P `{!forall r, Decision (P r)} t : keyed t -> keyed (filter P t).
Proof. apply NoDup_fmap_filter. Qed.

Lemma tbl_filter P `{!forall r, Decision (P r)} t :
  keyed t -> tbl (filter P t) = filter (fun kv => P kv.2) (tbl t).
Proof.
  intros Hk. apply map_eq. intros k. apply option_eq. intros r.
  rewrite tbl_lookup by (by apply keyed_filter).
  rewrite map_lookup_filter_Some, tbl_lookup by done. simpl.
  rewrite list_elem_of_filter. naive_solver.
Qed.

Lemma tbl_values t : keyed t -> (map_to_list (tbl t)).*2 ≡ₚ t.
Proof.
  intros Hk. unfold tbl. rewrite map_to_list_to_map by (by rewrite tbl_fmap_fst).
  rewrite <- list_fmap_compose. by erewrite list_fmap_ext, list_fmap_id.
Qed.

Lemma tbl_key_elem t k : k ∈ key <$> t <-> is_Some (tbl t !! k).
Proof. rewrite <- not_eq_None_Some, tbl_lookup_None. split; [naive_solver|].
  intros Hk. destruct (decide (k ∈ key <$> t)); naive_solver. Qed.

(** The first row of a primary-key select is the map lookup. *)
Lemma filter_key_head t k :
  keyed t -> head (filter (fun r => key r = k) t) = tbl t !! k.
Proof.
  intros Hk. destruct (filter (fun r => key r = k) t) as [|r l] eqn:E; simpl.
  - symmetry. apply tbl_lookup_None. rewrite list_elem_of_fmap. intros (r & -> & Hr).
    assert (r ∈ filter (fun r' => key r' = key r) t) as Hin by (by apply list_elem_of_filter).
    rewrite E in Hin. by apply not_elem_of_nil in Hin.
  - symmetry. apply tbl_lookup; [done|].
    assert (r ∈ filter (fun r => key r = k) t) as Hin by (rewrite E; left).
    by apply list_elem_of_filter in Hin as [? ?].
Qed.

Lemma rows_affected_key t k :
  rows_affected (fun r => key r = k) t = 0 <-> tbl t !! k = None.
Proof.
  rewrite rows_affected_0, tbl_lookup_None, Forall_forall, list_elem_of_fmap. naive_solver.
Qed.

(** An UPDATE of the row with primary key [k]. *)
Lemma tbl_update_key f t k r :
  keyed t -> (forall r, key (f r) = key r) -> tbl t !! k = Some r ->
  tbl (update (fun r => key r = k) f t) = <[k := f r]> (tbl t).
Proof.
  intros Hk Hf Hr. rewrite tbl_update by done. apply map_eq. intros j.
  rewrite lookup_fmap, lookup_insert. case_decide as Hj.
  - subst j. rewrite Hr. simpl. apply tbl_lookup in Hr as [_ <-]; [|done]. by rewrite decide_True.
  - destruct (tbl t !! j) as [r'|] eqn:E; [|done]. simpl.
    apply tbl_lookup in E as [_ <-]; [|done]. by rewrite decide_False.
Qed.

Lemma keyed_upsert merge r t :
  (forall a b, key (merge a b) = key a) -> keyed t -> keyed (upsert merge r t).
Proof.
  intros Hm Hk. unfold upsert. case_decide.
  - by apply keyed_update.
  - by apply keyed_app_one.
Qed.

Lemma tbl_upsert merge r t :
  (forall a b, key (merge a b) = key a) -> keyed t ->
  tbl (upsert merge r t) =
    <[key r := match tbl t !! key r with Some old => merge old r | None => r end]> (tbl t).
Proof.
  intros Hm Hk. unfold upsert. case_decide as Hin.
  - rewrite tbl_update by done.
    apply map_eq. intros k. rewrite lookup_fmap, lookup_insert.
    destruct (tbl t !! key r) as [old|] eqn:E.
    2:{ apply tbl_lookup_None in E. done. }
    case_decide as Hkr.
    + subst k. rewrite E. simpl. apply tbl_lookup in E as [_ E]; [|done].
      by rewrite decide_True.
    + destruct (tbl t !! k) as [r'|] eqn:E'; [|done]. simpl.
      apply tbl_lookup in E' as [_ E']; [|done]. rewrite decide_False; [done|congruence].
  - rewrite tbl_app_one by done. apply tbl_lookup_None in Hin. by rewrite Hin.
Qed.
End keyed.
End tables.

#[export] Hint Resolve keyed_filter keyed_update keyed_upsert keyed_app_one : fangs.
