(* ===== verification/Storage.v ===== *)
(** * storage: row types, the Backend interface and its contract

    internal/orchestrator/storage/storage.go.  The row types, the error
    sentinels and the [Backend] interface are transcribed; [Store] with the
    [spec_*] relations is the abstract contract the interface's comments
    promise, and [BackendLaws] states that an implementation refines it.
    Clients (differ, CLI, notifier, watcher, api) are verified against the
    class; Sqlite.v and Postgres.v discharge it. *)
From stdpp Require Import prelude strings gmap list sorting.
From S2P Require Import Prelude GoTime Json Sql.

(** ** Errors surfaced by every backend *)
Definition ErrNotFound : error := Sentinel "storage: not found".
Definition ErrConflict : error := Sentinel "storage: conflicting row".
Definition ErrAmbiguous : error := Sentinel "storage: prefix matches multiple rows".

(** ** Run lifecycle *)
Definition RunState : Type := string.
Definition RunStatePending : RunState := "pending".
Definition RunStateBuilding : RunState := "building".
Definition RunStateSandboxed : RunState := "sandboxed".
Definition RunStateAnalyzed : RunState := "analyzed".
Definition RunStateDone : RunState := "done".
Definition RunStateFailed : RunState := "failed".

Definition IsValid (s : RunState) : bool :=
  bool_decide (s ∈ [RunStatePending; RunStateBuilding; RunStateSandboxed;
                    RunStateAnalyzed; RunStateDone; RunStateFailed]).

(** ** Rows *)
Record Run : Type := mkRun {
  Run_ID : string;
  Run_PackageName : string;
  Run_Version : string;
  Run_TarballSHA256 : string;
  Run_LockfileSHA256 : string;
  Run_NodeVersion : string;
  Run_NPMVersion : string;
  Run_State : RunState;
  Run_Attempt : Z;
  Run_IsBaseline : bool;
  Run_StartedAt : option time;
  Run_FinishedAt : option time;
  Run_FailureReason : string;
  Run_EventsEmitted : Z;
  Run_EventsDropped : Z;
  Run_DurationNS : Z
}.

(** The zero [Run] with the fields a scheduler fills in. *)
Definition new_run (id pkg ver : string) (st : RunState) (attempt : Z) : Run :=
  mkRun id pkg ver "" "" "" "" st attempt false None None "" 0 0 0.

Record ScanResult : Type := mkScanResult {
  SR_Status : string;      (* "ok" | "failed" | "timeout" *)
  SR_Reason : string;
  SR_EventsEmitted : Z;
  SR_EventsDropped : Z;
  SR_DurationNS : Z
}.

Record EventRow : Type := mkEventRow {
  Ev_ID : Z;
  Ev_RunID : string;
  Ev_TsNS : Z;
  Ev_Type : string;
  Ev_Data : jdata
}.

Record BaselineRow : Type := mkBaselineRow {
  Bl_PackageName : string;
  Bl_Category : string;
  Bl_Value : string;
  Bl_FirstSeenRunID : string;
  Bl_LastSeenRunID : string;
  Bl_OccurrenceCount : Z
}.

Record DeviationFilter : Type := mkDeviationFilter {
  DF_PackageName : string;
  DF_Severity : string;
  DF_RunID : string;
  DF_Limit : Z
}.

Record WatchedPackage : Type := mkWatchedPackage {
  Wp_Name : string;
  Wp_AddedAt : time;
  Wp_LastCheckedAt : option time;
  Wp_LastSeenVersion : string
}.

Record ReleaseRow : Type := mkReleaseRow {
  Rel_PackageName : string;
  Rel_Version : string;
  Rel_TarballSHA256 : string;
  Rel_NPMIntegrity : string;
  Rel_PublishedAt : time;
  Rel_DiscoveredAt : time
}.

Record PackageSummary : Type := mkPackageSummary {
  Ps_Name : string;
  Ps_RunsTotal : Z;
  Ps_RunsBaseline : Z;
  Ps_DeviationsLatest : Z;
  Ps_LatestRunID : string;
  Ps_LatestVersion : string
}.

Record DeviationRow : Type := mkDeviationRow {
  Dev_ID : string;
  Dev_RunID : string;
  Dev_Category : string;
  Dev_Value : string;
  Dev_EvidenceEventID : Z;
  Dev_Severity : string;
  Dev_DetectedAt : time;
  Dev_NotifiedAt : option time;
  Dev_Suppressed : bool
}.

Definition AllowScope : Type := string.
Definition AllowScopeGlobal : AllowScope := "global".
Definition AllowScopePackage : AllowScope := "package".
Definition AllowKind : Type := string.
Definition AllowKindCIDR : AllowKind := "cidr".
Definition AllowKindPath : AllowKind := "path".
Definition AllowKindSNI : AllowKind := "sni".

Record AllowEntry : Type := mkAllowEntry {
  Al_ID : string;
  Al_Scope : AllowScope;
  Al_PackageName : string;
  Al_Kind : AllowKind;
  Al_Value : string;
  Al_Note : string;
  Al_CreatedAt : time
}.

Record NotifierRow : Type := mkNotifierRow {
  Nt_Name : string;
  Nt_URL : string;
  Nt_Template : string;
  Nt_SecretEnv : string;
  Nt_Headers : string;
  Nt_MinSeverity : string;
  Nt_Enabled : bool;
  Nt_CreatedAt : time;
  Nt_UpdatedAt : time
}.

Record NotificationRow : Type := mkNotificationRow {
  Nf_ID : string;
  Nf_RunID : string;
  Nf_NotifierName : string;
  Nf_Attempt : Z;
  Nf_Status : string;
  Nf_LastAttemptedAt : option time;
  Nf_NextAttemptAt : option time;
  Nf_ResponseCode : Z;
  Nf_ResponseBody : string;
  Nf_ErrorMsg : string;
  Nf_DeviationCount : Z;
  Nf_CreatedAt : time
}.

(** Every global entry plus every package entry whose name matches. *)
Definition EntriesForPackage (all : list AllowEntry) (packageName : string) : list AllowEntry :=
  filter (fun e => Al_Scope e = AllowScopeGlobal \/
                   (Al_Scope e = AllowScopePackage /\ Al_PackageName e = packageName)) all.

(** ** The Backend interface

    One field per method of [storage.Backend] that the rest of the program
    calls through the interface.  A method that reads the clock takes the
    instant it reads as [now]. *)
Class Backend (S : Type) : Type := {
  CreateRun : time -> Run -> M S unit;
  UpdateRunState : time -> string -> RunState -> string -> M S unit;
  GetRun : string -> M S Run;
  ListRuns : Z -> M S (list Run);
  AppendEvents : string -> list EventRow -> M S unit;
  ListEventsByRun : string -> Z -> M S (list EventRow);
  EventCount : string -> M S Z;
  LoadBaseline : string -> M S (list BaselineRow);
  MergeBaseline : string -> list BaselineRow -> M S unit;
  MarkRunBaseline : string -> bool -> M S unit;
  WriteDeviations : list DeviationRow -> M S unit;
  DeleteDeviationsForRun : string -> M S unit;
  ListDeviations : string -> M S (list DeviationRow);
  ListDeviationsFiltered : DeviationFilter -> M S (list DeviationRow);
  GetDeviation : string -> M S DeviationRow;
  GetEvent : Z -> M S EventRow;
  ListPackages : M S (list PackageSummary);
  ListRunsByPackage : string -> Z -> M S (list Run);
  ResolveRunPrefix : string -> M S Run;
  ResolveDeviationPrefix : string -> M S DeviationRow;
  AddWatchedPackage : time -> string -> M S unit;
  RemoveWatchedPackage : string -> M S unit;
  ListWatchedPackages : M S (list WatchedPackage);
  UpdatePackageCheck : time -> string -> string -> M S unit;
  RecordRelease : ReleaseRow -> M S unit;
  ListReleasesByPackage : string -> Z -> M S (list ReleaseRow);
  RecordScanResult : time -> string -> ScanResult -> M S unit;
  EventsDroppedTotal : M S Z;
  PruneEvents : Z -> M S Z;
  AddAllowEntry : time -> AllowEntry -> M S unit;
  ListAllowEntries : M S (list AllowEntry);
  DeleteAllowEntry : string -> M S unit;
  ResolveAllowPrefix : string -> M S AllowEntry;
  UpsertNotifier : time -> NotifierRow -> M S unit;
  ListNotifiers : M S (list NotifierRow);
  GetNotifier : string -> M S NotifierRow;
  DeleteNotifier : string -> M S unit;
  RecordNotification : time -> NotificationRow -> M S unit;
  ListNotificationsByRun : string -> M S (list NotificationRow)
}.

(** ** Row updates the statements perform *)
Definition set_baseline_flag (b : bool) (r : Run) : Run :=
  mkRun (Run_ID r) (Run_PackageName r) (Run_Version r) (Run_TarballSHA256 r)
    (Run_LockfileSHA256 r) (Run_NodeVersion r) (Run_NPMVersion r) (Run_State r)
    (Run_Attempt r) b (Run_StartedAt r) (Run_FinishedAt r) (Run_FailureReason r)
    (Run_EventsEmitted r) (Run_EventsDropped r) (Run_DurationNS r).

Definition set_lifecycle (st : RunState) (started finished : option time) (reason : string)
    (r : Run) : Run :=
  mkRun (Run_ID r) (Run_PackageName r) (Run_Version r) (Run_TarballSHA256 r)
    (Run_LockfileSHA256 r) (Run_NodeVersion r) (Run_NPMVersion r) st
    (Run_Attempt r) (Run_IsBaseline r) started finished reason
    (Run_EventsEmitted r) (Run_EventsDropped r) (Run_DurationNS r).

Definition set_result (st : RunState) (finished : option time) (reason : string)
    (emitted dropped dur : Z) (r : Run) : Run :=
  mkRun (Run_ID r) (Run_PackageName r) (Run_Version r) (Run_TarballSHA256 r)
    (Run_LockfileSHA256 r) (Run_NodeVersion r) (Run_NPMVersion r) st
    (Run_Attempt r) (Run_IsBaseline r) (Run_StartedAt r) finished reason
    emitted dropped dur.

Definition bl_key (r : BaselineRow) : string * string * string :=
  (Bl_PackageName r, Bl_Category r, Bl_Value r).
Definition rel_key (r : ReleaseRow) : string * string := (Rel_PackageName r, Rel_Version r).

(** [MergeBaseline] fills the zero fields of each row before upserting it. *)
Definition fill_baseline (runID : string) (r : BaselineRow) : BaselineRow :=
  mkBaselineRow (Bl_PackageName r) (Bl_Category r) (Bl_Value r)
    (if decide (Bl_FirstSeenRunID r = "") then runID else Bl_FirstSeenRunID r)
    (if decide (Bl_LastSeenRunID r = "") then runID else Bl_LastSeenRunID r)
    (if decide (Bl_OccurrenceCount r = 0%Z) then 1%Z else Bl_OccurrenceCount r).

(** [ON CONFLICT DO UPDATE]: the new row's last_seen, the counts added. *)
Definition bump_baseline (old new : BaselineRow) : BaselineRow :=
  mkBaselineRow (Bl_PackageName old) (Bl_Category old) (Bl_Value old)
    (Bl_FirstSeenRunID old) (Bl_LastSeenRunID new)
    (Bl_OccurrenceCount old + Bl_OccurrenceCount new)%Z.

(** ** The abstract store

    What the interface's comments describe, with each table as a finite map
    on its primary key. *)
Record Store : Type := mkStore {
  st_runs : gmap string Run;
  st_events : gmap Z EventRow;
  st_baseline : gmap (string * string * string) BaselineRow;
  st_devs : gmap string DeviationRow;
  st_allow : gmap string AllowEntry
}.

Definition merge_one (runID : string) (m : gmap (string * string * string) BaselineRow)
    (r : BaselineRow) : gmap (string * string * string) BaselineRow :=
  let r' := fill_baseline runID r in
  <[bl_key r' := match m !! bl_key r' with Some old => bump_baseline old r' | None => r' end]> m.

Definition with_baseline (m : gmap (string * string * string) BaselineRow) (st : Store) : Store :=
  mkStore (st_runs st) (st_events st) m (st_devs st) (st_allow st).
Definition with_devs (m : gmap string DeviationRow) (st : Store) : Store :=
  mkStore (st_runs st) (st_events st) (st_baseline st) m (st_allow st).
Definition with_runs (m : gmap string Run) (st : Store) : Store :=
  mkStore m (st_events st) (st_baseline st) (st_devs st) (st_allow st).

(** A query of abstract specification [Q]: the store is unchanged. *)
Definition spec_query {A} (Q : Store -> res A -> Prop) (st : Store) (r : res A) (st' : Store) : Prop :=
  st' = st /\ Q st r.

Definition spec_GetRun (id : string) : Store -> res Run -> Store -> Prop :=
  spec_query (fun st r => r = match st_runs st !! id with
                              | Some run => Ok run
                              | None => Err ErrNotFound
                              end).

(** The events of a run in (ts_ns, id) order; a limit of 0 or less means the
    first 10000 of them. *)
Definition ev_le (x y : EventRow) : Prop :=
  (Ev_TsNS x < Ev_TsNS y)%Z \/ (Ev_TsNS x = Ev_TsNS y /\ Ev_ID x <= Ev_ID y)%Z.
#[export] Instance ev_le_dec x y : Decision (ev_le x y).
Proof. unfold ev_le. apply _. Defined.

Definition events_of (st : Store) (runID : string) : list EventRow :=
  order_by ev_le (filter (fun e => Ev_RunID e = runID) (map_to_list (st_events st)).*2).

Definition spec_ListEventsByRun (id : string) (limit : Z) :
    Store -> res (list EventRow) -> Store -> Prop :=
  spec_query (fun st r => exists l all, r = Ok l /\ all ≡ₚ events_of st id /\ Sorted ev_le all /\
     l = limit_to (if decide (limit <= 0)%Z then 10000%Z else limit) all).

Definition spec_ListAllowEntries : Store -> res (list AllowEntry) -> Store -> Prop :=
  spec_query (fun st r => exists l, r = Ok l /\ l ≡ₚ (map_to_list (st_allow st)).*2).

Definition spec_LoadBaseline (pkg : string) : Store -> res (list BaselineRow) -> Store -> Prop :=
  spec_query (fun st r => exists l, r = Ok l /\
     l ≡ₚ filter (fun b => Bl_PackageName b = pkg) (map_to_list (st_baseline st)).*2).

Definition spec_MergeBaseline (runID : string) (rows : list BaselineRow)
    (st : Store) (r : res unit) (st' : Store) : Prop :=
  r = Ok tt /\ st' = with_baseline (foldl (merge_one runID) (st_baseline st) rows) st.

Definition spec_MarkRunBaseline (id : string) (b : bool)
    (st : Store) (r : res unit) (st' : Store) : Prop :=
  match st_runs st !! id with
  | Some run => r = Ok tt /\ st' = with_runs (<[id := set_baseline_flag b run]> (st_runs st)) st
  | None => r = Err ErrNotFound /\ st' = st
  end.

(** A row can be inserted when its id is fresh and both the run and the
    evidence event it references exist. *)
Definition dev_insertable (st : Store) (d : DeviationRow) : Prop :=
  st_devs st !! Dev_ID d = None /\ is_Some (st_runs st !! Dev_RunID d) /\
  is_Some (st_events st !! Dev_EvidenceEventID d).

(** The columns of the INSERT: notified_at is not among them. *)
Definition stored_dev (d : DeviationRow) : DeviationRow :=
  mkDeviationRow (Dev_ID d) (Dev_RunID d) (Dev_Category d) (Dev_Value d)
    (Dev_EvidenceEventID d) (Dev_Severity d) (Dev_DetectedAt d) None (Dev_Suppressed d).

Definition insert_devs (rows : list DeviationRow) (m : gmap string DeviationRow) :
    gmap string DeviationRow :=
  foldl (fun m d => <[Dev_ID d := stored_dev d]> m) m rows.

(** All-or-nothing. *)
Definition spec_WriteDeviations (rows : list DeviationRow)
    (st : Store) (r : res unit) (st' : Store) : Prop :=
  (r = Ok tt /\ st' = with_devs (insert_devs rows (st_devs st)) st /\
   NoDup (Dev_ID <$> rows) /\ Forall (dev_insertable st) rows) \/
  ((exists e, r = Err e) /\ st' = st /\
   ~ (NoDup (Dev_ID <$> rows) /\ Forall (dev_insertable st) rows)).

Definition spec_DeleteDeviationsForRun (id : string)
    (st : Store) (r : res unit) (st' : Store) : Prop :=
  r = Ok tt /\ st' = with_devs (filter (fun kv => Dev_RunID kv.2 <> id) (st_devs st)) st.

Definition spec_ListDeviations (id : string) : Store -> res (list DeviationRow) -> Store -> Prop :=
  spec_query (fun st r => exists l, r = Ok l /\
     l ≡ₚ filter (fun d => Dev_RunID d = id) (map_to_list (st_devs st)).*2).

(** ** Refinement of the contract

    [inv] is the implementation's own invariant, [view] its abstraction
    function.  An operation either behaves as its specification says or
    fails without any effect, and a [healthy] state never fails that way. *)
Definition refines {S A} (inv healthy : S -> Prop) (view : S -> Store)
    (m : M S A) (spec : Store -> res A -> Store -> Prop) : Prop :=
  forall s, inv s ->
  let '(r, s') := m s in
  inv s' /\ (healthy s -> healthy s') /\
  (spec (view s) r (view s') \/ (~ healthy s /\ (exists e, r = Err e) /\ view s' = view s)).

Class BackendLaws (S : Type) `{Backend S} : Type := {
  inv : S -> Prop;
  healthy : S -> Prop;
  view : S -> Store;
  GetRun_refines id : refines inv healthy view (GetRun id) (spec_GetRun id);
  ListEventsByRun_refines id limit :
    refines inv healthy view (ListEventsByRun id limit) (spec_ListEventsByRun id limit);
  ListAllowEntries_refines : refines inv healthy view ListAllowEntries spec_ListAllowEntries;
  LoadBaseline_refines pkg : refines inv healthy view (LoadBaseline pkg) (spec_LoadBaseline pkg);
  MergeBaseline_refines id rows :
    refines inv healthy view (MergeBaseline id rows) (spec_MergeBaseline id rows);
  MarkRunBaseline_refines id b :
    refines inv healthy view (MarkRunBaseline id b) (spec_MarkRunBaseline id b);
  WriteDeviations_refines rows :
    refines inv healthy view (WriteDeviations rows) (spec_WriteDeviations rows);
  DeleteDeviationsForRun_refines id :
    refines inv healthy view (DeleteDeviationsForRun id) (spec_DeleteDeviationsForRun id);
  ListDeviations_refines id : refines inv healthy view (ListDeviations id) (spec_ListDeviations id);
  (** primary keys of the abstract tables *)
  view_runs_keyed s id r : inv s -> st_runs (view s) !! id = Some r -> Run_ID r = id;
  view_baseline_keyed s k r : inv s -> st_baseline (view s) !! k = Some r -> bl_key r = k;
  view_devs_keyed s id r : inv s -> st_devs (view s) !! id = Some r -> Dev_ID r = id;
  view_events_keyed s id r : inv s -> st_events (view s) !! id = Some r -> Ev_ID r = id
}.

(** ** Facts about the contract shared by its clients *)
Lemma EntriesForPackage_elem all p e :
  e ∈ EntriesForPackage all p <->
  e ∈ all /\ (Al_Scope e = AllowScopeGlobal \/
              (Al_Scope e = AllowScopePackage /\ Al_PackageName e = p)).
Proof. unfold EntriesForPackage. rewrite list_elem_of_filter. naive_solver. Qed.

Lemma bl_key_fill runID r : bl_key (fill_baseline runID r) = bl_key r.
Proof. done. Qed.

Lemma merge_one_dom runID m r : dom (merge_one runID m r) = {[bl_key r]} ∪ dom m.
Proof. unfold merge_one. by rewrite bl_key_fill, dom_insert_L. Qed.

Lemma merge_dom runID rows m :
  dom (foldl (merge_one runID) m rows) = list_to_set (bl_key <$> rows) ∪ dom m.
Proof.
  revert m. induction rows as [|r rows IH]; intros m; simpl; [set_solver|].
  rewrite IH, merge_one_dom. set_solver.
Qed.

Lemma merge_lookup_ne runID rows m k :
  k ∉ bl_key <$> rows -> foldl (merge_one runID) m rows !! k = m !! k.
Proof.
  revert m. induction rows as [|r rows IH]; intros m Hk; simpl; [done|].
  rewrite fmap_cons, not_elem_of_cons in Hk. destruct Hk as [Hk1 Hk2].
  rewrite IH by done. unfold merge_one. by rewrite lookup_insert_ne.
Qed.

Lemma insert_devs_lookup rows m id :
  NoDup (Dev_ID <$> rows) ->
  insert_devs rows m !! id =
    match list_find (fun d => Dev_ID d = id) rows with
    | Some (_, d) => Some (stored_dev d)
    | None => m !! id
    end.
Proof.
  unfold insert_devs. revert m. induction rows as [|d rows IH]; intros m Hnd; [done|].
  rewrite fmap_cons, NoDup_cons in Hnd. destruct Hnd as [Hd Hnd].
  simpl. rewrite IH by done. case_decide as Hid; simpl.
  - destruct (list_find _ rows) as [[i d']|] eqn:E; simpl.
    + apply list_find_Some in E as (E1 & E2 & _). exfalso. apply Hd.
      rewrite Hid, <- E2. apply list_elem_of_fmap. exists d'. split; [done|].
      by apply list_elem_of_lookup_2 in E1.
    + by rewrite Hid, lookup_insert_eq.
  - destruct (list_find _ rows) as [[i d']|] eqn:E; simpl; [done|].
    by rewrite lookup_insert_ne.
Qed.

(** ** Short ids

    The tail of every Resolve method: a query with [LIMIT 2], then a count. *)
Definition unique_row {A} (l : list A) : res A :=
  match l with [] => Err ErrNotFound | [r] => Ok r | _ => Err ErrAmbiguous end.

Lemma unique_row_spec {A} (id : A -> string) (P : A -> Prop) `{!forall r, Decision (P r)} t :
  keyed id t ->
  match unique_row (take 2 (filter P t)) with
  | Ok r => r ∈ t /\ P r /\ (forall r', r' ∈ t -> P r' -> r' = r)
  | Err e => (e = ErrNotFound /\ forall r, r ∈ t -> ~ P r) \/
             (e = ErrAmbiguous /\ exists r r', r ∈ t /\ r' ∈ t /\ id r <> id r' /\ P r /\ P r')
  end.
Proof.
  intros Hk. pose proof (keyed_filter id P t Hk) as Hkf.
  assert (Hin : forall r, r ∈ filter P t <-> P r /\ r ∈ t) by (intros r; apply list_elem_of_filter).
  destruct (filter P t) as [|r [|r' l]]; simpl.
  - left. split; [done|]. intros r Hr HP. by destruct (not_elem_of_nil r (proj2 (Hin r) (conj HP Hr))).
  - destruct (proj1 (Hin r)) as [H1 H2]; [by left|]. split_and!; [done|done|].
    intros r' Hr' HP. apply list_elem_of_singleton, Hin. done.
  - right. split; [done|]. exists r, r'.
    destruct (proj1 (Hin r)) as [H1 H2]; [by left|].
    destruct (proj1 (Hin r')) as [H3 H4]; [by right; left|]. split_and!; try done.
    unfold keyed in Hkf. rewrite !fmap_cons, NoDup_cons in Hkf. set_solver.
Qed.
