(* ===== verification/Sqlite.v ===== *)
(** * sqlite: the file-backed storage backend

    internal/orchestrator/storage/sqlite/sqlite.go over the schema of
    internal/orchestrator/storage/migrations/sqlite.  Every statement is
    written out: its row filter, its column updates, its primary-key,
    foreign-key and CHECK constraints, its ordering and limit.  A failing
    statement (or transaction) leaves the database unchanged.  Timestamps
    are TEXT columns: ORDER BY compares their RFC 3339 renderings. *)
From Stdlib Require Import Ascii.
From stdpp Require Import prelude strings gmap list sorting.
From S2P Require Import Prelude GoTime Json Sql Storage.

Module Sqlite.

Record DB : Type := mkDB {
  packages : list WatchedPackage;
  releases : list ReleaseRow;
  runs : list Run;
  events : list EventRow;
  events_seq : Z;              (* the AUTOINCREMENT counter of events.id *)
  baseline : list BaselineRow;
  deviations : list DeviationRow;
  notifiers : list NotifierRow;
  notifications : list NotificationRow;
  allowlists : list AllowEntry
}.

Definition empty_db : DB := mkDB [] [] [] [] 0 [] [] [] [] [].

Definition set_packages x d := mkDB x (releases d) (runs d) (events d) (events_seq d) (baseline d) (deviations d) (notifiers d) (notifications d) (allowlists d).
Definition set_releases x d := mkDB (packages d) x (runs d) (events d) (events_seq d) (baseline d) (deviations d) (notifiers d) (notifications d) (allowlists d).
Definition set_runs x d := mkDB (packages d) (releases d) x (events d) (events_seq d) (baseline d) (deviations d) (notifiers d) (notifications d) (allowlists d).
Definition set_events x n d := mkDB (packages d) (releases d) (runs d) x n (baseline d) (deviations d) (notifiers d) (notifications d) (allowlists d).
Definition set_baseline x d := mkDB (packages d) (releases d) (runs d) (events d) (events_seq d) x (deviations d) (notifiers d) (notifications d) (allowlists d).
Definition set_deviations x d := mkDB (packages d) (releases d) (runs d) (events d) (events_seq d) (baseline d) x (notifiers d) (notifications d) (allowlists d).
Definition set_notifiers x d := mkDB (packages d) (releases d) (runs d) (events d) (events_seq d) (baseline d) (deviations d) x (notifications d) (allowlists d).
Definition set_notifications x d := mkDB (packages d) (releases d) (runs d) (events d) (events_seq d) (baseline d) (deviations d) (notifiers d) x (allowlists d).
Definition set_allowlists x d := mkDB (packages d) (releases d) (runs d) (events d) (events_seq d) (baseline d) (deviations d) (notifiers d) (notifications d) x.

Definition constraint_error : error := Errorf "constraint failed".

(** [COALESCE(started_at, '')] and its descending order. *)
Definition started_key (r : Run) : string :=
  match Run_StartedAt r with Some t => rfc3339nano t | None => "" end.

(** ** Runs *)
Definition stored_run (now : time) (r : Run) : Run :=
  mkRun (Run_ID r) (Run_PackageName r) (Run_Version r) (Run_TarballSHA256 r)
    (Run_LockfileSHA256 r) (Run_NodeVersion r) (Run_NPMVersion r) (Run_State r)
    (Run_Attempt r) (Run_IsBaseline r)
    (Some (default now (Run_StartedAt r))) (Run_FinishedAt r) (Run_FailureReason r) 0 0 0.

Definition CreateRun (now : time) (r : Run) : M DB unit := fun d =>
  if negb (IsValid (Run_State r)) then (Err (Errorf "invalid run state"), d) else
  match insert_unique Run_ID (stored_run now r) (runs d) with
  | None => (Err ErrConflict, d)
  | Some t => (Ok tt, set_runs t d)
  end.

Definition UpdateRunState (now : time) (runID : string) (st : RunState) (reason : string) :
    M DB unit := fun d =>
  if negb (IsValid st) then (Err (Errorf "invalid run state"), d) else
  let f r := set_lifecycle st
    (match Run_StartedAt r with
     | Some t => Some t
     | None => if decide (st = RunStateBuilding) then Some now else None
     end)
    (if decide (st ∈ [RunStateDone; RunStateFailed]) then Some now else Run_FinishedAt r)
    (if decide (st = RunStateFailed) then reason else Run_FailureReason r) r in
  let P r := Run_ID r = runID in
  if decide (rows_affected P (runs d) = 0) then (Err ErrNotFound, d)
  else (Ok tt, set_runs (update P f (runs d)) d).

Definition GetRun (runID : string) : M DB Run := fun d =>
  match filter (fun r => Run_ID r = runID) (runs d) with
  | [] => (Err ErrNotFound, d)
  | r :: _ => (Ok r, d)
  end.

Definition started_desc (x y : Run) : Prop := string_le (started_key y) (started_key x) = true.
Definition started_id_desc (x y : Run) : Prop :=
  if decide (started_key x = started_key y) then string_le (Run_ID y) (Run_ID x) = true
  else started_desc x y.
#[export] Instance started_desc_dec x y : Decision (started_desc x y).
Proof. unfold started_desc. apply _. Defined.
#[export] Instance started_id_desc_dec x y : Decision (started_id_desc x y).
Proof. unfold started_id_desc. case_decide; apply _. Defined.

Definition ListRuns (limit : Z) : M DB (list Run) := fun d =>
  let limit := if (limit <=? 0)%Z then 100%Z else limit in
  (Ok (limit_to limit (order_by started_desc (runs d))), d).

Definition ListRunsByPackage (pkg : string) (limit : Z) : M DB (list Run) := fun d =>
  let limit := if (limit <=? 0)%Z then 100%Z else limit in
  (Ok (limit_to limit
         (order_by started_id_desc (filter (fun r => Run_PackageName r = pkg) (runs d)))), d).

(** ** Events *)
Definition number_events (runID : string) (next : Z) (evs : list EventRow) : list EventRow :=
  imap (fun i e => mkEventRow (next + Z.of_nat i) runID (Ev_TsNS e) (Ev_Type e) (Ev_Data e)) evs.

Definition AppendEvents (runID : string) (evs : list EventRow) : M DB unit := fun d =>
  match evs with
  | [] => (Ok tt, d)
  | _ =>
      if decide (runID ∈ Run_ID <$> runs d)
      then (Ok tt, set_events (events d ++ number_events runID (events_seq d + 1) evs)
                     (events_seq d + Z.of_nat (length evs)) d)
      else (Err (Wrapf "insert event" constraint_error), d)
  end.

Definition ListEventsByRun (runID : string) (limit : Z) : M DB (list EventRow) := fun d =>
  let limit := if (limit <=? 0)%Z then 10000%Z else limit in
  (Ok (limit_to limit (order_by ev_le (filter (fun e => Ev_RunID e = runID) (events d)))), d).

Definition EventCount (runID : string) : M DB Z := fun d =>
  (Ok (Z.of_nat (length (filter (fun e => Ev_RunID e = runID) (events d)))), d).

Definition GetEvent (id : Z) : M DB EventRow := fun d =>
  match filter (fun e => Ev_ID e = id) (events d) with
  | [] => (Err ErrNotFound, d)
  | e :: _ => (Ok e, d)
  end.

(** ** Baseline *)
Definition LoadBaseline (pkg : string) : M DB (list BaselineRow) := fun d =>
  (Ok (filter (fun b => Bl_PackageName b = pkg) (baseline d)), d).

Definition MergeBaseline (runID : string) (rows : list BaselineRow) : M DB unit := fun d =>
  match rows with
  | [] => (Ok tt, d)
  | _ => (Ok tt, set_baseline
            (foldl (fun t r => upsert bl_key bump_baseline (fill_baseline runID r) t)
                   (baseline d) rows) d)
  end.

Definition MarkRunBaseline (runID : string) (isBaseline : bool) : M DB unit := fun d =>
  let P r := Run_ID r = runID in
  if decide (rows_affected P (runs d) = 0) then (Err ErrNotFound, d)
  else (Ok tt, set_runs (update P (set_baseline_flag isBaseline) (runs d)) d).

(** ** Deviations *)
Definition insert_deviation (r : DeviationRow) (d : DB) : option DB :=
  if decide (Dev_RunID r ∈ Run_ID <$> runs d /\ Dev_EvidenceEventID r ∈ Ev_ID <$> events d)
  then (fun t => set_deviations t d) <$> insert_unique Dev_ID (stored_dev r) (deviations d)
  else None.

Fixpoint insert_deviations (rows : list DeviationRow) (d : DB) : option DB :=
  match rows with
  | [] => Some d
  | r :: rows' => match insert_deviation r d with
                  | Some d' => insert_deviations rows' d'
                  | None => None
                  end
  end.

Definition WriteDeviations (rows : list DeviationRow) : M DB unit := fun d =>
  match insert_deviations rows d with
  | Some d' => (Ok tt, d')
  | None => (Err (Wrapf "insert deviation" constraint_error), d)
  end.

Definition DeleteDeviationsForRun (runID : string) : M DB unit := fun d =>
  (Ok tt, set_deviations (delete_where (fun r => Dev_RunID r = runID) (deviations d)) d).

Definition dev_key_le (x y : DeviationRow) : Prop :=
  if decide (rfc3339nano (Dev_DetectedAt x) = rfc3339nano (Dev_DetectedAt y))
  then string_le (Dev_ID x) (Dev_ID y) = true
  else string_le (rfc3339nano (Dev_DetectedAt x)) (rfc3339nano (Dev_DetectedAt y)) = true.
#[export] Instance dev_key_le_dec x y : Decision (dev_key_le x y).
Proof. unfold dev_key_le. case_decide; apply _. Defined.

Definition ListDeviations (runID : string) : M DB (list DeviationRow) := fun d =>
  (Ok (order_by dev_key_le (filter (fun r => Dev_RunID r = runID) (deviations d))), d).

(** The row filter: each non-empty field of the filter adds a conjunct, and
    the JOIN keeps rows whose run exists. *)
Definition dev_selected (f : DeviationFilter) (rs : list Run) (dv : DeviationRow) : bool :=
  existsb (fun r => bool_decide (Run_ID r = Dev_RunID dv) &&
    (bool_decide (DF_PackageName f = "") || bool_decide (Run_PackageName r = DF_PackageName f))) rs &&
  (bool_decide (DF_Severity f = "") || bool_decide (Dev_Severity dv = DF_Severity f)) &&
  (bool_decide (DF_RunID f = "") || bool_decide (Dev_RunID dv = DF_RunID f)).

Definition dev_key_ge (x y : DeviationRow) : Prop := dev_key_le y x.
#[export] Instance dev_key_ge_dec x y : Decision (dev_key_ge x y).
Proof. unfold dev_key_ge. apply _. Defined.

Definition ListDeviationsFiltered (f : DeviationFilter) : M DB (list DeviationRow) := fun d =>
  let sorted := order_by dev_key_ge
    (filter (fun dv => dev_selected f (runs d) dv = true) (deviations d)) in
  (Ok (if (0 <? DF_Limit f)%Z then limit_to (DF_Limit f) sorted else sorted), d).

Definition GetDeviation (id : string) : M DB DeviationRow := fun d =>
  match filter (fun r => Dev_ID r = id) (deviations d) with
  | [] => (Err ErrNotFound, d)
  | r :: _ => (Ok r, d)
  end.

(** ** Package summaries *)
Definition summarize (d : DB) (name : string) : PackageSummary :=
  let mine := filter (fun r => Run_PackageName r = name) (runs d) in
  let n := Z.of_nat (length mine) in
  let nb := Z.of_nat (length (filter (fun r => Run_IsBaseline r = true) mine)) in
  match order_by started_id_desc mine with
  | [] => mkPackageSummary name n nb 0 "" ""
  | r :: _ => mkPackageSummary name n nb
      (Z.of_nat (length (filter (fun dv => Dev_RunID dv = Run_ID r) (deviations d))))
      (Run_ID r) (Run_Version r)
  end.

Definition ListPackages : M DB (list PackageSummary) := fun d =>
  (Ok (summarize d <$> order_by (key_le id)
         (filter (fun n => n <> "") (remove_dups (Run_PackageName <$> runs d)))), d).

(** ** Watched packages and releases *)
Definition AddWatchedPackage (now : time) (name : string) : M DB unit := fun d =>
  match insert_unique Wp_Name (mkWatchedPackage name now None "") (packages d) with
  | Some t => (Ok tt, set_packages t d)
  | None => (Ok tt, d)                       (* ON CONFLICT DO NOTHING *)
  end.

(** The releases of the package go with it (ON DELETE CASCADE). *)
Definition RemoveWatchedPackage (name : string) : M DB unit := fun d =>
  let P p := Wp_Name p = name in
  if decide (rows_affected P (packages d) = 0) then (Err ErrNotFound, d)
  else (Ok tt, set_releases (delete_where (fun r => Rel_PackageName r = name) (releases d))
                 (set_packages (delete_where P (packages d)) d)).

Definition ListWatchedPackages : M DB (list WatchedPackage) := fun d =>
  (Ok (order_by (key_le Wp_Name) (packages d)), d).

Definition checked (now : time) (version : string) (p : WatchedPackage) : WatchedPackage :=
  mkWatchedPackage (Wp_Name p) (Wp_AddedAt p) (Some now)
    (if decide (version = "") then Wp_LastSeenVersion p else version).

Definition UpdatePackageCheck (now : time) (name version : string) : M DB unit := fun d =>
  (Ok tt, set_packages (update (fun p => Wp_Name p = name) (checked now version) (packages d)) d).

Definition RecordRelease (r : ReleaseRow) : M DB unit := fun d =>
  if decide (Rel_PackageName r ∈ Wp_Name <$> packages d) then
    match insert_unique rel_key r (releases d) with
    | Some t => (Ok tt, set_releases t d)
    | None => (Ok tt, d)
    end
  else (Err constraint_error, d).

Definition ListReleasesByPackage (name : string) (limit : Z) : M DB (list ReleaseRow) := fun d =>
  let limit := if (limit <=? 0)%Z then 100%Z else limit in
  (Ok (limit_to limit (order_by (key_ge (fun r => rfc3339nano (Rel_DiscoveredAt r)))
         (filter (fun r => Rel_PackageName r = name) (releases d)))), d).

(** ** Prefix resolution

    [id LIKE prefix || '%']: ['%'] matches any sequence, ['_'] any one
    character, and SQLite's LIKE ignores the case of ASCII letters. *)
Fixpoint like (p s : list Ascii.ascii) : bool :=
  match p with
  | [] => bool_decide (s = [])
  | c :: p' =>
      if Ascii.eqb c "%"%char then
        (fix any (s : list Ascii.ascii) : bool :=
           like p' s || match s with [] => false | _ :: s' => any s' end) s
      else match s with
           | [] => false
           | x :: s' => (Ascii.eqb c "_"%char || Ascii.eqb (lower_ascii c) (lower_ascii x))
                        && like p' s'
           end
  end.

Definition id_like (prefix id : string) : bool :=
  like (list_of_string (prefix +:+ "%")) (list_of_string id).

(** The shape shared by the three Resolve methods: [LIMIT 2], then count. *)
Definition resolve {A} (id : A -> string) (t : list A) (prefix : string) : res A :=
  if decide (prefix = "") then Err ErrNotFound else
  unique_row (take 2 (filter (fun r => id_like prefix (id r) = true) t)).

Definition ResolveRunPrefix (prefix : string) : M DB Run := fun d =>
  (resolve Run_ID (runs d) prefix, d).
Definition ResolveDeviationPrefix (prefix : string) : M DB DeviationRow := fun d =>
  (resolve Dev_ID (deviations d) prefix, d).
Definition ResolveAllowPrefix (prefix : string) : M DB AllowEntry := fun d =>
  (resolve Al_ID (allowlists d) prefix, d).

(** ** Allowlists *)
Definition allow_check (e : AllowEntry) : Prop :=
  Al_Scope e ∈ [AllowScopeGlobal; AllowScopePackage] /\
  Al_Kind e ∈ [AllowKindCIDR; AllowKindPath; AllowKindSNI] /\
  ((Al_Scope e = AllowScopeGlobal /\ Al_PackageName e = "") \/
   (Al_Scope e = AllowScopePackage /\ Al_PackageName e <> "")).
#[export] Instance allow_check_dec e : Decision (allow_check e).
Proof. unfold allow_check. apply _. Defined.

Definition stamp_created (now : time) (e : AllowEntry) : AllowEntry :=
  mkAllowEntry (Al_ID e) (Al_Scope e) (Al_PackageName e) (Al_Kind e) (Al_Value e) (Al_Note e)
    (if IsZero (Al_CreatedAt e) then now else Al_CreatedAt e).

Definition AddAllowEntry (now : time) (e : AllowEntry) : M DB unit := fun d =>
  if decide (allow_check e) then
    match insert_unique Al_ID (stamp_created now e) (allowlists d) with
    | Some t => (Ok tt, set_allowlists t d)
    | None => (Err (Wrapf "insert allowlist" constraint_error), d)
    end
  else (Err (Wrapf "insert allowlist" constraint_error), d).

(** ORDER BY scope, COALESCE(package_name, ''), kind, value. *)
Fixpoint lex_le (xs ys : list string) : bool :=
  match xs, ys with
  | x :: xs', y :: ys' =>
      if decide (x = y) then lex_le xs' ys' else string_le x y
  | _, _ => true
  end.
Definition allow_order (x y : AllowEntry) : Prop :=
  lex_le [Al_Scope x; Al_PackageName x; Al_Kind x; Al_Value x]
         [Al_Scope y; Al_PackageName y; Al_Kind y; Al_Value y] = true.
#[export] Instance allow_order_dec x y : Decision (allow_order x y).
Proof. unfold allow_order. apply _. Defined.

Definition ListAllowEntries : M DB (list AllowEntry) := fun d =>
  (Ok (order_by allow_order (allowlists d)), d).

Definition DeleteAllowEntry (id : string) : M DB unit := fun d =>
  (Ok tt, set_allowlists (delete_where (fun e => Al_ID e = id) (allowlists d)) d).

(** ** Totals, retention, results *)
Definition EventsDroppedTotal : M DB Z := fun d =>
  (Ok (foldr Z.add 0%Z (Run_EventsDropped <$> runs d)), d).

(** The rows [PruneEvents] deletes. *)
Definition prunable (d : DB) (cutoff : Z) (e : EventRow) : Prop :=
  (Ev_TsNS e < cutoff)%Z /\ Ev_ID e ∉ Dev_EvidenceEventID <$> deviations d.
#[export] Instance prunable_dec d c e : Decision (prunable d c e).
Proof. unfold prunable. apply _. Defined.

Definition PruneEvents (olderThanNS : Z) : M DB Z := fun d =>
  let P := prunable d olderThanNS in
  (Ok (Z.of_nat (rows_affected P (events d))),
   set_events (delete_where P (events d)) (events_seq d) d).

Definition result_state (status : string) : RunState :=
  if decide (status ∈ ["failed"; "timeout"]) then RunStateFailed else RunStateDone.

Definition RecordScanResult (now : time) (runID : string) (r : ScanResult) : M DB unit := fun d =>
  let P x := Run_ID x = runID in
  let f x := set_result (result_state (SR_Status r)) (Some now)
    (if decide (SR_Reason r = "") then Run_FailureReason x else SR_Reason r)
    (SR_EventsEmitted r) (SR_EventsDropped r) (SR_DurationNS r) x in
  if decide (rows_affected P (runs d) = 0) then (Err ErrNotFound, d)
  else (Ok tt, set_runs (update P f (runs d)) d).

(** ** Notifier targets and the delivery log *)
Definition upsert_merge (old new : NotifierRow) : NotifierRow :=
  mkNotifierRow (Nt_Name old) (Nt_URL new) (Nt_Template new) (Nt_SecretEnv new) (Nt_Headers new)
    (Nt_MinSeverity new) (Nt_Enabled new) (Nt_CreatedAt old) (Nt_UpdatedAt new).

Definition stamp_notifier (now : time) (n : NotifierRow) : NotifierRow :=
  mkNotifierRow (Nt_Name n) (Nt_URL n) (Nt_Template n) (Nt_SecretEnv n) (Nt_Headers n)
    (Nt_MinSeverity n) (Nt_Enabled n)
    (if IsZero (Nt_CreatedAt n) then now else Nt_CreatedAt n) now.

Definition UpsertNotifier (now : time) (n : NotifierRow) : M DB unit := fun d =>
  (Ok tt, set_notifiers (upsert Nt_Name upsert_merge (stamp_notifier now n) (notifiers d)) d).

Definition ListNotifiers : M DB (list NotifierRow) := fun d =>
  (Ok (order_by (key_le Nt_Name) (notifiers d)), d).

Definition GetNotifier (name : string) : M DB NotifierRow := fun d =>
  match filter (fun n => Nt_Name n = name) (notifiers d) with
  | [] => (Err ErrNotFound, d)
  | n :: _ => (Ok n, d)
  end.

(** The delivery log of the notifier goes with it (ON DELETE CASCADE). *)
Definition DeleteNotifier (name : string) : M DB unit := fun d =>
  (Ok tt, set_notifications (delete_where (fun n => Nf_NotifierName n = name) (notifications d))
            (set_notifiers (delete_where (fun n => Nt_Name n = name) (notifiers d)) d)).

Definition stamp_notification (now : time) (n : NotificationRow) : NotificationRow :=
  mkNotificationRow (Nf_ID n) (Nf_RunID n) (Nf_NotifierName n) (Nf_Attempt n) (Nf_Status n)
    (Nf_LastAttemptedAt n) (Nf_NextAttemptAt n) (Nf_ResponseCode n) (Nf_ResponseBody n)
    (Nf_ErrorMsg n) (Nf_DeviationCount n)
    (if IsZero (Nf_CreatedAt n) then now else Nf_CreatedAt n).

Definition RecordNotification (now : time) (n : NotificationRow) : M DB unit := fun d =>
  if decide (Nf_RunID n ∈ Run_ID <$> runs d /\ Nf_NotifierName n ∈ Nt_Name <$> notifiers d) then
    match insert_unique Nf_ID (stamp_notification now n) (notifications d) with
    | Some t => (Ok tt, set_notifications t d)
    | None => (Err constraint_error, d)
    end
  else (Err constraint_error, d).

Definition ListNotificationsByRun (runID : string) : M DB (list NotificationRow) := fun d =>
  (Ok (order_by (num_le Nf_Attempt)
         (filter (fun n => Nf_RunID n = runID) (notifications d))), d).

End Sqlite.
