(* ===== verification/SqliteSpec.v ===== *)
(** * sqlite: schema invariant and refinement of the storage contract

    Every mutating statement preserves the schema's keys, references and
    CHECKs ([wf]), and the backend implements the abstract contract of
    Storage.v ([sqlite_laws]). *)
From Stdlib Require Import Ascii.
From stdpp Require Import prelude strings gmap list sorting.
From S2P Require Import Prelude GoTime Json Sql Storage Sqlite.

Module SqliteSpec.
Import Sqlite.

(** ** The schema invariant *)
Record wf (d : DB) : Prop := mkWf {
  wf_packages : keyed Wp_Name (packages d);
  wf_releases : keyed rel_key (releases d);
  wf_releases_fk : Forall (fun r => Rel_PackageName r ∈ Wp_Name <$> packages d) (releases d);
  wf_runs : keyed Run_ID (runs d);
  wf_runs_state : Forall (fun r => IsValid (Run_State r) = true) (runs d);
  wf_events : keyed Ev_ID (events d);
  wf_events_seq : Forall (fun e => (0 < Ev_ID e <= events_seq d)%Z) (events d);
  wf_seq : (0 <= events_seq d)%Z;
  wf_events_fk : Forall (fun e => Ev_RunID e ∈ Run_ID <$> runs d) (events d);
  wf_baseline : keyed bl_key (baseline d);
  wf_devs : keyed Dev_ID (deviations d);
  wf_devs_fk : Forall (fun v => Dev_RunID v ∈ Run_ID <$> runs d /\
                                Dev_EvidenceEventID v ∈ Ev_ID <$> events d) (deviations d);
  wf_notifiers : keyed Nt_Name (notifiers d);
  wf_notifs : keyed Nf_ID (notifications d);
  wf_notifs_fk : Forall (fun n => Nf_RunID n ∈ Run_ID <$> runs d /\
                                  Nf_NotifierName n ∈ Nt_Name <$> notifiers d) (notifications d);
  wf_allow : keyed Al_ID (allowlists d);
  wf_allow_check : Forall allow_check (allowlists d)
}.

Lemma wf_empty : wf empty_db.
Proof. split; simpl; try apply Forall_nil; try apply NoDup_nil; done. Qed.

(** ** The mutating statements as one step type *)
Inductive mutation : Type :=
  | MCreateRun (now : time) (r : Run)
  | MUpdateRunState (now : time) (id : string) (st : RunState) (reason : string)
  | MAppendEvents (id : string) (evs : list EventRow)
  | MMergeBaseline (id : string) (rows : list BaselineRow)
  | MMarkRunBaseline (id : string) (b : bool)
  | MWriteDeviations (rows : list DeviationRow)
  | MDeleteDeviationsForRun (id : string)
  | MAddWatchedPackage (now : time) (name : string)
  | MRemoveWatchedPackage (name : string)
  | MUpdatePackageCheck (now : time) (name ver : string)
  | MRecordRelease (r : ReleaseRow)
  | MRecordScanResult (now : time) (id : string) (r : ScanResult)
  | MPruneEvents (cutoff : Z)
  | MAddAllowEntry (now : time) (e : AllowEntry)
  | MDeleteAllowEntry (id : string)
  | MUpsertNotifier (now : time) (n : NotifierRow)
  | MDeleteNotifier (name : string)
  | MRecordNotification (now : time) (n : NotificationRow).

Definition exec (m : mutation) (d : DB) : DB :=
  match m with
  | MCreateRun now r => (CreateRun now r d).2
  | MUpdateRunState now id st reason => (UpdateRunState now id st reason d).2
  | MAppendEvents id evs => (AppendEvents id evs d).2
  | MMergeBaseline id rows => (MergeBaseline id rows d).2
  | MMarkRunBaseline id b => (MarkRunBaseline id b d).2
  | MWriteDeviations rows => (WriteDeviations rows d).2
  | MDeleteDeviationsForRun id => (DeleteDeviationsForRun id d).2
  | MAddWatchedPackage now name => (AddWatchedPackage now name d).2
  | MRemoveWatchedPackage name => (RemoveWatchedPackage name d).2
  | MUpdatePackageCheck now name ver => (UpdatePackageCheck now name ver d).2
  | MRecordRelease r => (RecordRelease r d).2
  | MRecordScanResult now id r => (RecordScanResult now id r d).2
  | MPruneEvents cutoff => (PruneEvents cutoff d).2
  | MAddAllowEntry now e => (AddAllowEntry now e d).2
  | MDeleteAllowEntry id => (DeleteAllowEntry id d).2
  | MUpsertNotifier now n => (UpsertNotifier now n d).2
  | MDeleteNotifier name => (DeleteNotifier name d).2
  | MRecordNotification now n => (RecordNotification now n d).2
  end.

(** Every state a fresh database can get to. *)
Inductive reachable : DB -> Prop :=
  | reach_empty : reachable empty_db
  | reach_exec m d : reachable d -> reachable (exec m d).

(** ** Helpers *)
Lemma Forall_delete_where {A} (P Q : A -> Prop) `{!forall x, Decision (P x)} t :
  Forall Q t -> Forall Q (delete_where P t).
Proof.
  rewrite !Forall_forall. intros HQ x Hx. apply elem_of_delete_where in Hx as [_ Hx]. auto.
Qed.

Lemma Forall_update {A} (P Q : A -> Prop) `{!forall x, Decision (P x)} (f : A -> A) t :
  (forall x, Q x -> Q (f x)) -> Forall Q t -> Forall Q (update P f t).
Proof.
  intros Hf HQ. unfold update. rewrite Forall_fmap. eapply Forall_impl; [done|].
  intros x Hx. simpl. case_decide; auto.
Qed.

(** Updating rows of [runs] without touching ids. *)
Lemma wf_update_runs d (P : Run -> Prop) `{!forall r, Decision (P r)} f :
  (forall r, Run_ID (f r) = Run_ID r) ->
  (forall r, IsValid (Run_State r) = true -> IsValid (Run_State (f r)) = true) ->
  wf d -> wf (set_runs (update P f (runs d)) d).
Proof.
  intros Hid Hst []. split; simpl; rewrite ?update_keys by done; auto using keyed_update.
  by apply Forall_update.
Qed.

Lemma wf_insert_runs d t r :
  insert_unique Run_ID r (runs d) = Some t -> IsValid (Run_State r) = true ->
  wf d -> wf (set_runs t d).
Proof.
  intros Ht Hst []. apply insert_unique_Some in Ht as (Hn & Hk & _ & ->); [|done].
  split; simpl; auto.
  - by apply Forall_app_2; [|apply Forall_singleton].
  - eapply Forall_impl; [done|]. intros e He. rewrite fmap_app. set_solver.
  - eapply Forall_impl; [done|]. intros v [H1 H2]. rewrite fmap_app. set_solver.
  - eapply Forall_impl; [done|]. intros v [H1 H2]. rewrite fmap_app. set_solver.
Qed.

Lemma number_events_ids runID next evs :
  Ev_ID <$> number_events runID next evs = (fun i => next + Z.of_nat i)%Z <$> seq 0 (length evs).
Proof.
  unfold number_events. rewrite fmap_imap. unfold compose. simpl.
  rewrite <- imap_seq_0. apply imap_ext. by intros.
Qed.

Lemma elem_of_number_events runID next evs e :
  e ∈ number_events runID next evs ->
  Ev_RunID e = runID /\ (next <= Ev_ID e < next + Z.of_nat (length evs))%Z.
Proof.
  unfold number_events. rewrite elem_of_lookup_imap. intros (i & x & -> & Hx). simpl.
  apply lookup_lt_Some in Hx. split; [done|lia].
Qed.

Lemma keyed_number_events runID next evs : keyed Ev_ID (number_events runID next evs).
Proof.
  unfold keyed. rewrite number_events_ids. apply NoDup_fmap_2; [|apply NoDup_seq].
  intros i j. lia.
Qed.

Lemma wf_append_events d runID evs :
  runID ∈ Run_ID <$> runs d -> wf d ->
  wf (set_events (events d ++ number_events runID (events_seq d + 1) evs)
        (events_seq d + Z.of_nat (length evs)) d).
Proof.
  intros Hr []. split; simpl; auto; try lia; elementwise.
  - unfold keyed. rewrite fmap_app, NoDup_app. split_and!; [done| |apply keyed_number_events].
    intros k Hk Hk'. rewrite list_elem_of_fmap in Hk, Hk'.
    destruct Hk as (e & -> & He), Hk' as (e' & E & He').
    apply elem_of_number_events in He' as [_ He']. apply wf_events_seq0 in He. lia.
  - apply Forall_forall. intros e [He|He]%elem_of_app.
    + apply wf_events_seq0 in He. lia.
    + apply elem_of_number_events in He as [_ He]. lia.
  - apply Forall_forall. intros e [He|He]%elem_of_app; [by apply wf_events_fk0|].
    apply elem_of_number_events in He as [-> _]. done.
  - apply Forall_forall. intros v Hv. destruct (wf_devs_fk0 v Hv) as [? ?].
    split; [done|]. rewrite fmap_app. set_solver.
Qed.

Lemma wf_merge d runID rows :
  wf d -> wf (set_baseline
    (foldl (fun t r => upsert bl_key bump_baseline (fill_baseline runID r) t) (baseline d) rows) d).
Proof.
  intros []. split; simpl; auto.
  generalize dependent (baseline d). induction rows as [|r rows IH]; intros t Ht; simpl; [done|].
  apply IH. by apply keyed_upsert.
Qed.

Lemma wf_insert_deviation d r d' : insert_deviation r d = Some d' -> wf d -> wf d'.
Proof.
  unfold insert_deviation. case_decide as Hfk; [|done]. intros Hins Hwf.
  apply fmap_Some in Hins as (t & Ht & ->). destruct Hwf.
  apply insert_unique_Some in Ht as (Hn & Hk & _ & ->); [|done].
  split; simpl; auto. apply Forall_app_2; [done|]. by apply Forall_singleton.
Qed.

Lemma wf_insert_deviations rows d d' : insert_deviations rows d = Some d' -> wf d -> wf d'.
Proof.
  revert d. induction rows as [|r rows IH]; intros d; simpl; [by intros [= <-]|].
  destruct (insert_deviation r d) as [d1|] eqn:E; [|done].
  eauto using wf_insert_deviation.
Qed.

Lemma wf_prune d cutoff : wf d -> wf (PruneEvents cutoff d).2.
Proof.
  intros []. split; simpl; auto using Forall_delete_where.
  - by apply keyed_filter.
  - elementwise. apply Forall_forall. intros v Hv. destruct (wf_devs_fk0 v Hv) as [? He].
    split; [done|]. rewrite list_elem_of_fmap in He |- *. destruct He as (e & Ee & He).
    exists e. split; [done|]. apply elem_of_delete_where. split; [|done].
    intros [_ Hn]. apply Hn. rewrite list_elem_of_fmap. eauto.
Qed.

Lemma wf_remove_package d name : wf d -> wf (RemoveWatchedPackage name d).2.
Proof.
  unfold RemoveWatchedPackage. intros Hwf. case_decide; [done|]. destruct Hwf.
  split; simpl; auto; try (by apply keyed_filter). elementwise.
  apply Forall_forall. intros r Hr. apply elem_of_delete_where in Hr as [Hn Hr].
  specialize (wf_releases_fk0 r Hr). rewrite list_elem_of_fmap in wf_releases_fk0 |- *.
  destruct wf_releases_fk0 as (p & Ep & Hp). exists p. split; [done|].
  apply elem_of_delete_where. naive_solver.
Qed.

Lemma wf_delete_notifier d name : wf d -> wf (DeleteNotifier name d).2.
Proof.
  intros []. split; simpl; auto; try (by apply keyed_filter). elementwise.
  apply Forall_forall. intros n Hn. apply elem_of_delete_where in Hn as [Hne Hn].
  destruct (wf_notifs_fk0 n Hn) as [? Hf]. split; [done|].
  rewrite list_elem_of_fmap in Hf |- *. destruct Hf as (x & Ex & Hx). exists x.
  split; [done|]. apply elem_of_delete_where. naive_solver.
Qed.

Lemma wf_upsert_notifier d now n : wf d -> wf (UpsertNotifier now n d).2.
Proof.
  intros []. split; simpl; auto.
  - by apply keyed_upsert.
  - elementwise. apply Forall_forall. intros x Hx. destruct (wf_notifs_fk0 x Hx) as [? Hf]. split; [done|].
    unfold upsert. case_decide; [by rewrite update_keys|]. rewrite fmap_app. set_solver.
Qed.

Lemma IsValid_done : IsValid RunStateDone = true.
Proof. reflexivity. Qed.
Lemma IsValid_result s : IsValid (result_state s) = true.
Proof. unfold result_state. by case_decide. Qed.
#[export] Hint Resolve IsValid_done IsValid_result : fangs.

Lemma wf_exec m d : wf d -> wf (exec m d).
Proof.
  intros Hwf. destruct m; simpl.
  - unfold CreateRun. destruct (IsValid (Run_State r)) eqn:E; simpl; [|done].
    destruct (insert_unique _ _ _) eqn:Ei; [|done]. by eapply wf_insert_runs.
  - unfold UpdateRunState. destruct (IsValid st) eqn:E; simpl; [|done].
    case_decide; [done|]. by apply wf_update_runs.
  - unfold AppendEvents. destruct evs; [done|]. case_decide; [|done]. by apply wf_append_events.
  - unfold MergeBaseline. destruct rows; [done|]. by apply wf_merge.
  - unfold MarkRunBaseline. case_decide; [done|]. by apply wf_update_runs.
  - unfold WriteDeviations. destruct (insert_deviations rows d) eqn:E; [|done].
    by eapply wf_insert_deviations.
  - destruct Hwf. split; simpl; auto using Forall_delete_where; by apply keyed_filter.
  - unfold AddWatchedPackage. destruct (insert_unique _ _ _) eqn:Ei; [|done].
    destruct Hwf. apply insert_unique_Some in Ei as (_ & Hk & _ & ->); [|done].
    split; simpl; auto. eapply Forall_impl; [done|]. intros r Hr. rewrite fmap_app. set_solver.
  - by apply wf_remove_package.
  - destruct Hwf. split; simpl; rewrite ?update_keys by done; auto using keyed_update.
  - unfold RecordRelease. case_decide; [|done].
    destruct (insert_unique _ _ _) eqn:Ei; [|done].
    destruct Hwf. apply insert_unique_Some in Ei as (_ & Hk & _ & ->); [|done].
    split; simpl; auto. by apply Forall_app_2; [|apply Forall_singleton].
  - unfold RecordScanResult. case_decide; [done|]. apply wf_update_runs; [done|intros; apply IsValid_result|done].
  - by apply wf_prune.
  - unfold AddAllowEntry. case_decide as Hc; [|done].
    destruct (insert_unique _ _ _) eqn:Ei; [|done].
    destruct Hwf. apply insert_unique_Some in Ei as (_ & Hk & _ & ->); [|done].
    split; simpl; auto. by apply Forall_app_2; [|apply Forall_singleton].
  - destruct Hwf. split; simpl; auto using Forall_delete_where; by apply keyed_filter.
  - by apply wf_upsert_notifier.
  - by apply wf_delete_notifier.
  - unfold RecordNotification. case_decide; [|done].
    destruct (insert_unique _ _ _) eqn:Ei; [|done].
    destruct Hwf. apply insert_unique_Some in Ei as (_ & Hk & _ & ->); [|done].
    split; simpl; auto. by apply Forall_app_2; [|apply Forall_singleton].
Qed.

(** ** Abstraction to the storage contract *)
Definition view (d : DB) : Store :=
  mkStore (tbl Run_ID (runs d)) (tbl Ev_ID (events d)) (tbl bl_key (baseline d))
          (tbl Dev_ID (deviations d)) (tbl Al_ID (allowlists d)).

(** An operation of the backend meets its specification. *)
Definition meets {A} (m : M DB A) (spec : Store -> res A -> Store -> Prop) : Prop :=
  forall d, wf d -> let '(r, d') := m d in wf d' /\ spec (view d) r (view d').

Lemma GetRun_meets id : meets (GetRun id) (spec_GetRun id).
Proof.
  intros d Hwf. unfold GetRun, spec_GetRun, spec_query.
  pose proof (filter_key_head Run_ID (runs d) id (wf_runs d Hwf)) as Hh.
  destruct (filter _ (runs d)) as [|r l]; simpl in *; by rewrite <- Hh.
Qed.

#[local] Instance ev_le_total : Total ev_le.
Proof. intros x y. unfold ev_le. lia. Qed.

Lemma ListEventsByRun_meets id lim : meets (ListEventsByRun id lim) (spec_ListEventsByRun id lim).
Proof.
  intros d Hwf. unfold ListEventsByRun, spec_ListEventsByRun, spec_query.
  split; [done|]. split; [done|].
  eexists _, (order_by ev_le (filter (fun e => Ev_RunID e = id) (events d))).
  split; [done|]. split; [|split].
  - unfold events_of. rewrite !order_by_perm. simpl.
    by rewrite (tbl_values Ev_ID) by apply Hwf.
  - apply Sorted_merge_sort, _.
  - by repeat case_decide; destruct (Z.leb_spec lim 0); try lia.
Qed.

Lemma ListAllowEntries_meets : meets ListAllowEntries spec_ListAllowEntries.
Proof.
  intros d Hwf. split; [done|]. split; [done|]. eexists. split; [done|].
  rewrite order_by_perm. simpl. by rewrite (tbl_values Al_ID) by apply Hwf.
Qed.

Lemma LoadBaseline_meets pkg : meets (LoadBaseline pkg) (spec_LoadBaseline pkg).
Proof.
  intros d Hwf. split; [done|]. split; [done|]. eexists. split; [done|].
  simpl. by rewrite (tbl_values bl_key) by apply Hwf.
Qed.

Lemma merge_rows_tbl runID rows t :
  keyed bl_key t ->
  tbl bl_key (foldl (fun t r => upsert bl_key bump_baseline (fill_baseline runID r) t) t rows) =
    foldl (merge_one runID) (tbl bl_key t) rows.
Proof.
  revert t. induction rows as [|r rows IH]; intros t Ht; simpl; [done|].
  rewrite IH by (by apply keyed_upsert). f_equal. by rewrite tbl_upsert.
Qed.

Lemma MergeBaseline_meets id rows : meets (MergeBaseline id rows) (spec_MergeBaseline id rows).
Proof.
  intros d Hwf. unfold MergeBaseline. destruct rows as [|r rows].
  - split; [done|]. by destruct (view d) eqn:E.
  - split; [by apply (wf_merge d id (r :: rows))|]. split; [done|].
    unfold view, with_baseline. cbn [set_baseline baseline runs events deviations allowlists
      st_runs st_events st_devs st_allow st_baseline].
    by rewrite merge_rows_tbl by apply Hwf.
Qed.

Lemma MarkRunBaseline_meets id b : meets (MarkRunBaseline id b) (spec_MarkRunBaseline id b).
Proof.
  intros d Hwf. unfold MarkRunBaseline, spec_MarkRunBaseline. simpl.
  pose proof (rows_affected_key Run_ID (runs d) id) as Hz.
  case_decide as H0.
  - apply Hz in H0. by rewrite H0.
  - destruct (tbl Run_ID (runs d) !! id) as [r|] eqn:E; [|by destruct H0; apply Hz].
    split; [by apply wf_update_runs|]. split; [done|].
    unfold view, with_runs. simpl. by erewrite tbl_update_key by (done || apply Hwf).
Qed.

Lemma dev_insertable_iff d r :
  wf d ->
  dev_insertable (view d) r <->
  (Dev_RunID r ∈ Run_ID <$> runs d /\ Dev_EvidenceEventID r ∈ Ev_ID <$> events d) /\
  Dev_ID r ∉ Dev_ID <$> deviations d.
Proof.
  intros Hwf. unfold dev_insertable. simpl.
  rewrite tbl_lookup_None, !tbl_key_elem. naive_solver.
Qed.

(** One INSERT of a deviation, against the abstract store. *)
Lemma insert_deviation_spec d r :
  wf d ->
  match insert_deviation r d with
  | Some d' => wf d' /\ dev_insertable (view d) r /\
      view d' = with_devs (<[Dev_ID r := stored_dev r]> (st_devs (view d))) (view d)
  | None => ~ dev_insertable (view d) r
  end.
Proof.
  intros Hwf. destruct (insert_deviation r d) as [d'|] eqn:E.
  - split; [by eapply wf_insert_deviation|]. rewrite dev_insertable_iff by done.
    unfold insert_deviation in E. case_decide as Hfk; [|done].
    apply fmap_Some in E as (t & Ht & ->).
    apply (insert_unique_Some Dev_ID) in Ht as (Hn & _ & Ht & _); [|apply Hwf].
    apply tbl_lookup_None in Hn. split; [done|].
    unfold view, with_devs. simpl. by rewrite Ht.
  - rewrite dev_insertable_iff by done. unfold insert_deviation in E. intros [Hfk Hn].
    rewrite decide_True in E by done. apply fmap_None in E.
    apply insert_unique_None in E. apply Hn, tbl_key_elem. exact E.
Qed.

Lemma dev_insertable_after st r r' :
  dev_insertable (with_devs (<[Dev_ID r := stored_dev r]> (st_devs st)) st) r' <->
  dev_insertable st r' /\ Dev_ID r' <> Dev_ID r.
Proof.
  unfold dev_insertable. simpl. rewrite lookup_insert_None. naive_solver.
Qed.

Lemma insert_deviations_spec rows d :
  wf d ->
  match insert_deviations rows d with
  | Some d' => wf d' /\ NoDup (Dev_ID <$> rows) /\ Forall (dev_insertable (view d)) rows /\
      view d' = with_devs (insert_devs rows (st_devs (view d))) (view d)
  | None => ~ (NoDup (Dev_ID <$> rows) /\ Forall (dev_insertable (view d)) rows)
  end.
Proof.
  revert d. induction rows as [|r rows IH]; intros d Hwf; simpl.
  - split_and!; [done|apply NoDup_nil_2|by apply Forall_nil|done].
  - pose proof (insert_deviation_spec d r Hwf) as Hr.
    destruct (insert_deviation r d) as [d1|] eqn:E.
    2:{ rewrite Forall_cons. naive_solver. }
    destruct Hr as (Hwf1 & Hr & Hv). specialize (IH d1 Hwf1). rewrite Hv in IH.
    assert (Hiff : Forall (dev_insertable (with_devs (<[Dev_ID r := stored_dev r]>
        (st_devs (view d))) (view d))) rows <->
      Forall (dev_insertable (view d)) rows /\ Dev_ID r ∉ Dev_ID <$> rows).
    { rewrite !Forall_forall, list_elem_of_fmap. setoid_rewrite dev_insertable_after.
      split; [intros HF; split|intros [HF Hn] x Hx; split; eauto].
      - intros x Hx. by apply HF.
      - intros (x & Ex & Hx). by apply (HF x Hx). }
    destruct (insert_deviations rows d1) as [d2|]; rewrite ?fmap_cons, NoDup_cons, Forall_cons.
    + destruct IH as (? & ? & HF & Hv2). apply Hiff in HF as [? ?]. done.
    + rewrite Hiff in IH. naive_solver.
Qed.

Lemma WriteDeviations_meets rows : meets (WriteDeviations rows) (spec_WriteDeviations rows).
Proof.
  intros d Hwf. unfold WriteDeviations, spec_WriteDeviations.
  pose proof (insert_deviations_spec rows d Hwf) as Hs.
  destruct (insert_deviations rows d) as [d'|]; [naive_solver|].
  split; [done|]. right. eauto.
Qed.

Lemma DeleteDeviationsForRun_meets id :
  meets (DeleteDeviationsForRun id) (spec_DeleteDeviationsForRun id).
Proof.
  intros d Hwf. split; [by apply (wf_exec (MDeleteDeviationsForRun id))|]. split; [done|].
  unfold view, with_devs, delete_where. simpl. by rewrite (tbl_filter Dev_ID) by apply Hwf.
Qed.

Lemma ListDeviations_meets id : meets (ListDeviations id) (spec_ListDeviations id).
Proof.
  intros d Hwf. split; [done|]. split; [done|]. eexists. split; [done|].
  rewrite order_by_perm. simpl. by rewrite (tbl_values Dev_ID) by apply Hwf.
Qed.

#[export] Instance sqlite_backend : Backend DB := {|
  Storage.CreateRun := CreateRun; Storage.UpdateRunState := UpdateRunState;
  Storage.GetRun := GetRun; Storage.ListRuns := ListRuns;
  Storage.AppendEvents := AppendEvents; Storage.ListEventsByRun := ListEventsByRun;
  Storage.EventCount := EventCount; Storage.LoadBaseline := LoadBaseline;
  Storage.MergeBaseline := MergeBaseline; Storage.MarkRunBaseline := MarkRunBaseline;
  Storage.WriteDeviations := WriteDeviations;
  Storage.DeleteDeviationsForRun := DeleteDeviationsForRun;
  Storage.ListDeviations := ListDeviations;
  Storage.ListDeviationsFiltered := ListDeviationsFiltered;
  Storage.GetDeviation := GetDeviation; Storage.GetEvent := GetEvent;
  Storage.ListPackages := ListPackages; Storage.ListRunsByPackage := ListRunsByPackage;
  Storage.ResolveRunPrefix := ResolveRunPrefix;
  Storage.ResolveDeviationPrefix := ResolveDeviationPrefix;
  Storage.AddWatchedPackage := AddWatchedPackage;
  Storage.RemoveWatchedPackage := RemoveWatchedPackage;
  Storage.ListWatchedPackages := ListWatchedPackages;
  Storage.UpdatePackageCheck := UpdatePackageCheck; Storage.RecordRelease := RecordRelease;
  Storage.ListReleasesByPackage := ListReleasesByPackage;
  Storage.RecordScanResult := RecordScanResult;
  Storage.EventsDroppedTotal := EventsDroppedTotal; Storage.PruneEvents := PruneEvents;
  Storage.AddAllowEntry := AddAllowEntry; Storage.ListAllowEntries := ListAllowEntries;
  Storage.DeleteAllowEntry := DeleteAllowEntry;
  Storage.ResolveAllowPrefix := ResolveAllowPrefix;
  Storage.UpsertNotifier := UpsertNotifier; Storage.ListNotifiers := ListNotifiers;
  Storage.GetNotifier := GetNotifier; Storage.DeleteNotifier := DeleteNotifier;
  Storage.RecordNotification := RecordNotification;
  Storage.ListNotificationsByRun := ListNotificationsByRun
|}.

Lemma meets_refines {A} (m : M DB A) (spec : Store -> res A -> Store -> Prop) :
  meets m spec -> refines wf (fun _ => True) view m spec.
Proof. intros Hm d Hwf. specialize (Hm d Hwf). destruct (m d). naive_solver. Qed.

#[export] Instance sqlite_laws : BackendLaws DB := {|
  inv := wf; healthy := fun _ => True; Storage.view := view;
  GetRun_refines id := meets_refines _ _ (GetRun_meets id);
  ListEventsByRun_refines id l := meets_refines _ _ (ListEventsByRun_meets id l);
  ListAllowEntries_refines := meets_refines _ _ ListAllowEntries_meets;
  LoadBaseline_refines pkg := meets_refines _ _ (LoadBaseline_meets pkg);
  MergeBaseline_refines id rows := meets_refines _ _ (MergeBaseline_meets id rows);
  MarkRunBaseline_refines id b := meets_refines _ _ (MarkRunBaseline_meets id b);
  WriteDeviations_refines rows := meets_refines _ _ (WriteDeviations_meets rows);
  DeleteDeviationsForRun_refines id := meets_refines _ _ (DeleteDeviationsForRun_meets id);
  ListDeviations_refines id := meets_refines _ _ (ListDeviations_meets id);
  view_runs_keyed d id r Hwf := tbl_lookup_Some_key Run_ID (runs d) id r (wf_runs d Hwf);
  view_baseline_keyed d k r Hwf := tbl_lookup_Some_key bl_key (baseline d) k r (wf_baseline d Hwf);
  view_devs_keyed d id r Hwf := tbl_lookup_Some_key Dev_ID (deviations d) id r (wf_devs d Hwf);
  view_events_keyed d id r Hwf := tbl_lookup_Some_key Ev_ID (events d) id r (wf_events d Hwf)
|}.

(** ** Prefix resolution *)
Definition no_wildcard (c : Ascii.ascii) : Prop := c <> "%"%char /\ c <> "_"%char.

Lemma like_percent s : like ["%"%char] s = true.
Proof. induction s as [|c s IH]; [done|]. simpl in *. by rewrite IH. Qed.

Lemma list_of_ToLower s : list_of_string (ToLower s) = lower_ascii <$> list_of_string s.
Proof. induction s as [|c s IH]; [done|]. simpl. by rewrite IH. Qed.

(** Without wildcards, [LIKE p || '%'] is a case-insensitive prefix test. *)
Lemma like_prefix p s :
  Forall no_wildcard p ->
  like (p ++ ["%"%char]) s = true <-> exists k, lower_ascii <$> s = (lower_ascii <$> p) ++ k.
Proof.
  intros Hp. revert s. induction Hp as [|c p [H1 H2] Hp IH]; intros s.
  - simpl app. rewrite like_percent. simpl. naive_solver.
  - simpl. rewrite (proj2 (Ascii.eqb_neq c "%"%char) H1).
    rewrite (proj2 (Ascii.eqb_neq c "_"%char) H2). destruct s as [|x s]; simpl.
    + split; [done|]. by intros (k & ?).
    + rewrite andb_true_iff, IH. destruct (Ascii.eqb_spec (lower_ascii c) (lower_ascii x)) as [->|Hne].
      * split; [intros [_ (k & E)]; exists k; exact (f_equal (cons (lower_ascii x)) E)|].
        intros (k & [= E]). split; [done|]. eauto.
      * split; [by intros []|]. intros (k & E). congruence.
Qed.

Lemma id_like_spec prefix id :
  Forall no_wildcard (list_of_string prefix) ->
  id_like prefix id = true <-> HasPrefix (ToLower id) (ToLower prefix) = true.
Proof.
  intros Hp. unfold id_like. rewrite list_of_string_app. change (list_of_string "%") with ["%"%char].
  rewrite like_prefix by done. rewrite HasPrefix_spec. split.
  - intros (k & E). exists (string_of_list k). apply list_of_string_inj.
    by rewrite list_of_string_app, !list_of_ToLower, E, list_of_string_of_list.
  - intros (t & E). exists (list_of_string t).
    by rewrite <- !list_of_ToLower, <- list_of_string_app, E.
Qed.

(** The rows of table [t] a short id stands for. *)
Definition short_matches {A} (id : A -> string) (prefix : string) (r : A) : Prop :=
  HasPrefix (ToLower (id r)) (ToLower prefix) = true.

Lemma resolve_prefix_spec {A} (id : A -> string) t prefix :
  keyed id t -> prefix <> "" -> Forall no_wildcard (list_of_string prefix) ->
  match resolve id t prefix with
  | Ok r => r ∈ t /\ short_matches id prefix r /\
            (forall r', r' ∈ t -> short_matches id prefix r' -> r' = r)
  | Err e => (e = ErrNotFound /\ forall r, r ∈ t -> ~ short_matches id prefix r) \/
             (e = ErrAmbiguous /\ exists r r', r ∈ t /\ r' ∈ t /\ id r <> id r' /\
                short_matches id prefix r /\ short_matches id prefix r')
  end.
Proof.
  intros Hk Hne Hw. unfold resolve. rewrite decide_False by done.
  pose proof (unique_row_spec id (fun r => id_like prefix (id r) = true) t Hk) as H.
  assert (forall r, id_like prefix (id r) = true <-> short_matches id prefix r) as E by
    (intros r; by apply id_like_spec).
  destruct (unique_row _); setoid_rewrite E in H; exact H.
Qed.

(** ** Event round trip *)
Definition ev_body (e : EventRow) : Z * string * jdata := (Ev_TsNS e, Ev_Type e, Ev_Data e).

Lemma number_events_body id next evs : ev_body <$> number_events id next evs = ev_body <$> evs.
Proof.
  unfold number_events. rewrite fmap_imap. unfold compose. simpl.
  rewrite <- (imap_const ev_body). by apply imap_ext.
Qed.

Lemma number_events_sorted id next evs :
  StronglySorted (fun x y => (Ev_TsNS x <= Ev_TsNS y)%Z) evs ->
  StronglySorted ev_le (number_events id next evs).
Proof.
  intros Hs. revert next. induction Hs as [|e evs Hs IH Hall]; intros next; [constructor|].
  unfold number_events. rewrite imap_cons. constructor.
  - specialize (IH (next + 1)%Z). unfold number_events in IH.
    erewrite imap_ext; [exact IH|]. intros i x _. simpl. f_equal. lia.
  - apply Forall_forall. intros x Hx. apply elem_of_lookup_imap in Hx as (i & y & -> & Hy).
    rewrite Forall_forall in Hall. specialize (Hall y (list_elem_of_lookup_2 _ _ _ Hy)).
    unfold ev_le. simpl. lia.
Qed.

(** A list already in (ts, id) order, with distinct ids, is what ORDER BY gives. *)
Lemma order_by_sorted l : keyed Ev_ID l -> StronglySorted ev_le l -> order_by ev_le l = l.
Proof.
  intros Hk Hs. apply (StronglySorted_unique_strong ev_le); [| |done|apply order_by_perm].
  - intros x y Hx Hy. rewrite order_by_perm in Hx. intros H1 H2.
    apply (NoDup_fmap_inj_elem Ev_ID l); try done. unfold ev_le in *. lia.
  - apply Sorted_StronglySorted; [|apply Sorted_merge_sort, _].
    intros a b c. unfold ev_le. lia.
Qed.

(** ** Retention *)
Lemma prune_keeps d cutoff e :
  e ∈ events (PruneEvents cutoff d).2 <-> e ∈ events d /\ ~ prunable d cutoff e.
Proof. simpl. rewrite elem_of_delete_where. tauto. Qed.

Lemma length_filter_split {A} (P : A -> Prop) `{!forall x, Decision (P x)} l :
  length (filter P l) + length (filter (fun x => ~ P x) l) = length l.
Proof.
  induction l as [|x l IH]; [done|]. rewrite !filter_cons.
  destruct (decide (P x)); destruct (decide (~ P x)); simpl; try done; lia.
Qed.

(** ** Properties *)
Lemma wf_reachable d : reachable d -> wf d.
Proof. induction 1; [apply wf_empty|by apply wf_exec]. Qed.

(** C3: every database the backend's statements can produce from an empty
    one satisfies the schema invariant: primary keys are unique, references
    from releases, events, deviations and notifications resolve, event ids
    are positive and at most the AUTOINCREMENT counter, run states are valid
    and allowlist rows satisfy their CHECK constraints. *)
Theorem reachable_wf d : reachable d -> wf d.
Proof. apply wf_reachable. Qed.

Definition wit_run : Run := new_run "r1" "axios" "1.0" RunStatePending 1.
Definition wit_event (ts : Z) : EventRow := mkEventRow 0%Z "r1" ts "exec" None.
Definition wit_db : DB :=
  exec (MAppendEvents "r1" [wit_event 5%Z; wit_event 9%Z]) (exec (MCreateRun 0%Z wit_run) empty_db).

Lemma wit_db_reachable : reachable wit_db.
Proof. do 2 constructor. constructor. Qed.

Lemma reachable_wf_witness : reachable wit_db /\ wf wit_db.
Proof. split; [apply wit_db_reachable|apply reachable_wf, wit_db_reachable]. Defined.

(** C5: the SQLite backend implements the storage contract: on a well-formed
    database each operation the analysis uses preserves the invariant and
    relates result and new state as the contract says - lookups read the map
    of the table, MergeBaseline adds occurrence counts key by key,
    WriteDeviations is all-or-nothing, DeleteDeviationsForRun removes exactly
    the run's rows, and a missing run is ErrNotFound with nothing changed. *)
Theorem sqlite_implements_storage :
  (forall id, meets (GetRun id) (spec_GetRun id)) /\
  (forall id lim, meets (ListEventsByRun id lim) (spec_ListEventsByRun id lim)) /\
  meets ListAllowEntries spec_ListAllowEntries /\
  (forall pkg, meets (LoadBaseline pkg) (spec_LoadBaseline pkg)) /\
  (forall id rows, meets (MergeBaseline id rows) (spec_MergeBaseline id rows)) /\
  (forall id b, meets (MarkRunBaseline id b) (spec_MarkRunBaseline id b)) /\
  (forall rows, meets (WriteDeviations rows) (spec_WriteDeviations rows)) /\
  (forall id, meets (DeleteDeviationsForRun id) (spec_DeleteDeviationsForRun id)) /\
  (forall id, meets (ListDeviations id) (spec_ListDeviations id)).
Proof.
  split_and!; auto using GetRun_meets, ListEventsByRun_meets, ListAllowEntries_meets,
    LoadBaseline_meets, MergeBaseline_meets, MarkRunBaseline_meets, WriteDeviations_meets,
    DeleteDeviationsForRun_meets, ListDeviations_meets.
Qed.

(** retention. Pruning at a cutoff keeps an event exactly when it is
    recent enough or is the evidence of some deviation, reports the number
    of rows it removed, never leaves a deviation without its evidence event,
    and a second prune at the same cutoff removes nothing. *)
Theorem PruneEvents_spec d cutoff :
  wf d ->
  let '(r, d') := PruneEvents cutoff d in
  (forall e, e ∈ events d' <->
     e ∈ events d /\ ((cutoff <= Ev_TsNS e)%Z \/
                      exists v, v ∈ deviations d /\ Dev_EvidenceEventID v = Ev_ID e)) /\
  r = Ok (Z.of_nat (length (events d)) - Z.of_nat (length (events d')))%Z /\
  (forall v, v ∈ deviations d' -> Dev_EvidenceEventID v ∈ Ev_ID <$> events d') /\
  PruneEvents cutoff d' = (Ok 0%Z, d').
Proof.
  intros Hwf. destruct (PruneEvents cutoff d) as [r d'] eqn:E.
  pose proof (wf_prune d cutoff Hwf) as Hwf'. rewrite E in Hwf'. simpl in Hwf'.
  pose proof (prune_keeps d cutoff) as Hk. rewrite E in Hk. simpl in Hk.
  injection E as <- <-. split_and!.
  - intros e. rewrite Hk. unfold prunable. rewrite list_elem_of_fmap.
    destruct (decide (Ev_TsNS e < cutoff)%Z).
    + destruct (decide (Ev_ID e ∈ Dev_EvidenceEventID <$> deviations d)) as [Hin|Hin];
        rewrite list_elem_of_fmap in Hin; split; naive_solver lia.
    + split; naive_solver lia.
  - f_equal. simpl. unfold rows_affected, delete_where.
    pose proof (length_filter_split (prunable d cutoff) (events d)). lia.
  - intros v Hv. destruct (proj1 (Forall_forall _ _) (wf_devs_fk _ Hwf') v Hv). done.
  - unfold PruneEvents, set_events. simpl. f_equal.
    + apply (f_equal (fun n => Ok (Z.of_nat n)) (y := 0)).
      apply rows_affected_0, Forall_forall. intros e He.
      apply elem_of_delete_where in He as [He _]. exact He.
    + f_equal. apply delete_where_idemp.
Qed.

Lemma PruneEvents_spec_witness :
  wf wit_db /\ (PruneEvents 7%Z wit_db).1 = Ok 1%Z /\
  (let '(r, d') := PruneEvents 7%Z wit_db in PruneEvents 7%Z d' = (Ok 0%Z, d')).
Proof.
  pose proof (wf_reachable wit_db wit_db_reachable) as Hwf.
  split_and!; [done|vm_compute; reflexivity|].
  pose proof (PruneEvents_spec wit_db 7%Z Hwf) as H.
  destruct (PruneEvents 7%Z wit_db) as [r d']. apply H.
Defined.

(** event round trip. Events appended to a run that has none yet, already
    in timestamp order and no more than the query limit (0 means 10000), come
    back from ListEventsByRun in the same order with the same timestamps,
    types and payloads, under fresh ids. *)
Theorem append_then_list d runID evs limit :
  wf d -> runID ∈ Run_ID <$> runs d ->
  Forall (fun e => Ev_RunID e <> runID) (events d) ->
  StronglySorted (fun x y => (Ev_TsNS x <= Ev_TsNS y)%Z) evs ->
  (Z.of_nat (length evs) <= (if decide (limit <= 0) then 10000 else limit))%Z ->
  exists d' rows, AppendEvents runID evs d = (Ok tt, d') /\
    ListEventsByRun runID limit d' = (Ok rows, d') /\
    ev_body <$> rows = ev_body <$> evs /\
    Forall (fun e => Ev_RunID e = runID /\ Ev_ID e ∉ Ev_ID <$> events d) rows.
Proof.
  intros Hwf Hrun Hnone Hs Hlim.
  exists (AppendEvents runID evs d).2, (number_events runID (events_seq d + 1) evs).
  assert (Hev : events (AppendEvents runID evs d).2 =
                events d ++ number_events runID (events_seq d + 1) evs).
  { unfold AppendEvents. destruct evs; [by rewrite app_nil_r|]. by rewrite decide_True. }
  split_and!.
  - unfold AppendEvents. destruct evs; [done|]. by rewrite decide_True.
  - unfold ListEventsByRun. f_equal. f_equal. rewrite Hev, filter_app.
    rewrite (filter_none _ (events d)) by done. rewrite filter_all.
    2:{ apply Forall_forall. intros e He. by apply elem_of_number_events in He as [? _]. }
    simpl. rewrite order_by_sorted by auto using keyed_number_events, number_events_sorted.
    unfold limit_to. apply take_ge. unfold number_events. rewrite length_imap.
    case_decide; destruct (Z.leb_spec limit 0); lia.
  - apply number_events_body.
  - apply Forall_forall. intros e He. apply elem_of_number_events in He as [? He]. split; [done|].
    rewrite list_elem_of_fmap. intros (e' & E & He').
    destruct (proj1 (Forall_forall _ _) (wf_events_seq _ Hwf) e' He'). lia.
Qed.

Lemma append_then_list_witness :
  exists d' rows,
    AppendEvents "r1" [wit_event 5%Z; wit_event 9%Z] (exec (MCreateRun 0%Z wit_run) empty_db) = (Ok tt, d') /\
    ListEventsByRun "r1" 0 d' = (Ok rows, d') /\
    ev_body <$> rows = [(5%Z, "exec", None); (9%Z, "exec", None)].
Proof.
  destruct (append_then_list (exec (MCreateRun 0%Z wit_run) empty_db) "r1"
              [wit_event 5%Z; wit_event 9%Z] 0) as (d' & rows & H1 & H2 & H3 & _).
  - apply wf_exec, wf_empty.
  - vm_compute. left.
  - constructor.
  - repeat constructor; simpl; lia.
  - rewrite decide_True by done. simpl. lia.
  - eauto.
Defined.

(** short ids. For a prefix without LIKE wildcards, ResolveRunPrefix
    returns the one run whose id starts with the prefix, ignoring ASCII case;
    it answers ErrNotFound exactly when there is none and ErrAmbiguous when
    two different runs match. *)
Theorem ResolveRunPrefix_spec d prefix :
  wf d -> prefix <> "" -> Forall no_wildcard (list_of_string prefix) ->
  match (ResolveRunPrefix prefix d).1 with
  | Ok r => r ∈ runs d /\ short_matches Run_ID prefix r /\
            (forall r', r' ∈ runs d -> short_matches Run_ID prefix r' -> r' = r)
  | Err e => (e = ErrNotFound /\ forall r, r ∈ runs d -> ~ short_matches Run_ID prefix r) \/
             (e = ErrAmbiguous /\ exists r r', r ∈ runs d /\ r' ∈ runs d /\ Run_ID r <> Run_ID r' /\
                short_matches Run_ID prefix r /\ short_matches Run_ID prefix r')
  end.
Proof. intros Hwf Hne Hw. apply resolve_prefix_spec; [apply Hwf|done|done]. Qed.

Lemma ResolveRunPrefix_spec_witness :
  (ResolveRunPrefix "R" wit_db).1 = Ok (stored_run 0%Z wit_run) /\
  match (ResolveRunPrefix "R" wit_db).1 with
  | Ok r => r ∈ runs wit_db
  | Err _ => True
  end.
Proof.
  split; [vm_compute; reflexivity|].
  pose proof (ResolveRunPrefix_spec wit_db "R" (wf_reachable _ wit_db_reachable)) as H.
  destruct (ResolveRunPrefix "R" wit_db).1; [|exact I]. apply H; [done|].
  repeat constructor; discriminate.
Defined.

(** LIKE wildcards in the prefix are not escaped: with a single run in
    the table, the "prefix" [_] resolves to it even though its id does not
    start with an underscore. *)
Theorem ResolveRunPrefix_wildcard d r :
  runs d = [r] -> Run_ID r <> "" -> ~ short_matches Run_ID "_" r ->
  (ResolveRunPrefix "_" d).1 = Ok r.
Proof.
  intros Hr Hid _. unfold ResolveRunPrefix. simpl. unfold resolve. rewrite Hr, decide_False by done.
  rewrite filter_cons_True; [done|]. destruct (Run_ID r) as [|c s]; [done|].
  change (like ["%"%char] (list_of_string s) = true). apply like_percent.
Qed.

Lemma ResolveRunPrefix_wildcard_witness :
  runs wit_db = [stored_run 0%Z wit_run] /\
  (ResolveRunPrefix "_" wit_db).1 = Ok (stored_run 0%Z wit_run).
Proof.
  split; [reflexivity|]. apply ResolveRunPrefix_wildcard; [reflexivity|done|].
  unfold short_matches. vm_compute. discriminate.
Defined.

(** Two runs, the second created 100 ms after the first. *)
Definition two_runs : DB :=
  exec (MCreateRun 100000000%Z (new_run "r2" "axios" "1.1" RunStatePending 1))
    (exec (MCreateRun 0%Z wit_run) empty_db).

(** the most-recent-first listing compares RFC 3339 texts, not instants:
    a run started on a whole second is listed before one started 100 ms
    later, because the text of the later one continues with a dot where the
    earlier one has its Z. *)
Theorem ListRuns_not_chronological :
  reachable two_runs /\
  exists r1 r2, (ListRuns 10 two_runs).1 = Ok [r1; r2] /\
    Run_StartedAt r1 = Some 0%Z /\ Run_StartedAt r2 = Some 100000000%Z.
Proof.
  split; [do 2 constructor; constructor|].
  eexists _, _. split; [vm_compute; reflexivity|]. done.
Qed.

(** a state update touches nothing but the one run's lifecycle columns,
    stamps started_at only on entering "building" for the first time and
    finished_at only on a terminal state, and keeps the failure reason unless
    the new state is "failed"; an unknown state or run changes nothing. *)
Theorem UpdateRunState_spec now id st reason d :
  wf d ->
  match UpdateRunState now id st reason d with
  | (Err e, d') => d' = d /\ (IsValid st = false \/ (e = ErrNotFound /\ tbl Run_ID (runs d) !! id = None))
  | (Ok _, d') => IsValid st = true /\ exists r r',
      tbl Run_ID (runs d) !! id = Some r /\ tbl Run_ID (runs d') = <[id := r']> (tbl Run_ID (runs d)) /\
      d' = set_runs (runs d') d /\ Run_State r' = st /\
      (Run_StartedAt r' = Run_StartedAt r \/
       (Run_StartedAt r = None /\ st = RunStateBuilding /\ Run_StartedAt r' = Some now)) /\
      Run_FinishedAt r' = (if decide (st = RunStateDone \/ st = RunStateFailed)
                           then Some now else Run_FinishedAt r) /\
      Run_FailureReason r' = (if decide (st = RunStateFailed) then reason else Run_FailureReason r) /\
      Run_IsBaseline r' = Run_IsBaseline r /\ Run_Attempt r' = Run_Attempt r
  end.
Proof.
  intros Hwf. unfold UpdateRunState. destruct (IsValid st) eqn:Est; simpl; [|auto].
  pose proof (rows_affected_key Run_ID (runs d) id) as Hz.
  case_decide as H0; [naive_solver|]. split; [done|].
  destruct (tbl Run_ID (runs d) !! id) as [r|] eqn:E; [|by destruct H0; apply Hz].
  eexists r, _. split; [done|]. split; [by eapply tbl_update_key; [apply Hwf|done|done]|].
  split; [done|]. split; [done|]. simpl. split.
  { destruct (Run_StartedAt r); [by left|]. case_decide; [right; done|by left]. }
  split; [|done]. repeat case_decide; try done; exfalso; set_solver.
Qed.

Lemma UpdateRunState_spec_witness :
  wf wit_db /\ exists d', UpdateRunState 3%Z "r1" RunStateFailed "oom" wit_db = (Ok tt, d').
Proof.
  split; [apply (wf_reachable _ wit_db_reachable)|].
  pose proof (UpdateRunState_spec 3%Z "r1" RunStateFailed "oom" wit_db (wf_reachable _ wit_db_reachable)) as H.
  destruct (UpdateRunState 3%Z "r1" RunStateFailed "oom" wit_db) as [[[]|e] d'] eqn:E; [eauto|].
  exfalso. destruct H as [_ [H|[_ H]]]; vm_compute in H; discriminate.
Defined.

End SqliteSpec.
