(* ===== verification/Rows.v ===== *)
(** * Rows as the driver sees them

    What database/sql puts between the storage backends and their tables: the
    values of a row, the conversions of [Scan] into the destinations the
    source uses, and the loop that reads the rows of a query.  SqliteRows.v
    and PostgresRows.v build the scan functions of the two backends on it. *)
From stdpp Require Import prelude strings list.
From S2P Require Import Prelude GoTime.

Module Rows.

Inductive value : Type :=
  | VNull
  | VInt (n : Z)
  | VText (s : string)
  | VBool (b : bool)
  | VTime (t : time).

#[export] Instance value_eq_dec : EqDecision value.
Proof. solve_decision. Defined.

Definition ErrNoRows : error := Sentinel "sql: no rows in result set".
Definition null_error : error := Errorf "converting NULL is unsupported".
Definition conv_error : error := Errorf "unsupported Scan, storing driver.Value".

(** What a value is written as when its destination is a string. *)
Definition as_string (v : value) : option string :=
  match v with
  | VNull => None
  | VInt n => Some (decimal n)
  | VText s => Some s
  | VBool b => Some (if b then "true" else "false")
  | VTime t => Some (rfc3339nano t)
  end.

(** The destinations: [*string], [*int]/[*int64], [*bool], [*time.Time],
    [*sql.NullString], [*sql.NullInt64] and [*sql.NullTime]. *)
Definition to_string (v : value) : res string :=
  match as_string v with Some s => Ok s | None => Err null_error end.

Definition to_int (v : value) : res Z :=
  match v with
  | VNull => Err null_error
  | VInt n => Ok n
  | VText s => match ParseInt s with Some n => Ok n | None => Err conv_error end
  | VBool _ | VTime _ => Err conv_error
  end.

Definition ParseBool (s : string) : res bool :=
  if decide (s ∈ ["1"; "t"; "T"; "true"; "TRUE"; "True"]) then Ok true
  else if decide (s ∈ ["0"; "f"; "F"; "false"; "FALSE"; "False"]) then Ok false
  else Err conv_error.

Definition to_bool (v : value) : res bool :=
  match v with
  | VBool b => Ok b
  | VInt n => if decide (n = 1%Z) then Ok true else if decide (n = 0%Z) then Ok false else Err conv_error
  | VText s => ParseBool s
  | VNull | VTime _ => Err conv_error
  end.

Definition to_time (v : value) : res time :=
  match v with VTime t => Ok t | _ => Err conv_error end.

(** A [Null] destination takes NULL as "not valid". *)
Definition nullable {A} (conv : value -> res A) (v : value) : res (option A) :=
  match v with VNull => Ok None | _ => Some <$> conv v end.
Definition to_NullString : value -> res (option string) := nullable to_string.
Definition to_NullInt64 : value -> res (option Z) := nullable to_int.
Definition to_NullTime : value -> res (option time) := nullable to_time.

(** One destination after the other. *)
Definition reader (A : Type) : Type := list value -> res (A * list value).
#[export] Instance reader_ret : MRet reader := fun A a vs => Ok (a, vs).
#[export] Instance reader_bind : MBind reader := fun A B f m vs =>
  match m vs with Ok (a, vs') => f a vs' | Err e => Err e end.

Definition count_error : error := Errorf "sql: expected another number of destination arguments in Scan".
Definition column {A} (conv : value -> res A) : reader A := fun vs =>
  match vs with
  | [] => Err count_error
  | v :: vs' => match conv v with Ok a => Ok (a, vs') | Err e => Err (Wrapf "sql: Scan error" e) end
  end.

(** [rows.Scan(dest...)]: as many destinations as columns. *)
Definition Scan {A} (r : reader A) (vs : list value) : res A :=
  match r vs with
  | Ok (a, []) => Ok a
  | Ok (_, _ :: _) => Err count_error
  | Err e => Err e
  end.

(** [row.Scan] of a query for at most one row. *)
Definition ScanRow {A} (r : reader A) (row : option (list value)) : res A :=
  match row with None => Err ErrNoRows | Some vs => Scan r vs end.

(** [for rows.Next() { x, err := scan(rows); if err != nil { return nil, err }; ... }] *)
Fixpoint scan_all {R A} (scan : R -> res A) (rows : list R) : res (list A) :=
  match rows with
  | [] => Ok []
  | r :: rows' => x ← scan r; xs ← scan_all scan rows'; Ok (x :: xs)
  end.

(** Reading one column, then the rest. *)
Lemma column_bind {A B} (conv : value -> res A) (f : A -> reader B) v vs a :
  conv v = Ok a -> (column conv ≫= f) (v :: vs) = f a vs.
Proof. intros E. unfold mbind, reader_bind, column. by rewrite E. Qed.

(** Scanning rows that were made from [l] gives [l] back. *)
Lemma scan_all_fmap {R A} (scan : R -> res A) (row : A -> R) l :
  Forall (fun x => scan (row x) = Ok x) l -> scan_all scan (row <$> l) = Ok l.
Proof.
  induction 1 as [|x l Hx _ IH]; [done|]. csimpl. rewrite Hx. simpl. rewrite IH. done.
Qed.

(** The first row that does not scan fails the whole list. *)
Lemma scan_all_Err {R A} (scan : R -> res A) rows e :
  scan_all scan rows = Err e <->
  exists pre r post, rows = pre ++ r :: post /\ Forall (fun r => is_Ok (scan r) = true) pre /\ scan r = Err e.
Proof.
  split.
  - induction rows as [|r rows IH]; simpl; [done|].
    destruct (scan r) as [x|e'] eqn:E; simpl; [|intros [= <-]; by exists [], r, rows].
    destruct (scan_all scan rows) as [xs|e'] eqn:E'; simpl; [done|]. intros [= ->].
    destruct (IH eq_refl) as (pre & r' & post & -> & Hpre & Hr).
    exists (r :: pre), r', post. split; [done|]. split; [|done]. constructor; [by rewrite E|done].
  - intros (pre & r & post & -> & Hpre & Hr).
    induction Hpre as [|x pre Hx _ IH]; simpl; [by rewrite Hr|].
    destruct (scan x); [|done]. simpl. by rewrite IH.
Qed.

End Rows.
