(* ===== verification/SqliteRows.v ===== *)
(** * sqlite: columns

    The SQLite backend (internal/orchestrator/storage/sqlite/sqlite.go) one
    level below Sqlite.v: the arguments of every INSERT, the columns every
    UPDATE sets, and the functions that scan a row back.  Timestamps are TEXT
    in RFC 3339, booleans are 0 or 1, empty strings of nullable columns are
    NULL.  [statements_on_columns] shows that the records Sqlite.v keeps are
    what the statements leave in the columns, [rows_read_back] that the scans
    return these records, in every state reached with instants of the years
    0 to 9999. *)
From stdpp Require Import prelude strings gmap list.
From S2P Require Import Prelude GoTime TimeText Json Sql Storage Sqlite SqliteSpec Rows.

Module SqliteRows.
Import Sqlite SqliteSpec TimeText Rows.

(** ** Values written *)
Definition boolToInt (b : bool) : value := VInt (if b then 1 else 0)%Z.
Definition boolInt (b : bool) : value := VInt (if b then 1 else 0)%Z.
Definition format_time (t : time) : value := VText (rfc3339nano t).
Definition nullableTime (t : option time) : value :=
  match t with None => VNull | Some t => VText (rfc3339nano t) end.
Definition nullableString (s : string) : value :=
  if decide (s = "") then VNull else VText s.

(** ** Values read *)

(** [t, _ := time.Parse(...)]: the zero time when the text is no timestamp. *)
Definition parse_or_zero (s : string) : time := default zero_time (Parse s).

Definition scanRun (row : option (list value)) : res Run :=
  let r := ScanRow (
    id ← column to_string; pkg ← column to_string; ver ← column to_string;
    tarball ← column to_string; lockfile ← column to_string;
    node ← column to_string; npm ← column to_string; state ← column to_string;
    attempt ← column to_int; isBaseline ← column to_int;
    started ← column to_NullString; finished ← column to_NullString;
    reason ← column to_string;
    emitted ← column to_int; dropped ← column to_int; duration ← column to_int;
    mret (mkRun id pkg ver tarball lockfile node npm state attempt
            (negb (bool_decide (isBaseline = 0%Z)))
            (parse_or_zero <$> started) (parse_or_zero <$> finished) reason
            emitted dropped duration)) row in
  match r with
  | Ok run => Ok run
  | Err e => if decide (e = ErrNoRows) then Err ErrNotFound else Err e
  end.

Definition scanDeviationRow (row : option (list value)) : res DeviationRow :=
  let r := ScanRow (
    id ← column to_string; run ← column to_string; cat ← column to_string;
    val ← column to_string; ev ← column to_int; sev ← column to_string;
    detected ← column to_string; notified ← column to_NullString;
    suppressed ← column to_int;
    mret (mkDeviationRow id run cat val ev sev (parse_or_zero detected)
            (notified ≫= Parse) (negb (bool_decide (suppressed = 0%Z))))) row in
  match r with
  | Ok d => Ok d
  | Err e => if errors_Is e ErrNoRows then Err ErrNotFound else Err e
  end.

Definition scanDeviationRows (rows : list (list value)) : res (list DeviationRow) :=
  scan_all (fun vs => scanDeviationRow (Some vs)) rows.

Definition scanAllowEntry (vs : list value) : res AllowEntry :=
  Scan (
    id ← column to_string; scope ← column to_string; pkg ← column to_NullString;
    kind ← column to_string; val ← column to_string; note ← column to_string;
    created ← column to_string;
    mret (mkAllowEntry id scope (default "" pkg) kind val note (parse_or_zero created))) vs.

(** [GetNotifier] turns the missing row of [scanNotifier] into ErrNotFound. *)
Definition scanNotifier (row : option (list value)) : res NotifierRow :=
  ScanRow (
    name ← column to_string; url ← column to_string; template ← column to_string;
    secret ← column to_NullString; headers ← column to_NullString; minSev ← column to_NullString;
    enabled ← column to_int; created ← column to_string; updated ← column to_string;
    mret (mkNotifierRow name url template (default "" secret) (default "" headers)
            (default "" minSev) (negb (bool_decide (enabled = 0%Z)))
            (parse_or_zero created) (parse_or_zero updated))) row.

Definition scanNotification (vs : list value) : res NotificationRow :=
  Scan (
    id ← column to_string; run ← column to_string; name ← column to_string;
    attempt ← column to_int; status ← column to_string;
    lastAt ← column to_NullString; nextAt ← column to_NullString;
    code ← column to_NullInt64; body ← column to_NullString; msg ← column to_NullString;
    count ← column to_int; created ← column to_string;
    mret (mkNotificationRow id run name attempt status (lastAt ≫= Parse) (nextAt ≫= Parse)
            (default 0%Z code) (default "" body) (default "" msg) count (parse_or_zero created))) vs.

(** The loop body of [ListWatchedPackages]. *)
Definition scanWatchedPackage (vs : list value) : res WatchedPackage :=
  Scan (
    name ← column to_string; added ← column to_string;
    lastCheck ← column to_NullString; lastSeen ← column to_NullString;
    mret (mkWatchedPackage name (parse_or_zero added) (lastCheck ≫= Parse) (default "" lastSeen))) vs.

(** The loop body of [ListReleasesByPackage]. *)
Definition scanRelease (vs : list value) : res ReleaseRow :=
  Scan (
    pkg ← column to_string; ver ← column to_string; sha ← column to_string;
    integrity ← column to_string; published ← column to_string; discovered ← column to_string;
    mret (mkReleaseRow pkg ver sha integrity (parse_or_zero published) (parse_or_zero discovered))) vs.

(** The loop body of [LoadBaseline]. *)
Definition scanBaseline (vs : list value) : res BaselineRow :=
  Scan (
    pkg ← column to_string; cat ← column to_string; val ← column to_string;
    first ← column to_string; last ← column to_string; n ← column to_int;
    mret (mkBaselineRow pkg cat val first last n)) vs.

(** The loop body of [ListEventsByRun] and [GetEvent].  The payload column is
    kept beside the others, as what its bytes decode to. *)
Definition scanEvent (row : list value * jdata) : res EventRow :=
  Scan (
    id ← column to_int; run ← column to_string; ts ← column to_int; type ← column to_string;
    mret (mkEventRow id run ts type (row.2))) (row.1).

(** ** Arguments of the INSERTs

    In the order of the SELECTs; a column the INSERT leaves out has its
    DEFAULT. *)
Definition run_args (r : Run) : list value :=
  [VText (Run_ID r); VText (Run_PackageName r); VText (Run_Version r); VText (Run_TarballSHA256 r);
   VText (Run_LockfileSHA256 r); VText (Run_NodeVersion r); VText (Run_NPMVersion r);
   VText (Run_State r); VInt (Run_Attempt r); boolToInt (Run_IsBaseline r);
   nullableTime (Run_StartedAt r); nullableTime (Run_FinishedAt r); VText (Run_FailureReason r)].

Definition deviation_args (r : DeviationRow) : list value :=
  [VText (Dev_ID r); VText (Dev_RunID r); VText (Dev_Category r); VText (Dev_Value r);
   VInt (Dev_EvidenceEventID r); VText (Dev_Severity r); format_time (Dev_DetectedAt r);
   VInt (if Dev_Suppressed r then 1 else 0)%Z].

Definition allow_args (now : time) (e : AllowEntry) : list value :=
  [VText (Al_ID e); VText (Al_Scope e); nullableString (Al_PackageName e); VText (Al_Kind e);
   VText (Al_Value e); VText (Al_Note e);
   if IsZero (Al_CreatedAt e) then format_time now else format_time (Al_CreatedAt e)].

Definition notifier_args (now : time) (n : NotifierRow) : list value :=
  [VText (Nt_Name n); VText (Nt_URL n); VText (Nt_Template n); nullableString (Nt_SecretEnv n);
   nullableString (Nt_Headers n); nullableString (Nt_MinSeverity n); boolInt (Nt_Enabled n);
   if IsZero (Nt_CreatedAt n) then format_time now else format_time (Nt_CreatedAt n);
   format_time now].

Definition notification_args (now : time) (n : NotificationRow) : list value :=
  [VText (Nf_ID n); VText (Nf_RunID n); VText (Nf_NotifierName n); VInt (Nf_Attempt n);
   VText (Nf_Status n); nullableTime (Nf_LastAttemptedAt n); nullableTime (Nf_NextAttemptAt n);
   VInt (Nf_ResponseCode n); nullableString (Nf_ResponseBody n); nullableString (Nf_ErrorMsg n);
   VInt (Nf_DeviationCount n);
   if IsZero (Nf_CreatedAt n) then format_time now else format_time (Nf_CreatedAt n)].

Definition package_args (now : time) (name : string) : list value := [VText name; format_time now].

Definition release_args (r : ReleaseRow) : list value :=
  [VText (Rel_PackageName r); VText (Rel_Version r); VText (Rel_TarballSHA256 r);
   VText (Rel_NPMIntegrity r); format_time (Rel_PublishedAt r); format_time (Rel_DiscoveredAt r)].

Definition baseline_args (r : BaselineRow) : list value :=
  [VText (Bl_PackageName r); VText (Bl_Category r); VText (Bl_Value r);
   VText (Bl_FirstSeenRunID r); VText (Bl_LastSeenRunID r); VInt (Bl_OccurrenceCount r)].

Definition event_args (runID : string) (e : EventRow) : list value * jdata :=
  ([VText runID; VInt (Ev_TsNS e); VText (Ev_Type e)], Ev_Data e).

(** ** Columns set by the UPDATEs *)
Definition coalesce (v w : value) : value := match v with VNull => w | _ => v end.
Definition at_ (row : list value) (i : nat) : value := default VNull (row !! i).

(** Positions in the SELECT list of runs. *)
Notation col_state := 7 (only parsing).
Notation col_is_baseline := 9 (only parsing).
Notation col_started_at := 10 (only parsing).
Notation col_finished_at := 11 (only parsing).
Notation col_failure_reason := 12 (only parsing).

Definition set_state (now : time) (state reason : string) (row : list value) : list value :=
  <[col_state := VText state]>
  (<[col_started_at := coalesce (at_ row col_started_at)
       (if decide (state = "building") then format_time now else VNull)]>
  (<[col_finished_at := if decide (state ∈ ["done"; "failed"]) then format_time now
                        else at_ row col_finished_at]>
  (<[col_failure_reason := if decide (state = "failed") then VText reason
                           else at_ row col_failure_reason]> row))).

Definition set_result_columns (now : time) (r : ScanResult) (row : list value) : list value :=
  <[col_state := VText (if decide (SR_Status r ∈ ["failed"; "timeout"]) then "failed" else "done")]>
  (<[col_finished_at := format_time now]>
  (<[col_failure_reason := if decide (SR_Reason r <> "") then VText (SR_Reason r)
                           else at_ row col_failure_reason]>
  (<[13 := VInt (SR_EventsEmitted r)]> (<[14 := VInt (SR_EventsDropped r)]>
  (<[15 := VInt (SR_DurationNS r)]> row))))).

Definition set_is_baseline (b : bool) (row : list value) : list value :=
  <[col_is_baseline := VInt (if b then 1 else 0)%Z]> row.

Definition set_check (now : time) (version : string) (row : list value) : list value :=
  if decide (version <> "")
  then <[2 := format_time now]> (<[3 := VText version]> row)
  else <[2 := format_time now]> row.

(** [excluded] is the row the INSERT proposed. *)
Definition merge_baseline_columns (excluded row : list value) : list value :=
  <[4 := at_ excluded 4]>
  (<[5 := match at_ row 5, at_ excluded 5 with VInt m, VInt n => VInt (m + n) | _, _ => VNull end]> row).

Definition merge_notifier_columns (excluded row : list value) : list value :=
  <[1 := at_ excluded 1]> (<[2 := at_ excluded 2]> (<[3 := at_ excluded 3]>
  (<[4 := at_ excluded 4]> (<[5 := at_ excluded 5]> (<[6 := at_ excluded 6]>
  (<[8 := at_ excluded 8]> row)))))).

(** ** The rows of a record *)
Definition run_row (r : Run) : list value :=
  run_args r ++ [VInt (Run_EventsEmitted r); VInt (Run_EventsDropped r); VInt (Run_DurationNS r)].
Definition deviation_row (r : DeviationRow) : list value :=
  take 7 (deviation_args r) ++ [nullableTime (Dev_NotifiedAt r)] ++ drop 7 (deviation_args r).
Definition allow_row (e : AllowEntry) : list value :=
  take 6 (allow_args 0%Z e) ++ [format_time (Al_CreatedAt e)].
Definition notifier_row (n : NotifierRow) : list value :=
  take 7 (notifier_args 0%Z n) ++ [format_time (Nt_CreatedAt n); format_time (Nt_UpdatedAt n)].
Definition notification_row (n : NotificationRow) : list value :=
  take 11 (notification_args 0%Z n) ++ [format_time (Nf_CreatedAt n)].
Definition package_row (p : WatchedPackage) : list value :=
  package_args (Wp_AddedAt p) (Wp_Name p) ++
  [nullableTime (Wp_LastCheckedAt p); nullableString (Wp_LastSeenVersion p)].
Definition event_row (e : EventRow) : list value * jdata :=
  (VInt (Ev_ID e) :: (event_args (Ev_RunID e) e).1, Ev_Data e).

(** ** What the statements leave in the columns *)
Lemma stored_run_row now r : run_row (stored_run now r) =
  run_args (set_lifecycle (Run_State r) (Some (default now (Run_StartedAt r))) (Run_FinishedAt r)
              (Run_FailureReason r) r) ++ [VInt 0; VInt 0; VInt 0].
Proof. by destruct r. Qed.

Lemma stored_dev_row r : deviation_row (stored_dev r) =
  take 7 (deviation_args r) ++ [VNull] ++ drop 7 (deviation_args r).
Proof. by destruct r. Qed.

Lemma stored_allow_row now e : allow_row (stamp_created now e) = allow_args now e.
Proof. destruct e as [???????]. unfold stamp_created, allow_row, allow_args. simpl. by destruct (IsZero _). Qed.

Lemma stored_notifier_row now n : notifier_row (stamp_notifier now n) = notifier_args now n.
Proof.
  destruct n. unfold stamp_notifier, notifier_row, notifier_args. simpl. by destruct (IsZero _).
Qed.

Lemma stored_notification_row now n : notification_row (stamp_notification now n) = notification_args now n.
Proof.
  destruct n. unfold stamp_notification, notification_row, notification_args. simpl. by destruct (IsZero _).
Qed.

Lemma added_package_row now name :
  package_row (mkWatchedPackage name now None "") = package_args now name ++ [VNull; VNull].
Proof. done. Qed.

Lemma numbered_event_row runID next evs i e :
  evs !! i = Some e ->
  event_row <$> number_events runID next evs !! i =
    Some (VInt (next + Z.of_nat i) :: (event_args runID e).1, (event_args runID e).2).
Proof. intros Hi. unfold number_events. by rewrite list_lookup_imap, Hi. Qed.

(** The statements at the level of columns.  The rows an INSERT leaves are the rows of
    the record the backend is modelled to insert, and an UPDATE of the columns
    of a row gives the row of the updated record, with SQL's COALESCE, CASE
    and NULLs on one side and the record functions on the other. *)
Theorem statements_on_columns now :
  (forall st reason r,
     set_state now st reason (run_row r) = run_row (set_lifecycle st
       (match Run_StartedAt r with
        | Some t => Some t
        | None => if decide (st = RunStateBuilding) then Some now else None
        end)
       (if decide (st ∈ [RunStateDone; RunStateFailed]) then Some now else Run_FinishedAt r)
       (if decide (st = RunStateFailed) then reason else Run_FailureReason r) r)) /\
  (forall sr r,
     set_result_columns now sr (run_row r) = run_row (set_result (result_state (SR_Status sr)) (Some now)
       (if decide (SR_Reason sr = "") then Run_FailureReason r else SR_Reason sr)
       (SR_EventsEmitted sr) (SR_EventsDropped sr) (SR_DurationNS sr) r)) /\
  (forall b r, set_is_baseline b (run_row r) = run_row (set_baseline_flag b r)) /\
  (forall ver p, set_check now ver (package_row p) = package_row (checked now ver p)) /\
  (forall old new, merge_baseline_columns (baseline_args new) (baseline_args old) =
     baseline_args (bump_baseline old new)) /\
  (forall old new, merge_notifier_columns (notifier_row new) (notifier_row old) =
     notifier_row (upsert_merge old new)) /\
  (forall e, allow_row (stamp_created now e) = allow_args now e) /\
  (forall n, notifier_row (stamp_notifier now n) = notifier_args now n) /\
  (forall n, notification_row (stamp_notification now n) = notification_args now n) /\
  (forall name, package_row (mkWatchedPackage name now None "") = package_args now name ++ [VNull; VNull]) /\
  (forall r, deviation_row (stored_dev r) = take 7 (deviation_args r) ++ [VNull] ++ drop 7 (deviation_args r)).
Proof.
  split_and!; auto using stored_allow_row, stored_notifier_row, stored_notification_row, stored_dev_row.
  - intros st reason []. unfold set_state, set_lifecycle, RunStateBuilding, RunStateDone, RunStateFailed. simpl.
    destruct Run_StartedAt; simpl; by repeat case_decide.
  - intros [] []. unfold set_result_columns, set_result, result_state. simpl. by repeat case_decide.
  - intros ver []. unfold set_check, checked, package_row. simpl. repeat case_decide; try done.
    unfold nullableString. by case_decide.
Qed.

(** ** Instants that can be written *)
Definition storable_opt (o : option time) : bool := match o with Some t => storable t | None => true end.
Definition storable_run (r : Run) : bool := storable_opt (Run_StartedAt r) && storable_opt (Run_FinishedAt r).
Definition storable_dev (r : DeviationRow) : bool :=
  storable (Dev_DetectedAt r) && storable_opt (Dev_NotifiedAt r).
Definition storable_allow (e : AllowEntry) : bool := storable (Al_CreatedAt e).
Definition storable_notifier (n : NotifierRow) : bool := storable (Nt_CreatedAt n) && storable (Nt_UpdatedAt n).
Definition storable_notification (n : NotificationRow) : bool :=
  storable_opt (Nf_LastAttemptedAt n) && storable_opt (Nf_NextAttemptAt n) && storable (Nf_CreatedAt n).
Definition storable_package (p : WatchedPackage) : bool :=
  storable (Wp_AddedAt p) && storable_opt (Wp_LastCheckedAt p).
Definition storable_release (r : ReleaseRow) : bool :=
  storable (Rel_PublishedAt r) && storable (Rel_DiscoveredAt r).

Record storable_db (d : DB) : Prop := mkStorable {
  st_packages : Forall storable_package (packages d);
  st_releases : Forall storable_release (releases d);
  st_runs : Forall storable_run (runs d);
  st_devs : Forall storable_dev (deviations d);
  st_notifiers : Forall storable_notifier (notifiers d);
  st_notifs : Forall storable_notification (notifications d);
  st_allow : Forall storable_allow (allowlists d)
}.

(** A statement whose clock and arguments are instants of these years. *)
Definition storable_mutation (m : mutation) : bool :=
  match m with
  | MCreateRun now r => storable now && storable_run r
  | MUpdateRunState now _ _ _ | MAddWatchedPackage now _ | MUpdatePackageCheck now _ _
  | MRecordScanResult now _ _ => storable now
  | MWriteDeviations rows => forallb (fun r => storable (Dev_DetectedAt r)) rows
  | MRecordRelease r => storable_release r
  | MAddAllowEntry now e => storable now && storable_allow e
  | MUpsertNotifier now n => storable now && storable (Nt_CreatedAt n)
  | MRecordNotification now n => storable now && storable_notification n
  | MAppendEvents _ _ | MMergeBaseline _ _ | MMarkRunBaseline _ _ | MDeleteDeviationsForRun _
  | MRemoveWatchedPackage _ | MPruneEvents _ | MDeleteAllowEntry _ | MDeleteNotifier _ => true
  end.

Inductive reachable_storable : DB -> Prop :=
  | storable_empty : reachable_storable empty_db
  | storable_step m d : reachable_storable d -> storable_mutation m = true -> reachable_storable (exec m d).

Lemma Forall_insert_unique {K A} `{Countable K} (key : A -> K) (Q : A -> Prop) r t t' :
  insert_unique key r t = Some t' -> Q r -> Forall Q t -> Forall Q t'.
Proof.
  unfold insert_unique. case_decide; [done|]. intros [= <-] Hr Ht.
  by apply Forall_app_2; [|apply Forall_singleton].
Qed.

Lemma Forall_upsert {K A} `{Countable K} (key : A -> K) merge (Q : A -> Prop) r t :
  (forall old, Q old -> Q (merge old r)) -> Q r -> Forall Q t -> Forall Q (upsert key merge r t).
Proof.
  intros Hm Hr Ht. unfold upsert. case_decide; [by apply Forall_update|].
  by apply Forall_app_2; [|apply Forall_singleton].
Qed.

(** Goals about the booleans of records. *)
Ltac instants := unfold storable_run, storable_dev, storable_allow, storable_notifier,
  storable_notification, storable_package, storable_release, storable_opt in *; simpl in *;
  rewrite ?Is_true_true, ?andb_true_iff in *; intuition auto.

Lemma storable_insert_deviations rows d d' :
  insert_deviations rows d = Some d' ->
  forallb (fun r => storable (Dev_DetectedAt r)) rows = true -> storable_db d -> storable_db d'.
Proof.
  revert d. induction rows as [|r rows IH]; intros d E Hr Hd; simpl in *; [by injection E as <-|].
  apply andb_true_iff in Hr as [Hr Hrows]. destruct (insert_deviation r d) as [d1|] eqn:E1; [|done].
  apply (IH d1 E Hrows). unfold insert_deviation in E1. case_decide; [|done].
  apply fmap_Some in E1 as (t & Et & ->). destruct Hd. split; simpl; auto.
  eapply (Forall_insert_unique Dev_ID); [exact Et| |done]. instants.
Qed.

Lemma storable_runs d P `{!forall r, Decision (P r)} f :
  (forall r, storable_run r -> storable_run (f r)) -> storable_db d ->
  storable_db (set_runs (update P f (runs d)) d).
Proof. intros Hf []. split; simpl; auto using Forall_update. Qed.

Lemma storable_exec m d : storable_mutation m = true -> storable_db d -> storable_db (exec m d).
Proof.
  intros Hm Hd. destruct m; simpl in *; rewrite ?andb_true_iff in Hm.
  - unfold CreateRun. destruct (negb _); [done|]. destruct (insert_unique _ _ _) eqn:Ei; [|done].
    destruct Hd. split; simpl; auto. eapply (Forall_insert_unique Run_ID); [exact Ei| |done].
    destruct r as [??????????[]]; instants.
  - unfold UpdateRunState. destruct (negb _); [done|]. case_decide; [done|]. apply storable_runs; [|done].
    intros []. unfold storable_run. simpl. destruct Run_StartedAt; repeat case_decide; instants.
  - unfold AppendEvents. destruct evs; [done|]. case_decide; [|done]. by destruct Hd.
  - unfold MergeBaseline. destruct rows; [done|]. by destruct Hd.
  - unfold MarkRunBaseline. case_decide; [done|]. by apply storable_runs.
  - unfold WriteDeviations. destruct (insert_deviations rows d) eqn:E; [|done].
    by eapply storable_insert_deviations.
  - destruct Hd. split; simpl; auto using Forall_delete_where.
  - unfold AddWatchedPackage. destruct (insert_unique _ _ _) eqn:Ei; [|done].
    destruct Hd. split; simpl; auto. eapply (Forall_insert_unique Wp_Name); [exact Ei| |done]. instants.
  - unfold RemoveWatchedPackage. case_decide; [done|]. destruct Hd. split; simpl; auto using Forall_delete_where.
  - destruct Hd. split; simpl; auto. apply Forall_update; [|done]. intros []. instants.
  - unfold RecordRelease. case_decide; [|done]. destruct (insert_unique _ _ _) eqn:Ei; [|done].
    destruct Hd. split; simpl; auto. eapply (Forall_insert_unique rel_key); [exact Ei| |done]. instants.
  - unfold RecordScanResult. case_decide; [done|]. apply storable_runs; [|done]. intros []. instants.
  - by destruct Hd.
  - unfold AddAllowEntry. case_decide; [|done]. destruct (insert_unique _ _ _) eqn:Ei; [|done].
    destruct Hd. split; simpl; auto. eapply (Forall_insert_unique Al_ID); [exact Ei| |done].
    destruct e. unfold storable_allow, stamp_created in *. simpl in *. destruct (IsZero _); instants.
  - destruct Hd. split; simpl; auto using Forall_delete_where.
  - destruct Hd. split; simpl; auto. apply (Forall_upsert Nt_Name); [| |done].
    + intros [] Hold. destruct n. instants.
    + destruct n. unfold storable_notifier, stamp_notifier. simpl in *. destruct (IsZero _); instants.
  - destruct Hd. split; simpl; auto using Forall_delete_where.
  - unfold RecordNotification. case_decide; [|done]. destruct (insert_unique _ _ _) eqn:Ei; [|done].
    destruct Hd. split; simpl; auto. eapply (Forall_insert_unique Nf_ID); [exact Ei| |done].
    destruct n. unfold storable_notification, stamp_notification in *. simpl in *. destruct (IsZero _); instants.
Qed.

Lemma reachable_storable_db d : reachable_storable d -> storable_db d /\ reachable d.
Proof.
  induction 1 as [|m d Hd [IH IH'] Hm]; [split; [by split|constructor]|].
  split; [by apply storable_exec|by constructor].
Qed.

(** ** Reading back *)
Lemma parse_or_zero_text t : storable t = true -> parse_or_zero (rfc3339nano t) = t.
Proof. intros H. unfold parse_or_zero. by rewrite Parse_rfc3339nano. Qed.

Lemma to_NullString_time o : to_NullString (nullableTime o) = Ok (rfc3339nano <$> o).
Proof. by destruct o. Qed.
Lemma to_NullString_string s : to_NullString (nullableString s) = Ok (if decide (s = "") then None else Some s).
Proof. unfold nullableString. by case_decide. Qed.
Lemma default_NullString s : default "" (if decide (s = "") then None else Some s) = s.
Proof. by case_decide. Qed.

Lemma opt_parse_or_zero o : storable_opt o = true -> parse_or_zero <$> (rfc3339nano <$> o) = o.
Proof. destruct o as [t|]; [|done]. intros H. simpl. by rewrite parse_or_zero_text. Qed.
Lemma opt_parse o : storable_opt o = true -> (rfc3339nano <$> o) ≫= Parse = o.
Proof. destruct o as [t|]; [|done]. intros H. simpl. by rewrite Parse_rfc3339nano. Qed.
Lemma bool_column (b : bool) : negb (bool_decide ((if b then 1 else 0)%Z = 0%Z)) = b.
Proof. by destruct b. Qed.

(** Read the columns one after the other, then undo the encodings. *)
Ltac scan :=
  repeat first
    [ erewrite column_bind by reflexivity
    | erewrite column_bind by apply to_NullString_time
    | erewrite column_bind by apply to_NullString_string ];
  cbn -[parse_or_zero Parse rfc3339nano decide bool_decide];
  rewrite ?default_NullString, ?parse_or_zero_text, ?opt_parse_or_zero, ?opt_parse, ?bool_column by done; try done.

Ltac read_row :=
  intros [] Hs; unfold storable_run, storable_dev, storable_allow, storable_notifier,
    storable_notification, storable_package, storable_release in Hs;
  rewrite ?Is_true_true, ?andb_true_iff in Hs; destruct_and?;
  unfold scanRun, scanDeviationRow, scanAllowEntry, scanNotifier, scanNotification, scanWatchedPackage,
    scanRelease, scanBaseline, scanEvent, ScanRow, Scan, release_args, baseline_args;
  cbn -[mbind column rfc3339nano decide nullableTime nullableString storable storable_opt] in *;
  scan.

Lemma scanRun_row r : storable_run r -> scanRun (Some (run_row r)) = Ok r.
Proof. revert r. read_row. Qed.
Lemma scanDeviationRow_row r : storable_dev r -> scanDeviationRow (Some (deviation_row r)) = Ok r.
Proof. revert r. read_row. Qed.
Lemma scanAllowEntry_row e : storable_allow e -> scanAllowEntry (allow_row e) = Ok e.
Proof. revert e. read_row. Qed.
Lemma scanNotifier_row n : storable_notifier n -> scanNotifier (Some (notifier_row n)) = Ok n.
Proof. revert n. read_row. Qed.
Lemma scanNotification_row n : storable_notification n -> scanNotification (notification_row n) = Ok n.
Proof. revert n. read_row. Qed.
Lemma scanWatchedPackage_row p : storable_package p -> scanWatchedPackage (package_row p) = Ok p.
Proof. revert p. read_row. Qed.
Lemma scanRelease_row r : storable_release r -> scanRelease (release_args r) = Ok r.
Proof. revert r. read_row. Qed.
Lemma scanBaseline_row r : True -> scanBaseline (baseline_args r) = Ok r.
Proof. revert r. read_row. Qed.
Lemma scanEvent_row e : True -> scanEvent (event_row e) = Ok e.
Proof. revert e. read_row. Qed.

(** C16: What the scans read in the database reached by a sequence of statements
    whose clock readings and arguments are instants of the years 0 to 9999 is,
    table by table, the records Sqlite.v keeps: no timestamp, NULL, boolean or
    count is lost or changed on the way through the columns. *)
Theorem rows_read_back d : reachable_storable d ->
  scan_all (fun r => scanRun (Some r)) (run_row <$> runs d) = Ok (runs d) /\
  scanDeviationRows (deviation_row <$> deviations d) = Ok (deviations d) /\
  scan_all scanEvent (event_row <$> events d) = Ok (events d) /\
  scan_all scanBaseline (baseline_args <$> baseline d) = Ok (baseline d) /\
  scan_all scanAllowEntry (allow_row <$> allowlists d) = Ok (allowlists d) /\
  scan_all (fun r => scanNotifier (Some r)) (notifier_row <$> notifiers d) = Ok (notifiers d) /\
  scan_all scanNotification (notification_row <$> notifications d) = Ok (notifications d) /\
  scan_all scanWatchedPackage (package_row <$> packages d) = Ok (packages d) /\
  scan_all scanRelease (release_args <$> releases d) = Ok (releases d).
Proof.
  intros Hd. apply reachable_storable_db in Hd as [[] _].
  split_and!; apply scan_all_fmap;
    eauto using Forall_impl, scanRun_row, scanDeviationRow_row, scanAllowEntry_row, scanNotifier_row,
      scanNotification_row, scanWatchedPackage_row, scanRelease_row;
    apply Forall_true; eauto using scanBaseline_row, scanEvent_row.
Qed.

Lemma rows_read_back_witness :
  let d := exec (MUpdateRunState 1779471600120000000 "r1" RunStateFailed "boom")
    (exec (MRecordRelease (mkReleaseRow "left-pad" "1.3.0" "" "" 1526774400123456789 1779471600000000000))
      (exec (MAddWatchedPackage 1779471600000000000 "left-pad")
        (exec (MCreateRun 1779471600000000000 (new_run "r1" "left-pad" "1.3.0" RunStatePending 1)) empty_db))) in
  reachable_storable d /\
  scan_all scanRelease (release_args <$> releases d) = Ok (releases d) /\
  scan_all (fun r => scanRun (Some r)) (run_row <$> runs d) = Ok (runs d) /\
  length (releases d) = 1 /\ Run_FinishedAt <$> runs d = [Some 1779471600120000000%Z].
Proof.
  intros d. assert (Hd : reachable_storable d).
  { repeat (apply storable_step; [|vm_compute; reflexivity]). apply storable_empty. }
  split; [exact Hd|]. split; [apply (rows_read_back d Hd)|]. split; [apply (rows_read_back d Hd)|].
  vm_compute. by split.
Defined.

End SqliteRows.
