(* ===== verification/SqliteSelect.v ===== *)
(** * sqlite: the queries over columns

    The SELECTs of internal/orchestrator/storage/sqlite/sqlite.go as filters,
    orders and limits of column values, read by the scans of SqliteRows.v.
    [queries_on_columns] shows that they return what Sqlite.v's operations on
    records return: the ORDER BY of TEXT timestamps, COALESCE of a NULL, the
    GROUP BY and JOIN, and the scan of every row included. *)
From stdpp Require Import prelude strings gmap list sorting.
From S2P Require Import Prelude GoTime TimeText Json Sql Storage Sqlite SqliteSpec Rows SqliteRows.

(** ** Sorting and mapping commute *)
Section sort_fmap.
Context {A B : Type} (f : A -> B) (R : relation A) (R' : relation B).
Context `{!forall x y, Decision (R x y)} `{!forall x y, Decision (R' x y)}.
Context (HR : forall x y, R' (f x) (f y) <-> R x y).

Lemma list_merge_fmap l k : list_merge R' (f <$> l) (f <$> k) = f <$> list_merge R l k.
Proof.
  revert k. induction l as [|x l IHl]; [by intros []|].
  induction k as [|y k IHk]; [done|]. csimpl. specialize (HR x y).
  destruct (decide (R x y)), (decide (R' (f x) (f y))); try tauto; csimpl.
  - f_equal. apply (IHl (y :: k)).
  - f_equal. exact IHk.
Qed.

Lemma merge_sort_aux_fmap (st : list (option (list A))) (l : list A) :
  merge_sort_aux R' (fmap (M:=option) (fmap (M:=list) f) <$> st) (f <$> l) = f <$> merge_sort_aux R st l.
Proof.
  assert (Hpush : forall st l, merge_list_to_stack R' (fmap (M:=option) (fmap (M:=list) f) <$> st) (f <$> l) =
    fmap (M:=option) (fmap (M:=list) f) <$> merge_list_to_stack R st l).
  { clear st l. intros st. induction st as [|[k|] st IH]; intros l; csimpl; [done| |done].
    by rewrite list_merge_fmap, IH. }
  revert st. induction l as [|x l IH]; intros st; csimpl.
  - induction st as [|[k|] st IH]; csimpl; [done| |done]. by rewrite IH, list_merge_fmap.
  - by rewrite <- IH, <- Hpush.
Qed.

Lemma order_by_fmap t : order_by R' (f <$> t) = f <$> order_by R t.
Proof. apply (merge_sort_aux_fmap []). Qed.

Lemma limit_to_fmap n (t : list A) : limit_to n (f <$> t) = f <$> limit_to n t.
Proof. unfold limit_to. by rewrite fmap_take. Qed.

Lemma filter_fmap (P : A -> Prop) (Q : B -> Prop) `{!forall x, Decision (P x)} `{!forall y, Decision (Q y)}
    (t : list A) :
  (forall x, Q (f x) <-> P x) -> filter Q (f <$> t) = f <$> filter P t.
Proof.
  intros HQ. induction t as [|x t IH]; [done|]. csimpl. rewrite !filter_cons, IH.
  specialize (HQ x). repeat case_decide; tauto || done.
Qed.
End sort_fmap.

Lemma filter_map {A B} (f : A -> B) (P : A -> Prop) `{!forall x, Decision (P x)} (Q : B -> Prop)
    `{!forall y, Decision (Q y)} (t : list A) :
  (forall x, Q (f x) <-> P x) -> filter Q (f <$> t) = f <$> filter P t.
Proof. apply filter_fmap. Qed.
Lemma order_map {A B} (f : A -> B) (R : relation A) `{!forall x y, Decision (R x y)} (R' : relation B)
    `{!forall x y, Decision (R' x y)} (t : list A) :
  (forall x y, R' (f x) (f y) <-> R x y) -> order_by R' (f <$> t) = f <$> order_by R t.
Proof. intros HR. by apply order_by_fmap. Qed.

Module SqliteSelect.
Import Sqlite SqliteSpec TimeText Rows SqliteRows.

(** ** Comparison of column values

    SQLite orders NULL before numbers before text, text by its bytes. *)
Definition value_le (v w : value) : bool :=
  match v, w with
  | VNull, _ => true
  | _, VNull => false
  | VInt m, VInt n => (m <=? n)%Z
  | VInt _, _ => true
  | _, VInt _ => false
  | VText s, VText t => string_le s t
  | _, _ => true
  end.

(** [ORDER BY k1, k2, ...], each key ascending or descending. *)
Definition key : Type := list value -> value.
Inductive direction := ASC | DESC.
Definition dir_le (d : direction) (v w : value) : bool :=
  match d with ASC => value_le v w | DESC => value_le w v end.
Fixpoint keys_le (ks : list (key * direction)) (x y : list value) : bool :=
  match ks with
  | [] => true
  | (k, d) :: ks' => if decide (k x = k y) then keys_le ks' x y else dir_le d (k x) (k y)
  end.

Definition sorted_by (ks : list (key * direction)) : relation (list value) :=
  fun x y => keys_le ks x y = true.
#[export] Instance sorted_by_dec ks x y : Decision (sorted_by ks x y).
Proof. unfold sorted_by. apply _. Defined.

(** The column at a position of the SELECT list. *)
Definition col (i : nat) : key := fun row => at_ row i.

(** ** The queries *)
Definition where_ (i : nat) (v : value) (t : list (list value)) : list (list value) :=
  filter (fun row => at_ row i = v) t.
Definition positive_or (n limit : Z) : Z := if (limit <=? 0)%Z then n else limit.

Definition select_run (id : string) (t : list (list value)) : res Run :=
  scanRun (head (where_ 0 (VText id) t)).

Definition scan_runs (t : list (list value)) : res (list Run) := scan_all (fun r => scanRun (Some r)) t.

Definition started : key := fun row => coalesce (at_ row col_started_at) (VText "").

Definition select_runs (limit : Z) (t : list (list value)) : res (list Run) :=
  scan_runs (limit_to (positive_or 100 limit) (order_by (sorted_by [(started, DESC)]) t)).

Definition select_runs_by_package (pkg : string) (limit : Z) (t : list (list value)) : res (list Run) :=
  scan_runs (limit_to (positive_or 100 limit)
    (order_by (sorted_by [(started, DESC); (col 0, DESC)]) (where_ 1 (VText pkg) t))).

Definition select_deviations (runID : string) (t : list (list value)) : res (list DeviationRow) :=
  scanDeviationRows (order_by (sorted_by [(col 6, ASC); (col 0, ASC)]) (where_ 1 (VText runID) t)).

Definition select_deviation (id : string) (t : list (list value)) : res DeviationRow :=
  scanDeviationRow (head (where_ 0 (VText id) t)).

Definition select_baseline (pkg : string) (t : list (list value)) : res (list BaselineRow) :=
  scan_all scanBaseline (where_ 0 (VText pkg) t).

Definition select_allow (t : list (list value)) : res (list AllowEntry) :=
  let pkg row := coalesce (at_ row 2) (VText "") in
  scan_all scanAllowEntry
    (order_by (sorted_by [(col 1, ASC); (pkg, ASC); (col 3, ASC); (col 4, ASC)]) t).

Definition select_packages (t : list (list value)) : res (list WatchedPackage) :=
  scan_all scanWatchedPackage (order_by (sorted_by [(col 0, ASC)]) t).

Definition select_releases (name : string) (limit : Z) (t : list (list value)) : res (list ReleaseRow) :=
  scan_all scanRelease
    (limit_to (positive_or 100 limit) (order_by (sorted_by [(col 5, DESC)]) (where_ 0 (VText name) t))).

Definition select_notifiers (t : list (list value)) : res (list NotifierRow) :=
  scan_all (fun r => scanNotifier (Some r)) (order_by (sorted_by [(col 0, ASC)]) t).

Definition select_notifier (name : string) (t : list (list value)) : res NotifierRow :=
  match scanNotifier (head (where_ 0 (VText name) t)) with
  | Ok n => Ok n
  | Err e => if decide (e = ErrNoRows) then Err ErrNotFound else Err e
  end.

Definition select_notifications (runID : string) (t : list (list value)) : res (list NotificationRow) :=
  scan_all scanNotification (order_by (sorted_by [(col 3, ASC)]) (where_ 1 (VText runID) t)).

(** The Resolve methods scan every match, then count. *)
Definition select_prefix {A} (scan : list value -> res A) (prefix : string) (t : list (list value)) : res A :=
  if decide (prefix = "") then Err ErrNotFound else
  matches ← scan_all scan
    (take 2 (filter (fun row => match at_ row 0 with VText id => id_like prefix id | _ => false end = true) t));
  unique_row matches.

(** Events keep the payload column beside the others. *)
Definition on_columns (R : relation (list value)) : relation (list value * jdata) := fun x y => R x.1 y.1.
#[export] Instance on_columns_dec (R : relation (list value)) `{!forall x y, Decision (R x y)} x y :
  Decision (on_columns R x y).
Proof. unfold on_columns. apply _. Defined.

Definition select_events (runID : string) (limit : Z) (t : list (list value * jdata)) : res (list EventRow) :=
  scan_all scanEvent (limit_to (positive_or 10000 limit)
    (order_by (on_columns (sorted_by [(col 2, ASC); (col 0, ASC)])) (filter (fun row => at_ row.1 1 = VText runID) t))).

Definition select_event (id : Z) (t : list (list value * jdata)) : res EventRow :=
  match head (filter (fun row => at_ row.1 0 = VInt id) t) with
  | None => Err ErrNotFound
  | Some row => scanEvent row
  end.

(** COUNT, and SUM of an integer column: NULL over no rows, an error when the
    running total leaves 64 bits. *)
Definition COUNT {R} (rows : list R) : value := VInt (Z.of_nat (length rows)).
Fixpoint sum64 (acc : Z) (vs : list value) : option Z :=
  match vs with
  | [] => Some acc
  | VInt n :: vs' => if decide (- 2 ^ 63 <= acc + n < 2 ^ 63)%Z then sum64 (acc + n)%Z vs' else None
  | _ :: vs' => sum64 acc vs'
  end.
Definition SUM (vs : list value) : res value :=
  match vs with
  | [] => Ok VNull
  | _ => match sum64 0 vs with Some n => Ok (VInt n) | None => Err (Errorf "integer overflow") end
  end.

Definition select_event_count (runID : string) (t : list (list value * jdata)) : res Z :=
  Scan (column to_int) [COUNT (filter (fun row => at_ row.1 1 = VText runID) t)].

Definition select_dropped (t : list (list value)) : res Z :=
  match SUM ((fun row => at_ row 14) <$> t) with
  | Err e => Err (Wrapf "events_dropped total" e)
  | Ok v => match Scan (column to_NullInt64) [coalesce v (VInt 0)] with
            | Ok n => Ok (default 0%Z n)
            | Err e => Err (Wrapf "events_dropped total" e)
            end
  end.

(** [ListPackages]: one row per package name, then the latest run of each. *)
Definition group_row (t : list (list value)) (name : value) : list value :=
  let mine := filter (fun row => at_ row 1 = name) t in
  [name; COUNT mine; COUNT (filter (fun row => at_ row col_is_baseline = VInt 1) mine)].
Definition group_rows (t : list (list value)) : list (list value) :=
  group_row t <$> remove_dups ((fun row => at_ row 1) <$> filter (fun row => at_ row 1 <> VText "") t).

Definition scanSummary (vs : list value) : res PackageSummary :=
  Scan (name ← column to_string; total ← column to_int; baseline ← column to_int;
        mret (mkPackageSummary name total baseline 0 "" "")) vs.

Definition latest_run (name : string) (t : list (list value)) : option (list value) :=
  head (order_by (sorted_by [(col col_started_at, DESC); (col 0, DESC)]) (where_ 1 (VText name) t)).

Definition decorate (runs devs : list (list value)) (p : PackageSummary) : PackageSummary :=
  match latest_run (Ps_Name p) runs with
  | None => p
  | Some row =>
      match Scan (id ← column to_NullString; ver ← column to_NullString; mret (id, ver)) [at_ row 0; at_ row 2] with
      | Ok (Some id, ver) =>
          let n := match Scan (column to_int) [COUNT (where_ 1 (VText id) devs)] with Ok n => n | Err _ => 0%Z end in
          mkPackageSummary (Ps_Name p) (Ps_RunsTotal p) (Ps_RunsBaseline p) n id (default "" ver)
      | _ => p
      end
  end.

Definition select_summaries (runs devs : list (list value)) : res (list PackageSummary) :=
  match scan_all scanSummary (order_by (sorted_by [(col 0, ASC)]) (group_rows runs)) with
  | Err e => Err e
  | Ok l => Ok (decorate runs devs <$> l)
  end.

(** [ListDeviationsFiltered]: the JOIN with runs and the conjuncts the filter
    adds. *)
Definition filtered (f : DeviationFilter) (p : list value * list value) : Prop :=
  (DF_PackageName f <> "" -> at_ p.2 1 = VText (DF_PackageName f)) /\
  (DF_Severity f <> "" -> at_ p.1 5 = VText (DF_Severity f)) /\
  (DF_RunID f <> "" -> at_ p.1 1 = VText (DF_RunID f)).
#[export] Instance filtered_dec f p : Decision (filtered f p).
Proof. unfold filtered. apply _. Defined.
Definition join (runs devs : list (list value)) : list (list value * list value) :=
  dv ← devs; r ← filter (fun r => at_ dv 1 = at_ r 0) runs; [(dv, r)].
Definition select_filtered (f : DeviationFilter) (runs devs : list (list value)) : res (list DeviationRow) :=
  let rows := order_by (sorted_by [(col 6, DESC); (col 0, DESC)]) (fst <$> filter (filtered f) (join runs devs)) in
  scanDeviationRows (if (0 <? DF_Limit f)%Z then limit_to (DF_Limit f) rows else rows).

(** ** Reading the columns of records *)
(** What a query selects comes from the table. *)
Lemma take_incl {A} n (t : list A) : take n t ⊆ t.
Proof. intros x Hx. rewrite <- (take_drop n t). apply elem_of_app. by left. Qed.
Lemma filter_incl {A} (P : A -> Prop) `{!forall x, Decision (P x)} (t : list A) : filter P t ⊆ t.
Proof. intros x Hx. by apply list_elem_of_filter in Hx as [_ Hx]. Qed.
Lemma order_incl {A} (R : relation A) `{!forall x y, Decision (R x y)} (t : list A) : order_by R t ⊆ t.
Proof. intros x. by rewrite order_by_perm. Qed.
Lemma incl_trans {A} (l k t : list A) : l ⊆ k -> k ⊆ t -> l ⊆ t.
Proof. set_solver. Qed.
Ltac selected := unfold limit_to; eauto 6 using take_incl, filter_incl, order_incl, incl_trans.

Section reads.
Context {A : Type} (row : A -> list value) (scan : list value -> res A).

(** The rows a query selects are those of the records the operation selects. *)
Lemma filtered_rows (Q : A -> Prop) `{!forall x, Decision (Q x)} (P : list value -> Prop)
    `{!forall x, Decision (P x)} (t : list A) :
  (forall x, P (row x) <-> Q x) -> filter P (row <$> t) = row <$> filter Q t.
Proof. apply (filter_fmap row Q P). Qed.

Lemma ordered_rows (R : relation A) `{!forall x y, Decision (R x y)} ks t :
  (forall x y, sorted_by ks (row x) (row y) <-> R x y) ->
  order_by (sorted_by ks) (row <$> t) = row <$> order_by R t.
Proof. intros HR. by apply (order_by_fmap row R (sorted_by ks)). Qed.

Lemma scan_rows (l t : list A) :
  Forall (fun x => scan (row x) = Ok x) t -> l ⊆ t -> scan_all scan (row <$> l) = Ok l.
Proof.
  rewrite Forall_forall. intros Ht Hl. apply scan_all_fmap, Forall_forall. intros x Hx. by apply Ht, Hl.
Qed.
End reads.

(** Orders of text columns against orders of strings. *)
Definition text_dir (d : direction) (s t : string) : bool :=
  match d with ASC => string_le s t | DESC => string_le t s end.
Fixpoint texts_le (ds : list direction) (xs ys : list string) : bool :=
  match ds, xs, ys with
  | d :: ds', x :: xs', y :: ys' => if decide (x = y) then texts_le ds' xs' ys' else text_dir d x y
  | _, _, _ => true
  end.

Lemma sorted_texts ks x y xs ys :
  (fun k => k.1 x) <$> ks = VText <$> xs -> (fun k => k.1 y) <$> ks = VText <$> ys ->
  sorted_by ks x y <-> texts_le ks.*2 xs ys = true.
Proof.
  unfold sorted_by. revert xs ys.
  induction ks as [|[k d] ks IH]; intros [|s xs] [|t ys] Ex Ey; csimpl in *; try done.
  injection Ex as Es Ex. injection Ey as Et Ey. rewrite Es, Et. specialize (IH xs ys Ex Ey).
  destruct (decide (s = t)) as [->|Hn]; [by rewrite decide_True|].
  rewrite decide_False by (by intros [= ?]). by destruct d.
Qed.

Lemma texts_le_1 d s t : texts_le [d] [s] [t] = text_dir d s t.
Proof. simpl. case_decide as E; [|done]. subst. destruct d; simpl; by rewrite string_le_refl. Qed.

Lemma texts_le_2 d e s t u v :
  texts_le [d; e] [s; t] [u; v] = if decide (s = u) then text_dir e t v else text_dir d s u.
Proof. rewrite <- (texts_le_1 e t v). done. Qed.

Lemma started_row r : started (run_row r) = VText (started_key r).
Proof. destruct r. unfold started, started_key. simpl. by destruct Run_StartedAt. Qed.

Lemma started_order x y : sorted_by [(started, DESC)] (run_row x) (run_row y) <-> started_desc x y.
Proof.
  rewrite (sorted_texts _ _ _ [started_key x] [started_key y]) by (simpl; by rewrite started_row).
  change ([(started, DESC)].*2) with [DESC]. by rewrite texts_le_1.
Qed.

Lemma started_id_order x y :
  sorted_by [(started, DESC); (col 0, DESC)] (run_row x) (run_row y) <-> started_id_desc x y.
Proof.
  rewrite (sorted_texts _ _ _ [started_key x; Run_ID x] [started_key y; Run_ID y])
    by (simpl; by rewrite started_row).
  change ([(started, DESC); (col 0, DESC)].*2) with [DESC; DESC]. rewrite texts_le_2.
  unfold started_id_desc. by case_decide.
Qed.

Lemma dev_order x y :
  sorted_by [(col 6, ASC); (col 0, ASC)] (deviation_row x) (deviation_row y) <-> dev_key_le x y.
Proof.
  rewrite (sorted_texts _ _ _ [rfc3339nano (Dev_DetectedAt x); Dev_ID x]
    [rfc3339nano (Dev_DetectedAt y); Dev_ID y]) by done.
  change ([(col 6, ASC); (col 0, ASC)].*2) with [ASC; ASC]. rewrite texts_le_2.
  unfold dev_key_le. by case_decide.
Qed.

Lemma allow_row_order x y :
  sorted_by [(col 1, ASC); (fun row => coalesce (at_ row 2) (VText ""), ASC); (col 3, ASC); (col 4, ASC)]
    (allow_row x) (allow_row y) <-> allow_order x y.
Proof.
  assert (Hp : forall e, coalesce (nullableString (Al_PackageName e)) (VText "") = VText (Al_PackageName e)).
  { intros e. unfold nullableString. case_decide as E; [by rewrite E|done]. }
  rewrite (sorted_texts _ _ _ [Al_Scope x; Al_PackageName x; Al_Kind x; Al_Value x]
    [Al_Scope y; Al_PackageName y; Al_Kind y; Al_Value y]) by (cbn; by rewrite Hp).
  unfold allow_order. simpl. by repeat case_decide.
Qed.

Lemma text_order i d {A} (row : A -> list value) (f : A -> string) x y :
  (forall z, at_ (row z) i = VText (f z)) ->
  sorted_by [(col i, d)] (row x) (row y) <-> text_dir d (f x) (f y) = true.
Proof.
  intros Hf. rewrite (sorted_texts _ _ _ [f x] [f y]) by (simpl; unfold col; by rewrite Hf).
  change ([(col i, d)].*2) with [d]. by rewrite texts_le_1.
Qed.

Lemma int_order i {A} (row : A -> list value) (f : A -> Z) x y :
  (forall z, at_ (row z) i = VInt (f z)) ->
  sorted_by [(col i, ASC)] (row x) (row y) <-> num_le f x y.
Proof.
  intros Hf. unfold sorted_by, num_le, col. simpl. rewrite !Hf. case_decide as E; simpl.
  - injection E as ->. split; [lia|done].
  - apply Z.leb_le.
Qed.

Lemma text_eq s t : VText s = VText t <-> s = t.
Proof. split; [by intros [= ->]|by intros ->]. Qed.

(** The head of the rows with a key, scanned. *)
Lemma select_key {A} (row : A -> list value) (f : A -> string) (scan : option (list value) -> res A) id (t : list A) :
  (forall z, at_ (row z) 0 = VText (f z)) -> Forall (fun x => scan (Some (row x)) = Ok x) t ->
  scan (head (where_ 0 (VText id) (row <$> t))) =
    match filter (fun x => f x = id) t with [] => scan None | x :: _ => Ok x end.
Proof.
  intros Hf Ht. unfold where_. rewrite (filtered_rows row (fun x => f x = id)).
  - destruct (filter (fun x => f x = id) t) as [|x l] eqn:E; [done|]. csimpl.
    rewrite Forall_forall in Ht. apply Ht. eapply list_elem_of_filter. rewrite E. by left.
  - intros x. by rewrite Hf, text_eq.
Qed.

Lemma select_prefix_rows {A} (row : A -> list value) (f : A -> string) (scan : list value -> res A) prefix (t : list A) :
  (forall z, at_ (row z) 0 = VText (f z)) -> Forall (fun x => scan (row x) = Ok x) t ->
  select_prefix scan prefix (row <$> t) = resolve f t prefix.
Proof.
  intros Hf Ht. unfold select_prefix, resolve. case_decide; [done|].
  rewrite (filtered_rows row (fun x => id_like prefix (f x) = true)) by (intros x; by rewrite Hf).
  by rewrite <- fmap_take, (scan_rows row scan _ t) by (done || selected).
Qed.

(** The database as columns. *)
Record tables : Type := mkTables {
  t_packages : list (list value);
  t_releases : list (list value);
  t_runs : list (list value);
  t_events : list (list value * jdata);
  t_baseline : list (list value);
  t_deviations : list (list value);
  t_notifiers : list (list value);
  t_notifications : list (list value);
  t_allowlists : list (list value)
}.
Definition columns (d : DB) : tables :=
  mkTables (package_row <$> packages d) (release_args <$> releases d) (run_row <$> runs d) (event_row <$> events d)
    (baseline_args <$> baseline d) (deviation_row <$> deviations d) (notifier_row <$> notifiers d)
    (notification_row <$> notifications d) (allow_row <$> allowlists d).

Lemma storable_scans d : storable_db d ->
  Forall (fun r => scanRun (Some (run_row r)) = Ok r) (runs d) /\
  Forall (fun r => scanDeviationRow (Some (deviation_row r)) = Ok r) (deviations d) /\
  Forall (fun e => scanAllowEntry (allow_row e) = Ok e) (allowlists d) /\
  Forall (fun n => scanNotifier (Some (notifier_row n)) = Ok n) (notifiers d) /\
  Forall (fun n => scanNotification (notification_row n) = Ok n) (notifications d) /\
  Forall (fun p => scanWatchedPackage (package_row p) = Ok p) (packages d) /\
  Forall (fun r => scanRelease (release_args r) = Ok r) (releases d) /\
  Forall (fun r => scanBaseline (baseline_args r) = Ok r) (baseline d).
Proof.
  intros []. split_and!; eauto using Forall_impl, scanRun_row, scanDeviationRow_row, scanAllowEntry_row,
    scanNotifier_row, scanNotification_row, scanWatchedPackage_row, scanRelease_row.
  apply Forall_true. eauto using scanBaseline_row.
Qed.

(** One query after the other, in a database whose rows scan. *)
Section queries.
Context (d : DB) (Hd : storable_db d).

Lemma select_run_ok id : select_run id (run_row <$> runs d) = (GetRun id d).1.
Proof.
  destruct (storable_scans d Hd) as (Hr & _). unfold select_run.
  rewrite (select_key run_row Run_ID scanRun) by done. unfold GetRun. by destruct (filter _ _).
Qed.

Lemma select_runs_ok n : select_runs n (run_row <$> runs d) = (ListRuns n d).1.
Proof.
  destruct (storable_scans d Hd) as (Hr & _). unfold select_runs.
  rewrite (ordered_rows run_row started_desc), limit_to_fmap by apply started_order.
  apply (scan_rows run_row _ _ (runs d)); [done|selected].
Qed.

Lemma select_runs_by_package_ok pkg n :
  select_runs_by_package pkg n (run_row <$> runs d) = (ListRunsByPackage pkg n d).1.
Proof.
  destruct (storable_scans d Hd) as (Hr & _). unfold select_runs_by_package, where_.
  rewrite (filtered_rows run_row (fun r => Run_PackageName r = pkg)) by (intros; apply text_eq).
  rewrite (ordered_rows run_row started_id_desc), limit_to_fmap by apply started_id_order.
  apply (scan_rows run_row _ _ (runs d)); [done|selected].
Qed.

Lemma select_deviations_ok id : select_deviations id (deviation_row <$> deviations d) = (ListDeviations id d).1.
Proof.
  destruct (storable_scans d Hd) as (_ & Hv & _). unfold select_deviations, where_.
  rewrite (filtered_rows deviation_row (fun r => Dev_RunID r = id)) by (intros; apply text_eq).
  rewrite (ordered_rows deviation_row dev_key_le) by apply dev_order.
  apply (scan_rows deviation_row _ _ (deviations d)); [done|selected].
Qed.

Lemma select_deviation_ok id : select_deviation id (deviation_row <$> deviations d) = (GetDeviation id d).1.
Proof.
  destruct (storable_scans d Hd) as (_ & Hv & _). unfold select_deviation.
  rewrite (select_key deviation_row Dev_ID scanDeviationRow) by done.
  unfold GetDeviation. by destruct (filter _ _).
Qed.

Lemma select_baseline_ok pkg : select_baseline pkg (baseline_args <$> baseline d) = (LoadBaseline pkg d).1.
Proof.
  destruct (storable_scans d Hd) as (_ & _ & _ & _ & _ & _ & _ & Hb). unfold select_baseline, where_.
  rewrite (filtered_rows baseline_args (fun r => Bl_PackageName r = pkg)) by (intros; apply text_eq).
  apply (scan_rows baseline_args _ _ (baseline d)); [done|selected].
Qed.

Lemma select_allow_ok : select_allow (allow_row <$> allowlists d) = (ListAllowEntries d).1.
Proof.
  destruct (storable_scans d Hd) as (_ & _ & Ha & _). unfold select_allow.
  rewrite (ordered_rows allow_row allow_order) by apply allow_row_order.
  apply (scan_rows allow_row _ _ (allowlists d)); [done|selected].
Qed.

Lemma select_packages_ok : select_packages (package_row <$> packages d) = (ListWatchedPackages d).1.
Proof.
  destruct (storable_scans d Hd) as (_ & _ & _ & _ & _ & Hp & _). unfold select_packages.
  rewrite (ordered_rows package_row (key_le Wp_Name)) by (intros; by rewrite (text_order _ _ _ Wp_Name)).
  apply (scan_rows package_row _ _ (packages d)); [done|selected].
Qed.

Lemma select_releases_ok name n :
  select_releases name n (release_args <$> releases d) = (ListReleasesByPackage name n d).1.
Proof.
  destruct (storable_scans d Hd) as (_ & _ & _ & _ & _ & _ & Hl & _). unfold select_releases, where_.
  rewrite (filtered_rows release_args (fun r => Rel_PackageName r = name)) by (intros; apply text_eq).
  rewrite (ordered_rows release_args (key_ge (fun r => rfc3339nano (Rel_DiscoveredAt r)))), limit_to_fmap
    by (intros; by rewrite (text_order _ _ _ (fun r => rfc3339nano (Rel_DiscoveredAt r)))).
  apply (scan_rows release_args _ _ (releases d)); [done|selected].
Qed.

Lemma select_notifiers_ok : select_notifiers (notifier_row <$> notifiers d) = (ListNotifiers d).1.
Proof.
  destruct (storable_scans d Hd) as (_ & _ & _ & Hn & _). unfold select_notifiers.
  rewrite (ordered_rows notifier_row (key_le Nt_Name)) by (intros; by rewrite (text_order _ _ _ Nt_Name)).
  apply (scan_rows notifier_row _ _ (notifiers d)); [done|selected].
Qed.

Lemma select_notifier_ok name : select_notifier name (notifier_row <$> notifiers d) = (GetNotifier name d).1.
Proof.
  destruct (storable_scans d Hd) as (_ & _ & _ & Hn & _). unfold select_notifier.
  rewrite (select_key notifier_row Nt_Name scanNotifier) by done.
  unfold GetNotifier. by destruct (filter _ _).
Qed.

Lemma select_notifications_ok id :
  select_notifications id (notification_row <$> notifications d) = (ListNotificationsByRun id d).1.
Proof.
  destruct (storable_scans d Hd) as (_ & _ & _ & _ & Hf & _). unfold select_notifications, where_.
  rewrite (filtered_rows notification_row (fun r => Nf_RunID r = id)) by (intros; apply text_eq).
  rewrite (ordered_rows notification_row (num_le Nf_Attempt)) by (intros; by apply int_order).
  apply (scan_rows notification_row _ _ (notifications d)); [done|selected].
Qed.
(** *** Events *)
Lemma event_order x y :
  on_columns (sorted_by [(col 2, ASC); (col 0, ASC)]) (event_row x) (event_row y) <-> ev_le x y.
Proof.
  unfold on_columns, sorted_by, ev_le. destruct x as [i r t ty dt], y as [j r' u ty' dt']. simpl. unfold col. cbn.
  destruct (decide (VInt t = VInt u)) as [[= ->]|Ht]; [destruct (decide (VInt i = VInt j)) as [[= ->]|Hi]|];
    rewrite ?Z.leb_le; try (assert (t <> u) by congruence); try (assert (i <> j) by congruence); naive_solver lia.
Qed.

Lemma event_filter id :
  filter (fun row : list value * jdata => at_ row.1 1 = VText id) (event_row <$> events d) =
  event_row <$> filter (fun e => Ev_RunID e = id) (events d).
Proof. apply (filter_map event_row). intros e. apply text_eq. Qed.

Lemma select_events_ok id n : select_events id n (event_row <$> events d) = (ListEventsByRun id n d).1.
Proof.
  unfold select_events. rewrite event_filter.
  rewrite (order_map event_row ev_le), limit_to_fmap by apply event_order.
  apply scan_all_fmap, Forall_true. auto using scanEvent_row.
Qed.

Lemma select_event_count_ok id : select_event_count id (event_row <$> events d) = (EventCount id d).1.
Proof. unfold select_event_count, COUNT. by rewrite event_filter, length_fmap. Qed.

Lemma select_event_ok id : select_event id (event_row <$> events d) = (GetEvent id d).1.
Proof.
  unfold select_event. rewrite (filter_map event_row (fun e => Ev_ID e = id)).
  - unfold GetEvent. destruct (filter _ _) as [|e l]; [done|]. by apply scanEvent_row.
  - intros e. cbn. split; [by intros [=]|by intros ->].
Qed.

(** *** Totals *)
Lemma sum64_exact acc l :
  Forall (fun n => (0 <= n)%Z) l -> (0 <= acc)%Z -> (acc + foldr Z.add 0 l < 2 ^ 63)%Z ->
  sum64 acc (VInt <$> l) = Some (acc + foldr Z.add 0 l)%Z.
Proof.
  intros Hl. revert acc. induction Hl as [|n l Hn Hl IH]; intros acc Ha Hs; csimpl in *; [f_equal; lia|].
  assert (0 <= foldr Z.add 0 l)%Z by (clear -Hl; induction Hl; simpl; lia).
  rewrite decide_True, IH by lia. f_equal. lia.
Qed.

Lemma select_dropped_ok :
  Forall (fun r => (0 <= Run_EventsDropped r)%Z) (runs d) -> (foldr Z.add 0 (Run_EventsDropped <$> runs d) < 2 ^ 63)%Z ->
  select_dropped (run_row <$> runs d) = (EventsDroppedTotal d).1.
Proof.
  intros Hp Hs. unfold select_dropped.
  assert ((fun row => at_ row 14) <$> (run_row <$> runs d) = VInt <$> (Run_EventsDropped <$> runs d)) as ->
    by (rewrite <- !list_fmap_compose; by apply list_fmap_ext; intros ? []).
  assert (SUM (VInt <$> (Run_EventsDropped <$> runs d)) =
    Ok (match runs d with [] => VNull | _ => VInt (foldr Z.add 0%Z (Run_EventsDropped <$> runs d)) end)) as ->.
  { unfold SUM. destruct (runs d) as [|r l] eqn:E; [done|]. rewrite <- E in *.
    rewrite sum64_exact by (try apply Forall_fmap; done || lia). rewrite E. csimpl. done. }
  unfold EventsDroppedTotal. destruct (runs d); reflexivity.
Qed.

(** *** Package summaries *)
Lemma remove_dups_fmap {A B} `{EqDecision A, EqDecision B} (f : A -> B) `{!Inj (=) (=) f} (l : list A) :
  remove_dups (f <$> l) = f <$> remove_dups l.
Proof.
  induction l as [|x l IH]; [done|]. csimpl.
  case_decide as H1; case_decide as H2; csimpl; rewrite ?IH; try done; exfalso.
  - apply list_elem_of_fmap in H1 as (y & E%(inj f) & Hy). by subst.
  - apply H1. by apply list_elem_of_fmap_2.
Qed.

Lemma remove_dups_filter {A} `{EqDecision A} (P : A -> Prop) `{!forall x, Decision (P x)} (l : list A) :
  remove_dups (filter P l) = filter P (remove_dups l).
Proof.
  induction l as [|x l IH]; [done|]. rewrite filter_cons. csimpl.
  destruct (decide (P x)) as [Hp|Hp]; csimpl.
  - case_decide as H1; case_decide as H2; try done.
    + exfalso. apply H2. by apply list_elem_of_filter in H1 as [_ ?].
    + exfalso. apply H1. by apply list_elem_of_filter.
    + by rewrite filter_cons, decide_True, IH.
  - case_decide; [done|]. by rewrite filter_cons, decide_False.
Qed.

Lemma rfc3339nano_nonempty t : rfc3339nano t <> "".
Proof. unfold rfc3339nano. destruct (civil_from_days _) as [[y m] k]. by destruct (pad 4 y). Qed.

Lemma desc_keys (a b : option string) i j :
  (forall s, a = Some s -> s <> "") -> (forall s, b = Some s -> s <> "") ->
  (if decide (from_option VText VNull a = from_option VText VNull b)
   then (if decide (VText i = VText j) then true else string_le j i)
   else value_le (from_option VText VNull b) (from_option VText VNull a)) = true <->
  (if decide (default "" a = default "" b) then string_le j i = true
   else string_le (default "" b) (default "" a) = true).
Proof.
  intros Ha Hb. assert (E : from_option VText VNull a = from_option VText VNull b <-> default "" a = default "" b).
  { destruct a as [s|], b as [t|]; simpl; rewrite ?text_eq; try done; (split; [by intros ?|]); intros Ex; exfalso;
      [by apply (Ha s)|by apply (Hb t)]. }
  destruct (decide (default "" a = default "" b)) as [He|He].
  - rewrite decide_True by tauto. case_decide as Hij; [|done]. injection Hij as ->. split; [|done].
    intros _. apply string_le_refl.
  - rewrite decide_False by tauto. destruct a as [s|], b as [t|]; simpl; try done.
    specialize (Hb t eq_refl). by destruct t.
Qed.

Lemma latest_order x y :
  sorted_by [(col col_started_at, DESC); (col 0, DESC)] (run_row x) (run_row y) <-> started_id_desc x y.
Proof.
  pose proof (desc_keys (rfc3339nano <$> Run_StartedAt x) (rfc3339nano <$> Run_StartedAt y) (Run_ID x) (Run_ID y)) as H.
  assert (forall r, from_option VText VNull (rfc3339nano <$> Run_StartedAt r) = col col_started_at (run_row r)) as Hc
    by (intros []; by destruct Run_StartedAt).
  assert (forall r, default "" (rfc3339nano <$> Run_StartedAt r) = started_key r) as Hk
    by (intros []; by destruct Run_StartedAt).
  rewrite !Hc, !Hk in H.
  apply H; intros s Hs; apply fmap_Some_1 in Hs as (t & _ & ->); apply rfc3339nano_nonempty.
Qed.

#[local] Instance VText_inj : Inj (=) (=) VText.
Proof. by intros s t [=]. Qed.

Lemma group_rows_ok :
  group_rows (run_row <$> runs d) =
  (fun n => [VText n; COUNT (filter (fun r => Run_PackageName r = n) (runs d));
             COUNT (filter (fun r => Run_IsBaseline r = true) (filter (fun r => Run_PackageName r = n) (runs d)))]) <$>
    filter (fun n => n <> "") (remove_dups (Run_PackageName <$> runs d)).
Proof.
  unfold group_rows. rewrite (filter_map run_row (fun r => Run_PackageName r <> "")).
  2: { intros r. cbn. by rewrite text_eq. }
  rewrite <- remove_dups_filter.
  assert ((fun row => at_ row 1) <$> (run_row <$> filter (fun r => Run_PackageName r <> "") (runs d)) =
    VText <$> (Run_PackageName <$> filter (fun r => Run_PackageName r <> "") (runs d))) as ->
    by (rewrite <- !list_fmap_compose; by apply list_fmap_ext).
  rewrite (remove_dups_fmap VText), <- list_fmap_compose.
  rewrite (filter_map Run_PackageName (fun r => Run_PackageName r <> "")) by done.
  apply list_fmap_ext. intros i n _. unfold compose, group_row. cbn zeta.
  rewrite (filter_map run_row (fun r => Run_PackageName r = n)) by (intros; apply text_eq).
  rewrite (filter_map run_row (fun r => Run_IsBaseline r = true)).
  - unfold COUNT. by rewrite !length_fmap.
  - intros r. cbn. destruct (Run_IsBaseline r); split; intros; try done; congruence.
Qed.

Lemma decorate_ok n total baseline :
  decorate (run_row <$> runs d) (deviation_row <$> deviations d) (mkPackageSummary n total baseline 0 "" "") =
  match order_by started_id_desc (filter (fun r => Run_PackageName r = n) (runs d)) with
  | [] => mkPackageSummary n total baseline 0 "" ""
  | r :: _ => mkPackageSummary n total baseline
      (Z.of_nat (length (filter (fun dv => Dev_RunID dv = Run_ID r) (deviations d)))) (Run_ID r) (Run_Version r)
  end.
Proof.
  unfold decorate, latest_run, where_. cbn [Ps_Name].
  rewrite (filter_map run_row (fun r => Run_PackageName r = n)) by (intros; apply text_eq).
  rewrite (ordered_rows run_row started_id_desc) by apply latest_order.
  destruct (order_by _ _) as [|r l]; [done|]. csimpl.
  rewrite (filter_map deviation_row (fun dv => Dev_RunID dv = Run_ID r)) by (intros; apply text_eq).
  unfold COUNT. rewrite length_fmap. reflexivity.
Qed.

Lemma scan_all_map {R A} (scan : R -> res A) {B} (row : B -> R) (g : B -> A) l :
  (forall x, scan (row x) = Ok (g x)) -> scan_all scan (row <$> l) = Ok (g <$> l).
Proof. intros Hs. induction l as [|x l IH]; [done|]. csimpl. rewrite Hs. simpl. rewrite IH. done. Qed.

Lemma select_summaries_ok :
  select_summaries (run_row <$> runs d) (deviation_row <$> deviations d) = (ListPackages d).1.
Proof.
  unfold select_summaries. rewrite group_rows_ok.
  match goal with |- context [order_by _ (?row <$> ?l)] =>
    rewrite (ordered_rows row (key_le id)) by (intros; by rewrite (text_order 0 ASC row id)) end.
  erewrite scan_all_map by (intros n; reflexivity).
  unfold ListPackages. cbn [fst]. f_equal. rewrite <- list_fmap_compose. apply list_fmap_ext. intros i n _.
  unfold compose. rewrite decorate_ok. unfold summarize. by destruct (order_by _ _).
Qed.

(** *** Filtered deviations *)
Lemma one_run (Hk : keyed Run_ID (runs d)) id :
  (filter (fun r => Run_ID r = id) (runs d) = [] /\ forall r, r ∈ runs d -> Run_ID r <> id) \/
  exists r, filter (fun r => Run_ID r = id) (runs d) = [r] /\ r ∈ runs d /\ Run_ID r = id.
Proof.
  assert (Hf : forall r, r ∈ filter (fun r => Run_ID r = id) (runs d) <-> Run_ID r = id /\ r ∈ runs d)
    by (intros r; by rewrite list_elem_of_filter).
  remember (filter (fun r => Run_ID r = id) (runs d)) as k eqn:E. destruct k as [|r l].
  - left. split; [done|]. intros r Hr Hi. pose proof (proj2 (Hf r) (conj Hi Hr)) as Hin. by apply not_elem_of_nil in Hin.
  - right. exists r. destruct (proj1 (Hf r)) as [Hi Hr]; [left|]. split; [|done].
    assert (keyed Run_ID (r :: l)) as Hkl by (rewrite E; by apply keyed_filter).
    destruct l as [|r' l]; [done|]. exfalso. destruct (proj1 (Hf r')) as [Hi' _]; [right; left|].
    unfold keyed in Hkl. csimpl in Hkl. apply NoDup_cons in Hkl as [Hn _]. apply Hn. rewrite Hi, Hi'. left.
Qed.

Lemma join_filtered (Hk : keyed Run_ID (runs d)) f l :
  fst <$> filter (filtered f) (join (run_row <$> runs d) (deviation_row <$> l)) =
  deviation_row <$> filter (fun dv => dev_selected f (runs d) dv = true) l.
Proof.
  induction l as [|dv l IH]; [done|]. unfold join in *. csimpl. rewrite filter_app, fmap_app, IH, filter_cons. clear IH.
  assert (filter (fun r => at_ (deviation_row dv) 1 = at_ r 0) (run_row <$> runs d) =
    run_row <$> filter (fun r => Run_ID r = Dev_RunID dv) (runs d)) as ->.
  { apply (filter_map run_row). intros r. cbn. rewrite text_eq. naive_solver. }
  destruct (one_run Hk (Dev_RunID dv)) as [[E Hn]|(r & E & Hr & Hi)]; rewrite E.
  - csimpl. rewrite decide_False; [done|]. unfold dev_selected. rewrite !andb_true_iff. intros [[Hx _] _].
    apply existsb_exists in Hx as (r & Hr%list_elem_of_In & [Hi _]%andb_true_iff). apply bool_decide_eq_true_1 in Hi.
    by apply (Hn r).
  - csimpl. rewrite filter_cons, filter_nil.
    assert (filtered f (deviation_row dv, run_row r) <-> dev_selected f (runs d) dv = true) as Hs.
    { unfold filtered, dev_selected. cbn. rewrite !text_eq, !andb_true_iff, !orb_true_iff, !bool_decide_eq_true.
      rewrite existsb_exists. split.
      - intros (H1 & H2 & H3). split_and!; [exists r; split; [by apply list_elem_of_In|]| |].
        + rewrite andb_true_iff, orb_true_iff, !bool_decide_eq_true. split; [done|].
          destruct (decide (DF_PackageName f = "")); auto.
        + destruct (decide (DF_Severity f = "")); auto.
        + destruct (decide (DF_RunID f = "")); auto.
      - intros (((r' & Hr'%list_elem_of_In & Hb) & H2) & H3).
        rewrite andb_true_iff, orb_true_iff, !bool_decide_eq_true in Hb. destruct Hb as [Hi' Hb].
        assert (r' = r) as ->; [|naive_solver].
        apply list_elem_of_singleton. rewrite <- E. by apply list_elem_of_filter. }
    destruct (decide (filtered _ _)) as [Hf|Hf], (decide (dev_selected f (runs d) dv = true)) as [Hg|Hg]; tauto || done.
Qed.

Lemma dev_order_desc x y :
  sorted_by [(col 6, DESC); (col 0, DESC)] (deviation_row x) (deviation_row y) <-> dev_key_ge x y.
Proof.
  rewrite (sorted_texts _ _ _ [rfc3339nano (Dev_DetectedAt x); Dev_ID x]
    [rfc3339nano (Dev_DetectedAt y); Dev_ID y]) by done.
  change ([(col 6, DESC); (col 0, DESC)].*2) with [DESC; DESC]. rewrite texts_le_2.
  unfold dev_key_ge, dev_key_le, text_dir.
  generalize (rfc3339nano (Dev_DetectedAt x)) (rfc3339nano (Dev_DetectedAt y)). intros a b.
  destruct (decide (a = b)) as [->|Hn]; [by rewrite decide_True|]. by rewrite decide_False by congruence.
Qed.

Lemma select_filtered_ok (Hk : keyed Run_ID (runs d)) f :
  select_filtered f (run_row <$> runs d) (deviation_row <$> deviations d) = (ListDeviationsFiltered f d).1.
Proof.
  destruct (storable_scans d Hd) as (_ & Hv & _). unfold select_filtered. rewrite join_filtered by done.
  rewrite (ordered_rows deviation_row dev_key_ge) by apply dev_order_desc. unfold ListDeviationsFiltered. cbn [fst].
  destruct (0 <? DF_Limit f)%Z; [rewrite limit_to_fmap|];
    (apply (scan_rows deviation_row _ _ (deviations d)); [done|selected]).
Qed.
End queries.

(** C10: Every query over the columns of a database reached by statements whose
    clock readings and arguments are instants of the years 0 to 9999 returns
    what the operation on records returns, error included: the rows of a key or
    ErrNotFound, the lists in the order of their text columns, the events of a
    run in the order of their instants and ids, the rows of an id prefix, the
    deviations selected by the filter's conjuncts through the JOIN with runs,
    the package summaries through GROUP BY and the query for the latest run,
    the counts, and the total of dropped events as long as no count is
    negative and the total fits 64 bits (beyond, SUM is an error). *)
Theorem queries_on_columns d : reachable_storable d ->
  let t := columns d in
  (forall id, select_run id (t_runs t) = (GetRun id d).1) /\
  (forall n, select_runs n (t_runs t) = (ListRuns n d).1) /\
  (forall pkg n, select_runs_by_package pkg n (t_runs t) = (ListRunsByPackage pkg n d).1) /\
  (forall id, select_deviations id (t_deviations t) = (ListDeviations id d).1) /\
  (forall id, select_deviation id (t_deviations t) = (GetDeviation id d).1) /\
  (forall pkg, select_baseline pkg (t_baseline t) = (LoadBaseline pkg d).1) /\
  select_allow (t_allowlists t) = (ListAllowEntries d).1 /\
  select_packages (t_packages t) = (ListWatchedPackages d).1 /\
  (forall name n, select_releases name n (t_releases t) = (ListReleasesByPackage name n d).1) /\
  select_notifiers (t_notifiers t) = (ListNotifiers d).1 /\
  (forall name, select_notifier name (t_notifiers t) = (GetNotifier name d).1) /\
  (forall id, select_notifications id (t_notifications t) = (ListNotificationsByRun id d).1) /\
  (forall pre, select_prefix (fun r => scanRun (Some r)) pre (t_runs t) = (ResolveRunPrefix pre d).1) /\
  (forall pre, select_prefix (fun r => scanDeviationRow (Some r)) pre (t_deviations t) =
     (ResolveDeviationPrefix pre d).1) /\
  (forall pre, select_prefix scanAllowEntry pre (t_allowlists t) = (ResolveAllowPrefix pre d).1) /\
  (forall id n, select_events id n (t_events t) = (ListEventsByRun id n d).1) /\
  (forall id, select_event_count id (t_events t) = (EventCount id d).1) /\
  (forall id, select_event id (t_events t) = (GetEvent id d).1) /\
  (forall f, select_filtered f (t_runs t) (t_deviations t) = (ListDeviationsFiltered f d).1) /\
  select_summaries (t_runs t) (t_deviations t) = (ListPackages d).1 /\
  (Forall (fun r => 0 <= Run_EventsDropped r)%Z (runs d) -> (foldr Z.add 0 (Run_EventsDropped <$> runs d) < 2 ^ 63)%Z ->
     select_dropped (t_runs t) = (EventsDroppedTotal d).1).
Proof.
  intros Hd t. apply reachable_storable_db in Hd as [Hd Hre]. pose proof (wf_runs d (wf_reachable d Hre)) as Hk.
  destruct (storable_scans d Hd) as (Hr & Hv & Ha & _).
  unfold t. clear t.
  split_and!; intros; simpl; auto using select_run_ok, select_runs_ok, select_runs_by_package_ok,
    select_deviations_ok, select_deviation_ok, select_baseline_ok, select_allow_ok, select_packages_ok,
    select_releases_ok, select_notifiers_ok, select_notifier_ok, select_notifications_ok, select_events_ok,
    select_event_count_ok, select_event_ok, select_filtered_ok, select_summaries_ok, select_dropped_ok.
  - by apply (select_prefix_rows run_row Run_ID).
  - by apply (select_prefix_rows deviation_row Dev_ID).
  - by apply (select_prefix_rows allow_row Al_ID).
Qed.

(** A database with a run, its finish and an allowlist entry, read through its
    columns. *)
Definition sample : DB :=
  exec (MAddAllowEntry 1779471600000000000 (mkAllowEntry "a1" AllowScopePackage "left-pad" AllowKindSNI "x.io" "" zero_time))
    (exec (MUpdateRunState 1779471600120000000 "r1" RunStateFailed "boom")
      (exec (MCreateRun 1779471600000000000 (new_run "r1" "left-pad" "1.3.0" RunStatePending 1)) empty_db)).

Lemma sample_reachable : reachable_storable sample.
Proof. repeat (apply storable_step; [|vm_compute; reflexivity]). apply storable_empty. Qed.

Lemma queries_on_columns_witness :
  reachable_storable sample /\
  select_runs_by_package "left-pad" 0 (t_runs (columns sample)) = (ListRunsByPackage "left-pad" 0 sample).1 /\
  (ListRunsByPackage "left-pad" 0 sample).1 = Ok (runs sample) /\
  (Run_FailureReason <$> runs sample) = ["boom"].
Proof.
  split; [exact sample_reachable|]. split; [|vm_compute; by split].
  apply (proj1 (proj2 (proj2 (queries_on_columns sample sample_reachable)))).
Defined.

End SqliteSelect.
