(* ===== verification/Postgres.v ===== *)
(** * postgres: the networked storage backend

    internal/orchestrator/storage/postgres/postgres.go over the schema of
    internal/orchestrator/storage/migrations/postgres, on the tables of
    Sqlite.v.  What the server does with a value is an argument: [us] is the
    precision of a TIMESTAMPTZ column, [jsonb] what a JSONB column makes of a
    payload ([None] when it rejects it), [coll] the collation of an ORDER BY
    on text.  INTEGER columns are four bytes wide and a value outside is an
    error; the sequence behind BIGSERIAL is not rolled back with the
    transaction; ids are single-byte text, so [_] in LIKE matches one byte.
    Text is valid UTF-8 without NUL. *)
From Stdlib Require Import Ascii Sorted.
From stdpp Require Import prelude strings gmap list sorting.
From S2P Require Import Prelude GoTime Json Sql Storage Sqlite.

Module Postgres.
Import (hints) Sqlite.
Abbreviation DB := Sqlite.DB.

Definition int4 (z : Z) : Prop := (- 2 ^ 31 <= z < 2 ^ 31)%Z.
#[export] Instance int4_dec z : Decision (int4 z).
Proof. unfold int4. apply _. Defined.

Definition range_error : error := Errorf "integer out of range".
Definition constraint_error : error := Errorf "constraint violation".

Section backend.
Context (us : time -> time) (jsonb : jdata -> option jdata) (coll : string -> string -> bool).

(** ORDER BY a text column. *)
Definition text_order {A} (f : A -> string) (x y : A) : Prop := coll (f x) (f y) = true.
#[global] Instance text_order_dec {A} (f : A -> string) x y : Decision (text_order f x y).
Proof. unfold text_order. apply _. Defined.

(** ** Runs *)
Definition stored_run (now : time) (r : Run) : Run :=
  mkRun (Run_ID r) (Run_PackageName r) (Run_Version r) (Run_TarballSHA256 r)
    (Run_LockfileSHA256 r) (Run_NodeVersion r) (Run_NPMVersion r) (Run_State r)
    (Run_Attempt r) (Run_IsBaseline r)
    (Some (us (default now (Run_StartedAt r)))) (us <$> Run_FinishedAt r) (Run_FailureReason r) 0 0 0.

Definition CreateRun (now : time) (r : Run) : M DB unit := fun d =>
  if negb (IsValid (Run_State r)) then (Err (Errorf "invalid run state"), d) else
  if decide (int4 (Run_Attempt r)) then
    match insert_unique Run_ID (stored_run now r) (Sqlite.runs d) with
    | None => (Err ErrConflict, d)
    | Some t => (Ok tt, Sqlite.set_runs t d)
    end
  else (Err (Wrapf "insert run" range_error), d).

(** [now] is the server's [now()]. *)
Definition UpdateRunState (now : time) (runID : string) (st : RunState) (reason : string) :
    M DB unit := fun d =>
  if negb (IsValid st) then (Err (Errorf "invalid run state"), d) else
  let f r := set_lifecycle st
    (match Run_StartedAt r with
     | Some t => Some t
     | None => if decide (st = RunStateBuilding) then Some now else None
     end)
    (if decide (st ∈ [RunStateDone; RunStateFailed]) then Some now else Run_FinishedAt r)
    (if decide (st = RunStateFailed) then reason else Run_FailureReason r) r in
  let P r := Run_ID r = runID in
  if decide (rows_affected P (Sqlite.runs d) = 0) then (Err ErrNotFound, d)
  else (Ok tt, Sqlite.set_runs (update P f (Sqlite.runs d)) d).

Definition GetRun (runID : string) : M DB Run := fun d =>
  match filter (fun r => Run_ID r = runID) (Sqlite.runs d) with
  | [] => (Err ErrNotFound, d)
  | r :: _ => (Ok r, d)
  end.

(** [started_at DESC NULLS LAST], and with [id DESC] after it. *)
Definition started_desc (x y : Run) : Prop :=
  match Run_StartedAt x, Run_StartedAt y with
  | Some a, Some b => (b <= a)%Z
  | None, Some _ => False
  | _, None => True
  end.
#[global] Instance started_desc_dec x y : Decision (started_desc x y).
Proof. unfold started_desc. destruct (Run_StartedAt x), (Run_StartedAt y); apply _. Defined.
Definition started_id_desc (x y : Run) : Prop :=
  if decide (Run_StartedAt x = Run_StartedAt y) then coll (Run_ID y) (Run_ID x) = true else started_desc x y.
#[global] Instance started_id_desc_dec x y : Decision (started_id_desc x y).
Proof. unfold started_id_desc. case_decide; apply _. Defined.

Definition ListRuns (limit : Z) : M DB (list Run) := fun d =>
  let limit := if (limit <=? 0)%Z then 100%Z else limit in
  (Ok (limit_to limit (order_by started_desc (Sqlite.runs d))), d).

Definition ListRunsByPackage (pkg : string) (limit : Z) : M DB (list Run) := fun d =>
  let limit := if (limit <=? 0)%Z then 100%Z else limit in
  (Ok (limit_to limit
         (order_by started_id_desc (filter (fun r => Run_PackageName r = pkg) (Sqlite.runs d)))), d).

(** ** Events *)

(** The inserts of one transaction: the rows, or [None] at the first failing
    one, and the sequence afterwards.  A payload the column rejects fails
    before the id is drawn, a missing run after. *)
Fixpoint insert_events (known : bool) (runID : string) (seq : Z) (evs : list EventRow) :
    option (list EventRow) * Z :=
  match evs with
  | [] => (Some [], seq)
  | e :: evs' =>
      match jsonb (Ev_Data e) with
      | None => (None, seq)
      | Some data =>
          if known then
            let '(r, seq') := insert_events known runID (seq + 1) evs' in
            (cons (mkEventRow (seq + 1) runID (Ev_TsNS e) (Ev_Type e) data) <$> r, seq')
          else (None, (seq + 1)%Z)
      end
  end.

Definition AppendEvents (runID : string) (evs : list EventRow) : M DB unit := fun d =>
  match evs with
  | [] => (Ok tt, d)
  | _ =>
      match insert_events (bool_decide (runID ∈ Run_ID <$> Sqlite.runs d)) runID (Sqlite.events_seq d) evs with
      | (Some rows, seq) => (Ok tt, Sqlite.set_events (Sqlite.events d ++ rows) seq d)
      | (None, seq) => (Err (Wrapf "insert event" constraint_error), Sqlite.set_events (Sqlite.events d) seq d)
      end
  end.

Definition ListEventsByRun (runID : string) (limit : Z) : M DB (list EventRow) := fun d =>
  let limit := if (limit <=? 0)%Z then 10000%Z else limit in
  (Ok (limit_to limit (order_by ev_le (filter (fun e => Ev_RunID e = runID) (Sqlite.events d)))), d).

Definition EventCount (runID : string) : M DB Z := fun d =>
  (Ok (Z.of_nat (length (filter (fun e => Ev_RunID e = runID) (Sqlite.events d)))), d).

Definition GetEvent (id : Z) : M DB EventRow := fun d =>
  match filter (fun e => Ev_ID e = id) (Sqlite.events d) with
  | [] => (Err ErrNotFound, d)
  | e :: _ => (Ok e, d)
  end.

(** ** Baseline *)
Definition LoadBaseline (pkg : string) : M DB (list BaselineRow) := fun d =>
  (Ok (filter (fun b => Bl_PackageName b = pkg) (Sqlite.baseline d)), d).

(** The upserts of one transaction; the added counts must fit the column. *)
Fixpoint merge_rows (runID : string) (rows t : list BaselineRow) : option (list BaselineRow) :=
  match rows with
  | [] => Some t
  | r :: rows' =>
      let r := fill_baseline runID r in
      let t' := upsert bl_key bump_baseline r t in
      if decide (int4 (Bl_OccurrenceCount r) /\
                 Forall (fun x => int4 (Bl_OccurrenceCount x)) (filter (fun x => bl_key x = bl_key r) t'))
      then merge_rows runID rows' t' else None
  end.

Definition MergeBaseline (runID : string) (rows : list BaselineRow) : M DB unit := fun d =>
  match rows with
  | [] => (Ok tt, d)
  | _ => match merge_rows runID rows (Sqlite.baseline d) with
         | Some t => (Ok tt, Sqlite.set_baseline t d)
         | None => (Err (Wrapf "merge baseline" range_error), d)
         end
  end.

Definition MarkRunBaseline (runID : string) (isBaseline : bool) : M DB unit := fun d =>
  let P r := Run_ID r = runID in
  if decide (rows_affected P (Sqlite.runs d) = 0) then (Err ErrNotFound, d)
  else (Ok tt, Sqlite.set_runs (update P (set_baseline_flag isBaseline) (Sqlite.runs d)) d).

(** ** Deviations *)
Definition stored_dev (r : DeviationRow) : DeviationRow :=
  mkDeviationRow (Dev_ID r) (Dev_RunID r) (Dev_Category r) (Dev_Value r)
    (Dev_EvidenceEventID r) (Dev_Severity r) (us (Dev_DetectedAt r)) None (Dev_Suppressed r).

Definition insert_deviation (r : DeviationRow) (d : DB) : option DB :=
  if decide (Dev_RunID r ∈ Run_ID <$> Sqlite.runs d /\ Dev_EvidenceEventID r ∈ Ev_ID <$> Sqlite.events d)
  then (fun t => Sqlite.set_deviations t d) <$> insert_unique Dev_ID (stored_dev r) (Sqlite.deviations d)
  else None.

Fixpoint insert_deviations (rows : list DeviationRow) (d : DB) : option DB :=
  match rows with
  | [] => Some d
  | r :: rows' => match insert_deviation r d with
                  | Some d' => insert_deviations rows' d'
                  | None => None
                  end
  end.

Definition WriteDeviations (rows : list DeviationRow) : M DB unit := fun d =>
  match insert_deviations rows d with
  | Some d' => (Ok tt, d')
  | None => (Err (Wrapf "insert deviation" constraint_error), d)
  end.

Definition DeleteDeviationsForRun (runID : string) : M DB unit := fun d =>
  (Ok tt, Sqlite.set_deviations (delete_where (fun r => Dev_RunID r = runID) (Sqlite.deviations d)) d).

(** [detected_at ASC, id ASC]. *)
Definition dev_le (x y : DeviationRow) : Prop :=
  if decide (Dev_DetectedAt x = Dev_DetectedAt y) then coll (Dev_ID x) (Dev_ID y) = true
  else (Dev_DetectedAt x <= Dev_DetectedAt y)%Z.
#[global] Instance dev_le_dec x y : Decision (dev_le x y).
Proof. unfold dev_le. case_decide; apply _. Defined.
Definition dev_ge (x y : DeviationRow) : Prop := dev_le y x.
#[global] Instance dev_ge_dec x y : Decision (dev_ge x y).
Proof. unfold dev_ge. apply _. Defined.

Definition ListDeviations (runID : string) : M DB (list DeviationRow) := fun d =>
  (Ok (order_by dev_le (filter (fun r => Dev_RunID r = runID) (Sqlite.deviations d))), d).

(** The JOIN keeps rows whose run exists; each non-empty field of the filter
    adds a conjunct. *)
Definition dev_selected (f : DeviationFilter) (rs : list Run) (dv : DeviationRow) : bool :=
  existsb (fun r => bool_decide (Run_ID r = Dev_RunID dv) &&
    (bool_decide (DF_PackageName f = "") || bool_decide (Run_PackageName r = DF_PackageName f))) rs &&
  (bool_decide (DF_Severity f = "") || bool_decide (Dev_Severity dv = DF_Severity f)) &&
  (bool_decide (DF_RunID f = "") || bool_decide (Dev_RunID dv = DF_RunID f)).

Definition ListDeviationsFiltered (f : DeviationFilter) : M DB (list DeviationRow) := fun d =>
  let sorted := order_by dev_ge
    (filter (fun dv => dev_selected f (Sqlite.runs d) dv = true) (Sqlite.deviations d)) in
  (Ok (if (0 <? DF_Limit f)%Z then limit_to (DF_Limit f) sorted else sorted), d).

Definition GetDeviation (id : string) : M DB DeviationRow := fun d =>
  match filter (fun r => Dev_ID r = id) (Sqlite.deviations d) with
  | [] => (Err ErrNotFound, d)
  | r :: _ => (Ok r, d)
  end.

(** ** Package summaries *)
Definition summarize (d : DB) (name : string) : PackageSummary :=
  let mine := filter (fun r => Run_PackageName r = name) (Sqlite.runs d) in
  let n := Z.of_nat (length mine) in
  let nb := Z.of_nat (length (filter (fun r => Run_IsBaseline r = true) mine)) in
  match order_by started_id_desc mine with
  | [] => mkPackageSummary name n nb 0 "" ""
  | r :: _ => mkPackageSummary name n nb
      (Z.of_nat (length (filter (fun dv => Dev_RunID dv = Run_ID r) (Sqlite.deviations d))))
      (Run_ID r) (Run_Version r)
  end.

Definition ListPackages : M DB (list PackageSummary) := fun d =>
  (Ok (summarize d <$> order_by (text_order id)
         (filter (fun n => n <> "") (remove_dups (Run_PackageName <$> Sqlite.runs d)))), d).

(** ** Watched packages and releases *)
Definition AddWatchedPackage (now : time) (name : string) : M DB unit := fun d =>
  match insert_unique Wp_Name (mkWatchedPackage name now None "") (Sqlite.packages d) with
  | Some t => (Ok tt, Sqlite.set_packages t d)
  | None => (Ok tt, d)
  end.

(** ON DELETE CASCADE removes the package's releases. *)
Definition RemoveWatchedPackage (name : string) : M DB unit := fun d =>
  let P p := Wp_Name p = name in
  if decide (rows_affected P (Sqlite.packages d) = 0) then (Err ErrNotFound, d)
  else (Ok tt, Sqlite.set_releases (delete_where (fun r => Rel_PackageName r = name) (Sqlite.releases d))
                 (Sqlite.set_packages (delete_where P (Sqlite.packages d)) d)).

Definition ListWatchedPackages : M DB (list WatchedPackage) := fun d =>
  (Ok (order_by (text_order Wp_Name) (Sqlite.packages d)), d).

Definition checked (now : time) (version : string) (p : WatchedPackage) : WatchedPackage :=
  mkWatchedPackage (Wp_Name p) (Wp_AddedAt p) (Some now)
    (if decide (version = "") then Wp_LastSeenVersion p else version).

Definition UpdatePackageCheck (now : time) (name version : string) : M DB unit := fun d =>
  (Ok tt, Sqlite.set_packages (update (fun p => Wp_Name p = name) (checked now version) (Sqlite.packages d)) d).

Definition stored_release (r : ReleaseRow) : ReleaseRow :=
  mkReleaseRow (Rel_PackageName r) (Rel_Version r) (Rel_TarballSHA256 r) (Rel_NPMIntegrity r)
    (us (Rel_PublishedAt r)) (us (Rel_DiscoveredAt r)).

Definition RecordRelease (r : ReleaseRow) : M DB unit := fun d =>
  if decide (Rel_PackageName r ∈ Wp_Name <$> Sqlite.packages d) then
    match insert_unique rel_key (stored_release r) (Sqlite.releases d) with
    | Some t => (Ok tt, Sqlite.set_releases t d)
    | None => (Ok tt, d)
    end
  else (Err constraint_error, d).

Definition discovered_desc (x y : ReleaseRow) : Prop := (Rel_DiscoveredAt y <= Rel_DiscoveredAt x)%Z.
#[global] Instance discovered_desc_dec x y : Decision (discovered_desc x y).
Proof. unfold discovered_desc. apply _. Defined.

Definition ListReleasesByPackage (name : string) (limit : Z) : M DB (list ReleaseRow) := fun d =>
  let limit := if (limit <=? 0)%Z then 100%Z else limit in
  (Ok (limit_to limit (order_by discovered_desc
         (filter (fun r => Rel_PackageName r = name) (Sqlite.releases d)))), d).

(** ** Prefix resolution

    LIKE is case-sensitive and a backslash takes the next character
    literally.  [prefix || '%'] never ends in a lone backslash. *)
Fixpoint like (p s : list ascii) : bool :=
  match p with
  | [] => bool_decide (s = [])
  | c :: p' =>
      if Ascii.eqb c "%"%char then
        (fix any (s : list ascii) : bool :=
           like p' s || match s with [] => false | _ :: s' => any s' end) s
      else if Ascii.eqb c "\"%char then
        match p', s with
        | l :: p'', x :: s' => Ascii.eqb l x && like p'' s'
        | _, _ => false
        end
      else match s with
           | [] => false
           | x :: s' => (Ascii.eqb c "_"%char || Ascii.eqb c x) && like p' s'
           end
  end.

Definition id_like (prefix id : string) : bool :=
  like (list_of_string (prefix +:+ "%")) (list_of_string id).

Definition resolve {A} (id : A -> string) (t : list A) (prefix : string) : res A :=
  if decide (prefix = "") then Err ErrNotFound else
  unique_row (take 2 (filter (fun r => id_like prefix (id r) = true) t)).

Definition ResolveRunPrefix (prefix : string) : M DB Run := fun d =>
  (resolve Run_ID (Sqlite.runs d) prefix, d).
Definition ResolveDeviationPrefix (prefix : string) : M DB DeviationRow := fun d =>
  (resolve Dev_ID (Sqlite.deviations d) prefix, d).
Definition ResolveAllowPrefix (prefix : string) : M DB AllowEntry := fun d =>
  (resolve Al_ID (Sqlite.allowlists d) prefix, d).

(** ** Allowlists: the CHECKs are those of the SQLite schema *)
Definition stamp_created (now : time) (e : AllowEntry) : AllowEntry :=
  mkAllowEntry (Al_ID e) (Al_Scope e) (Al_PackageName e) (Al_Kind e) (Al_Value e) (Al_Note e)
    (us (if IsZero (Al_CreatedAt e) then now else Al_CreatedAt e)).

Definition AddAllowEntry (now : time) (e : AllowEntry) : M DB unit := fun d =>
  if decide (Sqlite.allow_check e) then
    match insert_unique Al_ID (stamp_created now e) (Sqlite.allowlists d) with
    | Some t => (Ok tt, Sqlite.set_allowlists t d)
    | None => (Err (Wrapf "insert allowlist" constraint_error), d)
    end
  else (Err (Wrapf "insert allowlist" constraint_error), d).

(** ORDER BY scope, COALESCE(package_name, ''), kind, value. *)
Fixpoint lex_le (xs ys : list string) : bool :=
  match xs, ys with
  | x :: xs', y :: ys' => if decide (x = y) then lex_le xs' ys' else coll x y
  | _, _ => true
  end.
Definition allow_order (x y : AllowEntry) : Prop :=
  lex_le [Al_Scope x; Al_PackageName x; Al_Kind x; Al_Value x]
         [Al_Scope y; Al_PackageName y; Al_Kind y; Al_Value y] = true.
#[global] Instance allow_order_dec x y : Decision (allow_order x y).
Proof. unfold allow_order. apply _. Defined.

Definition ListAllowEntries : M DB (list AllowEntry) := fun d =>
  (Ok (order_by allow_order (Sqlite.allowlists d)), d).

Definition DeleteAllowEntry (id : string) : M DB unit := fun d =>
  (Ok tt, Sqlite.set_allowlists (delete_where (fun e => Al_ID e = id) (Sqlite.allowlists d)) d).

(** ** Totals, retention, results *)
Definition EventsDroppedTotal : M DB Z := fun d =>
  (Ok (foldr Z.add 0%Z (Run_EventsDropped <$> Sqlite.runs d)), d).

Definition prunable (d : DB) (cutoff : Z) (e : EventRow) : Prop :=
  (Ev_TsNS e < cutoff)%Z /\ Ev_ID e ∉ Dev_EvidenceEventID <$> Sqlite.deviations d.
#[global] Instance prunable_dec d c e : Decision (prunable d c e).
Proof. unfold prunable. apply _. Defined.

Definition PruneEvents (olderThanNS : Z) : M DB Z := fun d =>
  let P := prunable d olderThanNS in
  (Ok (Z.of_nat (rows_affected P (Sqlite.events d))),
   Sqlite.set_events (delete_where P (Sqlite.events d)) (Sqlite.events_seq d) d).

Definition result_state (status : string) : RunState :=
  if decide (status ∈ ["failed"; "timeout"]) then RunStateFailed else RunStateDone.

Definition RecordScanResult (now : time) (runID : string) (r : ScanResult) : M DB unit := fun d =>
  let P x := Run_ID x = runID in
  let f x := set_result (result_state (SR_Status r)) (Some (us now))
    (if decide (SR_Reason r = "") then Run_FailureReason x else SR_Reason r)
    (SR_EventsEmitted r) (SR_EventsDropped r) (SR_DurationNS r) x in
  if decide (rows_affected P (Sqlite.runs d) = 0) then (Err ErrNotFound, d)
  else (Ok tt, Sqlite.set_runs (update P f (Sqlite.runs d)) d).

(** ** Notifier targets and the delivery log *)
Definition upsert_merge (old new : NotifierRow) : NotifierRow :=
  mkNotifierRow (Nt_Name old) (Nt_URL new) (Nt_Template new) (Nt_SecretEnv new) (Nt_Headers new)
    (Nt_MinSeverity new) (Nt_Enabled new) (Nt_CreatedAt old) (Nt_UpdatedAt new).

Definition stamp_notifier (now : time) (n : NotifierRow) : NotifierRow :=
  mkNotifierRow (Nt_Name n) (Nt_URL n) (Nt_Template n) (Nt_SecretEnv n) (Nt_Headers n)
    (Nt_MinSeverity n) (Nt_Enabled n)
    (us (if IsZero (Nt_CreatedAt n) then now else Nt_CreatedAt n)) (us now).

Definition UpsertNotifier (now : time) (n : NotifierRow) : M DB unit := fun d =>
  (Ok tt, Sqlite.set_notifiers (upsert Nt_Name upsert_merge (stamp_notifier now n) (Sqlite.notifiers d)) d).

Definition ListNotifiers : M DB (list NotifierRow) := fun d =>
  (Ok (order_by (text_order Nt_Name) (Sqlite.notifiers d)), d).

Definition GetNotifier (name : string) : M DB NotifierRow := fun d =>
  match filter (fun n => Nt_Name n = name) (Sqlite.notifiers d) with
  | [] => (Err ErrNotFound, d)
  | n :: _ => (Ok n, d)
  end.

Definition DeleteNotifier (name : string) : M DB unit := fun d =>
  (Ok tt, Sqlite.set_notifications (delete_where (fun n => Nf_NotifierName n = name) (Sqlite.notifications d))
            (Sqlite.set_notifiers (delete_where (fun n => Nt_Name n = name) (Sqlite.notifiers d)) d)).

Definition stamp_notification (now : time) (n : NotificationRow) : NotificationRow :=
  mkNotificationRow (Nf_ID n) (Nf_RunID n) (Nf_NotifierName n) (Nf_Attempt n) (Nf_Status n)
    (us <$> Nf_LastAttemptedAt n) (us <$> Nf_NextAttemptAt n) (Nf_ResponseCode n) (Nf_ResponseBody n)
    (Nf_ErrorMsg n) (Nf_DeviationCount n)
    (us (if IsZero (Nf_CreatedAt n) then now else Nf_CreatedAt n)).

Definition notification_fits (n : NotificationRow) : Prop :=
  int4 (Nf_Attempt n) /\ int4 (Nf_ResponseCode n) /\ int4 (Nf_DeviationCount n).
#[global] Instance notification_fits_dec n : Decision (notification_fits n).
Proof. unfold notification_fits. apply _. Defined.

Definition RecordNotification (now : time) (n : NotificationRow) : M DB unit := fun d =>
  if decide (notification_fits n /\ Nf_RunID n ∈ Run_ID <$> Sqlite.runs d /\
             Nf_NotifierName n ∈ Nt_Name <$> Sqlite.notifiers d) then
    match insert_unique Nf_ID (stamp_notification now n) (Sqlite.notifications d) with
    | Some t => (Ok tt, Sqlite.set_notifications t d)
    | None => (Err constraint_error, d)
    end
  else (Err constraint_error, d).

Definition ListNotificationsByRun (runID : string) : M DB (list NotificationRow) := fun d =>
  (Ok (order_by (num_le Nf_Attempt)
         (filter (fun n => Nf_RunID n = runID) (Sqlite.notifications d))), d).

Definition postgres_backend : Backend DB := {|
  Storage.CreateRun := CreateRun; Storage.UpdateRunState := UpdateRunState;
  Storage.GetRun := GetRun; Storage.ListRuns := ListRuns;
  Storage.AppendEvents := AppendEvents; Storage.ListEventsByRun := ListEventsByRun;
  Storage.EventCount := EventCount; Storage.LoadBaseline := LoadBaseline;
  Storage.MergeBaseline := MergeBaseline; Storage.MarkRunBaseline := MarkRunBaseline;
  Storage.WriteDeviations := WriteDeviations;
  Storage.DeleteDeviationsForRun := DeleteDeviationsForRun;
  Storage.ListDeviations := ListDeviations;
  Storage.ListDeviationsFiltered := ListDeviationsFiltered;
  Storage.GetDeviation := GetDeviation; Storage.GetEvent := GetEvent;
  Storage.ListPackages := ListPackages; Storage.ListRunsByPackage := ListRunsByPackage;
  Storage.ResolveRunPrefix := ResolveRunPrefix;
  Storage.ResolveDeviationPrefix := ResolveDeviationPrefix;
  Storage.AddWatchedPackage := AddWatchedPackage;
  Storage.RemoveWatchedPackage := RemoveWatchedPackage;
  Storage.ListWatchedPackages := ListWatchedPackages;
  Storage.UpdatePackageCheck := UpdatePackageCheck; Storage.RecordRelease := RecordRelease;
  Storage.ListReleasesByPackage := ListReleasesByPackage;
  Storage.RecordScanResult := RecordScanResult;
  Storage.EventsDroppedTotal := EventsDroppedTotal; Storage.PruneEvents := PruneEvents;
  Storage.AddAllowEntry := AddAllowEntry; Storage.ListAllowEntries := ListAllowEntries;
  Storage.DeleteAllowEntry := DeleteAllowEntry;
  Storage.ResolveAllowPrefix := ResolveAllowPrefix;
  Storage.UpsertNotifier := UpsertNotifier; Storage.ListNotifiers := ListNotifiers;
  Storage.GetNotifier := GetNotifier; Storage.DeleteNotifier := DeleteNotifier;
  Storage.RecordNotification := RecordNotification;
  Storage.ListNotificationsByRun := ListNotificationsByRun
|}.
End backend.

(** ** The run list *)
#[local] Instance started_desc_total : Total started_desc.
Proof. intros x y. unfold started_desc. destruct (Run_StartedAt x), (Run_StartedAt y); lia || tauto. Qed.
#[local] Instance started_desc_trans : Transitive started_desc.
Proof.
  intros x y z. unfold started_desc. destruct (Run_StartedAt x), (Run_StartedAt y), (Run_StartedAt z); lia || tauto.
Qed.

(** The PostgreSQL run list is the newest first, by the instants
    themselves.  The list is sorted by start time, runs without one last, it
    is [limit] runs long (100 for a limit of 0 or less) or all of them, and no
    run left out started after one that is listed. *)
Theorem ListRuns_newest limit d :
  exists l, (ListRuns limit d).1 = Ok l /\ StronglySorted started_desc l /\
    length l = Nat.min (Z.to_nat (if (limit <=? 0)%Z then 100 else limit)) (length (Sqlite.runs d)) /\
    exists rest, l ++ rest ≡ₚ Sqlite.runs d /\ forall r r', r ∈ l -> r' ∈ rest -> started_desc r r'.
Proof.
  unfold ListRuns. simpl. set (n := Z.to_nat _). set (all := order_by started_desc (Sqlite.runs d)).
  assert (StronglySorted started_desc all) as Hs by (apply Sorted_StronglySorted; [apply _|apply Sorted_merge_sort, _]).
  rewrite <- (take_drop n all) in Hs. exists (take n all). split; [done|].
  split; [by apply StronglySorted_app_1_l in Hs|]. split.
  - rewrite length_take. f_equal. apply Permutation_length, order_by_perm.
  - exists (drop n all). rewrite take_drop. split; [apply order_by_perm|].
    apply StronglySorted_app in Hs as [Hs _]. exact Hs.
Qed.

End Postgres.
