(* ===== verification/PostgresRows.v ===== *)
(** * postgres: columns

    The arguments of the INSERTs of
    internal/orchestrator/storage/postgres/postgres.go and the functions that
    scan its rows.  Timestamps are TIMESTAMPTZ columns of the server's
    precision ([us], as in Postgres.v), booleans are BOOLEAN columns.
    [inserted_rows_scan] shows that a row scans as the record Postgres.v
    inserts, whatever the precision. *)
From stdpp Require Import prelude strings gmap list.
From S2P Require Import Prelude GoTime Json Sql Storage Sqlite Postgres Rows.

Module PostgresRows.
Import Postgres Rows.

(** ** Values written *)
Definition nullableTime (t : option time) : value :=
  match t with None => VNull | Some t => VTime t end.
Definition nullableStringPg (s : string) : value :=
  if decide (s = "") then VNull else VText s.

(** ** Values read *)
Definition scanRun (row : option (list value)) : res Run :=
  let r := ScanRow (
    id ← column to_string; pkg ← column to_string; ver ← column to_string;
    tarball ← column to_string; lockfile ← column to_string;
    node ← column to_string; npm ← column to_string; state ← column to_string;
    attempt ← column to_int; isBaseline ← column to_bool;
    started ← column to_NullTime; finished ← column to_NullTime;
    reason ← column to_string;
    emitted ← column to_int; dropped ← column to_int; duration ← column to_int;
    mret (mkRun id pkg ver tarball lockfile node npm state attempt isBaseline started finished reason
            emitted dropped duration)) row in
  match r with
  | Ok run => Ok run
  | Err e => if errors_Is e ErrNoRows then Err ErrNotFound else Err e
  end.

Definition scanDeviationRow (row : option (list value)) : res DeviationRow :=
  let r := ScanRow (
    id ← column to_string; run ← column to_string; cat ← column to_string;
    val ← column to_string; ev ← column to_int; sev ← column to_string;
    detected ← column to_NullTime; notified ← column to_NullTime; suppressed ← column to_bool;
    mret (mkDeviationRow id run cat val ev sev (default zero_time detected) notified suppressed)) row in
  match r with
  | Ok d => Ok d
  | Err e => if errors_Is e ErrNoRows then Err ErrNotFound else Err e
  end.

Definition scanDeviationRows (rows : list (list value)) : res (list DeviationRow) :=
  scan_all (fun vs => scanDeviationRow (Some vs)) rows.

Definition scanAllowEntryPg (vs : list value) : res AllowEntry :=
  Scan (
    id ← column to_string; scope ← column to_string; pkg ← column to_NullString;
    kind ← column to_string; val ← column to_string; note ← column to_string; created ← column to_time;
    mret (mkAllowEntry id scope (default "" pkg) kind val note created)) vs.

Definition scanNotifierPg (row : option (list value)) : res NotifierRow :=
  ScanRow (
    name ← column to_string; url ← column to_string; template ← column to_string;
    secret ← column to_NullString; headers ← column to_NullString; minSev ← column to_NullString;
    enabled ← column to_bool; created ← column to_time; updated ← column to_time;
    mret (mkNotifierRow name url template (default "" secret) (default "" headers)
            (default "" minSev) enabled created updated)) row.

Definition scanNotificationPg (vs : list value) : res NotificationRow :=
  Scan (
    id ← column to_string; run ← column to_string; name ← column to_string;
    attempt ← column to_int; status ← column to_string;
    lastAt ← column to_NullTime; nextAt ← column to_NullTime;
    code ← column to_NullInt64; body ← column to_NullString; msg ← column to_NullString;
    count ← column to_int; created ← column to_time;
    mret (mkNotificationRow id run name attempt status lastAt nextAt
            (default 0%Z code) (default "" body) (default "" msg) count created)) vs.

(** The loop bodies of [ListWatchedPackages], [ListReleasesByPackage],
    [LoadBaseline] and [ListEventsByRun]. *)
Definition scanWatchedPackage (vs : list value) : res WatchedPackage :=
  Scan (
    name ← column to_string; added ← column to_time;
    lastCheck ← column to_NullTime; lastSeen ← column to_NullString;
    mret (mkWatchedPackage name added lastCheck (default "" lastSeen))) vs.

Definition scanRelease (vs : list value) : res ReleaseRow :=
  Scan (
    pkg ← column to_string; ver ← column to_string; sha ← column to_string;
    integrity ← column to_string; published ← column to_time; discovered ← column to_time;
    mret (mkReleaseRow pkg ver sha integrity published discovered)) vs.

Definition scanBaseline (vs : list value) : res BaselineRow :=
  Scan (
    pkg ← column to_string; cat ← column to_string; val ← column to_string;
    first ← column to_string; last ← column to_string; n ← column to_int;
    mret (mkBaselineRow pkg cat val first last n)) vs.

Definition scanEvent (row : list value * jdata) : res EventRow :=
  Scan (
    id ← column to_int; run ← column to_string; ts ← column to_int; type ← column to_string;
    mret (mkEventRow id run ts type (row.2))) (row.1).

(** ** Arguments of the INSERTs *)
Definition run_args (now : time) (r : Run) : list value :=
  [VText (Run_ID r); VText (Run_PackageName r); VText (Run_Version r); VText (Run_TarballSHA256 r);
   VText (Run_LockfileSHA256 r); VText (Run_NodeVersion r); VText (Run_NPMVersion r);
   VText (Run_State r); VInt (Run_Attempt r); VBool (Run_IsBaseline r);
   nullableTime (Some (default now (Run_StartedAt r))); nullableTime (Run_FinishedAt r);
   VText (Run_FailureReason r)].

Definition deviation_args (r : DeviationRow) : list value :=
  [VText (Dev_ID r); VText (Dev_RunID r); VText (Dev_Category r); VText (Dev_Value r);
   VInt (Dev_EvidenceEventID r); VText (Dev_Severity r); VTime (Dev_DetectedAt r);
   VBool (Dev_Suppressed r)].

Definition allow_args (now : time) (e : AllowEntry) : list value :=
  [VText (Al_ID e); VText (Al_Scope e); nullableStringPg (Al_PackageName e); VText (Al_Kind e);
   VText (Al_Value e); VText (Al_Note e);
   VTime (if IsZero (Al_CreatedAt e) then now else Al_CreatedAt e)].

Definition notifier_args (now : time) (n : NotifierRow) : list value :=
  [VText (Nt_Name n); VText (Nt_URL n); VText (Nt_Template n); nullableStringPg (Nt_SecretEnv n);
   nullableStringPg (Nt_Headers n); nullableStringPg (Nt_MinSeverity n); VBool (Nt_Enabled n);
   VTime (if IsZero (Nt_CreatedAt n) then now else Nt_CreatedAt n); VTime now].

Definition notification_args (now : time) (n : NotificationRow) : list value :=
  [VText (Nf_ID n); VText (Nf_RunID n); VText (Nf_NotifierName n); VInt (Nf_Attempt n);
   VText (Nf_Status n); nullableTime (Nf_LastAttemptedAt n); nullableTime (Nf_NextAttemptAt n);
   VInt (Nf_ResponseCode n); nullableStringPg (Nf_ResponseBody n); nullableStringPg (Nf_ErrorMsg n);
   VInt (Nf_DeviationCount n); VTime (if IsZero (Nf_CreatedAt n) then now else Nf_CreatedAt n)].

Definition release_args (r : ReleaseRow) : list value :=
  [VText (Rel_PackageName r); VText (Rel_Version r); VText (Rel_TarballSHA256 r);
   VText (Rel_NPMIntegrity r); VTime (Rel_PublishedAt r); VTime (Rel_DiscoveredAt r)].

Definition baseline_args (r : BaselineRow) : list value :=
  [VText (Bl_PackageName r); VText (Bl_Category r); VText (Bl_Value r);
   VText (Bl_FirstSeenRunID r); VText (Bl_LastSeenRunID r); VInt (Bl_OccurrenceCount r)].

Definition event_args (runID : string) (e : EventRow) : list value * jdata :=
  ([VText runID; VInt (Ev_TsNS e); VText (Ev_Type e)], Ev_Data e).

Section inserts.
Context (us : time -> time) (jsonb : jdata -> option jdata).

(** What the columns keep of the arguments. *)
Definition kept (v : value) : value := match v with VTime t => VTime (us t) | _ => v end.
Definition stored (args : list value) : list value := kept <$> args.

(** Columns an INSERT leaves out have their DEFAULT: no metrics, never
    notified, never checked. *)
Definition inserted_run (now : time) (r : Run) : list value :=
  stored (run_args now r) ++ [VInt 0; VInt 0; VInt 0].
Definition inserted_deviation (r : DeviationRow) : list value :=
  stored (take 7 (deviation_args r)) ++ [VNull] ++ stored (drop 7 (deviation_args r)).
(** [VALUES ($1, now())]: the server's clock has its own precision. *)
Definition inserted_package (now : time) (name : string) : list value :=
  [VText name; VTime now; VNull; VNull].
Definition inserted_event (id : Z) (runID : string) (e : EventRow) : option (list value * jdata) :=
  (fun data => (VInt id :: stored (event_args runID e).1, data)) <$> jsonb (event_args runID e).2.

Lemma to_NullTime_stored o :
  to_NullTime (kept (nullableTime o)) = Ok (us <$> o).
Proof. by destruct o. Qed.
Lemma to_NullString_stored s :
  to_NullString (kept (nullableStringPg s)) =
    Ok (if decide (s = "") then None else Some s).
Proof. unfold nullableStringPg. by case_decide. Qed.

Ltac scan_pg :=
  repeat first
    [ erewrite column_bind by reflexivity
    | erewrite column_bind by apply to_NullTime_stored
    | erewrite column_bind by apply to_NullString_stored ];
  cbn -[decide]; repeat case_decide; subst; try done.

(** A row scans as the record the backend keeps for it: the timestamps at the server's
    precision, an absent column as its zero value, and an empty string for the
    NULL it was written as.  An event is kept as the JSONB column returns it. *)
Theorem inserted_rows_scan now :
  (forall r, scanRun (Some (inserted_run now r)) = Ok (stored_run us now r)) /\
  (forall r, scanDeviationRow (Some (inserted_deviation r)) = Ok (stored_dev us r)) /\
  (forall e, scanAllowEntryPg (stored (allow_args now e)) = Ok (stamp_created us now e)) /\
  (forall n, scanNotifierPg (Some (stored (notifier_args now n))) = Ok (stamp_notifier us now n)) /\
  (forall n, scanNotificationPg (stored (notification_args now n)) = Ok (stamp_notification us now n)) /\
  (forall r, scanRelease (stored (release_args r)) = Ok (stored_release us r)) /\
  (forall r, scanBaseline (stored (baseline_args r)) = Ok r) /\
  (forall name, scanWatchedPackage (inserted_package now name) = Ok (mkWatchedPackage name now None "")) /\
  (forall id runID e, scanEvent <$> inserted_event id runID e =
     (fun data => Ok (mkEventRow id runID (Ev_TsNS e) (Ev_Type e) data)) <$> jsonb (Ev_Data e)).
Proof.
  split_and!; [..|intros id runID e; unfold inserted_event; simpl; by destruct (jsonb (Ev_Data e))];
    intros x; try destruct x; unfold scanRun, scanDeviationRow, scanAllowEntryPg, scanNotifierPg,
    scanNotificationPg, scanRelease, scanBaseline, ScanRow, Scan;
    cbn -[mbind column decide nullableTime nullableStringPg kept]; scan_pg.
Qed.
End inserts.

End PostgresRows.
