(* ===== verification/PostgresSpec.v ===== *)
(** * postgres: invariant, portability between the backends, ordering

    Postgres.v's statements keep the schema invariant of SqliteSpec.v and the
    width of their INTEGER columns, fail without effect on the tables, and
    agree with the SQLite backend on every mutation whose values both column
    types hold exactly. *)
From Stdlib Require Import Ascii Sorted.
From stdpp Require Import prelude strings gmap list sorting.
From S2P Require Import Prelude GoTime Json Sql Storage Sqlite SqliteSpec Postgres.

Module PostgresSpec.
Import SqliteSpec.SqliteSpec.
Import Postgres.Postgres.

(** ** The mutations of the interface, on either backend *)
Definition no_value {S} (p : res unit * S) : res Z * S := ((fun _ => 0%Z) <$> p.1, p.2).

Definition call {S} (B : Backend S) (m : mutation) (s : S) : res Z * S :=
  match m with
  | MCreateRun now r => no_value (Storage.CreateRun now r s)
  | MUpdateRunState now id st reason => no_value (Storage.UpdateRunState now id st reason s)
  | MAppendEvents id evs => no_value (Storage.AppendEvents id evs s)
  | MMergeBaseline id rows => no_value (Storage.MergeBaseline id rows s)
  | MMarkRunBaseline id b => no_value (Storage.MarkRunBaseline id b s)
  | MWriteDeviations rows => no_value (Storage.WriteDeviations rows s)
  | MDeleteDeviationsForRun id => no_value (Storage.DeleteDeviationsForRun id s)
  | MAddWatchedPackage now name => no_value (Storage.AddWatchedPackage now name s)
  | MRemoveWatchedPackage name => no_value (Storage.RemoveWatchedPackage name s)
  | MUpdatePackageCheck now name ver => no_value (Storage.UpdatePackageCheck now name ver s)
  | MRecordRelease r => no_value (Storage.RecordRelease r s)
  | MRecordScanResult now id r => no_value (Storage.RecordScanResult now id r s)
  | MPruneEvents cutoff => Storage.PruneEvents cutoff s
  | MAddAllowEntry now e => no_value (Storage.AddAllowEntry now e s)
  | MDeleteAllowEntry id => no_value (Storage.DeleteAllowEntry id s)
  | MUpsertNotifier now n => no_value (Storage.UpsertNotifier now n s)
  | MDeleteNotifier name => no_value (Storage.DeleteNotifier name s)
  | MRecordNotification now n => no_value (Storage.RecordNotification now n s)
  end.

(** Callers only test an error for the sentinels of the interface. *)
Definition agree {A} (r r' : res A) : Prop :=
  match r, r' with
  | Ok a, Ok b => a = b
  | Err e, Err e' => forall s, s ∈ [ErrNotFound; ErrConflict; ErrAmbiguous] -> errors_Is e s = errors_Is e' s
  | _, _ => False
  end.

#[export] Instance agree_refl {A} : Reflexive (@agree A).
Proof. intros []; simpl; auto. Qed.

(** Two listings that succeed with the same rows, in any order. *)
Definition same_rows {A} (r r' : res (list A)) : Prop :=
  match r, r' with Ok l, Ok l' => l ≡ₚ l' | _, _ => False end.

Section spec.
Context (us : time -> time) (jsonb : jdata -> option jdata) (coll : string -> string -> bool).
Let pg : Backend DB := postgres_backend us jsonb coll.
Let run (m : mutation) (d : DB) : res Z * DB := call pg m d.

(** ** Lemmas: events *)
Lemma insert_events_spec known id seq evs :
  match insert_events jsonb known id seq evs with
  | (Some rows, seq') => (evs <> [] -> known = true) /\ seq' = (seq + Z.of_nat (length evs))%Z /\
      exists evs', Forall2 (fun e e' => jsonb (Ev_Data e) = Some (Ev_Data e') /\ Ev_TsNS e' = Ev_TsNS e /\
                                        Ev_Type e' = Ev_Type e) evs evs' /\
                   rows = Sqlite.number_events id (seq + 1) evs'
  | (None, seq') => (seq <= seq')%Z
  end.
Proof.
  revert seq. induction evs as [|e evs IH]; intros seq; simpl.
  { split; [done|]. split; [lia|]. exists []. split; [constructor|done]. }
  destruct (jsonb (Ev_Data e)) as [data|] eqn:Ej; [|lia]. destruct known; [|simpl; lia].
  specialize (IH (seq + 1)%Z). destruct (insert_events jsonb true id (seq + 1) evs) as [[rows|] seq']; simpl; [|lia].
  destruct IH as (_ & -> & evs' & Hf & ->). split; [done|]. split; [lia|].
  exists (mkEventRow 0 id (Ev_TsNS e) (Ev_Type e) data :: evs'). split; [by constructor|].
  unfold Sqlite.number_events. rewrite imap_cons. f_equal; [simpl; f_equal; lia|].
  apply imap_ext. intros i x _. simpl. f_equal. lia.
Qed.

Lemma wf_bump_seq d n : (Sqlite.events_seq d <= n)%Z -> wf d -> wf (Sqlite.set_events (Sqlite.events d) n d).
Proof.
  intros Hn []. split; simpl; auto; [|lia]. eapply Forall_impl; [exact wf_events_seq0|]. simpl. intros e ?. lia.
Qed.

(** ** Lemmas: INTEGER columns *)
Record fits (d : DB) : Prop := {
  fit_runs : Forall (fun r => int4 (Run_Attempt r)) (Sqlite.runs d);
  fit_baseline : Forall (fun b => int4 (Bl_OccurrenceCount b)) (Sqlite.baseline d);
  fit_notifications : Forall notification_fits (Sqlite.notifications d)
}.

Lemma merge_rows_spec id rows t t' :
  keyed bl_key t -> merge_rows id rows t = Some t' ->
  t' = foldl (fun t r => upsert bl_key bump_baseline (fill_baseline id r) t) t rows /\
  (Forall (fun b => int4 (Bl_OccurrenceCount b)) t -> Forall (fun b => int4 (Bl_OccurrenceCount b)) t').
Proof.
  revert t. induction rows as [|r rows IH]; intros t Hk; simpl; [by intros [= <-]|].
  case_decide as Hd; [|done]. intros Hm. apply IH in Hm as [-> Hi]; [|by apply keyed_upsert].
  split; [done|]. intros Ht. apply Hi. destruct Hd as [Hr Hf]. rewrite Forall_forall in *.
  intros x Hx. destruct (decide (bl_key x = bl_key (fill_baseline id r))) as [E|Hne].
  { apply Hf. by apply list_elem_of_filter. }
  unfold upsert in Hx. case_decide.
  - unfold update in Hx. apply list_elem_of_fmap in Hx as (y & -> & Hy). case_decide as Hy'; [|by apply Ht].
    exfalso. apply Hne. by rewrite <- Hy'.
  - apply elem_of_app in Hx as [Hx| ->%list_elem_of_singleton]; [by apply Ht|done].
Qed.

Lemma fits_update_runs d (P : Run -> Prop) `{!forall r, Decision (P r)} f :
  (forall r, Run_Attempt (f r) = Run_Attempt r) -> fits d -> fits (Sqlite.set_runs (update P f (Sqlite.runs d)) d).
Proof.
  intros Hf []. split; simpl; auto. apply Forall_update; [|done]. intros r. by rewrite Hf.
Qed.

(** ** Preservation *)
Definition ok (d : DB) : Prop := wf d /\ fits d.

Lemma wf_insert_deviation_pg r d d' : insert_deviation us r d = Some d' -> ok d -> ok d'.
Proof.
  unfold insert_deviation. case_decide as Hfk; [|done]. intros Hins [Hwf []].
  apply fmap_Some in Hins as (t & Ht & ->). destruct Hwf.
  apply (insert_unique_Some Dev_ID) in Ht as (Hn & Hk & _ & ->); [|done].
  split; split; simpl; auto. apply Forall_app_2; [done|]. by apply Forall_singleton.
Qed.

Lemma wf_insert_deviations_pg rows d d' : insert_deviations us rows d = Some d' -> ok d -> ok d'.
Proof.
  revert d. induction rows as [|r rows IH]; intros d; simpl; [by intros [= <-]|].
  destruct (insert_deviation us r d) as [d1|] eqn:E; [|done]. eauto using wf_insert_deviation_pg.
Qed.

Ltac insert_row Ei Hk :=
  apply insert_unique_Some in Ei as (_ & Hk & _ & ->); [|done].

Lemma run_ok m d : ok d -> ok (run m d).2.
Proof.
  intros Hok. pose proof Hok as [Hwf Hfit]. destruct m; unfold run, call, pg; simpl.
  - unfold CreateRun. destruct (IsValid (Run_State r)) eqn:E; simpl; [|done]. case_decide; [|done].
    destruct (insert_unique _ _ _) eqn:Ei; [|done]. split; [by eapply wf_insert_runs|].
    destruct Hwf, Hfit. apply insert_unique_Some in Ei as (_ & _ & _ & ->); [|done].
    split; simpl; auto. by apply Forall_app_2; [|apply Forall_singleton].
  - unfold UpdateRunState. destruct (IsValid st) eqn:E; simpl; [|done]. case_decide; [done|].
    split; [by apply wf_update_runs|by apply fits_update_runs].
  - unfold AppendEvents. destruct evs as [|e evs]; [done|].
    pose proof (insert_events_spec (bool_decide (id ∈ Run_ID <$> Sqlite.runs d)) id (Sqlite.events_seq d) (e :: evs)) as Hs.
    destruct (insert_events _ _ _ _ _) as [[rows|] seq']; simpl.
    + destruct Hs as (Hk & -> & evs' & Hf & ->). specialize (Hk ltac:(done)). apply bool_decide_eq_true in Hk.
      rewrite (Forall2_length _ _ _ Hf). split; [by apply wf_append_events|by destruct Hfit].
    + split; [by apply wf_bump_seq|by destruct Hfit].
  - unfold MergeBaseline. destruct rows as [|r rows]; [done|].
    destruct (merge_rows id (r :: rows) (Sqlite.baseline d)) as [t|] eqn:E; [|done]. simpl.
    apply merge_rows_spec in E as [-> Hi]; [|apply Hwf]. split; [by apply wf_merge|]. destruct Hfit. split; simpl; auto.
  - unfold MarkRunBaseline. case_decide; [done|]. split; [by apply wf_update_runs|by apply fits_update_runs].
  - unfold WriteDeviations. destruct (insert_deviations us rows d) eqn:E; [|done]. by eapply wf_insert_deviations_pg.
  - split; [by apply (wf_exec (MDeleteDeviationsForRun id))|by destruct Hfit].
  - split; [|unfold AddWatchedPackage; case_match; by destruct Hfit].
    by apply (wf_exec (MAddWatchedPackage now name)).
  - split; [by apply wf_remove_package|unfold RemoveWatchedPackage; case_decide; by destruct Hfit].
  - split; [by apply (wf_exec (MUpdatePackageCheck now name ver))|by destruct Hfit].
  - unfold RecordRelease. case_decide; [|done]. destruct (insert_unique _ _ _) eqn:Ei; [|done].
    destruct Hwf, Hfit. insert_row Ei Hk.
    split; split; simpl; auto. by apply Forall_app_2; [|apply Forall_singleton].
  - unfold RecordScanResult. case_decide; [done|]. split; [|by apply fits_update_runs].
    apply wf_update_runs; [done| |done]. intros ? _. unfold result_state. simpl. by case_decide.
  - split; [by apply wf_prune|by destruct Hfit].
  - unfold AddAllowEntry. case_decide as Hc; [|done]. destruct (insert_unique _ _ _) eqn:Ei; [|done].
    destruct Hwf, Hfit. insert_row Ei Hk.
    split; split; simpl; auto. by apply Forall_app_2; [|apply Forall_singleton].
  - split; [by apply (wf_exec (MDeleteAllowEntry id))|by destruct Hfit].
  - split; [|by destruct Hfit]. destruct Hwf. split; simpl; auto; [by apply keyed_upsert|]. elementwise.
    apply Forall_forall. intros x Hx. destruct (wf_notifs_fk0 x Hx) as [? Hf]. split; [done|].
    unfold upsert. case_decide; [by rewrite update_keys|]. rewrite fmap_app. set_solver.
  - split; [by apply wf_delete_notifier|]. destruct Hfit. split; simpl; auto. by apply Forall_delete_where.
  - unfold RecordNotification. case_decide as Hc; [|done]. destruct (insert_unique _ _ _) eqn:Ei; [|done].
    destruct Hwf, Hfit. insert_row Ei Hk. destruct Hc as (? & ?).
    split; split; simpl; auto; by apply Forall_app_2; [|apply Forall_singleton].
Qed.

(** ** Portability *)

(** The total a batch adds to the counts, and the room it needs. *)
Definition added (id : string) (rows : list BaselineRow) : Z :=
  foldr (fun r n => Bl_OccurrenceCount (fill_baseline id r) + n)%Z 0%Z rows.
Definition counts_fit (id : string) (rows t : list BaselineRow) : Prop :=
  Forall (fun r => (0 <= Bl_OccurrenceCount r)%Z) rows /\ (added id rows < 2 ^ 31)%Z /\
  Forall (fun b => (0 <= Bl_OccurrenceCount b /\ Bl_OccurrenceCount b + added id rows < 2 ^ 31)%Z) t.

Definition exact (t : time) : Prop := us t = t.
Definition exact_opt (t : option time) : Prop := us <$> t = t.

(** The values of [m] that TIMESTAMPTZ, JSONB and INTEGER hold as they are. *)
Definition portable (m : mutation) (d : DB) : Prop :=
  match m with
  | MCreateRun now r => exact (default now (Run_StartedAt r)) /\ exact_opt (Run_FinishedAt r) /\ int4 (Run_Attempt r)
  | MAppendEvents id evs => id ∈ Run_ID <$> Sqlite.runs d /\ Forall (fun e => jsonb (Ev_Data e) = Some (Ev_Data e)) evs
  | MMergeBaseline id rows => counts_fit id rows (Sqlite.baseline d)
  | MWriteDeviations rows => Forall (fun r => exact (Dev_DetectedAt r)) rows
  | MRecordRelease r => exact (Rel_PublishedAt r) /\ exact (Rel_DiscoveredAt r)
  | MRecordScanResult now _ _ => exact now
  | MAddAllowEntry now e => exact (if IsZero (Al_CreatedAt e) then now else Al_CreatedAt e)
  | MUpsertNotifier now n => exact now /\ exact (if IsZero (Nt_CreatedAt n) then now else Nt_CreatedAt n)
  | MRecordNotification now n =>
      exact_opt (Nf_LastAttemptedAt n) /\ exact_opt (Nf_NextAttemptAt n) /\
      exact (if IsZero (Nf_CreatedAt n) then now else Nf_CreatedAt n) /\ notification_fits n
  | _ => True
  end.

Lemma insert_events_portable id seq evs :
  Forall (fun e => jsonb (Ev_Data e) = Some (Ev_Data e)) evs ->
  insert_events jsonb true id seq evs =
  (Some (Sqlite.number_events id (seq + 1) evs), (seq + Z.of_nat (length evs))%Z).
Proof.
  intros H. revert seq. induction H as [|e evs He _ IH]; intros seq; simpl; [by rewrite Z.add_0_r|].
  rewrite He, IH. simpl. f_equal; [|lia]. f_equal. unfold Sqlite.number_events. rewrite imap_cons. f_equal.
  - f_equal. lia.
  - apply imap_ext. intros i x _. simpl. f_equal. lia.
Qed.

Lemma fill_count_nonneg id r : (0 <= Bl_OccurrenceCount r)%Z -> (0 <= Bl_OccurrenceCount (fill_baseline id r))%Z.
Proof. simpl. case_decide; lia. Qed.

Lemma added_cons id r rows : added id (r :: rows) = (Bl_OccurrenceCount (fill_baseline id r) + added id rows)%Z.
Proof. done. Qed.

Lemma added_nonneg id rows : Forall (fun r => (0 <= Bl_OccurrenceCount r)%Z) rows -> (0 <= added id rows)%Z.
Proof.
  induction 1 as [|r rows Hr _ IH]; [done|]. rewrite added_cons. pose proof (fill_count_nonneg id r Hr). lia.
Qed.

(** An upserted row's count is the new one, or the old plus the new. *)
Lemma upsert_count r t x :
  x ∈ upsert bl_key bump_baseline r t ->
  x = r \/ x ∈ t \/ exists y, y ∈ t /\ Bl_OccurrenceCount x = (Bl_OccurrenceCount y + Bl_OccurrenceCount r)%Z.
Proof.
  unfold upsert. case_decide.
  - unfold update. intros (y & -> & Hy)%list_elem_of_fmap. case_decide; [right; right; by exists y|by right; left].
  - intros [Hx| ->%list_elem_of_singleton]%elem_of_app; [by right; left|by left].
Qed.

Lemma merge_rows_portable id rows t :
  counts_fit id rows t ->
  merge_rows id rows t = Some (foldl (fun t r => upsert bl_key bump_baseline (fill_baseline id r) t) t rows).
Proof.
  revert t. induction rows as [|r rows IH]; intros t (Hn & Ha & Ht); [done|].
  apply Forall_cons in Hn as [Hr Hn]. pose proof (fill_count_nonneg id r Hr) as Hf. pose proof (added_nonneg id rows Hn) as Hrest.
  simpl merge_rows. simpl foldl. rewrite added_cons in *. set (r' := fill_baseline id r) in *.
  assert (Forall (fun b => (0 <= Bl_OccurrenceCount b /\ Bl_OccurrenceCount b + added id rows < 2 ^ 31)%Z)
            (upsert bl_key bump_baseline r' t)) as Hu.
  { rewrite Forall_forall in *. intros x [->|[Hx|(y & Hy & ->)]]%upsert_count; [lia| |].
    - specialize (Ht x Hx). lia.
    - specialize (Ht y Hy). lia. }
  rewrite decide_True.
  - apply IH. split; [done|]. split; [lia|done].
  - split; [change (int4 (Bl_OccurrenceCount r')); unfold int4; lia|]. rewrite Forall_forall in *. unfold int4.
    intros x [_ Hx]%list_elem_of_filter. specialize (Hu x Hx). lia.
Qed.

Lemma stored_dev_exact r : exact (Dev_DetectedAt r) -> stored_dev us r = Storage.stored_dev r.
Proof. unfold exact, stored_dev, Storage.stored_dev. by intros ->. Qed.

Lemma insert_deviations_portable rows d :
  Forall (fun r => exact (Dev_DetectedAt r)) rows -> insert_deviations us rows d = Sqlite.insert_deviations rows d.
Proof.
  intros H. revert d. induction H as [|r rows Hr _ IH]; intros d; [done|]. simpl.
  assert (insert_deviation us r d = Sqlite.insert_deviation r d) as ->.
  { unfold insert_deviation, Sqlite.insert_deviation. by rewrite stored_dev_exact. }
  destruct (Sqlite.insert_deviation r d); [|done]. apply IH.
Qed.

Ltac agreeing :=
  split; [|reflexivity];
  first [reflexivity
        |let s := fresh "s" in let Hs := fresh "Hs" in intros s Hs;
         repeat (apply elem_of_cons in Hs as [->|Hs]; [reflexivity|]); by apply not_elem_of_nil in Hs].

Lemma portable_same m d :
  portable m d -> agree (run m d).1 (call sqlite_backend m d).1 /\ (run m d).2 = (call sqlite_backend m d).2.
Proof.
  unfold portable, exact, exact_opt. intros Hp. destruct m; unfold run, call, pg; simpl; try agreeing.
  - destruct Hp as (Hs & Hf & Ha). unfold CreateRun, Sqlite.CreateRun. destruct (negb _); [agreeing|].
    rewrite decide_True by done. unfold stored_run, Sqlite.stored_run. rewrite Hs, Hf. destruct (insert_unique _ _ _); agreeing.
  - destruct Hp as [Hr Hj]. unfold AppendEvents, Sqlite.AppendEvents. destruct evs as [|e evs]; [agreeing|].
    rewrite decide_True, bool_decide_true, insert_events_portable by done. agreeing.
  - unfold MergeBaseline, Sqlite.MergeBaseline. destruct rows as [|r rows]; [agreeing|].
    rewrite merge_rows_portable by done. agreeing.
  - unfold WriteDeviations, Sqlite.WriteDeviations. rewrite insert_deviations_portable by done. destruct (Sqlite.insert_deviations rows d); agreeing.
  - destruct Hp as [Hp Hd]. unfold RecordRelease, Sqlite.RecordRelease.
    assert (stored_release us r = r) as -> by (unfold stored_release; rewrite Hp, Hd; by destruct r).
    case_decide; [destruct (insert_unique rel_key r _); agreeing|agreeing].
  - unfold RecordScanResult, Sqlite.RecordScanResult. rewrite Hp. case_decide; agreeing.
  - unfold AddAllowEntry, Sqlite.AddAllowEntry, stamp_created, Sqlite.stamp_created. rewrite Hp.
    case_decide; [destruct (insert_unique _ _ _); agreeing|agreeing].
  - destruct Hp as [Hn Hc]. unfold UpsertNotifier, Sqlite.UpsertNotifier, stamp_notifier, Sqlite.stamp_notifier.
    rewrite Hn, Hc. agreeing.
  - destruct Hp as (Hl & Hn & Hc & Hf). unfold RecordNotification, Sqlite.RecordNotification.
    unfold stamp_notification, Sqlite.stamp_notification. rewrite Hl, Hn, Hc.
    destruct (decide (Nf_RunID n ∈ _ /\ _)) as [H|H].
    + rewrite decide_True by tauto. destruct (insert_unique _ _ _); agreeing.
    + rewrite decide_False by tauto. agreeing.
Qed.

(** ** Properties *)

(** A merge that succeeds is the exact sum, as SQLite computes it; one that
    fails changes nothing. *)
Lemma merge_exact id rows d :
  ok d ->
  let exact := (call sqlite_backend (MMergeBaseline id rows) d).2 in
  (run (MMergeBaseline id rows) d = (Ok 0%Z, exact) /\
     Forall (fun b => int4 (Bl_OccurrenceCount b)) (Sqlite.baseline exact)) \/
  exists e, run (MMergeBaseline id rows) d = (Err e, d).
Proof.
  intros [Hwf []]. unfold run, call, pg. simpl. unfold MergeBaseline, Sqlite.MergeBaseline.
  destruct rows as [|r rows]; [by left|].
  destruct (merge_rows id (r :: rows) (Sqlite.baseline d)) as [t|] eqn:E; [left|right; by eexists].
  apply merge_rows_spec in E as [-> Hi]; [|apply Hwf]. split; [done|by apply Hi].
Qed.

(** C28: The PostgreSQL backend keeps the schema and never wraps a count.  Every
    database it can produce from an empty one satisfies the schema invariant
    of the contract, keys, references, states and CHECKs, and every value of
    a column the migrations declare INTEGER, which has four bytes (a run's attempt,
    occurrence counts, a delivery's attempt, response code and deviation
    count), is in range.  On such a database a run or a delivery with such a value
    out of range is refused and changes nothing; merging a baseline either gives
    the exact sums, those SQLite's wide integers give, all in range, or is
    refused and changes nothing. *)
Theorem postgres_reachable_ok ms :
  let d := foldl (fun d m => (run m d).2) Sqlite.empty_db ms in
  wf d /\ fits d /\
  (forall now r, ~ int4 (Run_Attempt r) -> exists e, run (MCreateRun now r) d = (Err e, d)) /\
  (forall now n, ~ notification_fits n -> exists e, run (MRecordNotification now n) d = (Err e, d)) /\
  (forall id rows, let exact := (call sqlite_backend (MMergeBaseline id rows) d).2 in
     (run (MMergeBaseline id rows) d = (Ok 0%Z, exact) /\
        Forall (fun b => int4 (Bl_OccurrenceCount b)) (Sqlite.baseline exact)) \/
     exists e, run (MMergeBaseline id rows) d = (Err e, d)).
Proof.
  intros d. assert (ok d) as Hok.
  { enough (forall d, ok d -> ok (foldl (fun d m => (run m d).2) d ms)) as H.
    { apply H. split; [apply wf_empty|by split]. }
    clear d. induction ms as [|m ms IH]; intros d Hd; [done|]. simpl. by apply IH, run_ok. }
  pose proof Hok as [Hwf Hfit]. split_and!; [done|done| | |].
  - intros now r Hr. unfold run, call, pg. simpl. unfold CreateRun. destruct (negb _); [by eexists|].
    rewrite decide_False by done. by eexists.
  - intros now n Hn. unfold run, call, pg. simpl. unfold RecordNotification. rewrite decide_False by tauto. by eexists.
  - intros id rows. by apply merge_exact.
Qed.

(** A failed call of the PostgreSQL backend has no effect on any table:
    batches of events, deviations or baseline rows are all or nothing.  Only
    the event sequence may have moved, and never backwards. *)
Theorem postgres_error_atomic m d e :
  (run m d).1 = Err e ->
  exists n, (Sqlite.events_seq d <= n)%Z /\ (run m d).2 = Sqlite.set_events (Sqlite.events d) n d.
Proof.
  intros He. assert (forall d', d' = d -> exists n, (Sqlite.events_seq d <= n)%Z /\
    d' = Sqlite.set_events (Sqlite.events d) n d) as same.
  { intros d' ->. exists (Sqlite.events_seq d). split; [lia|]. by destruct d. }
  destruct m; unfold run, call, pg in *; simpl in *; try done.
  - apply same. revert He. unfold CreateRun. destruct (negb _); [done|]. case_decide; [|done]. by destruct (insert_unique _ _ _).
  - apply same. revert He. unfold UpdateRunState. destruct (negb _); [done|]. by case_decide.
  - unfold AppendEvents in *. destruct evs as [|x evs]; [done|].
    pose proof (insert_events_spec (bool_decide (id ∈ Run_ID <$> Sqlite.runs d)) id (Sqlite.events_seq d) (x :: evs)) as Hs.
    destruct (insert_events _ _ _ _ _) as [[rows|] seq']; [done|]. by exists seq'.
  - apply same. revert He. unfold MergeBaseline. destruct rows as [|r rows]; [done|]. by destruct (merge_rows _ _ _).
  - apply same. revert He. unfold MarkRunBaseline. by case_decide.
  - apply same. revert He. unfold WriteDeviations. by destruct (insert_deviations _ _ _).
  - apply same. revert He. unfold AddWatchedPackage. by destruct (insert_unique _ _ _).
  - apply same. revert He. unfold RemoveWatchedPackage. by case_decide.
  - apply same. revert He. unfold RecordRelease. case_decide; [|done]. by destruct (insert_unique _ _ _).
  - apply same. revert He. unfold RecordScanResult. by case_decide.
  - apply same. revert He. unfold AddAllowEntry. case_decide; [|done]. by destruct (insert_unique _ _ _).
  - apply same. revert He. unfold RecordNotification. case_decide; [|done]. by destruct (insert_unique _ _ _).
Qed.

(** C7: The backends are interchangeable on portable values, in what follows.  On the
    same tables, a mutation whose instants, payloads and counts the
    PostgreSQL column types hold exactly answers as the SQLite backend does
    (the same value, or an error of the same kind) and leaves the same
    tables.  A run, a deviation, an event and a notifier looked up by key, the events of a
    run, their number and the total of dropped events are the same; a
    package's baseline, the deliveries of a run, the allowlist, the deviations
    of a run, the notifiers and the watched packages are the same rows, perhaps in another
    order.  (Nothing is said of the run lists cut to a limit, of filtered
    deviations, of summaries and of short ids, where the backends do differ:
    [backends_differ].) *)
Theorem backends_agree m d :
  portable m d ->
  (agree (run m d).1 (call sqlite_backend m d).1 /\ (run m d).2 = (call sqlite_backend m d).2) /\
  (forall id, GetRun id d = Sqlite.GetRun id d) /\
  (forall id, GetDeviation id d = Sqlite.GetDeviation id d) /\
  (forall id, GetEvent id d = Sqlite.GetEvent id d) /\
  (forall name, GetNotifier name d = Sqlite.GetNotifier name d) /\
  (forall id lim, ListEventsByRun id lim d = Sqlite.ListEventsByRun id lim d) /\
  (forall id, EventCount id d = Sqlite.EventCount id d) /\
  EventsDroppedTotal d = Sqlite.EventsDroppedTotal d /\
  (forall pkg, same_rows (LoadBaseline pkg d).1 (Sqlite.LoadBaseline pkg d).1) /\
  (forall id, same_rows (ListNotificationsByRun id d).1 (Sqlite.ListNotificationsByRun id d).1) /\
  same_rows (ListAllowEntries coll d).1 (Sqlite.ListAllowEntries d).1 /\
  (forall id, same_rows (ListDeviations coll id d).1 (Sqlite.ListDeviations id d).1) /\
  same_rows (ListNotifiers coll d).1 (Sqlite.ListNotifiers d).1 /\
  same_rows (ListWatchedPackages coll d).1 (Sqlite.ListWatchedPackages d).1.
Proof.
  intros Hp. split; [by apply portable_same|]. do 7 (split; [done|]).
  split_and!; try intros ?; simpl; by rewrite ?order_by_perm.
Qed.
End spec.

(** ** Prefix resolution *)
Definition plain (c : ascii) : Prop := c <> "%"%char /\ c <> "_"%char /\ c <> "\"%char.

Lemma pg_like_percent s : Postgres.like ["%"%char] s = true.
Proof. induction s as [|c s IH]; [done|]. simpl in *. by rewrite IH. Qed.

Lemma like_plain p s : Forall plain p -> Postgres.like (p ++ ["%"%char]) s = true <-> exists k, s = p ++ k.
Proof.
  intros Hp. revert s. induction Hp as [|c p (H1 & H2 & H3) Hp IH]; intros s.
  - simpl app. rewrite pg_like_percent. naive_solver.
  - simpl. rewrite (proj2 (Ascii.eqb_neq c "%"%char) H1), (proj2 (Ascii.eqb_neq c "\"%char) H3).
    rewrite (proj2 (Ascii.eqb_neq c "_"%char) H2). destruct s as [|x s]; simpl.
    + split; [done|]. by intros (k & ?).
    + rewrite andb_true_iff, IH. destruct (Ascii.eqb_spec c x) as [->|Hne]; [naive_solver|].
      split; [by intros []|]. intros (k & E). congruence.
Qed.

Lemma id_like_plain prefix id :
  Forall plain (list_of_string prefix) -> Postgres.id_like prefix id = true <-> HasPrefix id prefix = true.
Proof.
  intros Hp. unfold Postgres.id_like. rewrite list_of_string_app. change (list_of_string "%") with ["%"%char].
  rewrite like_plain by done. rewrite HasPrefix_spec. split.
  - intros (k & E). exists (string_of_list k). apply list_of_string_inj.
    by rewrite list_of_string_app, E, list_of_string_of_list.
  - intros (t & ->). exists (list_of_string t). by rewrite list_of_string_app.
Qed.

(** Short run ids on PostgreSQL mean what the interface says.  For a
    non-empty prefix without LIKE's special characters the answer is the one
    run whose id starts with it; not found and ambiguous are reported exactly
    when none or several do. *)
Theorem postgres_ResolveRunPrefix_spec prefix d :
  wf d -> prefix <> "" -> Forall plain (list_of_string prefix) ->
  match (Postgres.ResolveRunPrefix prefix d).1 with
  | Ok r => r ∈ Sqlite.runs d /\ HasPrefix (Run_ID r) prefix = true /\
            (forall r', r' ∈ Sqlite.runs d -> HasPrefix (Run_ID r') prefix = true -> r' = r)
  | Err e => (e = ErrNotFound /\ forall r, r ∈ Sqlite.runs d -> HasPrefix (Run_ID r) prefix <> true) \/
             (e = ErrAmbiguous /\ exists r r', r ∈ Sqlite.runs d /\ r' ∈ Sqlite.runs d /\ Run_ID r <> Run_ID r' /\
                HasPrefix (Run_ID r) prefix = true /\ HasPrefix (Run_ID r') prefix = true)
  end.
Proof.
  intros Hwf Hne Hp. unfold Postgres.ResolveRunPrefix, Postgres.resolve. simpl. rewrite decide_False by done.
  pose proof (unique_row_spec Run_ID (fun r => Postgres.id_like prefix (Run_ID r) = true) (Sqlite.runs d) (wf_runs d Hwf)) as H.
  assert (forall r, Postgres.id_like prefix (Run_ID r) = true <-> HasPrefix (Run_ID r) prefix = true) as E by
    (intros r; by apply id_like_plain).
  destruct (unique_row _); setoid_rewrite E in H; exact H.
Qed.

Lemma postgres_ResolveRunPrefix_spec_witness :
  forall r, r ∈ Sqlite.runs two_runs -> HasPrefix (Run_ID r) "R" <> true.
Proof.
  assert (Hr : reachable two_runs) by (do 2 constructor; constructor).
  pose proof (postgres_ResolveRunPrefix_spec "R" two_runs (wf_reachable _ Hr) ltac:(done)
    ltac:(by repeat constructor)) as H.
  destruct (Postgres.ResolveRunPrefix "R" two_runs).1 as [r|e] eqn:E; [vm_compute in E; discriminate|].
  destruct H as [[_ H]|[-> _]]; [exact H|]. vm_compute in E. discriminate.
Defined.

(** ** Concrete calls *)
Definition floor_us (t : time) : time := (t / 1000 * 1000)%Z.
Definition pg_demo : Backend DB := Postgres.postgres_backend floor_us Some string_le.

(** The two backends differ where the contract says they should not.  On
    the same two runs the PostgreSQL list is newest first while the SQLite
    list is not, and a short id in capitals resolves on SQLite only. *)
Theorem backends_differ :
  (Storage.ListRuns (Backend := pg_demo) 10 two_runs).1 <> (Storage.ListRuns (Backend := sqlite_backend) 10 two_runs).1 /\
  (Storage.ResolveRunPrefix (Backend := pg_demo) "R1" two_runs).1 = Err ErrNotFound /\
  (exists r, (Storage.ResolveRunPrefix (Backend := sqlite_backend) "R1" two_runs).1 = Ok r /\ Run_ID r = "r1").
Proof. split; [by vm_compute|]. split; [by vm_compute|]. eexists. split; vm_compute; reflexivity. Qed.

Lemma backends_agree_witness :
  portable floor_us Some (MMergeBaseline "r1" [mkBaselineRow "axios" "net" "a" "" "" 3]) two_runs /\
  Sqlite.baseline (call (Postgres.postgres_backend floor_us Some string_le)
    (MMergeBaseline "r1" [mkBaselineRow "axios" "net" "a" "" "" 3]) two_runs).2 =
    [mkBaselineRow "axios" "net" "a" "r1" "r1" 3].
Proof.
  assert (Hp : portable floor_us Some (MMergeBaseline "r1" [mkBaselineRow "axios" "net" "a" "" "" 3]) two_runs).
  { split; [repeat constructor; simpl; lia|]. split; [vm_compute; reflexivity|constructor]. }
  split; [exact Hp|].
  destruct (backends_agree floor_us Some string_le (MMergeBaseline "r1" [mkBaselineRow "axios" "net" "a" "" "" 3])
    two_runs Hp) as [[_ H] _].
  rewrite H. vm_compute. reflexivity.
Defined.

(** A count at the end of its column: one more is refused. *)
Definition full_count : list mutation :=
  [MCreateRun 1 (new_run "r1" "axios" "1.0" RunStatePending 1);
   MMergeBaseline "r1" [mkBaselineRow "axios" "net" "a" "" "" (2 ^ 31 - 1)]].
Definition pg_replay (ms : list mutation) : DB := foldl (fun d m => (call pg_demo m d).2) Sqlite.empty_db ms.

Lemma postgres_reachable_ok_witness :
  Bl_OccurrenceCount <$> Sqlite.baseline (pg_replay full_count) = [2147483647%Z] /\
  exists e, call pg_demo (MMergeBaseline "r1" [mkBaselineRow "axios" "net" "a" "" "" 1]) (pg_replay full_count) =
    (Err e, pg_replay full_count).
Proof.
  split; [vm_compute; reflexivity|].
  destruct (postgres_reachable_ok floor_us Some string_le full_count) as (_ & _ & _ & _ & H).
  destruct (H "r1" [mkBaselineRow "axios" "net" "a" "" "" 1]) as [[_ Hf]|[e E]].
  - exfalso. apply Forall_inv in Hf. apply (bool_decide_eq_true_2 _) in Hf. vm_compute in Hf. discriminate Hf.
  - exists e. exact E.
Defined.

(** An event whose payload the JSONB column rejects. *)
Lemma postgres_error_atomic_witness :
  exists n, (Sqlite.events_seq two_runs <= n)%Z /\
    (call (Postgres.postgres_backend floor_us (fun _ => None) string_le)
       (MAppendEvents "r1" [mkEventRow 0 "r1" 5 "exec" None]) two_runs).2 =
    Sqlite.set_events (Sqlite.events two_runs) n two_runs.
Proof.
  eapply (postgres_error_atomic floor_us (fun _ => None) string_le (MAppendEvents "r1" [mkEventRow 0 "r1" 5 "exec" None])).
  vm_compute. reflexivity.
Defined.

End PostgresSpec.
