(* ===== verification/Contract.v ===== *)
(** * storagetest: the repository's own contract for a storage backend

    internal/orchestrator/storage/storagetest/contract.go as a program over any
    [Backend]: a subtest is a computation on the backend that may be abandoned
    ([t.Fatalf]) and notes failures ([t.Errorf]); [RunContract] runs them one
    after the other on the same backend and returns the names of those that
    failed.  [clock] gives the instant of each reading of the clock. *)
From stdpp Require Import prelude strings gmap list.
From S2P Require Import Prelude GoTime Json Sql Storage Sqlite SqliteSpec Postgres PostgresSpec.

Module Contract.
Import (hints) SqliteSpec.SqliteSpec.
Import (hints) Sqlite.Sqlite.

(** ** Subtests *)
Record TS (S : Type) : Type := mkTS { backend : S; readings : nat; failed : bool }.
Arguments mkTS {S}. Arguments backend {S}. Arguments readings {S}. Arguments failed {S}.

(** [None]: the subtest was abandoned. *)
Definition T (S A : Type) : Type := TS S -> option A * TS S.
#[export] Instance T_ret {S} : MRet (T S) := fun A a s => (Some a, s).
#[export] Instance T_bind {S} : MBind (T S) := fun A B f m s =>
  match m s with (Some a, s') => f a s' | (None, s') => (None, s') end.

Section suite.
Context {S : Type} `{Backend S} (clock : nat -> time).

Definition call {A} (m : M S A) : T S (res A) := fun s =>
  let '(r, b) := m (backend s) in (Some r, mkTS b (readings s) (failed s)).
Definition now : T S time := fun s => (Some (clock (readings s)), mkTS (backend s) (Datatypes.S (readings s)) (failed s)).
Definition Errorf_unless (b : bool) : T S unit := fun s => (Some tt, if b then s else mkTS (backend s) (readings s) true).
Definition Fatalf {A} : T S A := fun s => (None, mkTS (backend s) (readings s) true).
(** [if err != nil { t.Fatalf }], [... { t.Errorf }], and [x, _ :=]. *)
Definition must {A} (m : M S A) : T S A := r ← call m; match r with Ok a => mret a | Err _ => Fatalf end.
Definition should {A} (m : M S A) : T S unit := r ← call m; Errorf_unless (is_Ok r).
Definition ignore {A} (zero : A) (m : M S A) : T S A := r ← call m; mret (match r with Ok a => a | Err _ => zero end).
Definition fails_with {A} (target : error) (m : M S A) : T S unit :=
  r ← call m; Errorf_unless (match r with Err e => errors_Is e target | Ok _ => false end).

Definition zero_run : Run := mkRun "" "" "" "" "" "" "" "" 0 false None None "" 0 0 0.
Definition a_run (id pkg ver : string) : Run := new_run id pkg ver RunStatePending 1.
Definition ev (runID : string) (ts : Z) (type : string) (data : json) : EventRow := mkEventRow 0 runID ts type (Some data).
Definition is_state (st : RunState) (r : Run) : bool := bool_decide (Run_State r = st).
Definition set (o : option time) : bool := match o with Some _ => true | None => false end.

Definition t_roundtrip : T S unit :=
  t ← now; _ ← must (CreateRun t (a_run "run-001" "left-pad" "1.3.0"));
  got ← must (GetRun "run-001");
  _ ← Errorf_unless (bool_decide (Run_ID got = "run-001") && bool_decide (Run_PackageName got = "left-pad")
                     && bool_decide (Run_Version got = "1.3.0"));
  Errorf_unless (is_state RunStatePending got).

Definition t_missing : T S unit := fails_with ErrNotFound (GetRun "does-not-exist").

Definition t_duplicate : T S unit :=
  t ← now; _ ← must (CreateRun t (a_run "run-dup" "" ""));
  t ← now; fails_with ErrConflict (CreateRun t (a_run "run-dup" "" "")).

Definition t_transitions : T S unit :=
  t ← now; _ ← must (CreateRun t (a_run "run-trans" "" ""));
  t ← now; _ ← must (UpdateRunState t "run-trans" RunStateBuilding "");
  got ← ignore zero_run (GetRun "run-trans");
  _ ← Errorf_unless (is_state RunStateBuilding got);
  _ ← Errorf_unless (set (Run_StartedAt got));
  t ← now; _ ← must (UpdateRunState t "run-trans" RunStateDone "");
  got ← ignore zero_run (GetRun "run-trans");
  Errorf_unless (set (Run_FinishedAt got)).

Definition t_failed_reason : T S unit :=
  t ← now; _ ← call (CreateRun t (a_run "run-fail" "" ""));
  t ← now; _ ← must (UpdateRunState t "run-fail" RunStateFailed "image pull timeout");
  got ← ignore zero_run (GetRun "run-fail");
  _ ← Errorf_unless (is_state RunStateFailed got);
  Errorf_unless (bool_decide (Run_FailureReason got = "image pull timeout")).

Definition t_update_missing : T S unit := t ← now; fails_with ErrNotFound (UpdateRunState t "no-such-run" RunStateDone "").

Definition t_append : T S unit :=
  t ← now; _ ← call (CreateRun t (a_run "run-evt" "" ""));
  _ ← must (AppendEvents "run-evt"
        [ev "run-evt" 200 "file_access" (JObj [("path", JStr "/etc/shadow")]);
         ev "run-evt" 100 "file_access" (JObj [("path", JStr "/etc/passwd")]);
         ev "run-evt" 300 "net_connect" (JObj [("dest", JStr "1.2.3.4:443")])]);
  count ← must (EventCount "run-evt");
  _ ← Errorf_unless (count =? 3)%Z;
  out ← must (ListEventsByRun "run-evt" 0);
  match out with
  | [e0; e1; e2] =>
      _ ← Errorf_unless (bool_decide (Ev_TsNS <$> out = [100; 200; 300]%Z));
      Errorf_unless (bool_decide (Ev_Type e2 = "net_connect"))
  | _ => Fatalf
  end.

Definition t_append_empty : T S unit :=
  t ← now; _ ← call (CreateRun t (a_run "run-empty" "" ""));
  _ ← should (AppendEvents "run-empty" []);
  n ← ignore 0%Z (EventCount "run-empty");
  Errorf_unless (n =? 0)%Z.

(** [positions[id]], 0 for an id that is not listed. *)
Definition position (id : string) (runs : list Run) : nat :=
  (foldl (fun (acc : nat * nat) r => (if decide (Run_ID r = id) then acc.2 else acc.1, Datatypes.S acc.2)) (0, 0) runs).1.

Fixpoint start_runs (l : list string) : T S unit :=
  match l with
  | [] => mret tt
  | id :: l' =>
      t ← now; _ ← call (CreateRun t (a_run id "" ""));
      t ← now; _ ← must (UpdateRunState t id RunStateBuilding "");
      start_runs l'
  end.
Definition t_list_runs : T S unit :=
  _ ← start_runs ["list-a"; "list-b"; "list-c"];
  runs ← must (ListRuns 50);
  Errorf_unless (position "list-c" runs <? position "list-a" runs).

Definition t_append_missing : T S unit :=
  r ← call (AppendEvents "no-run" [ev "no-run" 1 "file_access" (JObj [])]); Errorf_unless (negb (is_Ok r)).

Definition t_result : T S unit :=
  t ← now; _ ← call (CreateRun t (a_run "scan-res-1" "p" "1"));
  t ← now; _ ← must (RecordScanResult t "scan-res-1" (mkScanResult "ok" "" 42 3 5500000000));
  got ← ignore zero_run (GetRun "scan-res-1");
  _ ← Errorf_unless (is_state RunStateDone got);
  _ ← Errorf_unless (set (Run_FinishedAt got));
  Errorf_unless (bool_decide ((Run_EventsEmitted got, Run_EventsDropped got, Run_DurationNS got) = (42, 3, 5500000000)%Z)).

Definition t_result_failed : T S unit :=
  t ← now; _ ← call (CreateRun t (a_run "scan-res-2" "p" "1"));
  t ← now; _ ← must (RecordScanResult t "scan-res-2" (mkScanResult "failed" "container exited 137" 0 0 0));
  got ← ignore zero_run (GetRun "scan-res-2");
  _ ← Errorf_unless (is_state RunStateFailed got);
  Errorf_unless (bool_decide (Run_FailureReason got = "container exited 137")).

Definition t_result_missing : T S unit :=
  t ← now; fails_with ErrNotFound (RecordScanResult t "ghost" (mkScanResult "ok" "" 0 0 0)).

Definition t_dropped : T S unit :=
  t ← now; _ ← call (CreateRun t (a_run "drop-a" "p" "1"));
  t ← now; _ ← call (CreateRun t (a_run "drop-b" "p" "1"));
  t ← now; _ ← call (RecordScanResult t "drop-a" (mkScanResult "ok" "" 0 5 0));
  t ← now; _ ← call (RecordScanResult t "drop-b" (mkScanResult "ok" "" 0 7 0));
  got ← must EventsDroppedTotal;
  Errorf_unless (negb (got <? 12)%Z).

Definition t_prune : T S unit :=
  t ← now; _ ← call (CreateRun t (a_run "prune-run" "p" "1"));
  _ ← call (AppendEvents "prune-run" [ev "prune-run" 1 "file_access" (JObj []); ev "prune-run" 1 "net_connect" (JObj [])]);
  evs ← ignore [] (ListEventsByRun "prune-run" 0);
  match evs with
  | [_; e1] =>
      t ← now;
      _ ← must (WriteDeviations [mkDeviationRow "dev-prune" "prune-run" "net_new_destination" "1.1.1.1:80" (Ev_ID e1)
                                   "high" t None false]);
      t ← now;
      n ← must (PruneEvents (t + 24 * 60 * Minute)%Z);
      _ ← Errorf_unless (negb (n <? 1)%Z);
      after ← ignore [] (ListEventsByRun "prune-run" 0);
      Errorf_unless (existsb (fun e => bool_decide (Ev_ID e = Ev_ID e1)) after)
  | _ => Fatalf
  end.

Definition has_entry (id : string) (l : list AllowEntry) : bool := existsb (fun e => bool_decide (Al_ID e = id)) l.
Definition t_allow : T S unit :=
  t ← now; _ ← must (AddAllowEntry t (mkAllowEntry "allow-glob-1" AllowScopeGlobal "" AllowKindCIDR "10.0.0.0/8" "internal" zero_time));
  t ← now; _ ← must (AddAllowEntry t (mkAllowEntry "allow-pkg-1" AllowScopePackage "axios" AllowKindSNI "telemetry.example" "" zero_time));
  all ← must ListAllowEntries;
  _ ← Errorf_unless (has_entry "allow-glob-1" all && has_entry "allow-pkg-1" all);
  let for_axios := EntriesForPackage all "axios" in
  _ ← Errorf_unless (has_entry "allow-glob-1" for_axios && has_entry "allow-pkg-1" for_axios);
  _ ← Errorf_unless (negb (has_entry "allow-pkg-1" (EntriesForPackage all "lodash")));
  got ← must (ResolveAllowPrefix "allow-glob");
  _ ← Errorf_unless (bool_decide (Al_ID got = "allow-glob-1"));
  _ ← fails_with ErrNotFound (ResolveAllowPrefix "missing-");
  _ ← should (DeleteAllowEntry "allow-glob-1");
  _ ← should (DeleteAllowEntry "allow-glob-1");
  fails_with ErrNotFound (ResolveAllowPrefix "allow-glob").

Definition t_notifier : T S unit :=
  let n url := mkNotifierRow "notif-1" url "generic" "" "" "high" true zero_time zero_time in
  t ← now; _ ← must (UpsertNotifier t (n "https://hooks.example/x"));
  t ← now; _ ← must (UpsertNotifier t (n "https://hooks.example/updated"));
  got ← must (GetNotifier "notif-1");
  _ ← Errorf_unless (bool_decide (Nt_URL got = "https://hooks.example/updated"));
  l ← must ListNotifiers;
  _ ← Errorf_unless (existsb (fun r => bool_decide (Nt_Name r = "notif-1")) l);
  _ ← fails_with ErrNotFound (GetNotifier "no-such-notifier");
  _ ← should (DeleteNotifier "notif-1");
  should (DeleteNotifier "notif-1").

Definition t_audit : T S unit :=
  t ← now; _ ← call (CreateRun t (a_run "notif-run" "p" "1"));
  t ← now; _ ← call (UpsertNotifier t (mkNotifierRow "notif-audit" "https://x" "generic" "" "" "" true zero_time zero_time));
  last ← now;
  let row id attempt status code msg :=
    mkNotificationRow id "notif-run" "notif-audit" attempt status (Some last) None code "" msg 3 zero_time in
  t ← now; _ ← must (RecordNotification t (row "nrow-1" 1%Z "failed" 503%Z "upstream down"));
  t ← now; _ ← must (RecordNotification t (row "nrow-2" 2%Z "sent" 200%Z ""));
  rows ← must (ListNotificationsByRun "notif-run");
  match rows with
  | [r0; r1] =>
      _ ← Errorf_unless (bool_decide (Nf_Attempt <$> rows = [1; 2]%Z));
      _ ← Errorf_unless (bool_decide (Nf_Status <$> rows = ["failed"; "sent"]));
      Errorf_unless (Nf_ResponseCode r1 =? 200)%Z
  | _ => Fatalf
  end.

Definition suite : list (string * T S unit) :=
  [("CreateRun then GetRun roundtrip", t_roundtrip); ("GetRun missing returns ErrNotFound", t_missing);
   ("CreateRun duplicate returns ErrConflict", t_duplicate); ("UpdateRunState transitions", t_transitions);
   ("UpdateRunState failed records reason", t_failed_reason); ("UpdateRunState missing returns ErrNotFound", t_update_missing);
   ("AppendEvents persists and orders by ts", t_append); ("AppendEvents empty is no-op", t_append_empty);
   ("ListRuns returns newest first", t_list_runs); ("AppendEvents to missing run returns error", t_append_missing);
   ("RecordScanResult finalizes a run with metrics", t_result); ("RecordScanResult failed populates reason", t_result_failed);
   ("RecordScanResult missing run returns ErrNotFound", t_result_missing); ("EventsDroppedTotal sums across runs", t_dropped);
   ("PruneEvents excludes deviation-evidence", t_prune); ("Allowlist add/list/delete/resolve", t_allow);
   ("Notifier upsert/list/get/delete", t_notifier); ("RecordNotification audit log", t_audit)].

(** The names of the subtests that failed. *)
Definition RunContract (b : S) : list string :=
  (foldl (fun '(bad, s) '(name, t) =>
     let s := (t (mkTS (backend s) (readings s) false)).2 in
     (if failed s then bad ++ [name] else bad, s)) ([], mkTS b 0 false) suite).1.
End suite.

(** ** Running the suite on the two backends *)
Definition ticks (start : time) (i : nat) : time := (start + Z.of_nat i * (2 * Millisecond))%Z.
Definition starts : list nat := seq 0 100.
Definition start_at (k : nat) : time := (1779471600 * Second + 900 * Millisecond + Z.of_nat k * (2 * Millisecond))%Z.
Definition newest_first : string := "ListRuns returns newest first".

Lemma Forall_forallb {A} (P : A -> Prop) `{!forall x, Decision (P x)} l :
  forallb (fun x => bool_decide (P x)) l = true -> Forall P l.
Proof. rewrite forallb_forall, Forall_forall. intros Hb x Hx. apply (bool_decide_eq_true _), Hb, list_elem_of_In, Hx. Qed.

(** Both backends against the repository's own contract suite.  From an empty database,
    with the clock advancing 2 ms a reading, the PostgreSQL backend passes every
    subtest for each of 100 consecutive starting instants.  The SQLite backend passes
    every subtest too, except that "newest first" fails for exactly the starts at which
    the first listed run begins on a multiple of 10 ms: there its timestamp text is shorter
    and sorts after the later ones. *)
Theorem contract_suite :
  Forall (fun k => RunContract (H := PostgresSpec.PostgresSpec.pg_demo) (ticks (start_at k)) Sqlite.Sqlite.empty_db = []) starts /\
  Forall (fun k => RunContract (H := SqliteSpec.SqliteSpec.sqlite_backend) (ticks (start_at k)) Sqlite.Sqlite.empty_db =
                   if decide (k mod 5 = 4) then [newest_first] else []) starts.
Proof. split; refine (Forall_forallb _ _ _); vm_compute; reflexivity. Qed.

End Contract.
