(* ===== verification/Regex.v ===== *)
(** * regexp

    The fragment of Go's [regexp] package the path rules use: character
    classes, greedy stars of a class, concatenation, alternation, anchors and
    capture groups, with leftmost-first matching (the first alternative and
    the longest repetition that let the rest match), and
    [ReplaceAllString] with [$n] templates. *)
From Stdlib Require Import Ascii.
From stdpp Require Import prelude strings list.
From S2P Require Import Prelude.

Inductive re : Type :=
  | Eps
  | Cls (p : ascii -> bool)        (* one character of a class *)
  | Rep (p : ascii -> bool)        (* [class]* *)
  | Cat (r1 r2 : re)
  | Alt (r1 r2 : re)
  | Bol                            (* ^ *)
  | Eol                            (* $ *)
  | Grp (n : nat) (r : re).        (* ( ) *)

(** Captured text per group, latest first. *)
Definition caps : Type := list (nat * list ascii).

Section matching.
Context {X : Type}.

Fixpoint rep (p : ascii -> bool) (s : list ascii) (k : list ascii -> option X) : option X :=
  match s with
  | c :: s' => if p c then match rep p s' k with Some x => Some x | None => k s end else k s
  | [] => k s
  end.
End matching.

(** [m r bol cs s k]: match [r] at the front of [s], where [bol] says that
    [s] is the whole text, and hand the captures and what is left to [k]. *)
Fixpoint m {X} (r : re) (bol : bool) (cs : caps) (s : list ascii)
    (k : bool -> caps -> list ascii -> option X) : option X :=
  match r with
  | Eps => k bol cs s
  | Cls p => match s with
             | c :: s' => if p c then k false cs s' else None
             | [] => None
             end
  | Rep p => rep p s (fun s' => k (bol && (length s' =? length s)) cs s')
  | Cat r1 r2 => m r1 bol cs s (fun b cs' s' => m r2 b cs' s' k)
  | Alt r1 r2 => match m r1 bol cs s k with Some x => Some x | None => m r2 bol cs s k end
  | Bol => if bol then k bol cs s else None
  | Eol => match s with [] => k bol cs s | _ => None end
  | Grp n r1 => m r1 bol cs s (fun b cs' s' =>
                  k b ((n, take (length s - length s') s) :: cs') s')
  end.

(** A match at the front: the captures and the remaining text. *)
Definition match_at (r : re) (bol : bool) (s : list ascii) : option (caps * list ascii) :=
  m r bol [] s (fun _ cs s' => Some (cs, s')).

(** A replacement template. *)
Inductive piece : Type :=
  | Lit (s : string)
  | Ref (n : nat).

Definition cap (cs : caps) (n : nat) : list ascii :=
  match list_find (fun c => c.1 = n) cs with Some (_, (_, t)) => t | None => [] end.

Definition expand (cs : caps) (t : list piece) : list ascii :=
  mjoin ((fun p => match p with Lit s => list_of_string s | Ref n => cap cs n end) <$> t).

(** Scan left to right, replace every non-overlapping match.  The patterns
    of the source never match the empty string ([nonempty] below), so a
    match always makes progress; [length s] steps are enough. *)
Fixpoint replace (fuel : nat) (r : re) (t : list piece) (bol : bool) (s : list ascii) : list ascii :=
  match fuel with
  | O => s
  | S f =>
      match match_at r bol s with
      | Some (cs, s') =>
          if length s' <? length s then expand cs t ++ replace f r t false s'
          else match s with c :: s'' => c :: replace f r t false s'' | [] => [] end
      | None => match s with c :: s'' => c :: replace f r t false s'' | [] => [] end
      end
  end.

Definition ReplaceAllString (r : re) (t : list piece) (s : string) : string :=
  let l := list_of_string s in string_of_list (replace (length l) r t true l).

(** ** Syntax helpers for transcribing patterns *)
Fixpoint lit_re (l : list ascii) : re :=
  match l with
  | [] => Eps
  | c :: l' => Cat (Cls (Ascii.eqb c)) (lit_re l')
  end.
Definition lit (s : string) : re := lit_re (list_of_string s).
Fixpoint times (n : nat) (p : ascii -> bool) : re :=
  match n with O => Eps | S n' => Cat (Cls p) (times n' p) end.
Definition plus (p : ascii -> bool) : re := Cat (Cls p) (Rep p).
Definition at_least (n : nat) (p : ascii -> bool) : re := Cat (times n p) (Rep p).
Fixpoint cat (rs : list re) : re :=
  match rs with [] => Eps | r :: rs' => Cat r (cat rs') end.

(** The least number of characters a match consumes. *)
Fixpoint min_len (r : re) : nat :=
  match r with
  | Cls _ => 1
  | Cat r1 r2 => min_len r1 + min_len r2
  | Alt r1 r2 => min_len r1 `min` min_len r2
  | Grp _ r1 => min_len r1
  | _ => 0
  end.
Definition nonempty (r : re) : Prop := 0 < min_len r.

(** ** Facts *)
Lemma rep_inv {X} p s (k : list ascii -> option X) x :
  rep p s k = Some x ->
  exists l s', s = l ++ s' /\ Forall (fun c => p c = true) l /\ k s' = Some x.
Proof.
  revert k. induction s as [|c s IH]; intros k; simpl.
  - intros Hk. by exists [], [].
  - destruct (p c) eqn:Hp.
    + destruct (rep p s k) as [y|] eqn:E.
      * intros [= ->]. destruct (IH k E) as (l & s' & -> & Hl & Hk).
        exists (c :: l), s'. split; [done|]. split; [|done]. by apply Forall_cons.
      * intros Hk. exists [], (c :: s). done.
    + intros Hk. exists [], (c :: s). done.
Qed.

(** Greedy repetition takes every character of the class when the rest of
    the pattern accepts what follows. *)
Lemma rep_all {X} p l s (k : list ascii -> option X) x :
  Forall (fun c => p c = true) l -> match s with c :: _ => p c = false | [] => True end ->
  k s = Some x -> rep p (l ++ s) k = Some x.
Proof.
  intros Hl Hs Hk. induction Hl as [|c l Hc _ IH]; simpl.
  - destruct s as [|c s]; simpl; [done|]. by rewrite Hs.
  - by rewrite Hc, IH.
Qed.

Lemma m_suffix {X} r bol cs s (k : bool -> caps -> list ascii -> option X) x :
  m r bol cs s k = Some x ->
  exists b cs' l s', s = l ++ s' /\ min_len r <= length l /\ k b cs' s' = Some x.
Proof.
  revert X bol cs s k x. induction r; intros X bol cs s k x; simpl.
  - intros Hk. by exists bol, cs, [], s.
  - destruct s as [|c s]; [done|]. destruct (p c); [|done]. intros Hk.
    exists false, cs, [c], s. done.
  - intros Hk. apply rep_inv in Hk as (l & s' & -> & _ & Hk).
    eexists _, cs, l, s'. split; [done|]. split; [lia|]. exact Hk.
  - intros Hk. apply IHr1 in Hk as (b & cs' & l & s' & -> & Hl & Hk).
    apply IHr2 in Hk as (b2 & cs2 & l2 & s2 & -> & Hl2 & Hk).
    exists b2, cs2, (l ++ l2), s2. rewrite <- app_assoc, length_app. split_and!; [done|lia|done].
  - destruct (m r1 bol cs s k) as [y|] eqn:E.
    + intros [= ->]. apply IHr1 in E as (b & cs' & l & s' & -> & Hl & Hk).
      exists b, cs', l, s'. split_and!; [done|lia|done].
    + intros Hk. apply IHr2 in Hk as (b & cs' & l & s' & -> & Hl & Hk).
      exists b, cs', l, s'. split_and!; [done|lia|done].
  - destruct bol; [|done]. intros Hk. by exists true, cs, [], s.
  - destruct s; [|done]. intros Hk. by exists bol, cs, [], [].
  - intros Hk. apply IHr in Hk as (b & cs' & l & s' & -> & Hl & Hk).
    eexists b, _, l, s'. split_and!; [done|lia|exact Hk].
Qed.

Lemma match_at_progress r bol s cs s' :
  match_at r bol s = Some (cs, s') -> nonempty r -> length s' < length s.
Proof.
  unfold match_at, nonempty. intros Hm Hn.
  apply m_suffix in Hm as (b & cs' & l & s2 & -> & Hl & [= _ <-]).
  rewrite length_app. lia.
Qed.

Lemma m_lit {X} l bol cs s (k : bool -> caps -> list ascii -> option X) :
  l <> [] -> m (lit_re l) bol cs (l ++ s) k = k false cs s.
Proof.
  revert bol. induction l as [|c l IH]; intros bol Hl; [done|]. simpl.
  rewrite Ascii.eqb_refl. destruct l as [|d l]; [done|]. by apply IH.
Qed.

Lemma match_at_bol_false r s : match_at (Cat Bol r) false s = None.
Proof. reflexivity. Qed.

(** An anchored pattern leaves everything after the front alone. *)
Lemma replace_anchored fuel r t s : replace fuel (Cat Bol r) t false s = s.
Proof.
  revert s. induction fuel as [|f IH]; intros s; [done|]. cbn [replace].
  rewrite match_at_bol_false. destruct s as [|c s]; [done|]. by rewrite IH.
Qed.

(** An anchored non-empty pattern: replace the match at the front, or leave
    the text alone. *)
Lemma ReplaceAllString_anchored r t s :
  nonempty r ->
  ReplaceAllString (Cat Bol r) t s =
    match match_at (Cat Bol r) true (list_of_string s) with
    | Some (cs, s') => string_of_list (expand cs t ++ s')
    | None => s
    end.
Proof.
  intros Hr. unfold ReplaceAllString.
  assert (Hf : forall f l, replace f (Cat Bol r) t false l = l).
  { intros f l. apply replace_anchored. }
  destruct (list_of_string s) as [|c l] eqn:E.
  - simpl. destruct (match_at _ true []) as [[cs s']|] eqn:Em.
    + apply match_at_progress in Em; [simpl in Em; lia|done].
    + by rewrite <- (string_of_list_of_string s), E.
  - cbn [length replace]. destruct (match_at _ true (c :: l)) as [[cs s']|] eqn:Em.
    + pose proof (match_at_progress _ _ _ _ _ Em Hr) as Hlt. simpl in Hlt.
      apply Nat.ltb_lt in Hlt. cbn [length]. by rewrite Hlt, Hf.
    + by rewrite Hf, <- E, string_of_list_of_string.
Qed.
