(* ===== verification/Normalize.v ===== *)
(** * differ/normalize.go

    The path, SNI, DNS and binary-path normalisers: the eight regular
    expressions transcribed, in the order the source applies them. *)
From Stdlib Require Import Ascii.
From stdpp Require Import prelude strings list.
From S2P Require Import Prelude Regex.

Module Normalize.

(** ** Character classes *)
Definition in_range (lo hi : ascii) (c : ascii) : bool :=
  ((N_of_ascii lo <=? N_of_ascii c) && (N_of_ascii c <=? N_of_ascii hi))%N.
Definition eqc (x : ascii) (c : ascii) : bool := Ascii.eqb x c.
Definition digit_c : ascii -> bool := in_range "0" "9".
Definition hex_c (c : ascii) : bool := in_range "a" "f" c || digit_c c.
Definition alpha_c (c : ascii) : bool := in_range "a" "z" c || in_range "A" "Z" c.
Definition alnum_c (c : ascii) : bool := alpha_c c || digit_c c.
Definition word_c (c : ascii) : bool := alnum_c c || eqc "." c || eqc "_" c || eqc "-" c.
Definition not_slash (c : ascii) : bool := negb (eqc "/" c).

(** ** pathRules *)
Definition end_or_slash : re := Grp 1 (Alt (lit "/") Eol).

Definition pid_re : re := Cat Bol (cat [lit "/proc/"; plus digit_c; end_or_slash]).
Definition tmp_re : re :=
  Cat Bol (cat [lit "/tmp/"; Rep word_c; Cls (eqc "-"); at_least 3 digit_c; Grp 1 (Rep word_c)]).
Definition date_re : re :=
  cat [lit "/"; times 4 digit_c; lit "-"; times 2 digit_c; lit "-"; times 2 digit_c].
Definition npm_log_re : re :=
  cat [date_re; lit "T"; plus (fun c => digit_c c || eqc "_" c); lit "Z-debug-"; plus digit_c;
       lit ".log"; Eol].
Definition dated_file_re : re :=
  cat [date_re; Grp 1 (Cat (lit ".") (plus alpha_c)); Eol].
Definition shard_re : re :=
  cat [lit "/"; times 2 hex_c; lit "/"; times 2 hex_c; lit "/"; plus hex_c].
Definition cacache_content_re : re :=
  cat [Grp 1 (cat [lit "/.npm/_cacache/"; plus not_slash; lit "/"; plus alnum_c]); shard_re].
Definition cacache_index_re : re :=
  cat [Grp 1 (cat [lit "/.npm/_cacache/index-"; plus not_slash]); shard_re].
Definition cacache_tmp_re : re :=
  cat [Grp 1 (lit "/.npm/_cacache/tmp"); lit "/"; plus hex_c].
Definition hex_component_re : re := cat [lit "/"; at_least 12 hex_c; end_or_slash].

Definition pathRules : list (re * list piece) :=
  [ (pid_re, [Lit "/proc/<PID>"; Ref 1]);
    (tmp_re, [Lit "/tmp/<RAND>"]);
    (npm_log_re, [Lit "/<TIMESTAMP>-debug-<N>.log"]);
    (dated_file_re, [Lit "/<DATE>"; Ref 1]);
    (cacache_content_re, [Ref 1; Lit "/<SHA256>"]);
    (cacache_index_re, [Ref 1; Lit "/<HASH>"]);
    (cacache_tmp_re, [Ref 1; Lit "/<HEX>"]);
    (hex_component_re, [Lit "/<HEX>"; Ref 1]) ].

Definition apply_rules (rules : list (re * list piece)) (p : string) : string :=
  foldl (fun p r => ReplaceAllString r.1 r.2 p) p rules.

Definition NormalizePath (p : string) : string := apply_rules pathRules p.

Definition NormalizeDestination (s : string) : string := s.
Definition NormalizeSNI (s : string) : string := ToLower (TrimSpace s).
Definition NormalizeDNS (qname : string) : string :=
  let q := ToLower (TrimSpace qname) in TrimSuffix q ".".
Definition NormalizeBinaryPath (p : string) : string :=
  TrimSpace (trim_right (fun c => Ascii.eqb c zero) p).

(** ** The table of normalize_test.go *)
Example NormalizePath_table :
  NormalizePath <$>
    ["/proc/12345/status"; "/proc/self/maps"; "/tmp/npm-2156-abc/foo";
     "/root/.npm/_logs/2026-05-22T17_02_24_700Z-debug-0.log"; "/var/log/2026-05-22.log";
     "/usr/local/lib/node_modules/npm/package.json"; "/etc/passwd";
     "/root/.npm/_cacache/content-v2/sha256/ab/cd/abc123def";
     "/root/.npm/_cacache/index-v5/46/33/b2abd228ca638980cfe42d12d418a89da30648e35d497277d5713e38c7ed";
     "/sys/fs/cgroup/abcdef123456789abc/cgroup.procs"]
  = ["/proc/<PID>/status"; "/proc/self/maps"; "/tmp/<RAND>/foo";
     "/root/.npm/_logs/<TIMESTAMP>-debug-<N>.log"; "/var/log/<DATE>.log";
     "/usr/local/lib/node_modules/npm/package.json"; "/etc/passwd";
     "/root/.npm/_cacache/content-v2/sha256/<SHA256>";
     "/root/.npm/_cacache/index-v5/<HASH>";
     "/sys/fs/cgroup/<HEX>/cgroup.procs"].
Proof. vm_compute. reflexivity. Qed.

(** ** Facts *)
Lemma pathRules_nonempty : Forall (fun r => nonempty r.1) pathRules.
Proof. repeat constructor. Qed.

Definition digits (l : list ascii) : Prop := Forall (fun c => digit_c c = true) l.
Definition word (l : list ascii) : Prop := Forall (fun c => word_c c = true) l.
(** What follows a path component: nothing, or a character outside the
    component's class. *)
Definition stops (p : ascii -> bool) (l : list ascii) : Prop :=
  match l with c :: _ => p c = false | [] => True end.

Lemma rep_total {X} p s (k : list ascii -> option X) :
  (forall s, is_Some (k s)) -> is_Some (rep p s k).
Proof.
  intros Hk. induction s as [|c s IH]; simpl; [done|].
  destruct (p c); [|done]. destruct (rep p s k); [by eexists|done].
Qed.

Lemma rep_some {X} p l s (k : list ascii -> option X) :
  Forall (fun c => p c = true) l -> is_Some (k s) -> is_Some (rep p (l ++ s) k).
Proof.
  intros Hl [x Hk]. induction Hl as [|c l Hc _ IH]; simpl.
  - destruct s as [|c s]; simpl; [by eexists|]. destruct (p c); [|by eexists].
    destruct (rep p s k); by eexists.
  - rewrite Hc. destruct (rep p (l ++ s) k); [by eexists|]. by destruct IH.
Qed.

(** The rule for /proc/<pid>: the pid is gone, the rest is kept. *)
Lemma pid_rule d r :
  digits d -> d <> [] -> 
  ReplaceAllString pid_re [Lit "/proc/<PID>"; Ref 1]
    ("/proc/" +:+ string_of_list d +:+ "/" +:+ r) = "/proc/<PID>/" +:+ r.
Proof.
  intros Hd Hne. unfold pid_re. rewrite ReplaceAllString_anchored by (cbv; lia).
  destruct d as [|c d]; [done|]. apply Forall_cons in Hd as [Hc Hd].
  assert (E : list_of_string ("/proc/" +:+ string_of_list (c :: d) +:+ "/" +:+ r) =
    list_of_string "/proc/" ++ c :: d ++ list_of_string "/" ++ list_of_string r).
  { by rewrite !list_of_string_app, list_of_string_of_list. }
  rewrite E. unfold match_at. cbn [cat m]. unfold lit.
  rewrite m_lit by done. unfold plus. cbn [m]. rewrite Hc. cbn [m].
  erewrite rep_all; [|exact Hd|done|].
  2:{ cbn. reflexivity. }
  apply list_of_string_inj. rewrite list_of_string_of_list, list_of_string_app.
  cbn [expand fmap list_fmap mjoin list_join cap list_find].
  replace (S (length _) - length _) with 1 by (simpl; lia). done.
Qed.

Lemma pid_rule_fixed r :
  ReplaceAllString pid_re [Lit "/proc/<PID>"; Ref 1] ("/proc/<PID>/" +:+ r) = "/proc/<PID>/" +:+ r.
Proof.
  unfold pid_re. rewrite ReplaceAllString_anchored by (cbv; lia).
  rewrite list_of_string_app. reflexivity.
Qed.

(** Consuming characters of a subclass stays inside the component. *)
Lemma split_class p q l w rest s2 :
  (forall c, p c = false -> q c = false) -> Forall (fun c => q c = true) l ->
  stops p rest -> Forall (fun c => p c = true) w -> w ++ rest = l ++ s2 ->
  exists w', s2 = w' ++ rest /\ Forall (fun c => p c = true) w'.
Proof.
  intros Hpq Hl Hr. revert w. induction Hl as [|x l Hx _ IH]; intros w Hw E; [by exists w|].
  destruct w as [|y w]; simpl in E.
  - destruct rest as [|z rest]; simplify_eq/=. apply Hpq in Hr. congruence.
  - injection E as -> E. apply Forall_cons in Hw as [_ Hw]. eauto.
Qed.

Lemma word_dash c : word_c c = false -> eqc "-" c = false.
Proof. unfold word_c. destruct (eqc "-" c); [by rewrite orb_true_r|done]. Qed.
Lemma word_digit c : word_c c = false -> digit_c c = false.
Proof. unfold word_c, alnum_c. destruct (digit_c c); [by rewrite !orb_true_r|done]. Qed.

(** Matching a fixed number of characters of a subclass. *)
Lemma times_inv {X} n q bol cs w rest (k : bool -> caps -> list ascii -> option X) x :
  (forall c, word_c c = false -> q c = false) -> word w -> stops word_c rest ->
  m (times n q) bol cs (w ++ rest) k = Some x ->
  exists b w', word w' /\ k b cs (w' ++ rest) = Some x.
Proof.
  intros Hq Hw Hr. revert bol w Hw. induction n as [|n IH]; intros bol w Hw; simpl; [eauto|].
  destruct (w ++ rest) as [|c t] eqn:E; [done|]. destruct (q c) eqn:Hc; [|done]. intros Hm.
  destruct (split_class word_c q [c] w rest t) as (w' & -> & Hw'); auto.
  by apply (IH false w').
Qed.

(** What the continuation of the /tmp rule's first star accepts. *)
Definition tmp_tail (s : list ascii) : option (caps * list ascii) :=
  m (cat [Cls (eqc "-"); at_least 3 digit_c; Grp 1 (Rep word_c)]) false [] s
    (fun _ cs s' => Some (cs, s')).

Lemma tmp_tail_sound w rest cs s' :
  word w -> stops word_c rest -> tmp_tail (w ++ rest) = Some (cs, s') -> s' = rest.
Proof.
  intros Hw Hr. unfold tmp_tail, at_least. cbn [cat].
  intros Hm. cbn [m] in Hm.
  destruct (w ++ rest) as [|c t] eqn:E; [done|]. destruct (eqc "-" c) eqn:Hc; [|done].
  destruct (split_class word_c (eqc "-") [c] w rest t) as (w1 & -> & Hw1); auto using word_dash.
  apply times_inv in Hm as (b & w2 & Hw2 & Hm); [|exact word_digit|done|done].
  apply rep_inv in Hm as (l & s2 & El & Hl & Hk).
  destruct (split_class word_c digit_c l w2 rest s2) as (w3 & -> & Hw3);
    auto using word_digit.
  erewrite rep_all in Hk; [|exact Hw3|exact Hr|reflexivity]. by injection Hk.
Qed.

Lemma tmp_tail_some ds w rest :
  digits ds -> 3 <= length ds -> is_Some (tmp_tail ("-"%char :: ds ++ w ++ rest)).
Proof.
  intros Hds Hlen. destruct ds as [|a [|b [|c ds]]]; simpl in Hlen; try lia.
  unfold digits in Hds. rewrite !Forall_cons in Hds. destruct Hds as (Ha & Hb & Hc & _).
  unfold tmp_tail, at_least. cbn [cat m times app]. cbv [eqc]. rewrite Ascii.eqb_refl, Ha, Hb, Hc.
  apply rep_total. intros s. apply rep_total. intros s2. by eexists.
Qed.

(** The rule for /tmp/<name>-<digits...>: the whole component is replaced. *)
Lemma tmp_rule w1 ds w2 rest :
  word w1 -> digits ds -> 3 <= length ds -> word w2 -> stops word_c rest ->
  ReplaceAllString tmp_re [Lit "/tmp/<RAND>"]
    (string_of_list (list_of_string "/tmp/" ++ w1 ++ "-"%char :: ds ++ w2 ++ rest)) =
  "/tmp/<RAND>" +:+ string_of_list rest.
Proof.
  intros Hw1 Hds Hlen Hw2 Hr. unfold tmp_re. rewrite ReplaceAllString_anchored by (cbv; lia).
  rewrite list_of_string_of_list. unfold match_at. cbn [cat m]. unfold lit. rewrite m_lit by done.
  match goal with |- context [rep ?p ?s ?k] => set (K := k) end.
  assert (HK : forall s, K s = tmp_tail s).
  { intros s. unfold K, tmp_tail. cbn [cat]. reflexivity. }
  destruct (rep_some word_c w1 ("-"%char :: ds ++ w2 ++ rest) K Hw1) as [[cs s'] Hm].
  { rewrite HK. by apply tmp_tail_some. }
  rewrite Hm. apply rep_inv in Hm as (l & s2 & El & Hl & Hk). rewrite HK in Hk.
  assert (Hall : word (w1 ++ "-"%char :: ds ++ w2)).
  { unfold word. rewrite Forall_app, Forall_cons, Forall_app. split_and!; [done|done| |done].
    eapply Forall_impl; [exact Hds|]. intros c Hc. unfold word_c, alnum_c. simpl in Hc.
    by rewrite Hc, !orb_true_r. }
  replace (w1 ++ "-"%char :: ds ++ w2 ++ rest) with ((w1 ++ "-"%char :: ds ++ w2) ++ rest) in El
    by (by rewrite <- !app_assoc; simpl; rewrite <- app_assoc).
  destruct (split_class word_c word_c l (w1 ++ "-"%char :: ds ++ w2) rest s2)
    as (w5 & -> & Hw5); auto.
  apply tmp_tail_sound in Hk as ->; [|done..]. by rewrite string_of_list_app.
Qed.

Lemma apply_rules_cons r rules p :
  apply_rules (r :: rules) p = apply_rules rules (ReplaceAllString r.1 r.2 p).
Proof. done. Qed.

(** The /proc rule ignores paths under /tmp. *)
Lemma pid_rule_tmp s :
  ReplaceAllString pid_re [Lit "/proc/<PID>"; Ref 1]
    (string_of_list (list_of_string "/tmp/" ++ s)) =
  string_of_list (list_of_string "/tmp/" ++ s).
Proof.
  unfold pid_re. rewrite ReplaceAllString_anchored by (cbv; lia).
  rewrite list_of_string_of_list. reflexivity.
Qed.

(** ** Properties *)

(** baselines do not depend on process ids: for any two process ids, the
    paths /proc/<pid>/rest normalise to the same string, whatever the rest. *)
Theorem NormalizePath_pid_stable d1 d2 r :
  digits d1 -> d1 <> [] -> digits d2 -> d2 <> [] ->
  NormalizePath ("/proc/" +:+ string_of_list d1 +:+ "/" +:+ r) =
  NormalizePath ("/proc/" +:+ string_of_list d2 +:+ "/" +:+ r).
Proof.
  intros. unfold NormalizePath, pathRules. rewrite !apply_rules_cons. cbn [fst snd].
  by rewrite !pid_rule.
Qed.

Lemma NormalizePath_pid_stable_witness :
  NormalizePath ("/proc/" +:+ string_of_list (list_of_string "1") +:+ "/" +:+ "status") =
  NormalizePath ("/proc/" +:+ string_of_list (list_of_string "31337") +:+ "/" +:+ "status").
Proof. apply NormalizePath_pid_stable; [repeat constructor|done|repeat constructor|done]. Defined.

(** nor on the random names npm and mktemp give to temporary
    directories: two components word-<3 or more digits>word of /tmp normalise
    to the same path when what follows them is the same. *)
Theorem NormalizePath_tmp_stable v1 d1 w1 v2 d2 w2 rest :
  word v1 -> digits d1 -> 3 <= length d1 -> word w1 ->
  word v2 -> digits d2 -> 3 <= length d2 -> word w2 -> stops word_c rest ->
  NormalizePath (string_of_list (list_of_string "/tmp/" ++ v1 ++ "-"%char :: d1 ++ w1 ++ rest)) =
  NormalizePath (string_of_list (list_of_string "/tmp/" ++ v2 ++ "-"%char :: d2 ++ w2 ++ rest)).
Proof.
  intros. unfold NormalizePath, pathRules. rewrite !apply_rules_cons. cbn [fst snd].
  rewrite !pid_rule_tmp. by rewrite !tmp_rule.
Qed.

Lemma NormalizePath_tmp_stable_witness :
  NormalizePath (string_of_list (list_of_string "/tmp/" ++ list_of_string "npm" ++
    "-"%char :: list_of_string "2156" ++ list_of_string "-abc" ++ list_of_string "/foo")) =
  NormalizePath (string_of_list (list_of_string "/tmp/" ++ list_of_string "v8-cache" ++
    "-"%char :: list_of_string "777" ++ list_of_string "" ++ list_of_string "/foo")).
Proof.
  apply NormalizePath_tmp_stable; try (repeat constructor; fail); simpl; lia.
Defined.

(** two adjacent hexadecimal directory names are not both collapsed: the
    first match consumes the slash the second one needs, so normalising a
    second time changes the result. *)
Theorem NormalizePath_adjacent_hex :
  NormalizePath "/cache/0123456789ab/ba9876543210/f" = "/cache/<HEX>/ba9876543210/f" /\
  NormalizePath (NormalizePath "/cache/0123456789ab/ba9876543210/f") = "/cache/<HEX>/<HEX>/f".
Proof. split; vm_compute; reflexivity. Qed.

End Normalize.
