(* ===== verification/NetIP.v ===== *)
(** * net: IP addresses and CIDR blocks

    What the source uses of Go's net and net/netip packages: [ParseIP],
    [ParseCIDR], [IPNet.Contains] and [IP.String].  A [net.IP] is its 16-byte
    form, a 128-bit number; an IPv4 address is the IPv4-mapped one, as
    [ParseIP] returns it.  Zones ("%eth0") are rejected by both parsers the
    source calls. *)
From Stdlib Require Import Ascii.
From stdpp Require Import prelude strings list.
From S2P Require Import Prelude.
#[local] Open Scope Z_scope.

Module NetIP.

Definition IP : Type := Z.

(** [::ffff:0:0/96] *)
Definition v4_prefix : Z := 65535 * 2 ^ 32.
Definition of_v4 (a : Z) : IP := v4_prefix + a.
Definition To4 (ip : IP) : option Z :=
  if ip / 2 ^ 32 =? 65535 then Some (ip mod 2 ^ 32) else None.

Definition digit_val (c : ascii) : option Z :=
  let n := ascii_Z c in if (48 <=? n) && (n <=? 57) then Some (n - 48) else None.
Definition hex_val (c : ascii) : option Z :=
  let n := ascii_Z c in
  if (48 <=? n) && (n <=? 57) then Some (n - 48)
  else if (97 <=? n) && (n <=? 102) then Some (n - 87)
  else if (65 <=? n) && (n <=? 70) then Some (n - 55) else None.
Definition is_char (x c : ascii) : bool := Ascii.eqb x c.

(** ** netip: dotted quads

    State of the scan: completed fields (most recent first), current value,
    number of its digits. *)
Definition v4_step (st : option (list Z * Z * Z)) (c : ascii) : option (list Z * Z * Z) :=
  match st with
  | None => None
  | Some (fields, val, digLen) =>
      match digit_val c with
      | Some d =>
          if (digLen =? 1) && (val =? 0) then None
          else let val' := val * 10 + d in
               if 255 <? val' then None else Some (fields, val', digLen + 1)
      | None =>
          if is_char "."%char c then
            if digLen =? 0 then None
            else if Nat.eqb (length fields) 3 then None
            else Some (val :: fields, 0, 0)
          else None
      end
  end.

Definition parse_v4_fields (s : list ascii) : option Z :=
  match fold_left v4_step s (Some ([], 0, 0)) with
  | Some ([c; b; a], d, digLen) =>
      if digLen =? 0 then None else Some (a * 2 ^ 24 + b * 2 ^ 16 + c * 2 ^ 8 + d)
  | _ => None
  end.

(** ** netip: IPv6 text *)

(** The hex digits of one group: value and rest; more than 4 is an error. *)
Fixpoint hex_group (s : list ascii) (off acc : Z) : option (Z * Z * list ascii) :=
  match s with
  | [] => Some (off, acc, [])
  | c :: s' => match hex_val c with
               | None => Some (off, acc, s)
               | Some h => if 3 <? off then None else hex_group s' (off + 1) (acc * 16 + h)
               end
  end.

(** [groups] are the 16-bit groups read so far, in order; [ell] is where the
    "::" was, as a number of groups. *)
Definition expand (groups : list Z) (ell : option nat) : option (list Z) :=
  let n := length groups in
  if Nat.ltb n 8 then
    match ell with
    | None => None
    | Some e => Some (take e groups ++ replicate (8 - n) 0 ++ drop e groups)
    end
  else match ell with None => Some groups | Some _ => None end.

Fixpoint v6_loop (fuel : nat) (s : list ascii) (groups : list Z) (ell : option nat) :
    option (list Z) :=
  match fuel with
  | O => match s with [] => expand groups ell | _ => None end
  | S f =>
      match hex_group s 0 0 with
      | None => None
      | Some (off, acc, rest) =>
          if off =? 0 then None else
          match rest with
          | [] => expand (groups ++ [acc]) ell
          | c :: rest' =>
              if is_char "."%char c then
                if (match ell with None => negb (Nat.eqb (length groups) 6) | Some _ => false end)
                then None
                else if Nat.ltb 6 (length groups) then None
                else match parse_v4_fields s with
                     | None => None
                     | Some a => expand (groups ++ [a / 2 ^ 16; a mod 2 ^ 16]) ell
                     end
              else if is_char ":"%char c then
                match rest' with
                | [] => None
                | d :: rest'' =>
                    if is_char ":"%char d then
                      match ell with
                      | Some _ => None
                      | None =>
                          let e := Some (length (groups ++ [acc])) in
                          match rest'' with
                          | [] => expand (groups ++ [acc]) e
                          | _ => v6_loop f rest'' (groups ++ [acc]) e
                          end
                      end
                    else v6_loop f rest' (groups ++ [acc]) ell
                end
              else None
          end
      end
  end.

Definition of_groups (g : list Z) : IP := fold_left (fun acc x => acc * 65536 + x) g 0.

(** Eight groups are the most an address has. *)
Definition parse_v6 (s : list ascii) : option IP :=
  of_groups <$>
  match s with
  | ":"%char :: ":"%char :: [] => Some (replicate 8 0)
  | ":"%char :: ":"%char :: s' => v6_loop 8 s' [] (Some 0%nat)
  | _ => v6_loop 8 s [] None
  end.

(** An address with its bit length. *)
Definition ParseAddr (s : string) : option (IP * Z) :=
  let l := list_of_string s in
  match List.find (fun c => is_char "."%char c || is_char ":"%char c || is_char "%"%char c) l with
  | Some "."%char => (fun a => (of_v4 a, 32)) <$> parse_v4_fields l
  | Some ":"%char => (fun a => (a, 128)) <$> parse_v6 l
  | _ => None
  end.

Definition ParseIP (s : string) : option IP := fst <$> ParseAddr s.

(** ** CIDR blocks *)

(** [net.dtoi] on a whole string: decimal digits only, below 0xFFFFFF. *)
Definition dtoi (l : list ascii) : option Z :=
  match l with
  | [] => None
  | _ => fold_left (fun acc c => match acc, digit_val c with
                     | Some n, Some d => let n' := n * 10 + d in
                                         if 16777215 <=? n' then None else Some n'
                     | _, _ => None end) l (Some 0)
  end.

(** Network number and prefix length over 32 bits or over 128 bits. *)
Inductive IPNet : Type :=
  | Net4 (number : Z) (ones : Z)
  | Net6 (number : Z) (ones : Z).

(** Clear all but the top [ones] of [bits] bits. *)
Definition mask (bits ones a : Z) : Z := Z.shiftl (Z.shiftr a (bits - ones)) (bits - ones).

Definition ParseCIDR (s : string) : option IPNet :=
  match IndexByte s "/" with
  | None => None
  | Some i =>
      match ParseAddr (slice_to s i), dtoi (list_of_string (slice_from s (S i))) with
      | Some (a, bits), Some n =>
          if n <=? bits then
            if bits =? 32 then Some (Net4 (mask 32 n (a mod 2 ^ 32)) n)
            else let m := mask 128 n a in
                 (* networkNumberAndMask: a masked v4-mapped number is IPv4 *)
                 match To4 m with
                 | Some m4 => Some (Net4 m4 (n - 96))
                 | None => Some (Net6 m n)
                 end
          else None
      | _, _ => None
      end
  end.

Definition Contains (n : IPNet) (ip : IP) : bool :=
  match n, To4 ip with
  | Net4 number ones, Some a => mask 32 ones number =? mask 32 ones a
  | Net6 number ones, None => mask 128 ones number =? mask 128 ones ip
  | _, _ => false
  end.

(** ** Rendering *)
Definition hex_digit (d : Z) : ascii :=
  ascii_of_N (Z.to_N (if d <? 10 then 48 + d else 87 + d)).
Fixpoint hex_aux (fuel : nat) (z : Z) (acc : string) : string :=
  match fuel with
  | O => acc
  | S f => let acc' := String (hex_digit (z mod 16)) acc in
           if z / 16 =? 0 then acc' else hex_aux f (z / 16) acc'
  end.
Definition hex16 (z : Z) : string := hex_aux 4 z "".

Definition v4_string (a : Z) : string :=
  decimal (a / 2 ^ 24 mod 256) +:+ "." +:+ decimal (a / 2 ^ 16 mod 256) +:+ "." +:+
  decimal (a / 2 ^ 8 mod 256) +:+ "." +:+ decimal (a mod 256).

Definition groups_of (ip : IP) : list Z :=
  (fun i => ip / 2 ^ (16 * (7 - Z.of_nat i)) mod 65536) <$> seq 0 8.

Fixpoint zero_run (l : list Z) : nat :=
  match l with x :: l' => if x =? 0 then S (zero_run l') else O | [] => O end.

(** The leftmost longest run of at least two zero groups: (start, length). *)
Definition best_run (g : list Z) : nat * nat :=
  foldl (fun best i => let l := zero_run (drop i g) in
           if Nat.leb 2 l && Nat.ltb (best.2) l then (i, l) else best) (0, 0)%nat (seq 0 8).

Definition join_groups (g : list Z) : string :=
  match hex16 <$> g with
  | [] => ""
  | x :: l => foldl (fun acc y => acc +:+ ":" +:+ y) x l
  end.

Definition v6_string (ip : IP) : string :=
  let g := groups_of ip in
  let '(start, len) := best_run g in
  if Nat.eqb len 0 then join_groups g
  else join_groups (take start g) +:+ "::" +:+ join_groups (drop (start + len) g).

Definition IP_String (ip : IP) : string :=
  match To4 ip with Some a => v4_string a | None => v6_string ip end.

(** ** Examples *)
Example parse_v4 : ParseIP "104.16.1.34" = Some (of_v4 1745879330).
Proof. vm_compute. reflexivity. Qed.
Example parse_v6_ok : ParseIP "2606:4700::6810:122" = Some 50543257672059871404715951525215600930.
Proof. vm_compute. reflexivity. Qed.
Example parse_bad : ParseIP "1.2.3" = None /\ ParseIP "01.2.3.4" = None /\ ParseIP "::1%eth0" = None.
Proof. vm_compute. done. Qed.
Example string_v6 : IP_String 50543257672059871404715951525215600930 = "2606:4700::6810:122".
Proof. vm_compute. reflexivity. Qed.
Example string_loop : IP_String 1 = "::1" /\ IP_String 0 = "::".
Proof. vm_compute. done. Qed.
Example cidr : ParseCIDR "104.16.0.0/13" = Some (Net4 1745879040 13).
Proof. vm_compute. reflexivity. Qed.

(** ** Lemmas *)
Lemma To4_of_v4 a : 0 <= a < 2 ^ 32 -> To4 (of_v4 a) = Some a.
Proof.
  intros Ha. unfold To4, of_v4, v4_prefix.
  rewrite Z.add_comm, Z.div_add, Z.mod_add by lia.
  rewrite Z.div_small, Z.mod_small by lia. done.
Qed.

Lemma mask_range bits ones a b :
  0 <= ones <= bits ->
  mask bits ones a = mask bits ones b <->
  a / 2 ^ (bits - ones) = b / 2 ^ (bits - ones).
Proof.
  intros Ho. unfold mask. rewrite !Z.shiftl_mul_pow2, !Z.shiftr_div_pow2 by lia.
  split; [|congruence]. intros E. apply Z.mul_cancel_r in E; [done|].
  apply Z.pow_nonzero; lia.
Qed.

(** A prefix block is an interval of 2^(32-n) addresses. *)
Lemma Contains_interval number ones a :
  0 <= ones <= 32 -> 0 <= a < 2 ^ 32 -> number mod 2 ^ (32 - ones) = 0 ->
  Contains (Net4 number ones) (of_v4 a) = true <-> number <= a < number + 2 ^ (32 - ones).
Proof.
  intros Ho Ha Hal. unfold Contains. rewrite To4_of_v4, Z.eqb_eq, mask_range by done.
  assert (0 < 2 ^ (32 - ones)) as Hp by (apply Z.pow_pos_nonneg; lia).
  set (w := 2 ^ (32 - ones)) in *.
  pose proof (Z.div_mod number w ltac:(lia)). pose proof (Z.div_mod a w ltac:(lia)).
  pose proof (Z.mod_pos_bound a w Hp). split; intros.
  - nia.
  - apply (Z.div_unique_pos a w _ (a - number)); nia.
Qed.

Definition octet_ok (o : Z) : bool :=
  let l := list_of_string (decimal o) in
  match fold_left v4_step l (Some ([], 0, 0)) with
  | Some ([], v, d) => (v =? o) && (0 <? d)
  | _ => false
  end.

Lemma octets_ok : forallb octet_ok (Z.of_nat <$> seq 0 256) = true.
Proof. vm_compute. reflexivity. Qed.

Lemma v4_fail l : fold_left v4_step l None = None.
Proof. by induction l. Qed.

(** The scan never looks at completed fields except when it meets a dot. *)
Lemma v4_digits_frame l fields val dl v d :
  Forall (fun c => digit_val c <> None) l ->
  fold_left v4_step l (Some ([], val, dl)) = Some ([], v, d) ->
  fold_left v4_step l (Some (fields, val, dl)) = Some (fields, v, d).
Proof.
  intros Hl. revert val dl. induction Hl as [|c l Hc Hl IH]; intros val dl; simpl; [by intros [= -> ->]|].
  destruct (digit_val c) as [x|]; [|done].
  repeat case_match; rewrite ?v4_fail; (done || apply IH).
Qed.

Lemma decimal_digits o : In o (Z.of_nat <$> seq 0 256) ->
  Forall (fun c => digit_val c <> None) (list_of_string (decimal o)).
Proof.
  assert (forallb (fun o => forallb (fun c => match digit_val c with Some _ => true | None => false end)
      (list_of_string (decimal o))) (Z.of_nat <$> seq 0 256) = true) as H by (vm_compute; reflexivity).
  rewrite forallb_forall in H. intros Ho. specialize (H o Ho). rewrite forallb_forall in H.
  apply Forall_forall. intros c Hc. rewrite list_elem_of_In in Hc. specialize (H c Hc).
  by destruct (digit_val c).
Qed.

Lemma octet_In o : 0 <= o < 256 -> In o (Z.of_nat <$> seq 0 256).
Proof.
  intros Ho. apply list_elem_of_In, list_elem_of_fmap. exists (Z.to_nat o).
  split; [lia|]. apply list_elem_of_In, in_seq. lia.
Qed.

(** Scanning one rendered octet. *)
Lemma scan_octet o fields :
  0 <= o < 256 ->
  exists d, 0 < d /\
  fold_left v4_step (list_of_string (decimal o)) (Some (fields, 0, 0)) = Some (fields, o, d).
Proof.
  intros Ho. pose proof (octet_In o Ho) as Hin. pose proof (decimal_digits o Hin) as Hd.
  pose proof (proj1 (forallb_forall _ _) octets_ok o Hin) as Hok. unfold octet_ok in Hok.
  destruct (fold_left v4_step (list_of_string (decimal o)) (Some ([], 0, 0))) as [[[[] v] d]|] eqn:E;
    try done.
  apply andb_true_iff in Hok as [Hv Hd0]. apply Z.eqb_eq in Hv as ->. apply Z.ltb_lt in Hd0.
  exists d. split; [done|]. by apply v4_digits_frame.
Qed.

Lemma scan_dot fields o d : 0 < d -> (length fields < 3)%nat ->
  v4_step (Some (fields, o, d)) "."%char = Some (o :: fields, 0, 0).
Proof.
  intros Hd Hl. simpl. destruct (Z.eqb_spec d 0); [lia|].
  destruct (Nat.eqb_spec (length fields) 3); [lia|done].
Qed.

Lemma octet_bounds a k : 0 <= a / 2 ^ k mod 256 < 256.
Proof. apply Z.mod_pos_bound. lia. Qed.

Lemma parse_v4_string a :
  0 <= a < 2 ^ 32 -> parse_v4_fields (list_of_string (v4_string a)) = Some a.
Proof.
  intros Ha. unfold parse_v4_fields, v4_string.
  rewrite !list_of_string_app. change (list_of_string ".") with ["."%char].
  rewrite !fold_left_app.
  destruct (scan_octet (a / 2 ^ 24 mod 256) [] (octet_bounds a 24)) as (d1 & Hd1 & ->).
  change (fold_left v4_step ["."%char]) with (fun s => v4_step s "."%char). cbv beta.
  rewrite scan_dot by (simpl; lia).
  destruct (scan_octet (a / 2 ^ 16 mod 256) [a / 2 ^ 24 mod 256] (octet_bounds a 16)) as (d2 & Hd2 & ->).
  rewrite scan_dot by (simpl; lia).
  edestruct (scan_octet (a / 2 ^ 8 mod 256)) as (d3 & Hd3 & ->); [apply octet_bounds|].
  rewrite scan_dot by (simpl; lia).
  edestruct (scan_octet (a mod 256)) as (d4 & Hd4 & ->); [apply Z.mod_pos_bound; lia|].
  destruct (Z.eqb_spec d4 0); [lia|]. f_equal.
  change (2 ^ 24) with (256 * (256 * 256)). change (2 ^ 16) with (256 * 256).
  change (2 ^ 8) with 256. rewrite <- !Z.div_div by lia.
  pose proof (Z.div_mod a 256 ltac:(lia)).
  pose proof (Z.div_mod (a / 256) 256 ltac:(lia)).
  pose proof (Z.div_mod (a / 256 / 256) 256 ltac:(lia)).
  rewrite (Z.mod_small (a / 256 / 256 / 256)); [lia|].
  split; [repeat apply Z.div_pos; lia|]. repeat (apply Z.div_lt_upper_bound; [lia|]). lia.
Qed.

Lemma find_skip {A} (p : A -> bool) l k :
  Forall (fun x => p x = false) l -> List.find p (l ++ k) = List.find p k.
Proof. induction 1 as [|x l Hx _ IH]; simpl; [done|]. by rewrite Hx. Qed.

Lemma digit_not_special c :
  digit_val c <> None -> is_char "."%char c || is_char ":"%char c || is_char "%"%char c = false.
Proof. destruct c as [[] [] [] [] [] [] [] []]; vm_compute; done. Qed.

Lemma ParseAddr_v4 a : 0 <= a < 2 ^ 32 -> ParseAddr (v4_string a) = Some (of_v4 a, 32).
Proof.
  intros Ha. pose proof (parse_v4_string a Ha) as Hp. unfold ParseAddr.
  assert (List.find (fun c => is_char "."%char c || is_char ":"%char c || is_char "%"%char c)
            (list_of_string (v4_string a)) = Some "."%char) as Hf.
  { unfold v4_string. rewrite list_of_string_app, find_skip; [by rewrite list_of_string_app|].
    eapply Forall_impl; [apply decimal_digits, octet_In, octet_bounds|].
    intros c Hc. by apply digit_not_special. }
  by rewrite Hf, Hp.
Qed.

(** Rendering and parsing agree on IPv4 addresses. *)
Lemma ipv4_text_roundtrip a :
  0 <= a < 2 ^ 32 -> ParseIP (IP_String (of_v4 a)) = Some (of_v4 a).
Proof.
  intros Ha. unfold ParseIP, IP_String. by rewrite To4_of_v4, ParseAddr_v4.
Qed.

End NetIP.
