(* ===== verification/Fingerprint.v ===== *)
(** * differ: allowlist filter and fingerprint extraction

    internal/orchestrator/differ: allowlist.go, filter.go, fingerprint.go and
    the data of differ.go.  Go iterates a map in an unspecified order;
    [ExtractFingerprintsWith] takes that order as an argument, a function
    that permutes the bucket's values. *)
From Stdlib Require Import Ascii.
From stdpp Require Import prelude strings gmap list.
From S2P Require Import Prelude GoTime Json Sql Storage NetIP Normalize.

Module Fingerprint.
Import NetIP Normalize.

(** ** Categories and severities (differ.go) *)
Definition Category : Type := string.
Definition CatNetDestination : Category := "net_new_destination".
Definition CatNetDNS : Category := "net_new_dns".
Definition CatNetHTTPSHost : Category := "net_new_https_host".
Definition CatFSPathRead : Category := "fs_new_path_read".
Definition CatFSPathWrite : Category := "fs_new_path_write".
Definition CatProcExec : Category := "proc_new_exec".

Definition AllCategories : list Category :=
  [CatNetDestination; CatNetDNS; CatNetHTTPSHost; CatFSPathRead; CatFSPathWrite; CatProcExec].

Record Fingerprint : Type := mkFingerprint {
  Category_ : Category;
  Value : string;
  Count : Z;
  FirstEvtID : Z
}.

Definition cat_key (c : Category) (v : string) : string := c +:+ "|" +:+ v.
Definition Key (f : Fingerprint) : string := cat_key (Category_ f) (Value f).

Definition Severity : Type := string.
Definition SevInfo : Severity := "info".
Definition SevWarn : Severity := "warn".
Definition SevCrit : Severity := "crit".

Definition defaultSeverity (c : Category) : Severity :=
  if decide (c ∈ [CatNetDestination; CatNetHTTPSHost; CatNetDNS]) then SevWarn
  else if decide (c = CatProcExec) then SevWarn
  else SevInfo.

(** ** The hardcoded CDN ranges (allowlist.go) *)
Definition DefaultCDNAllowlist : list string := [
  "103.21.244.0/22"; "103.22.200.0/22"; "103.31.4.0/22";
  "104.16.0.0/13"; "104.24.0.0/14";
  "108.162.192.0/18"; "131.0.72.0/22";
  "141.101.64.0/18"; "162.158.0.0/15"; "172.64.0.0/13";
  "173.245.48.0/20"; "188.114.96.0/20"; "190.93.240.0/20";
  "197.234.240.0/22"; "198.41.128.0/17";
  "140.82.112.0/20"; "143.55.64.0/20"; "185.199.108.0/22";
  "192.30.252.0/22";
  "142.250.0.0/15"; "172.217.0.0/16"; "216.58.192.0/19";
  "172.253.0.0/16"; "74.125.0.0/16";
  "151.101.0.0/16"; "199.232.0.0/16";
  "13.32.0.0/15"; "13.224.0.0/14"; "52.84.0.0/15";
  "54.182.0.0/16"; "54.192.0.0/16"; "54.230.0.0/16";
  "99.86.0.0/16"; "204.246.164.0/22"].

(** [None] is the panic on a malformed entry. *)
Definition loadAllowlist : option (list IPNet) := mapM ParseCIDR DefaultCDNAllowlist.

Definition allowlistNets : list IPNet := default [] loadAllowlist.

Definition IsAllowlistedCDN (ipStr : string) : bool :=
  if decide (ipStr = "") then false else
  match ParseIP ipStr with
  | None => false
  | Some ip => existsb (fun n => Contains n ip) allowlistNets
  end.

(** ** The operator filter (filter.go) *)
Record Filter : Type := mkFilter {
  cidrs : list IPNet;
  paths : list string;
  snis : list string          (* the key set, lowercased *)
}.

(** One operator entry; an invalid CIDR is logged and skipped. *)
Definition add_entry (f : Filter) (e : AllowEntry) : Filter :=
  if decide (Al_Kind e = AllowKindCIDR) then
    match ParseCIDR (Al_Value e) with
    | None => f
    | Some n => mkFilter (cidrs f ++ [n]) (paths f) (snis f)
    end
  else if decide (Al_Kind e = AllowKindPath) then
    if decide (Al_Value e = "") then f
    else mkFilter (cidrs f) (paths f ++ [Al_Value e]) (snis f)
  else if decide (Al_Kind e = AllowKindSNI) then
    if decide (Al_Value e = "") then f
    else mkFilter (cidrs f) (paths f) (snis f ++ [ToLower (TrimSpace (Al_Value e))])
  else f.

Definition NewFilter (entries : list AllowEntry) : Filter :=
  foldl add_entry (mkFilter (omap ParseCIDR DefaultCDNAllowlist) [] []) entries.

(** The receiver may be nil. *)
Definition SuppressIP (f : option Filter) (ipStr : string) : bool :=
  match f, ParseIP ipStr with
  | Some f, Some ip => existsb (fun n => Contains n ip) (cidrs f)
  | _, _ => false
  end.

Definition SuppressPath (f : option Filter) (p : string) : bool :=
  match f with
  | None => false
  | Some f => existsb (fun prefix => HasPrefix p prefix) (paths f)
  end.

Definition SuppressSNI (f : option Filter) (sni : string) : bool :=
  match f with
  | None => false
  | Some f => bool_decide (ToLower (TrimSpace sni) ∈ snis f)
  end.

(** ** Extraction (fingerprint.go)

    Each extractor hands at most one (category, value) to [add]; [None] is
    an early return. *)
Definition str_field (name : string) (o : list (string * json)) : option string :=
  unmarshal_field name conv_string "" o.

Definition extractFileAccess (f : option Filter) (e : EventRow) : option (Category * string) :=
  o ← unmarshal_object (Ev_Data e);
  pathName ← str_field "PathName" o;
  flags ← unmarshal_field "Flags" (conv_int (- 2 ^ 31) (2 ^ 31 - 1)) 0%Z o;
  if decide (pathName = "") then None else
  let norm := NormalizePath pathName in
  if SuppressPath f norm then None else
  let isWrite := negb (Z.land flags 1 =? 0)%Z || negb (Z.land flags 2 =? 0)%Z
                 || negb (Z.land flags 64 =? 0)%Z in
  Some (if isWrite then CatFSPathWrite else CatFSPathRead, norm).

Definition extractExec (e : EventRow) : option (Category * string) :=
  o ← unmarshal_object (Ev_Data e);
  path ← str_field "BinaryPathStr" o;
  Some (CatProcExec, NormalizeBinaryPath path).

Definition extractNetConnect (f : option Filter) (e : EventRow) : option (Category * string) :=
  o ← unmarshal_object (Ev_Data e);
  ip ← str_field "DestIP" o;
  port ← unmarshal_field "DestPort" (conv_int 0 65535) 0%Z o;
  if decide (ip = "") then None else
  if SuppressIP f ip || IsAllowlistedCDN ip then None else
  Some (CatNetDestination, NormalizeDestination (ip +:+ ":" +:+ decimal port)).

Definition extractDNS (e : EventRow) : option (Category * string) :=
  o ← unmarshal_object (Ev_Data e);
  qname ← str_field "QName" o;
  Some (CatNetDNS, NormalizeDNS qname).

Definition extractTLSSNI (f : option Filter) (e : EventRow) : option (Category * string) :=
  o ← unmarshal_object (Ev_Data e);
  sni ← str_field "SNI" o;
  let norm := NormalizeSNI sni in
  if SuppressSNI f norm then None else Some (CatNetHTTPSHost, norm).

Definition extract (f : option Filter) (e : EventRow) : option (Category * string) :=
  if decide (Ev_Type e = "file_access") then extractFileAccess f e
  else if decide (Ev_Type e = "exec") then extractExec e
  else if decide (Ev_Type e = "net_connect") then extractNetConnect f e
  else if decide (Ev_Type e = "dns_query") then extractDNS e
  else if decide (Ev_Type e = "tls_sni") then extractTLSSNI f e
  else None.

(** The bucket: fingerprints by key, in order of first insertion. *)
Definition addUnique (cat : Category) (value : string) (evtID : Z)
    (bucket : list Fingerprint) : list Fingerprint :=
  if decide (value = "") then bucket else
  if decide (cat_key cat value ∈ Key <$> bucket) then
    (fun fp => if decide (Key fp = cat_key cat value)
               then mkFingerprint (Category_ fp) (Value fp) (Count fp + 1) (FirstEvtID fp)
               else fp) <$> bucket
  else bucket ++ [mkFingerprint cat value 1 evtID].

Definition extract_step (f : option Filter) (bucket : list Fingerprint) (e : EventRow) :
    list Fingerprint :=
  match extract f e with
  | None => bucket
  | Some (cat, value) => addUnique cat value (Ev_ID e) bucket
  end.

Definition ExtractFingerprintsWith (iter : list Fingerprint -> list Fingerprint)
    (events : list EventRow) (f : option Filter) : list Fingerprint :=
  iter (foldl (extract_step f) [] events).

Definition ExtractFingerprints (iter : list Fingerprint -> list Fingerprint)
    (events : list EventRow) : list Fingerprint :=
  ExtractFingerprintsWith iter events None.

#[local] Arguments NormalizePath : simpl never.
#[local] Arguments NormalizeBinaryPath : simpl never.
#[local] Arguments NormalizeDNS : simpl never.
#[local] Arguments NormalizeSNI : simpl never.
#[local] Arguments IsAllowlistedCDN : simpl never.
#[local] Arguments SuppressIP : simpl never.
#[local] Arguments SuppressPath : simpl never.
#[local] Arguments SuppressSNI : simpl never.
#[local] Arguments NewFilter : simpl never.

(** ** Lemmas *)

(** The events that contribute to a (category, value). *)
Definition contributes (f : option Filter) (c : Category) (v : string) (e : EventRow) : Prop :=
  extract f e = Some (c, v) /\ v <> "".
#[export] Instance contributes_dec f c v e : Decision (contributes f c v e).
Proof. unfold contributes. apply _. Defined.

Ltac extract_cases :=
  repeat match goal with
  | |- context [unmarshal_object ?d] => destruct (unmarshal_object d); simpl
  | |- context [str_field ?n ?o] => destruct (str_field n o); simpl
  | |- context [unmarshal_field ?n ?c ?z ?o] => destruct (unmarshal_field n c z o); simpl
  end.

Lemma extract_category f e c v : extract f e = Some (c, v) -> c ∈ AllCategories.
Proof.
  unfold extract, extractFileAccess, extractExec, extractNetConnect, extractDNS, extractTLSSNI.
  repeat (case_decide; [extract_cases; try done; repeat (case_decide || case_match); try done;
    intros [= <- <-]; unfold AllCategories; set_solver|]). done.
Qed.

Lemma string_app_inj_sep c1 c2 s1 s2 v1 v2 :
  (forall c, In c (list_of_string s1) -> c <> c1) -> (forall c, In c (list_of_string s2) -> c <> c1) ->
  c1 = c2 ->
  s1 +:+ String c1 v1 = s2 +:+ String c2 v2 -> s1 = s2 /\ v1 = v2.
Proof.
  intros H1 H2 <-. revert s2 H2. induction s1 as [|a s1 IH]; intros [|b s2] H2 E.
  - injection E as ->. done.
  - injection E as -> _. by destruct (H2 b); [left|].
  - injection E as -> _. by destruct (H1 c1); [left|].
  - injection E as -> E. destruct (IH ltac:(intros; apply H1; by right) s2) as [-> ->].
    + intros. apply H2. by right.
    + exact E.
    + done.
Qed.

Lemma category_no_bar c : c ∈ AllCategories -> forall x, In x (list_of_string c) -> x <> "|"%char.
Proof.
  assert (Forall (fun c => Forall (fun x => x <> "|"%char) (list_of_string c)) AllCategories) as H.
  { repeat constructor; discriminate. }
  intros Hc x Hx. rewrite Forall_forall in H. specialize (H c Hc). rewrite Forall_forall in H.
  apply H. by apply list_elem_of_In.
Qed.

(** On the categories the extractors emit, the key determines the pair. *)
Lemma cat_key_inj c1 v1 c2 v2 :
  c1 ∈ AllCategories -> c2 ∈ AllCategories -> cat_key c1 v1 = cat_key c2 v2 -> c1 = c2 /\ v1 = v2.
Proof.
  intros H1 H2 E. by apply (string_app_inj_sep "|"%char "|"%char c1 c2 v1 v2
    (category_no_bar _ H1) (category_no_bar _ H2) eq_refl).
Qed.

(** What the bucket holds after the events [evs]. *)
Record bucket_ok (f : option Filter) (evs : list EventRow) (b : list Fingerprint) : Prop := {
  bk_keys : NoDup (Key <$> b);
  bk_elem fp : fp ∈ b -> Category_ fp ∈ AllCategories /\
    Count fp = Z.of_nat (length (filter (contributes f (Category_ fp) (Value fp)) evs)) /\
    (exists e, head (filter (contributes f (Category_ fp) (Value fp)) evs) = Some e /\
               FirstEvtID fp = Ev_ID e);
  bk_complete c v e : e ∈ evs -> contributes f c v e -> cat_key c v ∈ Key <$> b
}.

Lemma bucket_nil f : bucket_ok f [] [].
Proof. split; [apply NoDup_nil_2| |]; intros; by apply not_elem_of_nil in H. Qed.

Lemma head_filter_snoc {A} (P : A -> Prop) `{!forall x, Decision (P x)} l x y :
  head (filter P l) = Some y -> head (filter P (l ++ [x])) = Some y.
Proof. rewrite filter_app. by destruct (filter P l). Qed.

(** An event that contributes nothing to [c, v] leaves its entry alone. *)
Lemma filter_snoc_ne f c v evs e :
  ~ contributes f c v e ->
  filter (contributes f c v) (evs ++ [e]) = filter (contributes f c v) evs.
Proof. intros H. by rewrite filter_app, filter_cons_False, filter_nil, app_nil_r. Qed.

Lemma bucket_skip f evs b e :
  (forall c v, ~ contributes f c v e) -> bucket_ok f evs b -> bucket_ok f (evs ++ [e]) b.
Proof.
  intros Hne []. split; [done| |].
  - intros fp Hfp. rewrite !filter_snoc_ne by apply Hne. auto.
  - intros c v e' [He'|He']%elem_of_app Hc; [eauto|].
    apply list_elem_of_singleton in He' as ->. by destruct (Hne c v).
Qed.

Lemma contributes_fun f c v c' v' e :
  contributes f c v e -> contributes f c' v' e -> c = c' /\ v = v'.
Proof. unfold contributes. intros [E1 _] [E2 _]. naive_solver. Qed.

Lemma Key_bump (b : list Fingerprint) (k : string) :
  Key <$> ((fun fp => if decide (Key fp = k)
     then mkFingerprint (Category_ fp) (Value fp) (Count fp + 1) (FirstEvtID fp) else fp) <$> b)
  = Key <$> b.
Proof. rewrite <- list_fmap_compose. apply list_fmap_ext. intros ? fp _. simpl. by case_decide. Qed.

Lemma bucket_bump f evs b e c v :
  contributes f c v e -> cat_key c v ∈ Key <$> b -> bucket_ok f evs b ->
  bucket_ok f (evs ++ [e]) ((fun fp => if decide (Key fp = cat_key c v)
    then mkFingerprint (Category_ fp) (Value fp) (Count fp + 1) (FirstEvtID fp) else fp) <$> b).
Proof.
  intros Hc Hin [Hk He Hcm]. split.
  - by rewrite Key_bump.
  - intros fp (fp0 & -> & Hfp0)%list_elem_of_fmap.
    destruct (He fp0 Hfp0) as (Hcat & Hcount & e0 & Hhead & Hid).
    assert (Category_ (if decide (Key fp0 = cat_key c v)
              then mkFingerprint (Category_ fp0) (Value fp0) (Count fp0 + 1) (FirstEvtID fp0)
              else fp0) = Category_ fp0) as -> by (by case_decide).
    assert (Value (if decide (Key fp0 = cat_key c v)
              then mkFingerprint (Category_ fp0) (Value fp0) (Count fp0 + 1) (FirstEvtID fp0)
              else fp0) = Value fp0) as -> by (by case_decide).
    split; [done|]. case_decide as Hkey; simpl.
    + apply cat_key_inj in Hkey as [Ec Ev]; [|done|by eapply extract_category, Hc].
      rewrite Ec, Ev in *. split; [|exists e0; eauto using head_filter_snoc].
      rewrite filter_app, filter_cons_True, filter_nil, length_app by done. simpl. lia.
    + rewrite filter_snoc_ne; [eauto|]. intros Hc'.
      destruct (contributes_fun _ _ _ _ _ _ Hc Hc') as [-> ->]. by apply Hkey.
  - intros c' v' e' He' Hc'. rewrite Key_bump. apply elem_of_app in He' as [He'|He']; [eauto|].
    apply list_elem_of_singleton in He' as ->.
    by destruct (contributes_fun _ _ _ _ _ _ Hc Hc') as [-> ->].
Qed.

Lemma bucket_new f evs b e c v :
  contributes f c v e -> cat_key c v ∉ Key <$> b -> bucket_ok f evs b ->
  bucket_ok f (evs ++ [e]) (b ++ [mkFingerprint c v 1 (Ev_ID e)]).
Proof.
  intros Hc Hnin [Hk He Hcm].
  assert (Hnone : filter (contributes f c v) evs = []).
  { apply filter_none, Forall_forall. intros e' He' Hc'. by apply Hnin, (Hcm c v e'). }
  split.
  - rewrite fmap_app, NoDup_app. split_and!; [done| |apply NoDup_singleton]. set_solver.
  - intros fp [Hfp|Hfp]%elem_of_app.
    + destruct (He fp Hfp) as (? & ? & ?). rewrite filter_snoc_ne; [done|]. intros Hc'.
      destruct (contributes_fun _ _ _ _ _ _ Hc Hc') as [-> ->].
      apply Hnin, list_elem_of_fmap. by exists fp.
    + apply list_elem_of_singleton in Hfp as ->. simpl.
      rewrite filter_app, Hnone, filter_cons_True by done. simpl.
      split; [by eapply extract_category, Hc|]. eauto.
  - intros c' v' e' He' Hc'. rewrite fmap_app, elem_of_app.
    apply elem_of_app in He' as [He'|He']; [left; eauto|]. right.
    apply list_elem_of_singleton in He' as ->.
    destruct (contributes_fun _ _ _ _ _ _ Hc Hc') as [-> ->]. by left.
Qed.

Lemma bucket_step f evs b e : bucket_ok f evs b -> bucket_ok f (evs ++ [e]) (extract_step f b e).
Proof.
  intros Hb. unfold extract_step, addUnique. destruct (extract f e) as [[c v]|] eqn:E.
  - case_decide as Hv.
    + apply bucket_skip; [|done]. intros c' v' [E' Hne]. congruence.
    + assert (contributes f c v e) as Hc by (by split).
      case_decide; [by apply bucket_bump|by apply bucket_new].
  - apply bucket_skip; [|done]. intros c' v' [E' Hne]. congruence.
Qed.

Lemma bucket_fold f evs : bucket_ok f evs (foldl (extract_step f) [] evs).
Proof.
  induction evs as [|e evs IH] using rev_ind; [apply bucket_nil|].
  rewrite foldl_app. simpl. by apply bucket_step.
Qed.

Lemma bucket_perm f evs b b' : b' ≡ₚ b -> bucket_ok f evs b -> bucket_ok f evs b'.
Proof.
  intros Hp [Hk He Hcm]. split.
  - by rewrite Hp.
  - intros fp. rewrite Hp. apply He.
  - intros c v e H1 H2. rewrite Hp. eauto.
Qed.

Lemma ExtractFingerprintsWith_ok iter f evs :
  (forall l, iter l ≡ₚ l) -> bucket_ok f evs (ExtractFingerprintsWith iter evs f).
Proof. intros Hi. eapply bucket_perm; [apply Hi|apply bucket_fold]. Qed.

(** A fingerprint of the result, characterised by the events. *)
Lemma fingerprint_iff iter f evs c v :
  (forall l, iter l ≡ₚ l) ->
  (exists fp, fp ∈ ExtractFingerprintsWith iter evs f /\ Category_ fp = c /\ Value fp = v) <->
  (exists e, e ∈ evs /\ contributes f c v e).
Proof.
  intros Hi. destruct (ExtractFingerprintsWith_ok iter f evs Hi) as [Hk He Hcm]. split.
  - intros (fp & Hfp & <- & <-). destruct (He fp Hfp) as (_ & _ & e & Hh & _). exists e.
    assert (e ∈ filter (contributes f (Category_ fp) (Value fp)) evs) as Hin.
    { destruct (filter _ evs); [done|]. injection Hh as ->. by left. }
    apply list_elem_of_filter in Hin as [? ?]. done.
  - intros (e & He' & Hc). pose proof (Hcm c v e He' Hc) as Hin.
    apply list_elem_of_fmap in Hin as (fp & Ek & Hfp). exists fp. split; [done|].
    destruct (He fp Hfp) as (Hcat & _).
    destruct (cat_key_inj c v (Category_ fp) (Value fp)) as [-> ->]; try done.
    by eapply extract_category, Hc.
Qed.

Lemma extract_destination f e v :
  extract f e = Some (CatNetDestination, v) ->
  exists ip port, v = ip +:+ ":" +:+ decimal port /\ IsAllowlistedCDN ip = false.
Proof.
  unfold extract. repeat case_decide.
  - unfold extractFileAccess. extract_cases; try discriminate.
    repeat case_decide; repeat case_match; discriminate.
  - unfold extractExec. extract_cases; discriminate.
  - unfold extractNetConnect. extract_cases; try discriminate. case_decide; [discriminate|].
    destruct (SuppressIP f s) eqn:E1; [discriminate|].
    destruct (IsAllowlistedCDN s) eqn:E2; [discriminate|]. intros [= <-]. eauto.
  - unfold extractDNS. extract_cases; discriminate.
  - unfold extractTLSSNI. extract_cases; try discriminate. case_match; discriminate.
  - discriminate.
Qed.

(** What the filter suppresses is not extracted. *)
Lemma extract_unsuppressed f e c v :
  extract (Some f) e = Some (c, v) ->
  (c = CatFSPathRead \/ c = CatFSPathWrite -> SuppressPath (Some f) v = false) /\
  (c = CatNetHTTPSHost -> SuppressSNI (Some f) v = false) /\
  (c = CatNetDestination ->
     exists ip port, v = ip +:+ ":" +:+ decimal port /\ SuppressIP (Some f) ip = false).
Proof.
  unfold extract. repeat case_decide.
  - unfold extractFileAccess. extract_cases; try discriminate. case_decide; [discriminate|].
    destruct (SuppressPath (Some f) _) eqn:E; [discriminate|]. intros [= <- <-].
    split_and!; [done|by destruct (_ || _)..].
  - unfold extractExec. extract_cases; try discriminate. intros [= <- _]. split_and!; [by intros [?|?]|done..].
  - unfold extractNetConnect. extract_cases; try discriminate. case_decide; [discriminate|].
    destruct (SuppressIP (Some f) s) eqn:E1; [discriminate|].
    destruct (IsAllowlistedCDN s) eqn:E2; [discriminate|]. intros [= <- <-].
    split_and!; [by intros [?|?]|done|]. eauto.
  - unfold extractDNS. extract_cases; try discriminate. intros [= <- _]. split_and!; [by intros [?|?]|done..].
  - unfold extractTLSSNI. extract_cases; try discriminate.
    destruct (SuppressSNI (Some f) _) eqn:E; [discriminate|]. intros [= <- <-].
    split_and!; [by intros [?|?]|done|done].
  - discriminate.
Qed.

(** ** More entries, fewer fingerprints *)
Record filter_le (f g : Filter) : Prop := {
  fl_cidrs : forall n, In n (cidrs f) -> In n (cidrs g);
  fl_paths : forall p, In p (paths f) -> In p (paths g);
  fl_snis : forall s, s ∈ snis f -> s ∈ snis g
}.

Lemma filter_le_refl f : filter_le f f.
Proof. by split. Qed.

Lemma filter_le_add f g e : filter_le f g -> filter_le f (add_entry g e).
Proof.
  intros [H1 H2 H3]. unfold add_entry.
  repeat (case_decide || case_match); split; simpl; intros; rewrite ?in_app_iff; auto; set_solver.
Qed.

Lemma NewFilter_app es es' : filter_le (NewFilter es) (NewFilter (es ++ es')).
Proof.
  unfold NewFilter. rewrite foldl_app. generalize (foldl add_entry (mkFilter (omap ParseCIDR DefaultCDNAllowlist) [] []) es) as f.
  induction es' as [|e es' IH] using rev_ind; intros f; [apply filter_le_refl|].
  rewrite foldl_app. simpl. by apply filter_le_add.
Qed.

Lemma existsb_mono {A} (p : A -> bool) l k :
  (forall x, In x l -> In x k) -> existsb p l = true -> existsb p k = true.
Proof. rewrite !existsb_exists. naive_solver. Qed.

Lemma suppress_mono f g : filter_le f g ->
  (forall x, SuppressIP (Some f) x = true -> SuppressIP (Some g) x = true) /\
  (forall x, SuppressPath (Some f) x = true -> SuppressPath (Some g) x = true) /\
  (forall x, SuppressSNI (Some f) x = true -> SuppressSNI (Some g) x = true).
Proof.
  intros [H1 H2 H3]. split_and!; intros x; unfold SuppressIP, SuppressPath, SuppressSNI.
  - destruct (ParseIP x); [|done]. by apply existsb_mono.
  - by apply existsb_mono.
  - rewrite !bool_decide_eq_true. auto.
Qed.

Lemma extract_mono f g e c v : filter_le f g ->
  extract (Some g) e = Some (c, v) -> extract (Some f) e = Some (c, v).
Proof.
  intros Hle. destruct (suppress_mono f g Hle) as (Hip & Hpath & Hsni).
  unfold extract. repeat case_decide.
  - unfold extractFileAccess. extract_cases; try discriminate. case_decide; [discriminate|].
    destruct (SuppressPath (Some f) _) eqn:E; [by rewrite (Hpath _ E)|].
    by destruct (SuppressPath (Some g) _).
  - exact id.
  - unfold extractNetConnect. extract_cases; try discriminate. case_decide; [discriminate|].
    destruct (SuppressIP (Some f) _) eqn:E; [by rewrite (Hip _ E)|].
    by destruct (SuppressIP (Some g) _).
  - exact id.
  - unfold extractTLSSNI. extract_cases; try discriminate.
    destruct (SuppressSNI (Some f) _) eqn:E; [by rewrite (Hsni _ E)|].
    by destruct (SuppressSNI (Some g) _).
  - exact id.
Qed.

Lemma NewFilter_cdn es n : In n allowlistNets -> In n (cidrs (NewFilter es)).
Proof.
  intros Hn. apply (fl_cidrs _ _ (NewFilter_app [] es)).
  change (In n (omap ParseCIDR DefaultCDNAllowlist)).
  assert (allowlistNets = omap ParseCIDR DefaultCDNAllowlist) as <- by (vm_compute; reflexivity).
  done.
Qed.

(** ** Properties *)

Definition wit_events : list EventRow :=
  [mkEventRow 1 "r" 10 "dns_query" (Some (JObj [("QName", JStr "Registry.npmjs.org.")]));
   mkEventRow 2 "r" 11 "net_connect" (Some (JObj [("DestIP", JStr "10.1.2.3"); ("DestPort", JNum 443)]));
   mkEventRow 3 "r" 12 "dns_query" (Some (JObj [("QName", JStr "registry.npmjs.org")]));
   mkEventRow 4 "r" 13 "net_connect" (Some (JObj [("DestIP", JStr "104.16.1.34"); ("DestPort", JNum 443)]));
   mkEventRow 5 "r" 14 "file_access" (Some (JObj [("PathName", JStr "/proc/77/maps"); ("Flags", JNum 577)]))].

(** C31: extraction. Whatever order the map is iterated in, the result has
    one fingerprint per distinct (category, value) some event contributes,
    no other, with the number of contributing events as its count and as its
    evidence the first of them in the list.  The Differ lists a run's events
    by their instants, and by id only for equal ones, so that is the earliest
    event and not always the one with the lowest id, which the comment on
    [FirstEvtID] in differ.go promises ([evidence_not_lowest]). *)
Theorem ExtractFingerprintsWith_spec iter f evs :
  (forall l, iter l ≡ₚ l) ->
  let fps := ExtractFingerprintsWith iter evs f in
  NoDup ((fun fp => (Category_ fp, Value fp)) <$> fps) /\
  (forall c v, (exists fp, fp ∈ fps /\ Category_ fp = c /\ Value fp = v) <->
               (exists e, e ∈ evs /\ extract f e = Some (c, v) /\ v <> "")) /\
  (forall fp, fp ∈ fps ->
     Count fp = Z.of_nat (length (filter (contributes f (Category_ fp) (Value fp)) evs)) /\
     exists e, head (filter (contributes f (Category_ fp) (Value fp)) evs) = Some e /\
               FirstEvtID fp = Ev_ID e).
Proof.
  intros Hi fps. destruct (ExtractFingerprintsWith_ok iter f evs Hi) as [Hk He Hcm]. split_and!.
  - apply (NoDup_fmap_1 (fun p => cat_key p.1 p.2)). by rewrite <- list_fmap_compose.
  - intros c v. by apply fingerprint_iff.
  - intros fp Hfp. apply (He fp Hfp).
Qed.

Lemma ExtractFingerprintsWith_spec_witness :
  ExtractFingerprintsWith id wit_events (Some (NewFilter [])) =
    [mkFingerprint CatNetDNS "registry.npmjs.org" 2 1;
     mkFingerprint CatNetDestination "10.1.2.3:443" 1 2;
     mkFingerprint CatFSPathWrite "/proc/<PID>/maps" 1 5] /\
  NoDup ((fun fp => (Category_ fp, Value fp)) <$>
    ExtractFingerprintsWith id wit_events (Some (NewFilter []))).
Proof.
  split; [vm_compute; reflexivity|].
  apply (ExtractFingerprintsWith_spec id (Some (NewFilter [])) wit_events). done.
Defined.

(** Two lookups of the same name, inserted in the opposite order of their
    instants: the evidence is the earlier one, event 2. *)
Example evidence_not_lowest :
  let late := mkEventRow 1 "r" 20 "dns_query" (Some (JObj [("QName", JStr "a.io")])) in
  let early := mkEventRow 2 "r" 10 "dns_query" (Some (JObj [("QName", JStr "a.io")])) in
  FirstEvtID <$> ExtractFingerprintsWith id (order_by ev_le [late; early]) None = [2%Z].
Proof. vm_compute. reflexivity. Qed.

(** C39: allowlist entries only suppress. With more entries every
    fingerprint is one of those found with fewer, and an address in the
    built-in CDN ranges never yields a destination fingerprint, with or
    without operator entries. *)
Theorem allowlist_only_suppresses iter es es' evs fp :
  (forall l, iter l ≡ₚ l) ->
  fp ∈ ExtractFingerprintsWith iter evs (Some (NewFilter (es ++ es'))) ->
  (exists fp', fp' ∈ ExtractFingerprintsWith iter evs (Some (NewFilter es)) /\ Key fp' = Key fp) /\
  (Category_ fp = CatNetDestination ->
   exists ip port, Value fp = ip +:+ ":" +:+ decimal port /\ IsAllowlistedCDN ip = false).
Proof.
  intros Hi Hfp.
  destruct (proj1 (fingerprint_iff iter (Some (NewFilter (es ++ es'))) evs _ _ Hi)
              (ex_intro _ fp (conj Hfp (conj eq_refl eq_refl)))) as (e & He & Hx & Hv). split.
  - apply (extract_mono (NewFilter es)) in Hx; [|apply NewFilter_app].
    destruct (proj2 (fingerprint_iff iter (Some (NewFilter es)) evs _ _ Hi)
                (ex_intro _ e (conj He (conj Hx Hv)))) as (fp' & H1 & H2 & H3).
    exists fp'. split; [done|]. unfold Key. by rewrite H2, H3.
  - intros Hc. rewrite Hc in Hx. by eapply extract_destination.
Qed.

Lemma allowlist_only_suppresses_witness :
  exists fp', fp' ∈ ExtractFingerprintsWith id wit_events (Some (NewFilter [])) /\
    Key fp' = cat_key CatNetDestination "10.1.2.3:443".
Proof.
  apply (allowlist_only_suppresses id [] [] wit_events
    (mkFingerprint CatNetDestination "10.1.2.3:443" 1 2)); [done|].
  vm_compute. right. left.
Defined.

(** the built-in list is well formed, so loading it never panics, and
    the filter the Differ builds always contains it. *)
Theorem loadAllowlist_total :
  is_Some loadAllowlist /\
  forall es ip, IsAllowlistedCDN ip = true -> SuppressIP (Some (NewFilter es)) ip = true.
Proof.
  split; [vm_compute; eauto|]. intros es ip. unfold IsAllowlistedCDN. case_decide; [done|].
  unfold SuppressIP. destruct (ParseIP ip); [|intros [=]]. apply existsb_mono, NewFilter_cdn.
Qed.

End Fingerprint.
