(* ===== verification/Differ.v ===== *)
(** * differ: the analysis of a run

    internal/orchestrator/differ/analyze.go, over any storage backend: the
    code is written against the [Backend] class and proved against
    [BackendLaws].  The random ids of [newID] and the instants of [time.Now]
    are streams handed to [AnalyzeRun]; logging is dropped. *)
From Stdlib Require Import Ascii.
From stdpp Require Import prelude strings gmap list sorting.
From S2P Require Import Prelude GoTime Json Sql Storage Sqlite SqliteSpec NetIP Fingerprint.

Module Differ.
Import Fingerprint.
Import (hints) SqliteSpec.SqliteSpec.

(** The Differ with its metrics sink: [None] is the nil sink, otherwise the
    rows handed to [ObserveDeviationsWritten], oldest first. *)
Record Differ (S : Type) : Type := mkDiffer {
  store : S;
  metrics : option (list DeviationRow)
}.
Arguments mkDiffer {S} store metrics.
Arguments store {S} d.
Arguments metrics {S} d.

(** A call on [d.store]. *)
Definition store_op {S A} (m : M S A) : M (Differ S) A := fun d =>
  let '(r, s') := m (store d) in (r, mkDiffer s' (metrics d)).

Definition ObserveDeviationsWritten {S} (rows : list DeviationRow) : M (Differ S) unit := fun d =>
  (Ok tt, mkDiffer (store d) ((fun log => log ++ rows) <$> metrics d)).

Definition new_deviation (runID id : string) (at_ : time) (fp : Fingerprint) : DeviationRow :=
  mkDeviationRow id runID (Category_ fp) (Value fp) (FirstEvtID fp)
    (defaultSeverity (Category_ fp)) at_ None false.

Definition seen_row (runID pkg : string) (fp : Fingerprint) : BaselineRow :=
  mkBaselineRow pkg (Category_ fp) (Value fp) runID runID 1.

(** The walk over the fingerprints: novel ones become deviations, known ones
    occurrence bumps; [k] counts the ids drawn so far. *)
Fixpoint walk (runID pkg : string) (known : list string) (newID : nat -> string)
    (clock : nat -> time) (k : nat) (fps : list Fingerprint) :
    list DeviationRow * list BaselineRow :=
  match fps with
  | [] => ([], [])
  | fp :: fps' =>
      if decide (Key fp ∈ known) then
        let '(ds, bs) := walk runID pkg known newID clock k fps' in
        (ds, seen_row runID pkg fp :: bs)
      else
        let '(ds, bs) := walk runID pkg known newID clock (S k) fps' in
        (new_deviation runID (newID k) (clock k) fp :: ds, bs)
  end.

Definition seed_row (runID pkg : string) (fp : Fingerprint) : BaselineRow :=
  mkBaselineRow pkg (Category_ fp) (Value fp) runID runID (Count fp).

Definition known_keys (baseline : list BaselineRow) : list string :=
  (fun b => cat_key (Bl_Category b) (Bl_Value b)) <$> baseline.

Section analyze.
Context {S : Type} `{Backend S}.

Definition seedBaseline (runID pkgName : string) (fps : list Fingerprint) : M (Differ S) unit :=
  _ ← store_op (MergeBaseline runID (seed_row runID pkgName <$> fps));
  store_op (MarkRunBaseline runID true).

Definition AnalyzeRun (iter : list Fingerprint -> list Fingerprint) (newID : nat -> string)
    (clock : nat -> time) (runID : string) : M (Differ S) nat :=
  run ← wrap_err "GetRun" (store_op (GetRun runID));
  if decide (Run_PackageName run = "") then mret 0 else
  events ← wrap_err "ListEventsByRun" (store_op (ListEventsByRun runID 0));
  all ← attempt (store_op ListAllowEntries);
  let allEntries := match all with Ok l => l | Err _ => [] end in
  let filter := NewFilter (EntriesForPackage allEntries (Run_PackageName run)) in
  let runFPs := ExtractFingerprintsWith iter events (Some filter) in
  baseline ← wrap_err "LoadBaseline" (store_op (LoadBaseline (Run_PackageName run)));
  match baseline with
  | [] =>
      _ ← wrap_err "seedBaseline" (seedBaseline runID (Run_PackageName run) runFPs);
      mret 0
  | _ =>
      let '(deviations, newBaselineRows) :=
        walk runID (Run_PackageName run) (known_keys baseline) newID clock 0 runFPs in
      _ ← attempt (store_op (DeleteDeviationsForRun runID));
      _ ← wrap_err "WriteDeviations" (store_op (WriteDeviations deviations));
      _ ← ObserveDeviationsWritten deviations;
      _ ← attempt (store_op (MergeBaseline runID newBaselineRows));
      match deviations with
      | [] => _ ← attempt (store_op (MarkRunBaseline runID true)); mret 0
      | _ => mret (length deviations)
      end
  end.
End analyze.

(** ** The walk *)
Section walk.
Context (runID pkg : string) (known : list string) (newID : nat -> string) (clock : nat -> time).
Let go := walk runID pkg known newID clock.

Definition dev_key (d : DeviationRow) : string * string := (Dev_Category d, Dev_Value d).
Definition fp_key (f : Fingerprint) : string * string := (Category_ f, Value f).

Definition novel (fps : list Fingerprint) : list Fingerprint :=
  filter (fun fp => Key fp ∉ known) fps.
Definition repeated (fps : list Fingerprint) : list Fingerprint :=
  filter (fun fp => Key fp ∈ known) fps.

Lemma walk_eq k fps :
  go k fps = (imap (fun i fp => new_deviation runID (newID (k + i)) (clock (k + i)) fp) (novel fps),
              seen_row runID pkg <$> repeated fps).
Proof.
  unfold go, novel, repeated. revert k. induction fps as [|fp fps IH]; intros k; simpl; [done|].
  rewrite !filter_cons. destruct (decide (Key fp ∈ known)) as [Hin|Hin].
  - rewrite IH. destruct (decide (Key fp ∉ known)); [done|]. done.
  - rewrite IH. rewrite decide_True by done. rewrite imap_cons, Nat.add_0_r.
    f_equal. f_equal. apply imap_ext. intros i x _. simpl. by rewrite Nat.add_succ_r.
Qed.

Lemma walk_dev_keys k fps : dev_key <$> (go k fps).1 = fp_key <$> novel fps.
Proof.
  rewrite walk_eq. simpl. rewrite fmap_imap. unfold compose. simpl.
  rewrite <- (imap_const fp_key). by apply imap_ext.
Qed.

Lemma walk_dev_elem k fps d :
  d ∈ (go k fps).1 ->
  exists i fp, fp ∈ novel fps /\ d = new_deviation runID (newID (k + i)) (clock (k + i)) fp.
Proof.
  rewrite walk_eq. simpl. intros (i & fp & -> & Hfp)%elem_of_lookup_imap.
  exists i, fp. split; [by eapply list_elem_of_lookup_2|done].
Qed.

Lemma walk_ids k fps :
  (forall i j, newID i = newID j -> i = j) -> NoDup (Dev_ID <$> (go k fps).1).
Proof.
  intros Hinj. rewrite walk_eq. simpl. rewrite fmap_imap. unfold compose. simpl.
  generalize (novel fps). intros l. revert k.
  induction l as [|fp l IH]; intros k; [apply NoDup_nil_2|].
  rewrite imap_cons. constructor.
  - intros (i & x & E & _)%elem_of_lookup_imap. apply Hinj in E. lia.
  - erewrite imap_ext; [apply (IH (S k))|]. intros i x _. simpl. by rewrite Nat.add_succ_r.
Qed.

Lemma walk_length k fps : length (go k fps).1 = length (novel fps).
Proof. rewrite walk_eq. simpl. by rewrite length_imap. Qed.
End walk.

(** ** Running against the contract *)
Section laws.
Context {S : Type} `{Backend S} `{!BackendLaws S}.

(** The abstract store a Differ works on. *)
Definition dview (d : Differ S) : Store := view (store d).
Definition good (d : Differ S) : Prop := inv (store d) /\ healthy (store d).

Lemma op_ok {A} (m : M S A) spec d :
  refines inv healthy view m spec -> good d ->
  exists r d', store_op m d = (r, d') /\ good d' /\ metrics d' = metrics d /\
               spec (dview d) r (dview d').
Proof.
  intros Hm [Hi Hh]. specialize (Hm (store d) Hi). unfold store_op, good, dview.
  destruct (m (store d)) as [r s']. destruct Hm as (Hi' & Hh' & Hs).
  eexists r, _. split; [done|]. simpl. destruct Hs as [Hs|(Hn & _)]; [auto|done].
Qed.

(** What the queries answer on a good state. *)
Lemma query_ok {A} (m : M S A) Q d :
  refines inv healthy view m (spec_query Q) -> good d ->
  exists r d', store_op m d = (r, d') /\ good d' /\ dview d' = dview d /\
               metrics d' = metrics d /\ Q (dview d) r.
Proof.
  intros Hm Hd. destruct (op_ok m _ d Hm Hd) as (r & d' & E & Hg & Hl & Hv & HQ). eauto 10.
Qed.

(** The fingerprints of a run as the contract determines them: events in
    (ts, id) order, at most 10000, filtered by the package's entries. *)
Definition run_fingerprints (st : Store) (runID pkg : string) (fps : list Fingerprint) : Prop :=
  exists evs all entries iter,
    all ≡ₚ events_of st runID /\ Sorted ev_le all /\ evs = limit_to 10000 all /\
    entries ≡ₚ (map_to_list (st_allow st)).*2 /\ (forall l, iter l ≡ₚ l) /\
    fps = ExtractFingerprintsWith iter evs (Some (NewFilter (EntriesForPackage entries pkg))).

Definition package_baseline (st : Store) (pkg : string) : list BaselineRow :=
  filter (fun b => Bl_PackageName b = pkg) (map_to_list (st_baseline st)).*2.

(** The part of AnalyzeRun before the baseline is looked at. *)
Lemma analyze_prefix iter newID clock runID d run :
  (forall l, iter l ≡ₚ l) -> good d ->
  st_runs (dview d) !! runID = Some run -> Run_PackageName run <> "" ->
  exists d1 fps bl, good d1 /\ dview d1 = dview d /\ metrics d1 = metrics d /\
    run_fingerprints (dview d) runID (Run_PackageName run) fps /\
    bl ≡ₚ package_baseline (dview d) (Run_PackageName run) /\
    AnalyzeRun iter newID clock runID d =
      match bl with
      | [] => (_ ← wrap_err "seedBaseline" (seedBaseline runID (Run_PackageName run) fps);
               mret 0) d1
      | _ => (let '(ds, bs) :=
           walk runID (Run_PackageName run) (known_keys bl) newID clock 0 fps in
           _ ← attempt (store_op (DeleteDeviationsForRun runID));
           _ ← wrap_err "WriteDeviations" (store_op (WriteDeviations ds));
           _ ← ObserveDeviationsWritten ds;
           _ ← attempt (store_op (MergeBaseline runID bs));
           match ds with
           | [] => _ ← attempt (store_op (MarkRunBaseline runID true)); mret 0
           | _ => mret (length ds)
           end) d1
      end.
Proof.
  intros Hiter Hd Hrun Hpkg.
  destruct (query_ok _ _ _ (GetRun_refines runID) Hd) as (r1 & d1 & E1 & Hd1 & V1 & M1 & Q1).
  rewrite Hrun in Q1. subst r1.
  destruct (query_ok _ _ _ (ListEventsByRun_refines runID 0) Hd1) as (r2 & d2 & E2 & Hd2 & V2 & M2 & Q2).
  destruct Q2 as (evs & all & -> & Hall & Hsort & ->).
  destruct (query_ok _ _ _ ListAllowEntries_refines Hd2) as (r3 & d3 & E3 & Hd3 & V3 & M3 & Q3).
  destruct Q3 as (entries & -> & Hent).
  destruct (query_ok _ _ _ (LoadBaseline_refines (Run_PackageName run)) Hd3)
    as (r4 & d4 & E4 & Hd4 & V4 & M4 & Q4).
  destruct Q4 as (bl & -> & Hbl).
  eexists d4, _, bl. split; [done|]. split; [congruence|]. split; [congruence|].
  split.
  { exists (limit_to 10000 all), all, entries, iter. rewrite V1 in Hall. rewrite V2, V1 in Hent.
    split_and!; done || reflexivity. }
  split. { rewrite V3, V2, V1 in Hbl. exact Hbl. }
  unfold AnalyzeRun. step_ok (wrap_err_ok "GetRun" _ _ _ _ E1).
  rewrite decide_False by done. step_ok (wrap_err_ok "ListEventsByRun" _ _ _ _ E2).
  step_ok (attempt_run _ _ _ _ E3). step_ok (wrap_err_ok "LoadBaseline" _ _ _ _ E4).
  destruct bl as [|b bl]; [reflexivity|].
  by destruct (walk _ _ _ _ _ _ _).
Qed.
End laws.

(** ** Rows by run *)
Lemma insert_devs_perm ds m :
  NoDup (Dev_ID <$> ds) -> Forall (fun d => m !! Dev_ID d = None) ds ->
  map_to_list (insert_devs ds m) ≡ₚ ((fun d => (Dev_ID d, stored_dev d)) <$> ds) ++ map_to_list m.
Proof.
  unfold insert_devs. revert m. induction ds as [|d ds IH]; intros m Hnd Hm; simpl; [done|].
  rewrite fmap_cons, NoDup_cons in Hnd. destruct Hnd as [Hd Hnd].
  apply Forall_cons in Hm as [Hm1 Hm2]. rewrite IH; [|done|].
  - rewrite map_to_list_insert by done. by rewrite Permutation_middle.
  - elementwise. apply Forall_forall. intros x Hx. rewrite lookup_insert_ne; [auto|].
    intros E. apply Hd, list_elem_of_fmap. eauto.
Qed.

(** The deviations a store holds for a run. *)
Definition devs_of (st : Store) (runID : string) : list DeviationRow :=
  filter (fun d => Dev_RunID d = runID) (map_to_list (st_devs st)).*2.

Lemma elem_of_values {K A} `{Countable K} (m : gmap K A) x :
  x ∈ (map_to_list m).*2 <-> exists k, m !! k = Some x.
Proof.
  rewrite list_elem_of_fmap. split.
  - intros ([k y] & -> & Hy). apply elem_of_map_to_list in Hy. eauto.
  - intros [k Hk]. exists (k, x). split; [done|]. by apply elem_of_map_to_list.
Qed.

(** Clear a run's rows, then insert rows of that run under fresh ids. *)
Lemma rewrite_devs ds m runID :
  NoDup (Dev_ID <$> ds) -> Forall (fun d => m !! Dev_ID d = None) ds ->
  Forall (fun d => Dev_RunID d = runID) ds ->
  let m' := insert_devs ds (filter (fun kv => Dev_RunID kv.2 <> runID) m) in
  filter (fun d => Dev_RunID d = runID) (map_to_list m').*2 ≡ₚ stored_dev <$> ds /\
  filter (fun kv => Dev_RunID kv.2 <> runID) m' = filter (fun kv => Dev_RunID kv.2 <> runID) m.
Proof.
  intros Hnd Hm Hr m'. split.
  - unfold m'. rewrite insert_devs_perm; [|done|].
    + rewrite fmap_app, filter_app, <- list_fmap_compose.
      rewrite filter_all, filter_none, app_nil_r; [reflexivity| |].
      * apply Forall_forall. intros d (k & Hk)%elem_of_values.
        apply map_lookup_filter_Some in Hk as [_ Hk]. exact Hk.
      * rewrite Forall_fmap. eapply Forall_impl; [exact Hr|]. done.
    + eapply Forall_impl; [exact Hm|]. intros d Hd.
      apply map_lookup_filter_None. by left.
  - apply map_eq. intros k. apply option_eq. intros d. rewrite !map_lookup_filter_Some. simpl.
    unfold m'. rewrite insert_devs_lookup by done.
    destruct (list_find _ ds) as [[i d']|] eqn:E.
    + apply list_find_Some in E as (E1 & E2 & _). apply list_elem_of_lookup_2 in E1.
      rewrite Forall_forall in Hr, Hm. specialize (Hr _ E1). specialize (Hm _ E1).
      rewrite E2 in Hm. split; [|naive_solver]. intros [[= <-] Hne]. by destruct Hne.
    + rewrite map_lookup_filter_Some. simpl. naive_solver.
Qed.

(** ** The two outcomes of an analysis *)
Section outcomes.
Context {S : Type} `{Backend S} `{!BackendLaws S}.
Context (iter : list Fingerprint -> list Fingerprint) (newID : nat -> string)
  (clock : nat -> time) (runID : string) (run : Run).
Context (iter_perm : forall l, iter l ≡ₚ l) (newID_inj : forall i j, newID i = newID j -> i = j).
Context (pkg_named : Run_PackageName run <> "").
Let pkg := Run_PackageName run.

(** Every contributing event is one of the run's stored events. *)
Lemma fingerprint_evidence st fps fp :
  (forall id e, st_events st !! id = Some e -> Ev_ID e = id) ->
  run_fingerprints st runID pkg fps -> fp ∈ fps -> is_Some (st_events st !! FirstEvtID fp).
Proof.
  intros Hkey (evs & all & entries & it & Hall & _ & -> & _ & Hit & ->) Hfp.
  destruct (ExtractFingerprintsWith_ok it (Some (NewFilter (EntriesForPackage entries pkg)))
              (limit_to 10000 all) Hit) as [_ He _].
  destruct (He fp Hfp) as (_ & _ & e & Hh & ->).
  assert (e ∈ filter (contributes (Some (NewFilter (EntriesForPackage entries pkg)))
            (Category_ fp) (Value fp)) (limit_to 10000 all)) as Hin.
  { destruct (filter _ (limit_to _ _)); [done|]. injection Hh as ->. by left. }
  apply list_elem_of_filter in Hin as [_ Hin]. unfold limit_to in Hin.
  apply elem_of_take in Hin as (i & Hin & _). apply list_elem_of_lookup_2 in Hin.
  rewrite Hall in Hin. unfold events_of in Hin. rewrite order_by_perm in Hin.
  apply list_elem_of_filter in Hin as [_ (k & Hk)%elem_of_values].
  rewrite (Hkey _ _ Hk). eauto.
Qed.

Lemma fingerprint_category st fps fp :
  run_fingerprints st runID pkg fps -> fp ∈ fps -> Category_ fp ∈ AllCategories.
Proof.
  intros (evs & all & entries & it & _ & _ & _ & _ & Hit & ->) Hfp.
  eapply (bk_elem _ _ _ (ExtractFingerprintsWith_ok it _ evs Hit)), Hfp.
Qed.

Lemma fingerprint_nodup st fps :
  run_fingerprints st runID pkg fps -> NoDup (Key <$> fps).
Proof.
  intros (evs & all & entries & it & _ & _ & _ & _ & Hit & ->).
  eapply (bk_keys _ _ _ (ExtractFingerprintsWith_ok it _ evs Hit)).
Qed.

Definition mark (flag : bool) (st : Store) : Store :=
  if flag then with_runs (<[runID := set_baseline_flag true run]> (st_runs st)) st else st.

(** First run of a package: everything seen becomes baseline. *)
Definition seeded (fps : list Fingerprint) (st : Store) : Store :=
  mark true (with_baseline
    (foldl (merge_one runID) (st_baseline st) (seed_row runID pkg <$> fps)) st).

Lemma analyze_first d :
  good d -> st_runs (dview d) !! runID = Some run -> package_baseline (dview d) pkg = [] ->
  exists d' fps, AnalyzeRun iter newID clock runID d = (Ok 0, d') /\ good d' /\
    metrics d' = metrics d /\ run_fingerprints (dview d) runID pkg fps /\
    dview d' = seeded fps (dview d).
Proof.
  intros Hd Hrun Hb.
  destruct (analyze_prefix iter newID clock runID d run iter_perm Hd Hrun pkg_named)
    as (d1 & fps & bl & Hd1 & V1 & M1 & Hfps & Hbl & ->).
  fold pkg in Hbl. rewrite Hb in Hbl. apply Permutation_nil_r in Hbl as ->.
  destruct (op_ok _ _ _ (MergeBaseline_refines runID (seed_row runID pkg <$> fps)) Hd1)
    as (r2 & d2 & E2 & Hd2 & M2 & -> & V2).
  destruct (op_ok _ _ _ (MarkRunBaseline_refines runID true) Hd2)
    as (r3 & d3 & E3 & Hd3 & M3 & Q3).
  unfold spec_MarkRunBaseline in Q3. rewrite V2 in Q3. simpl in Q3. rewrite V1, Hrun in Q3.
  destruct Q3 as [-> V3].
  exists d3, fps. split_and!; [|done|congruence|done|].
  - erewrite M_bind_ok; [reflexivity|]. apply wrap_err_ok. unfold seedBaseline.
    fold pkg. by step_ok E2.
  - rewrite V3. done.
Qed.

(** Later runs: novel fingerprints become the run's deviations. *)
Definition reviewed (ds : list DeviationRow) (bs : list BaselineRow) (st : Store) : Store :=
  mark (bool_decide (ds = []))
    (with_baseline (foldl (merge_one runID) (st_baseline st) bs)
      (with_devs (insert_devs ds (filter (fun kv => Dev_RunID kv.2 <> runID) (st_devs st))) st)).

Lemma analyze_later d :
  good d -> st_runs (dview d) !! runID = Some run -> package_baseline (dview d) pkg <> [] ->
  (forall i, st_devs (dview d) !! newID i = None) ->
  exists d' fps bl ds bs, good d' /\ run_fingerprints (dview d) runID pkg fps /\
    bl ≡ₚ package_baseline (dview d) pkg /\
    walk runID pkg (known_keys bl) newID clock 0 fps = (ds, bs) /\
    AnalyzeRun iter newID clock runID d = (Ok (length ds), d') /\
    metrics d' = (fun log => log ++ ds) <$> metrics d /\
    dview d' = reviewed ds bs (dview d).
Proof.
  intros Hd Hrun Hb Hfresh.
  destruct (analyze_prefix iter newID clock runID d run iter_perm Hd Hrun pkg_named)
    as (d1 & fps & bl & Hd1 & V1 & M1 & Hfps & Hbl & ->). fold pkg in Hbl, Hfps.
  destruct (walk runID pkg (known_keys bl) newID clock 0 fps) as [ds bs] eqn:Ew.
  destruct bl as [|b bl].
  { symmetry in Hbl. apply Permutation_nil_r in Hbl. done. }
  destruct (op_ok _ _ _ (DeleteDeviationsForRun_refines runID) Hd1)
    as (r2 & d2 & E2 & Hd2 & M2 & -> & V2).
  destruct (op_ok _ _ _ (WriteDeviations_refines ds) Hd2) as (r3 & d3 & E3 & Hd3 & M3 & Q3).
  assert (Hins : NoDup (Dev_ID <$> ds) /\ Forall (dev_insertable (dview d2)) ds).
  { split.
    - pose proof (walk_ids runID pkg (known_keys (b :: bl)) newID clock 0 fps newID_inj) as Hn.
      by rewrite Ew in Hn.
    - apply Forall_forall. intros dv Hdv.
      pose proof (walk_dev_elem runID pkg (known_keys (b :: bl)) newID clock 0 fps dv) as Hw.
      rewrite Ew in Hw. destruct (Hw Hdv) as (i & fp & Hfp & ->). unfold dev_insertable. simpl.
      rewrite V2. simpl. split_and!.
      + apply map_lookup_filter_None. left. rewrite V1. apply Hfresh.
      + rewrite V1, Hrun. eauto.
      + rewrite V1. apply list_elem_of_filter in Hfp as [_ Hfp].
        eapply fingerprint_evidence; [|done|done]. intros id e. apply view_events_keyed, Hd. }
  destruct Q3 as [(-> & V3 & _)|(_ & _ & Hn)]; [|by destruct Hn].
  set (d3' := mkDiffer (store d3) ((fun log => log ++ ds) <$> metrics d3)).
  assert (Hd3' : good d3') by exact Hd3.
  destruct (op_ok _ _ _ (MergeBaseline_refines runID bs) Hd3')
    as (r4 & d4 & E4 & Hd4 & M4 & -> & V4).
  assert (Hv : dview d4 = with_baseline (foldl (merge_one runID) (st_baseline (dview d)) bs)
     (with_devs (insert_devs ds (filter (fun kv => Dev_RunID kv.2 <> runID) (st_devs (dview d)))) (dview d))).
  { rewrite V4. change (dview d3') with (dview d3). rewrite V3, V2, V1. done. }
  assert (Hm : metrics d4 = (fun log => log ++ ds) <$> metrics d).
  { rewrite M4. simpl. by rewrite M3, M2, M1. }
  fold pkg. rewrite Ew.
  step_ok (attempt_run _ _ _ _ E2). step_ok (wrap_err_ok "WriteDeviations" _ _ _ _ E3).
  assert (E3' : ObserveDeviationsWritten ds d3 = (Ok tt, d3')) by done. step_ok E3'.
  step_ok (attempt_run _ _ _ _ E4).
  destruct ds as [|dv ds].
  - destruct (op_ok _ _ _ (MarkRunBaseline_refines runID true) Hd4)
      as (r5 & d5 & E5 & Hd5 & M5 & Q5).
    unfold spec_MarkRunBaseline in Q5. rewrite Hv in Q5. simpl in Q5. rewrite Hrun in Q5.
    destruct Q5 as [-> V5]. step_ok (attempt_run _ _ _ _ E5).
    exists d5, fps, (b :: bl), [], bs. split_and!; auto; congruence.
  - exists d4, fps, (b :: bl), (dv :: ds), bs. split_and!; auto.
Qed.
End outcomes.

(** ** Seeding *)
Lemma merge_one_fresh runID m r :
  m !! bl_key r = None -> Bl_OccurrenceCount r <> 0%Z -> Bl_FirstSeenRunID r = runID ->
  Bl_LastSeenRunID r = runID -> merge_one runID m r = <[bl_key r := r]> m.
Proof.
  intros Hn Hc <- Hl. unfold merge_one. rewrite bl_key_fill, Hn. f_equal. destruct r; simpl in *.
  subst. unfold fill_baseline. simpl. by repeat case_decide; subst.
Qed.

(** Merging rows whose keys are new and distinct inserts them. *)
Lemma merge_fresh runID rows m r :
  NoDup (bl_key <$> rows) -> Forall (fun r => m !! bl_key r = None) rows ->
  Forall (fun r => Bl_OccurrenceCount r <> 0%Z /\ Bl_FirstSeenRunID r = runID /\
                   Bl_LastSeenRunID r = runID) rows ->
  r ∈ rows -> foldl (merge_one runID) m rows !! bl_key r = Some r.
Proof.
  revert m. induction rows as [|x rows IH]; intros m Hnd Hm Hc Hr; [by apply not_elem_of_nil in Hr|].
  rewrite fmap_cons, NoDup_cons in Hnd. destruct Hnd as [Hx Hnd].
  apply Forall_cons in Hm as [Hm1 Hm2]. apply Forall_cons in Hc as [(Hc1 & Hc2 & Hc3) Hc].
  simpl. rewrite merge_one_fresh by done. apply elem_of_cons in Hr as [->|Hr].
  - rewrite merge_lookup_ne by done. by rewrite lookup_insert_eq.
  - apply IH; try done. elementwise. apply Forall_forall. intros y Hy.
    rewrite lookup_insert_ne; [by apply Hm2|]. intros E. apply Hx. rewrite E.
    apply list_elem_of_fmap. eauto.
Qed.

Lemma package_baseline_nil st pkg c v :
  (forall k r, st_baseline st !! k = Some r -> bl_key r = k) ->
  package_baseline st pkg = [] -> st_baseline st !! (pkg, c, v) = None.
Proof.
  intros Hk Hb. destruct (st_baseline st !! (pkg, c, v)) as [r|] eqn:E; [|done]. exfalso.
  assert (r ∈ package_baseline st pkg) as Hr.
  { apply list_elem_of_filter. split; [|apply elem_of_values; eauto].
    specialize (Hk _ _ E). unfold bl_key in Hk. congruence. }
  rewrite Hb in Hr. by apply not_elem_of_nil in Hr.
Qed.

Lemma seed_keys runID pkg fps : NoDup (Key <$> fps) -> NoDup (bl_key <$> (seed_row runID pkg <$> fps)).
Proof.
  intros Hnd. apply (NoDup_fmap_1 (fun k => cat_key k.1.2 k.2)).
  by rewrite <- !list_fmap_compose.
Qed.

Lemma fingerprint_count st runID pkg fps fp :
  run_fingerprints st runID pkg fps -> fp ∈ fps -> (0 < Count fp)%Z.
Proof.
  intros (evs & all & entries & it & _ & _ & _ & _ & Hit & ->) Hfp.
  destruct (bk_elem _ _ _ (ExtractFingerprintsWith_ok it _ evs Hit) fp Hfp) as (_ & -> & e & Hh & _).
  destruct (filter _ evs); [done|]. simpl. lia.
Qed.

(** ** The fingerprints a run has do not depend on iteration orders *)
Definition cidr_of (e : AllowEntry) : option NetIP.NetIP.IPNet :=
  if decide (Al_Kind e = AllowKindCIDR) then NetIP.NetIP.ParseCIDR (Al_Value e) else None.
Definition path_of (e : AllowEntry) : option string :=
  if decide (Al_Kind e = AllowKindPath /\ Al_Value e <> "") then Some (Al_Value e) else None.
Definition sni_of (e : AllowEntry) : option string :=
  if decide (Al_Kind e = AllowKindSNI /\ Al_Value e <> "")
  then Some (ToLower (TrimSpace (Al_Value e))) else None.

Lemma add_entry_parts f e :
  cidrs (add_entry f e) = cidrs f ++ option_list (cidr_of e) /\
  paths (add_entry f e) = paths f ++ option_list (path_of e) /\
  snis (add_entry f e) = snis f ++ option_list (sni_of e).
Proof.
  unfold add_entry, cidr_of, path_of, sni_of.
  destruct (decide (Al_Kind e = AllowKindCIDR)) as [->|H1].
  { rewrite !decide_False by (intros [[=] _]). destruct (NetIP.NetIP.ParseCIDR _); simpl;
      by rewrite ?app_nil_r. }
  destruct (decide (Al_Kind e = AllowKindPath)) as [->|H2].
  { destruct (decide (Al_Value e = "")).
    - rewrite !decide_False by (intros [_ Hn]; done). simpl. by rewrite ?app_nil_r.
    - rewrite decide_True by done. rewrite decide_False by (intros [[=] _]). simpl.
      by rewrite ?app_nil_r. }
  rewrite (decide_False (P := Al_Kind e = AllowKindPath /\ _)) by (by intros [? _]).
  destruct (decide (Al_Kind e = AllowKindSNI)) as [->|H3].
  - destruct (decide (Al_Value e = "")).
    + rewrite !decide_False by (intros [_ Hn]; done). simpl. by rewrite ?app_nil_r.
    + rewrite decide_True by done. simpl. by rewrite ?app_nil_r.
  - rewrite decide_False by (by intros [? _]). simpl. by rewrite ?app_nil_r.
Qed.

Lemma add_entries_parts es f :
  cidrs (foldl add_entry f es) = cidrs f ++ omap cidr_of es /\
  paths (foldl add_entry f es) = paths f ++ omap path_of es /\
  snis (foldl add_entry f es) = snis f ++ omap sni_of es.
Proof.
  revert f. induction es as [|e es IH]; intros f; cbn [foldl omap list_omap]; [by rewrite !app_nil_r|].
  destruct (IH (add_entry f e)) as (-> & -> & ->), (add_entry_parts f e) as (-> & -> & ->).
  rewrite <- !app_assoc. split_and!; f_equal.
  - change (omap cidr_of (e :: es)) with (match cidr_of e with Some x => x :: omap cidr_of es | None => omap cidr_of es end). by destruct (cidr_of e).
  - change (omap path_of (e :: es)) with (match path_of e with Some x => x :: omap path_of es | None => omap path_of es end). by destruct (path_of e).
  - change (omap sni_of (e :: es)) with (match sni_of e with Some x => x :: omap sni_of es | None => omap sni_of es end). by destruct (sni_of e).
Qed.

Lemma NewFilter_perm es es' : es ≡ₚ es' -> filter_le (NewFilter es) (NewFilter es').
Proof.
  intros Hp. unfold NewFilter. set (f0 := mkFilter _ _ _).
  destruct (add_entries_parts es f0) as (H1 & H2 & H3), (add_entries_parts es' f0) as (H1' & H2' & H3').
  split; intros x; rewrite ?H1, ?H2, ?H3, ?H1', ?H2', ?H3'; rewrite <- ?list_elem_of_In, !elem_of_app;
    by rewrite Hp.
Qed.

Lemma sorted_events_unique l k : l ≡ₚ k -> NoDup (Ev_ID <$> l) -> Sorted ev_le l -> Sorted ev_le k -> l = k.
Proof.
  intros Hp Hk Hl Hk'. assert (Transitive ev_le) by (intros a b c; unfold ev_le; lia).
  apply (StronglySorted_unique_strong ev_le); [|by apply Sorted_StronglySorted..|done].
  intros x y Hx Hy H1 H2. apply (NoDup_fmap_inj_elem Ev_ID l); try done; [by rewrite Hp|].
  unfold ev_le in *. lia.
Qed.

Lemma values_keys_nodup {K A} `{Countable K} (key : A -> K) (m : gmap K A) :
  (forall k x, m !! k = Some x -> key x = k) -> NoDup (key <$> (map_to_list m).*2).
Proof.
  intros Hk. rewrite <- list_fmap_compose.
  rewrite (list_fmap_ext _ fst); [apply NoDup_fst_map_to_list|].
  intros i [k x] Hi. simpl. apply Hk. apply elem_of_map_to_list. by eapply list_elem_of_lookup_2.
Qed.

Lemma events_of_nodup st runID :
  (forall id e, st_events st !! id = Some e -> Ev_ID e = id) -> NoDup (Ev_ID <$> events_of st runID).
Proof.
  intros Hk. unfold events_of. rewrite order_by_perm. apply NoDup_fmap_filter.
  by apply values_keys_nodup.
Qed.

Lemma run_fingerprints_det st st' runID pkg fps fps' k :
  (forall id e, st_events st !! id = Some e -> Ev_ID e = id) ->
  st_events st' = st_events st -> st_allow st' = st_allow st ->
  run_fingerprints st runID pkg fps -> run_fingerprints st' runID pkg fps' ->
  k ∈ fp_key <$> fps -> k ∈ fp_key <$> fps'.
Proof.
  intros Hk He Ha (evs & all & en & it & Hall & Hs & -> & Hen & Hit & ->)
    (evs' & all' & en' & it' & Hall' & Hs' & -> & Hen' & Hit' & ->).
  assert (all = all') as ->.
  { apply sorted_events_unique; try done.
    - rewrite Hall, Hall'. unfold events_of. by rewrite He.
    - rewrite Hall. by apply events_of_nodup. }
  rewrite !list_elem_of_fmap. intros (fp & -> & Hfp).
  destruct (proj1 (fingerprint_iff it _ _ _ _ Hit)
     (ex_intro _ fp (conj Hfp (conj eq_refl eq_refl)))) as (e & He1 & Hx & Hv).
  apply (extract_mono (NewFilter (EntriesForPackage en' pkg))) in Hx.
  - destruct (proj2 (fingerprint_iff it' (Some (NewFilter (EntriesForPackage en' pkg))) _ _ _ Hit')
      (ex_intro _ e (conj He1 (conj Hx Hv)))) as (fp' & H1 & H2 & H3).
    exists fp'. split; [|done]. unfold fp_key. congruence.
  - apply NewFilter_perm. unfold EntriesForPackage. by rewrite Hen, Hen', Ha.
Qed.

(** ** Known fingerprints *)

(** The categories of a package's baseline are the Differ's own. *)
Definition baseline_ok (st : Store) : Prop :=
  forall k r, st_baseline st !! k = Some r -> bl_key r = k /\ Bl_Category r ∈ AllCategories.

Definition known_pairs (st : Store) (pkg : string) : list (string * string) :=
  (fun b => (Bl_Category b, Bl_Value b)) <$> package_baseline st pkg.

Lemma known_pairs_dom st pkg c v :
  baseline_ok st -> (c, v) ∈ known_pairs st pkg <-> (pkg, c, v) ∈ dom (st_baseline st).
Proof.
  intros Hok. unfold known_pairs, package_baseline. rewrite list_elem_of_fmap, elem_of_dom. split.
  - intros (b & [= -> ->] & Hb). apply list_elem_of_filter in Hb as [<- (k & Hk)%elem_of_values].
    destruct (Hok _ _ Hk) as [E _]. unfold bl_key in E. rewrite E. eauto.
  - intros [b Hb]. destruct (Hok _ _ Hb) as [[= E1 E2 E3] _]. exists b. split; [congruence|].
    apply list_elem_of_filter. split; [done|]. apply elem_of_values. eauto.
Qed.

Lemma key_known st pkg bl fp :
  baseline_ok st -> bl ≡ₚ package_baseline st pkg -> Category_ fp ∈ AllCategories ->
  Key fp ∈ known_keys bl <-> fp_key fp ∈ known_pairs st pkg.
Proof.
  intros Hok Hbl Hc. unfold known_keys, known_pairs. rewrite Hbl, !list_elem_of_fmap. split.
  - intros (b & E & Hb). exists b. split; [|done].
    apply cat_key_inj in E as [E1 E2]; [by unfold fp_key; rewrite E1, E2|done|].
    apply list_elem_of_filter in Hb as [_ (k & Hk)%elem_of_values]. by apply (Hok k).
  - intros (b & [= E1 E2] & Hb). exists b. split; [|done]. unfold Key. by rewrite E1, E2.
Qed.

Lemma baseline_ok_merge st m' runID bs :
  baseline_ok st -> Forall (fun b => Bl_Category b ∈ AllCategories) bs ->
  m' = foldl (merge_one runID) (st_baseline st) bs ->
  forall k r, m' !! k = Some r -> bl_key r = k /\ Bl_Category r ∈ AllCategories.
Proof.
  intros Hok Hbs ->. unfold baseline_ok in Hok. revert Hok. generalize (st_baseline st).
  induction Hbs as [|b bs Hb Hbs IH]; intros m Hok; simpl; [done|].
  apply IH. intros k r. unfold merge_one. rewrite lookup_insert_Some. intros [[<- <-]|[_ Hr]]; [|auto].
  destruct (m !! bl_key (fill_baseline runID b)) as [old|] eqn:E; [|done].
  destruct (Hok _ _ E) as [E1 E2]. split; [|done]. done.
Qed.

(** ** A concrete history on the SQLite backend *)
Definition no_store_events (ts : Z) (name : string) : EventRow :=
  mkEventRow 0 "" ts "dns_query" (Some (JObj [("QName", JStr name)])).

Definition history : Sqlite.Sqlite.DB :=
  foldl (fun d m => SqliteSpec.SqliteSpec.exec m d) Sqlite.Sqlite.empty_db
    [SqliteSpec.SqliteSpec.MCreateRun 1 (new_run "r1" "axios" "1.0" RunStatePending 1);
     SqliteSpec.SqliteSpec.MCreateRun 2 (new_run "r2" "axios" "1.1" RunStatePending 1);
     SqliteSpec.SqliteSpec.MAppendEvents "r1" [no_store_events 10 "registry.npmjs.org"];
     SqliteSpec.SqliteSpec.MAppendEvents "r2" [no_store_events 20 "registry.npmjs.org";
                                               no_store_events 21 "evil.example"]].

Definition ids (tag : string) (i : nat) : string := Nat.iter i (String "0"%char) tag.
Definition noon (i : nat) : time := 0%Z.

Lemma ids_inj tag i j : ids tag i = ids tag j -> i = j.
Proof.
  assert (forall n, String.length (ids tag n) = n + String.length tag) as Hl.
  { intros n. unfold ids. induction n as [|n IH]; simpl; [done|]. by rewrite IH. }
  intros E. pose proof (f_equal String.length E) as El. rewrite !Hl in El. lia.
Qed.

Definition start : Differ Sqlite.Sqlite.DB := mkDiffer history (Some []).
Definition after_first : Differ Sqlite.Sqlite.DB := (AnalyzeRun id (ids "a") noon "r1" start).2.

Lemma history_good : good start.
Proof.
  split; [|exact I]. change (SqliteSpec.SqliteSpec.wf history). unfold history, foldl.
  repeat apply SqliteSpec.SqliteSpec.wf_exec. apply SqliteSpec.SqliteSpec.wf_empty.
Qed.

(** ** Properties *)
Section properties.
Context {S : Type} `{Backend S} `{!BackendLaws S}.
Implicit Types (d : Differ S).

(** C30: first run. When the package has no baseline yet, the analysis
    turns every fingerprint of the run into a baseline row carrying its
    count and the run as first and last seen, leaves every other baseline
    row and all deviations alone, flags the run as baseline and reports no
    deviation. *)
Theorem AnalyzeRun_first_run iter newID clock runID d run :
  (forall l, iter l ≡ₚ l) -> (forall i j, newID i = newID j -> i = j) -> good d ->
  st_runs (dview d) !! runID = Some run -> Run_PackageName run <> "" ->
  package_baseline (dview d) (Run_PackageName run) = [] ->
  exists d' fps, AnalyzeRun iter newID clock runID d = (Ok 0, d') /\ good d' /\
    run_fingerprints (dview d) runID (Run_PackageName run) fps /\
    (forall fp, fp ∈ fps ->
       st_baseline (dview d') !! (Run_PackageName run, Category_ fp, Value fp) =
         Some (mkBaselineRow (Run_PackageName run) (Category_ fp) (Value fp) runID runID (Count fp))) /\
    (forall p c v, (p <> Run_PackageName run \/ (c, v) ∉ fp_key <$> fps) ->
       st_baseline (dview d') !! (p, c, v) = st_baseline (dview d) !! (p, c, v)) /\
    st_runs (dview d') = <[runID := set_baseline_flag true run]> (st_runs (dview d)) /\
    st_devs (dview d') = st_devs (dview d) /\ metrics d' = metrics d.
Proof.
  intros Hit Hinj Hd Hrun Hp Hb.
  destruct (analyze_first iter newID clock runID run Hit Hp d Hd Hrun Hb)
    as (d' & fps & E & Hd' & Hm & Hf & Hv).
  exists d', fps. split_and!; try done; rewrite Hv; simpl; try done.
  - intros fp Hfp.
    apply (merge_fresh runID _ _ (seed_row runID (Run_PackageName run) fp)).
    + apply seed_keys. by eapply fingerprint_nodup.
    + apply Forall_forall. intros r (fp' & -> & _)%list_elem_of_fmap.
      apply package_baseline_nil; [|done]. intros k r. apply view_baseline_keyed, Hd.
    + apply Forall_forall. intros r (fp' & -> & Hfp')%list_elem_of_fmap. simpl.
      pose proof (fingerprint_count _ _ _ _ _ Hf Hfp'). split_and!; [lia|done|done].
    + apply list_elem_of_fmap. eauto.
  - intros p c v Hpcv. apply merge_lookup_ne. rewrite list_elem_of_fmap.
    intros (r & Ek & (fp & -> & Hfp)%list_elem_of_fmap). injection Ek as -> -> ->.
    destruct Hpcv as [Hne|Hn]; [done|]. apply Hn, list_elem_of_fmap. by exists fp.
Qed.

Lemma later_outcome iter newID clock runID d run :
  (forall l, iter l ≡ₚ l) -> (forall i j, newID i = newID j -> i = j) -> good d ->
  st_runs (dview d) !! runID = Some run -> Run_PackageName run <> "" ->
  package_baseline (dview d) (Run_PackageName run) <> [] -> baseline_ok (dview d) ->
  (forall i, st_devs (dview d) !! newID i = None) ->
  exists n d' fps, AnalyzeRun iter newID clock runID d = (Ok n, d') /\ good d' /\
    baseline_ok (dview d') /\
    run_fingerprints (dview d) runID (Run_PackageName run) fps /\
    let fresh := filter (fun fp => fp_key fp ∉ known_pairs (dview d) (Run_PackageName run)) fps in
    n = length fresh /\
    (fun dv => (Dev_Category dv, Dev_Value dv, Dev_EvidenceEventID dv, Dev_Severity dv)) <$>
      devs_of (dview d') runID ≡ₚ
    (fun fp => (Category_ fp, Value fp, FirstEvtID fp, defaultSeverity (Category_ fp))) <$> fresh /\
    filter (fun kv => Dev_RunID kv.2 <> runID) (st_devs (dview d')) =
      filter (fun kv => Dev_RunID kv.2 <> runID) (st_devs (dview d)) /\
    dom (st_baseline (dview d')) = dom (st_baseline (dview d)) /\
    st_runs (dview d') = (if decide (n = 0) then <[runID := set_baseline_flag true run]> (st_runs (dview d))
                          else st_runs (dview d)) /\
    st_events (dview d') = st_events (dview d) /\ st_allow (dview d') = st_allow (dview d) /\
    (forall k dv, st_devs (dview d') !! k = Some dv ->
       st_devs (dview d) !! k = Some dv \/ exists j, k = newID j).
Proof.
  intros Hit Hinj Hd Hrun Hp Hb Hok Hfresh.
  destruct (analyze_later iter newID clock runID run Hit Hinj Hp d Hd Hrun Hb Hfresh)
    as (d' & fps & bl & ds & bs & Hd' & Hf & Hbl & Hw & E & _ & Hv).
  set (pkg := Run_PackageName run) in *.
  assert (Hcat : forall fp, fp ∈ fps -> Category_ fp ∈ AllCategories)
    by (intros fp; by eapply fingerprint_category).
  assert (Hnovel : novel (known_keys bl) fps =
                   filter (fun fp => fp_key fp ∉ known_pairs (dview d) pkg) fps).
  { unfold novel. apply filter_ext_elem. intros fp Hfp. by rewrite (key_known (dview d) pkg bl) by auto. }
  pose proof (walk_eq runID pkg (known_keys bl) newID clock 0 fps) as Heq. rewrite Hw in Heq.
  injection Heq as Hds Hbs.
  destruct (rewrite_devs ds (st_devs (dview d)) runID) as [Hdev Hother].
  { pose proof (walk_ids runID pkg (known_keys bl) newID clock 0 fps Hinj) as Hn. by rewrite Hw in Hn. }
  { apply Forall_forall. rewrite Hds. intros x (i & fp & -> & _)%elem_of_lookup_imap. apply Hfresh. }
  { apply Forall_forall. rewrite Hds. by intros x (i & fp & -> & _)%elem_of_lookup_imap. }
  assert (Hdom : dom (foldl (merge_one runID) (st_baseline (dview d)) bs) = dom (st_baseline (dview d))).
  { rewrite merge_dom. apply subseteq_union_1_L. intros k Hk.
    apply elem_of_list_to_set, list_elem_of_fmap in Hk as (r & -> & Hr). rewrite Hbs in Hr.
    apply list_elem_of_fmap in Hr as (fp & -> & Hfp). unfold repeated in Hfp.
    apply list_elem_of_filter in Hfp as [Hk Hfp]. simpl.
    apply (known_pairs_dom _ pkg); [done|]. by apply (key_known (dview d) pkg bl fp Hok Hbl (Hcat _ Hfp)). }
  exists (length ds), d', fps. rewrite <- Hnovel.
  assert (Hlen : length ds = length (novel (known_keys bl) fps)) by (rewrite Hds; apply length_imap).
  cbv zeta. split_and!; try done.
  - intros k r. rewrite Hv. unfold reviewed, mark. intros Hk. 
    eapply (baseline_ok_merge (dview d) _ runID bs Hok); [|reflexivity|by case_bool_decide].
    rewrite Hbs. apply Forall_fmap, Forall_forall. intros fp Hfp.
    apply list_elem_of_filter in Hfp as [_ Hfp]. by apply Hcat.
  - replace (devs_of (dview d') runID) with
      (filter (fun x => Dev_RunID x = runID) (map_to_list (insert_devs ds
         (filter (fun kv => Dev_RunID kv.2 <> runID) (st_devs (dview d))))).*2)
      by (rewrite Hv; unfold devs_of, reviewed, mark; by case_bool_decide).
    rewrite Hdev, <- list_fmap_compose, Hds, fmap_imap. unfold compose. simpl.
    apply (eq_subrelation (R := Permutation)); [apply _|]. rewrite <- (imap_const _ (novel _ _)). by apply imap_ext.
  - rewrite Hv. unfold reviewed, mark. by case_bool_decide.
  - rewrite Hv. unfold reviewed, mark. by case_bool_decide.
  - rewrite Hv. unfold reviewed, mark. destruct ds; [|done]. by rewrite bool_decide_true, decide_True.
  - rewrite Hv. unfold reviewed, mark. by case_bool_decide.
  - rewrite Hv. unfold reviewed, mark. by case_bool_decide.
  - intros k dv. replace (st_devs (dview d')) with (insert_devs ds
      (filter (fun kv => Dev_RunID kv.2 <> runID) (st_devs (dview d))))
      by (rewrite Hv; unfold reviewed, mark; by case_bool_decide).
    rewrite insert_devs_lookup.
    + destruct (list_find _ ds) as [[i x]|] eqn:El.
      * intros _. right. apply list_find_Some in El as (El & <- & _). apply list_elem_of_lookup_2 in El.
        rewrite Hds in El. apply elem_of_lookup_imap in El as (j & fp & -> & _). by exists j.
      * intros Hk. apply map_lookup_filter_Some in Hk as [? _]. by left.
    + pose proof (walk_ids runID pkg (known_keys bl) newID clock 0 fps Hinj) as Hnd. by rewrite Hw in Hnd.
Qed.

Lemma fp_nodup (st : Store) runID run fps : run_fingerprints st runID (Run_PackageName run) fps -> NoDup (fp_key <$> fps).
Proof.
  intros Hf. apply (NoDup_fmap_1 (fun k => cat_key k.1 k.2)). rewrite <- list_fmap_compose.
  by eapply fingerprint_nodup.
Qed.

(** The same outcome in the terms a second analysis needs. *)
Lemma later_summary iter newID clock runID d run :
  (forall l, iter l ≡ₚ l) -> (forall i j, newID i = newID j -> i = j) -> good d ->
  st_runs (dview d) !! runID = Some run -> Run_PackageName run <> "" ->
  package_baseline (dview d) (Run_PackageName run) <> [] -> baseline_ok (dview d) ->
  (forall i, st_devs (dview d) !! newID i = None) ->
  exists n d' fps, AnalyzeRun iter newID clock runID d = (Ok n, d') /\ good d' /\
    baseline_ok (dview d') /\
    run_fingerprints (dview d) runID (Run_PackageName run) fps /\
    let fresh := filter (fun fp => fp_key fp ∉ known_pairs (dview d) (Run_PackageName run)) fps in
    n = length fresh /\ dev_key <$> devs_of (dview d') runID ≡ₚ fp_key <$> fresh /\
    (forall k dv, st_devs (dview d') !! k = Some dv ->
       st_devs (dview d) !! k = Some dv \/ exists j, k = newID j) /\
    dom (st_baseline (dview d')) = dom (st_baseline (dview d)) /\
    st_runs (dview d') = (if decide (n = 0) then <[runID := set_baseline_flag true run]> (st_runs (dview d))
                          else st_runs (dview d)) /\
    st_events (dview d') = st_events (dview d) /\ st_allow (dview d') = st_allow (dview d).
Proof.
  intros Hit Hinj Hd Hrun Hp Hb Hok Hfresh.
  destruct (later_outcome iter newID clock runID d run Hit Hinj Hd Hrun Hp Hb Hok Hfresh)
    as (n & d' & fps & E & Hd' & Hok' & Hf & Hn & Hk & Ho & Hdom & Hr & He & Ha & Hids).
  exists n, d', fps. cbv zeta in *. split_and!; try done.
  apply (fmap_Permutation (fun x => (x.1.1.1, x.1.1.2))) in Hk.
  rewrite <- !list_fmap_compose in Hk. exact Hk.
Qed.

(** C2: later runs. With a baseline in place and fresh ids, the analysis
    succeeds and reports exactly the fingerprints the baseline does not
    know: the run's deviations are replaced by one row per novel
    fingerprint, with its evidence event and default severity; deviations
    of other runs and the set of baseline keys stay as they were, and the
    run is flagged as baseline exactly when nothing was novel. *)
Theorem AnalyzeRun_later_run iter newID clock runID d run :
  (forall l, iter l ≡ₚ l) -> (forall i j, newID i = newID j -> i = j) -> good d ->
  st_runs (dview d) !! runID = Some run -> Run_PackageName run <> "" ->
  package_baseline (dview d) (Run_PackageName run) <> [] -> baseline_ok (dview d) ->
  (forall i, st_devs (dview d) !! newID i = None) ->
  exists n d' fps, AnalyzeRun iter newID clock runID d = (Ok n, d') /\ good d' /\
    baseline_ok (dview d') /\
    run_fingerprints (dview d) runID (Run_PackageName run) fps /\
    let fresh := filter (fun fp => fp_key fp ∉ known_pairs (dview d) (Run_PackageName run)) fps in
    n = length fresh /\
    (fun dv => (Dev_Category dv, Dev_Value dv, Dev_EvidenceEventID dv, Dev_Severity dv)) <$>
      devs_of (dview d') runID ≡ₚ
    (fun fp => (Category_ fp, Value fp, FirstEvtID fp, defaultSeverity (Category_ fp))) <$> fresh /\
    filter (fun kv => Dev_RunID kv.2 <> runID) (st_devs (dview d')) =
      filter (fun kv => Dev_RunID kv.2 <> runID) (st_devs (dview d)) /\
    dom (st_baseline (dview d')) = dom (st_baseline (dview d)) /\
    st_runs (dview d') = (if decide (n = 0) then <[runID := set_baseline_flag true run]> (st_runs (dview d))
                          else st_runs (dview d)) /\
    st_events (dview d') = st_events (dview d) /\ st_allow (dview d') = st_allow (dview d).
Proof.
  intros Hit Hinj Hd Hrun Hp Hb Hok Hfresh.
  destruct (later_outcome iter newID clock runID d run Hit Hinj Hd Hrun Hp Hb Hok Hfresh)
    as (n & d' & fps & E & Hd' & Hok' & Hf & Hn & Hk & Ho & Hdom & Hr & He & Ha & _).
  exists n, d', fps. done.
Qed.

(** Two stores with the same events and allow entries show the same new keys. *)
Lemma fresh_keys_incl (st st' : Store) runID pkg fps fps' (known known' : list (string * string)) k :
  (forall id e, st_events st !! id = Some e -> Ev_ID e = id) ->
  st_events st' = st_events st -> st_allow st' = st_allow st ->
  run_fingerprints st runID pkg fps -> run_fingerprints st' runID pkg fps' ->
  (forall x, x ∈ known' -> x ∈ known) ->
  k ∈ fp_key <$> filter (fun fp => fp_key fp ∉ known) fps -> k ∈ fp_key <$> filter (fun fp => fp_key fp ∉ known') fps'.
Proof.
  intros Hk He Ha Hf Hf' Hkn (fp & -> & [Hnk Hin]%list_elem_of_filter)%list_elem_of_fmap.
  assert (fp_key fp ∈ fp_key <$> fps') as (fp' & E & Hin')%list_elem_of_fmap.
  { eapply (run_fingerprints_det st st'); try done. apply list_elem_of_fmap. eauto. }
  apply list_elem_of_fmap. exists fp'. split; [done|]. apply list_elem_of_filter. rewrite <- E. auto.
Qed.

(** C8: analysing a run again. Between two analyses of the same run that
    had a baseline to compare with, with nothing else happening, the second
    reports the same number of deviations and leaves the run with the same
    (category, value) pairs: results are replaced, not stacked. *)
Theorem AnalyzeRun_idempotent iter iter' newID newID' clock clock' runID d run n d1 :
  (forall l, iter l ≡ₚ l) -> (forall l, iter' l ≡ₚ l) ->
  (forall i j, newID i = newID j -> i = j) -> (forall i j, newID' i = newID' j -> i = j) ->
  good d -> st_runs (dview d) !! runID = Some run -> Run_PackageName run <> "" ->
  package_baseline (dview d) (Run_PackageName run) <> [] -> baseline_ok (dview d) ->
  (forall i, st_devs (dview d) !! newID i = None) ->
  (forall i j, newID' i <> newID j) -> (forall i, st_devs (dview d) !! newID' i = None) ->
  AnalyzeRun iter newID clock runID d = (Ok n, d1) ->
  exists d2, AnalyzeRun iter' newID' clock' runID d1 = (Ok n, d2) /\
    dev_key <$> devs_of (dview d2) runID ≡ₚ dev_key <$> devs_of (dview d1) runID.
Proof.
  intros Hit Hit' Hinj Hinj' Hd Hrun Hp Hb Hok Hfr Hne Hfr' E.
  destruct (later_summary iter newID clock runID d run Hit Hinj Hd Hrun Hp Hb Hok Hfr)
    as (n1 & d1' & fps & E1 & Hd1 & Hok1 & Hf & Hn & Hk & Hids & Hdom & Hruns & Hev & Hal).
  rewrite E in E1. injection E1 as <- <-.
  assert (Hrun1 : exists run1, st_runs (dview d1) !! runID = Some run1 /\
                    Run_PackageName run1 = Run_PackageName run).
  { rewrite Hruns. case_decide; [rewrite lookup_insert_eq; by eexists|eauto]. }
  destruct Hrun1 as (run1 & Hrun1 & Hpkg). rewrite <- Hpkg in *.
  assert (Hknown : forall x, x ∈ known_pairs (dview d1) (Run_PackageName run1) <->
                             x ∈ known_pairs (dview d) (Run_PackageName run1)).
  { intros [c v]. rewrite !known_pairs_dom by done. by rewrite Hdom. }
  destruct (later_summary iter' newID' clock' runID d1 run1 Hit' Hinj' Hd1 Hrun1 Hp)
    as (n2 & d2 & fps2 & E2 & Hd2 & Hok2 & Hf2 & Hn2 & Hk2 & _); try done.
  { intros Hnil. unfold package_baseline in Hb.
    destruct (filter (fun b => Bl_PackageName b = Run_PackageName run1)
                (map_to_list (st_baseline (dview d))).*2) as [|b l] eqn:Eb; [done|].
    assert ((Bl_Category b, Bl_Value b) ∈ known_pairs (dview d1) (Run_PackageName run1)) as Hin.
    { apply Hknown. unfold known_pairs, package_baseline. rewrite Eb. by left. }
    unfold known_pairs in Hin. rewrite Hnil in Hin. by apply not_elem_of_nil in Hin. }
  { intros i. destruct (st_devs (dview d1) !! newID' i) as [dv|] eqn:Edv; [|done]. exfalso.
    destruct (Hids _ _ Edv) as [Ho|[j Ej]]; [by rewrite Hfr' in Ho|by apply (Hne i j)]. }
  assert (Hperm : fp_key <$> filter (fun fp => fp_key fp ∉ known_pairs (dview d1) (Run_PackageName run1)) fps2
    ≡ₚ fp_key <$> filter (fun fp => fp_key fp ∉ known_pairs (dview d) (Run_PackageName run1)) fps).
  { apply NoDup_Permutation; [by apply NoDup_fmap_filter, (fp_nodup (dview d1) runID run1)|
      by apply NoDup_fmap_filter, (fp_nodup (dview d) runID run1)|].
    intros k. split.
    - apply (fresh_keys_incl (dview d1) (dview d) runID (Run_PackageName run1)); try done;
        [intros id e; apply view_events_keyed, Hd1|by intros x ?%Hknown].
    - apply (fresh_keys_incl (dview d) (dview d1) runID (Run_PackageName run1)); try done;
        [intros id e; apply view_events_keyed, Hd|by intros x ?%Hknown]. }
  assert (n2 = n) as ->.
  { rewrite Hn2, Hn, <- !(length_fmap fp_key). by rewrite Hperm. }
  exists d2. split; [done|]. by rewrite Hk, Hk2, Hperm.
Qed.
End properties.

Lemma AnalyzeRun_first_run_witness :
  exists d' fps, AnalyzeRun id (ids "a") noon "r1" start = (Ok 0, d') /\ good d' /\
    run_fingerprints (dview start) "r1" "axios" fps /\
    st_devs (dview d') = st_devs (dview start).
Proof.
  destruct (AnalyzeRun_first_run id (ids "a") noon "r1" start
    (Sqlite.Sqlite.stored_run 1 (new_run "r1" "axios" "1.0" RunStatePending 1)))
    as (d' & fps & H1 & H2 & H3 & _ & _ & _ & H4 & _).
  - done.
  - apply ids_inj.
  - apply history_good.
  - vm_compute. reflexivity.
  - done.
  - vm_compute. reflexivity.
  - exists d', fps. done.
Defined.

(** The state after the first run, as a store. *)
Lemma after_first_good : good after_first.
Proof.
  split; [|exact I]. unfold after_first.
  destruct (analyze_first id (ids "a") noon "r1"
    (Sqlite.Sqlite.stored_run 1 (new_run "r1" "axios" "1.0" RunStatePending 1))
    ltac:(done) ltac:(done) start history_good) as (d' & fps & E & Hg & _).
  - vm_compute. reflexivity.
  - vm_compute. reflexivity.
  - rewrite E. apply Hg.
Qed.

Lemma after_first_baseline : baseline_ok (dview after_first).
Proof.
  intros k r Hk. split; [by eapply view_baseline_keyed, Hk; apply after_first_good|].
  change (tbl bl_key (Sqlite.Sqlite.baseline (store after_first)) !! k = Some r) in Hk.
  apply tbl_lookup in Hk as [Hr _]; [|apply after_first_good].
  assert (forallb (fun b => bool_decide (Bl_Category b ∈ AllCategories))
            (Sqlite.Sqlite.baseline (store after_first)) = true) as Hall by (vm_compute; reflexivity).
  rewrite forallb_forall in Hall. apply (bool_decide_eq_true _), Hall. by apply list_elem_of_In.
Qed.

Definition wit_run2 : Run := Sqlite.Sqlite.stored_run 2 (new_run "r2" "axios" "1.1" RunStatePending 1).

Lemma after_first_devs tag i : st_devs (dview after_first) !! ids tag i = None.
Proof.
  assert (st_devs (dview after_first) = ∅) as -> by (vm_compute; reflexivity). apply lookup_empty.
Qed.

Lemma ids_apart i j : ids "b" i <> ids "c" j.
Proof.
  assert (forall t n, list_of_string (ids t n) = replicate n "0"%char ++ list_of_string t) as Hl.
  { intros t n. induction n as [|n IH]; [done|]. apply (f_equal (cons "0"%char)), IH. }
  intros E. apply (f_equal (fun s => last (list_of_string s))) in E. rewrite !Hl in E.
  change (list_of_string "b") with ["b"%char] in E. change (list_of_string "c") with ["c"%char] in E.
  by rewrite !last_snoc in E.
Qed.

Lemma AnalyzeRun_later_run_witness :
  exists n d', AnalyzeRun id (ids "b") noon "r2" after_first = (Ok n, d') /\ good d' /\
    dom (st_baseline (dview d')) = dom (st_baseline (dview after_first)).
Proof.
  destruct (AnalyzeRun_later_run id (ids "b") noon "r2" after_first wit_run2)
    as (n & d' & fps & H1 & H2 & _ & _ & _ & _ & _ & H3 & _).
  - done.
  - apply ids_inj.
  - apply after_first_good.
  - vm_compute. reflexivity.
  - done.
  - vm_compute. discriminate.
  - apply after_first_baseline.
  - apply after_first_devs.
  - exists n, d'. done.
Defined.

Definition after_second : Differ Sqlite.Sqlite.DB := (AnalyzeRun id (ids "b") noon "r2" after_first).2.

Lemma AnalyzeRun_idempotent_witness :
  dev_key <$> devs_of (dview after_second) "r2" = [(CatNetDNS, "evil.example")] /\
  exists d2, AnalyzeRun reverse (ids "c") noon "r2" after_second = (Ok 1, d2) /\
    dev_key <$> devs_of (dview d2) "r2" ≡ₚ dev_key <$> devs_of (dview after_second) "r2".
Proof.
  split; [vm_compute; reflexivity|].
  apply (AnalyzeRun_idempotent id reverse (ids "b") (ids "c") noon noon "r2" after_first wit_run2).
  - done.
  - intros l. apply reverse_Permutation.
  - apply ids_inj.
  - apply ids_inj.
  - apply after_first_good.
  - vm_compute. reflexivity.
  - done.
  - vm_compute. discriminate.
  - apply after_first_baseline.
  - apply after_first_devs.
  - intros i j E. by apply (ids_apart j i).
  - apply after_first_devs.
  - vm_compute. reflexivity.
Defined.

(** occurrence counts do stack. On the SQLite backend, analysing a run
    with a known fingerprint once more adds one to that fingerprint's count,
    although the run was already counted. *)
Theorem reanalysis_stacks_counts :
  exists d2, AnalyzeRun id (ids "c") noon "r2" after_second = (Ok 1, d2) /\
    Bl_OccurrenceCount <$> Sqlite.Sqlite.baseline (store after_first) = [1%Z] /\
    Bl_OccurrenceCount <$> Sqlite.Sqlite.baseline (store after_second) = [2%Z] /\
    Bl_OccurrenceCount <$> Sqlite.Sqlite.baseline (store d2) = [3%Z].
Proof. eexists. split; [vm_compute; reflexivity|]. vm_compute. done. Qed.

(** A package whose first run was analysed before any event arrived. *)
Definition empty_first : Differ Sqlite.Sqlite.DB :=
  (AnalyzeRun id (ids "a") noon "r1" (mkDiffer
    (foldl (fun d m => SqliteSpec.SqliteSpec.exec m d) Sqlite.Sqlite.empty_db
      [SqliteSpec.SqliteSpec.MCreateRun 1 (new_run "r1" "axios" "1.0" RunStatePending 1);
       SqliteSpec.SqliteSpec.MCreateRun 2 (new_run "r2" "axios" "1.1" RunStatePending 1);
       SqliteSpec.SqliteSpec.MAppendEvents "r2" [no_store_events 21 "evil.example"]]) None)).2.

(** an empty first run does not count as one. It is flagged as baseline
    but leaves no baseline row, so the next run of the package is taken for
    the first again and its behaviour becomes baseline without review. *)
Theorem empty_first_run_reseeds :
  filter (fun r => Run_IsBaseline r = true) (Sqlite.Sqlite.runs (store empty_first)) <> [] /\
  exists d2, AnalyzeRun id (ids "b") noon "r2" empty_first = (Ok 0, d2) /\
    (fun b => (Bl_Category b, Bl_Value b)) <$> Sqlite.Sqlite.baseline (store d2) =
      [(CatNetDNS, "evil.example")] /\
    Sqlite.Sqlite.deviations (store d2) = [].
Proof. split; [vm_compute; discriminate|]. eexists. split; [vm_compute; reflexivity|]. vm_compute. done. Qed.

End Differ.
