(* ===== verification/Proto.v ===== *)
(** * proto: event layouts and protocol messages

    internal/shared/proto: events.go (the packed event structs the eBPF
    programs emit) and protocol.go (the orchestrator/runner messages).  An
    unsigned or signed integer field is a [Z], a fixed byte array a list of
    8-bit characters. *)
From Stdlib Require Import Ascii.
From stdpp Require Import prelude strings list countable.
From S2P Require Import Prelude GoTime Json.

(** ** Event types *)
Definition EventType : Type := Z.
Definition EventTypeFileAccess : EventType := 1%Z.
Definition EventTypeExec : EventType := 2%Z.
Definition EventTypeNetConnect : EventType := 3%Z.
Definition EventTypeDNSQuery : EventType := 4%Z.
Definition EventTypeTLSSNI : EventType := 5%Z.

Definition EventType_String (t : EventType) : string :=
  if (t =? EventTypeFileAccess)%Z then "file_access"
  else if (t =? EventTypeExec)%Z then "exec"
  else if (t =? EventTypeNetConnect)%Z then "net_connect"
  else if (t =? EventTypeDNSQuery)%Z then "dns_query"
  else if (t =? EventTypeTLSSNI)%Z then "tls_sni"
  else "unknown".

(** ** Array widths *)
Definition CommLen : nat := 16.
Definition RunIDLen : nat := 16.
Definition PathLen : nat := 256.
Definition ArgvNum : nat := 8.
Definition ArgvLen : nat := 64.
Definition AncestorsDepth : nat := 5.
Definition HeaderTypeOffset : nat := 68.
Definition DestAddrLen : nat := 16.
Definition DNSCaptureLen : nat := 200.
Definition SNIMaxLen : nat := 256.
Definition TLSRawCapture : nat := 512.

Definition AFInet : Z := 2.
Definition AFInet6 : Z := 10.
Definition NetSourceSyscall : Z := 1.
Definition NetSourceKprobe : Z := 2.
Definition TLSSourceLibSSL : Z := 1.
Definition TLSSourceNodeInternal : Z := 2.
Definition TLSSourceTCPClientHello : Z := 3.
Definition PathActionKeep : Z := 1.
Definition PathActionKeepCredTagged : Z := 2.

Definition TLSSourceName (s : Z) : string :=
  if (s =? TLSSourceLibSSL)%Z then "libssl"
  else if (s =? TLSSourceNodeInternal)%Z then "node_internal"
  else if (s =? TLSSourceTCPClientHello)%Z then "tcp_clienthello"
  else "unknown".

(** ** Packed events *)
Record EventHeader : Type := mkEventHeader {
  h_TsNs : Z; h_CgroupID : Z; h_RunID : list ascii;
  h_PID : Z; h_TID : Z; h_PPID : Z; h_UID : Z; h_GID : Z;
  h_Comm : list ascii; h_Type : Z; h_Tags : Z
}.

Record OpenatEvent : Type := mkOpenatEvent {
  oa_Header : EventHeader; oa_DFD : Z; oa_Flags : Z; oa_PathLen : Z; oa_Truncated : Z;
  oa_Path : list ascii
}.

Record Ancestor : Type := mkAncestor { an_PID : Z; an_PPID : Z; an_Comm : list ascii }.

Record ExecEvent : Type := mkExecEvent {
  ex_Header : EventHeader; ex_Argc : Z; ex_ArgvLens : list ascii; ex_Argv : list ascii;
  ex_BinaryPath : list ascii; ex_Ancestors : list Ancestor
}.

Record NetConnectEvent : Type := mkNetConnectEvent {
  nc_Header : EventHeader; nc_Family : Z; nc_Source : Z; nc_DestPort : Z; nc_Sockfd : Z;
  nc_DestAddr : list ascii
}.

Record DnsQueryEvent : Type := mkDnsQueryEvent {
  dq_Header : EventHeader; dq_Family : Z; dq_DestPort : Z; dq_QueryLen : Z;
  dq_DestAddr : list ascii; dq_Query : list ascii
}.

Record TLSSniEvent : Type := mkTLSSniEvent {
  ts_Header : EventHeader; ts_Source : Z; ts_SniLen : Z; ts_RawPayloadLen : Z;
  ts_SNI : list ascii; ts_RawPayload : list ascii
}.

Record CgmapValue : Type := mkCgmapValue { cv_RunID : list ascii; cv_Flags : Z }.
Record PathFilterKey : Type := mkPathFilterKey { PrefixLenBits : Z; pk_Path : list ascii }.
Definition PathFilterAction : Type := Z.

#[export] Instance PathFilterKey_eq_dec : EqDecision PathFilterKey.
Proof. solve_decision. Defined.
#[export] Instance PathFilterKey_countable : Countable PathFilterKey.
Proof.
  apply (inj_countable' (fun k => (PrefixLenBits k, pk_Path k)) (fun p => mkPathFilterKey p.1 p.2)).
  by intros [].
Defined.

(** ** Protocol messages *)
Record WatchedPath : Type := mkWatchedPath { Prefix : string; CredTagged : bool }.
#[export] Instance WatchedPath_eq_dec : EqDecision WatchedPath.
Proof. solve_decision. Defined.

Record SandboxSpec : Type := mkSandboxSpec {
  sb_Image : string; sb_Command : list string; sb_Env : list (string * string);
  sb_WorkingDir : string; sb_User : string; sb_NetworkMode : string;
  sb_MemoryBytes : Z; sb_NanoCPUs : Z; sb_PidsLimit : Z; sb_PullPolicy : string;
  sb_GracePeriod : duration; sb_CgroupParent : string
}.

Record Job : Type := mkJob {
  jb_RunID : list ascii; jb_Kind : string; jb_PackageName : string; jb_Version : string;
  jb_CgroupPath : string; jb_WatchedPaths : list WatchedPath; jb_Duration : duration;
  jb_DispatchedAt : time; jb_Sandbox : option SandboxSpec
}.

Record RunnerRegistration : Type := mkRunnerRegistration {
  rg_RunnerID : string; rg_Hostname : string; rg_Capabilities : list string;
  rg_KernelVersion : string; rg_ProtoVersion : Z
}.

Record RegistrationAck : Type := mkRegistrationAck {
  ra_OK : bool; ra_OrchestratorID : string; ra_JobPollInterval : duration;
  ra_HeartbeatInterval : duration
}.

Record Heartbeat : Type := mkHeartbeat {
  hb_RunnerID : string; hb_ActiveRunID : string; hb_Status : string; hb_EventsQueued : Z
}.

Record HeartbeatAck : Type := mkHeartbeatAck { ha_OK : bool; ha_UnknownRunner : bool }.

Record EventEnvelope : Type := mkEventEnvelope { ee_Type : EventType; ee_Payload : json }.

Record EventBatch : Type := mkEventBatch {
  eb_RunID : list ascii; eb_Seq : Z; eb_Events : list EventEnvelope
}.

Record PScanResult : Type := mkPScanResult {
  sr_RunID : list ascii; sr_Status : string; sr_Reason : string; sr_EventsEmitted : Z;
  sr_EventsDropped : Z; sr_Duration : duration
}.

Record HealthResponse : Type := mkHealthResponse {
  hr_Status : string; hr_OrchestratorID : string; hr_Version : string
}.

Definition CurrentProtoVersion : Z := 1.

(** [fmt.Sprintf("%x", runID)] *)
Definition nibble (n : N) : ascii :=
  ascii_of_N (if (n <? 10)%N then 48 + n else 87 + n).
Definition hex_byte (b : ascii) : list ascii :=
  [nibble (N_of_ascii b / 16); nibble (N_of_ascii b mod 16)].
Definition hex (l : list ascii) : string := string_of_list (l ≫= hex_byte).

Lemma hex_byte_inj b c : hex_byte b = hex_byte c -> b = c.
Proof.
  assert (H : forallb (fun b => forallb (fun c => implb (bool_decide (hex_byte b = hex_byte c))
      (Ascii.eqb b c)) (ascii_of_N ∘ N.of_nat <$> seq 0 256)) (ascii_of_N ∘ N.of_nat <$> seq 0 256) = true)
    by (vm_compute; reflexivity).
  assert (Hin : forall x, In x (ascii_of_N ∘ N.of_nat <$> seq 0 256)).
  { intros x. apply list_elem_of_In, list_elem_of_fmap. exists (nat_of_ascii x).
    split; [by destruct x as [[] [] [] [] [] [] [] []]|].
    apply list_elem_of_In, in_seq. destruct x as [[] [] [] [] [] [] [] []]; vm_compute; lia. }
  rewrite forallb_forall in H. specialize (H b (Hin b)). rewrite forallb_forall in H.
  specialize (H c (Hin c)). intros E. rewrite bool_decide_true in H by done.
  by apply Ascii.eqb_eq.
Qed.

(** Distinct run ids have distinct hex forms. *)
Lemma hex_inj l k : hex l = hex k -> l = k.
Proof.
  intros E. apply (f_equal list_of_string) in E. unfold hex in E.
  rewrite !list_of_string_of_list in E. revert k E.
  induction l as [|b l IH]; intros [|c k] E; try done.
  cbn [mbind list_bind] in E. unfold hex_byte in E. injection E as E1 E2 E3.
  f_equal; [|by apply IH]. apply hex_byte_inj. unfold hex_byte. congruence.
Qed.
