(* ===== verification/Parsing.v ===== *)
(** * sensor: userspace protocol parsers

    internal/runner/sensor/parsing.go: the first question of a DNS query and
    the server name of a TLS ClientHello.  A byte is an 8-bit character.  An
    index or slice expression outside its slice panics in Go, and [None] is
    that panic here (and, for the loops, running out of fuel): the parsers
    return an ordinary value or error on every input. *)
From Stdlib Require Import Ascii.
From stdpp Require Import prelude strings list.
From S2P Require Import Prelude.

Module Parsing.

Notation byte := ascii (only parsing).
Definition val (b : byte) : nat := nat_of_ascii b.

(** [buf[lo:hi]] *)
Definition slice (buf : list byte) (lo hi : nat) : option (list byte) :=
  if (lo <=? hi) && (hi <=? length buf) then Some (take (hi - lo) (drop lo buf)) else None.

(** [int(buf[i])<<8 | int(buf[i+1])] *)
Definition u16 (buf : list byte) (i : nat) : option nat :=
  hi ← buf !! i; lo ← buf !! (i + 1); Some (val hi * 256 + val lo).

Definition err {A} (msg : string) : option (res A) := Some (Err (Errorf msg)).

(** ** DNS *)
Fixpoint dns_labels (fuel : nat) (buf : list byte) (i : nat) (b : list byte) :
    option (res (nat * list byte)) :=
  match fuel with
  | O => None
  | S f =>
      if length buf <=? i then err "dns name overruns payload" else
      c ← buf !! i;
      let n := val c in
      let i := i + 1 in
      if n =? 0 then Some (Ok (i, b)) else
      if negb (Nat.land n 192 =? 0) then err "dns compression pointer in query" else
      if 63 <? n then err "dns label length > 63" else
      if length buf <? i + n then err "dns label overruns payload" else
      label ← slice buf i (i + n);
      dns_labels f buf (i + n) ((match b with [] => b | _ => b ++ ["."%char] end) ++ label)
  end.

(** Every round consumes at least one byte. *)
Definition parseDNSQuestion (buf : list byte) : option (res (string * nat)) :=
  if length buf <? 12 then err "dns header truncated" else
  qdcount ← u16 buf 4;
  if qdcount =? 0 then err "dns has no question (qdcount=0)" else
  r ← dns_labels (S (length buf)) buf 12 [];
  match r with
  | Err e => Some (Err e)
  | Ok (i, b) =>
      if length buf <? i + 4 then err "dns qtype/qclass overruns payload" else
      qtype ← u16 buf i;
      Some (Ok (string_of_list b, qtype))
  end.

(** ** TLS *)
Fixpoint extensions (fuel : nat) (buf : list byte) (i extEnd : nat) : option (res string) :=
  match fuel with
  | O => None
  | S f =>
      if i + 4 <=? extEnd then
        extType ← u16 buf i;
        extLen ← u16 buf (i + 2);
        let i := i + 4 in
        if length buf <? i + extLen then err "extension overruns payload" else
        if extType =? 0 then
          if extLen <? 5 then err "server_name extension too short" else
          nameType ← buf !! (i + 2);
          if negb (val nameType =? 0) then err "server_name nameType not host_name" else
          nameLen ← u16 buf (i + 3);
          let nameStart := i + 5 in
          if length buf <? nameStart + nameLen then err "server_name overruns payload" else
          name ← slice buf nameStart (nameStart + nameLen);
          Some (Ok (string_of_list name))
        else extensions f buf (i + extLen) extEnd
      else err "no server_name extension found"
  end.

(** Every round consumes at least four bytes. *)
Definition parseClientHelloSNI (buf : list byte) : option (res string) :=
  if length buf <? 43 then err "buffer too short for ClientHello" else
  b0 ← buf !! 0;
  if negb (val b0 =? 22) then err "not a TLS handshake record" else
  b5 ← buf !! 5;
  if negb (val b5 =? 1) then err "not a ClientHello" else
  let i := 43 in
  if length buf <=? i then err "truncated at SessionID" else
  sid ← buf !! i;
  let i := i + (1 + val sid) in
  if length buf <? i + 2 then err "truncated at CipherSuites length" else
  csLen ← u16 buf i;
  let i := i + (2 + csLen) in
  if length buf <=? i then err "truncated at CompressionMethods length" else
  cm ← buf !! i;
  let i := i + (1 + val cm) in
  if length buf <? i + 2 then err "truncated at Extensions length" else
  extTotal ← u16 buf i;
  let i := i + 2 in
  let extEnd := if length buf <? i + extTotal then length buf else i + extTotal in
  extensions (S (length buf)) buf i extEnd.

(** ** No input makes the parsers panic *)
Lemma val_bound c : val c < 256.
Proof. destruct c as [[] [] [] [] [] [] [] []]; vm_compute; lia. Qed.

Lemma lookup_ok (buf : list byte) i : i < length buf -> exists c, buf !! i = Some c.
Proof. apply lookup_lt_is_Some_2. Qed.

Lemma u16_ok buf i : i + 1 < length buf -> exists n, u16 buf i = Some n.
Proof.
  intros Hi. unfold u16. destruct (lookup_ok buf i) as [hi ->]; [lia|].
  destruct (lookup_ok buf (i + 1)) as [lo ->]; [lia|]. simpl. eauto.
Qed.

Lemma slice_ok buf lo hi : lo <= hi <= length buf -> exists s, slice buf lo hi = Some s.
Proof.
  intros Hb. unfold slice. destruct (Nat.leb_spec lo hi), (Nat.leb_spec hi (length buf)); try lia.
  simpl. eauto.
Qed.

Ltac cond_case c :=
  match c with
  | ?a <? ?b => destruct (Nat.ltb_spec a b)
  | ?a <=? ?b => destruct (Nat.leb_spec a b)
  | ?a =? ?b => destruct (Nat.eqb_spec a b)
  | negb ?b => destruct b eqn:?; cbn [negb]
  end.
(** Split on the outermost condition. *)
Ltac total_case :=
  match goal with
  | |- exists _, (if ?c then _ else _) = _ /\ _ => cond_case c
  | |- exists _, (if ?c then _ else _) = _ => cond_case c
  end.
Ltac total := repeat (total_case; [by eexists|]).
(** Perform the outermost read. *)
Ltac read_of m :=
  match m with
  | u16 ?b ?i => destruct (u16_ok b i) as [? ->]; [lia|]
  | slice ?b ?l ?h => destruct (slice_ok b l h) as [? ->]; [lia|]
  | @lookup _ _ _ _ ?i ?b => destruct (lookup_ok b i) as [? ->]; [lia|]
  end.
Ltac read :=
  match goal with
  | |- exists _, (?m ≫= _) = _ /\ _ => read_of m
  | |- exists _, (?m ≫= _) = _ => read_of m
  end; cbn [mbind option_bind].

Lemma dns_labels_total fuel buf i b :
  length buf - i < fuel -> exists r, dns_labels fuel buf i b = Some r /\
    match r with Ok (j, _) => j <= length buf | Err _ => True end.
Proof.
  revert i b. induction fuel as [|f IH]; intros i b Hf; [lia|]. cbn [dns_labels].
  total_case; [eexists; split; [reflexivity|exact I]|]. read.
  total_case; [eexists; split; [done|simpl; lia]|].
  total_case; [|eexists; split; [reflexivity|exact I]]. total_case; [eexists; split; [reflexivity|exact I]|]. total_case; [eexists; split; [reflexivity|exact I]|]. read.
  apply IH. lia.
Qed.

Lemma extensions_total fuel buf i extEnd :
  extEnd <= length buf -> extEnd - i < fuel -> exists r, extensions fuel buf i extEnd = Some r.
Proof.
  revert i. induction fuel as [|f IH]; intros i He Hf; [lia|]. cbn [extensions].
  total_case; [|by eexists]. read. read. total_case; [by eexists|].
  total_case.
  - total_case; [by eexists|]. read. total_case; [|by eexists]. read.
    total_case; [by eexists|]. read. by eexists.
  - apply IH; lia.
Qed.

(** ** Reading an encoded message back *)
Definition enc16 (n : nat) : list byte := [ascii_of_nat (n / 256); ascii_of_nat (n mod 256)].

Lemma val_ascii n : n < 256 -> val (ascii_of_nat n) = n.
Proof. apply nat_ascii_embedding. Qed.

(** Reading at the end of a known prefix. *)
Lemma lookup_at (p s : list byte) c i : i = length p -> (p ++ c :: s) !! i = Some c.
Proof. intros ->. by rewrite lookup_app_r, Nat.sub_diag by lia. Qed.

Lemma u16_at (p s : list byte) n i :
  i = length p -> (Z.of_nat n < 65536)%Z -> u16 (p ++ enc16 n ++ s) i = Some n.
Proof.
  intros -> Hn. unfold u16, enc16. cbn [app].
  rewrite (lookup_at p _ _ (length p)) by done. cbn [mbind option_bind].
  rewrite (cons_middle (ascii_of_nat (n / 256)) p), app_assoc.
  rewrite lookup_at by (rewrite length_app; simpl; lia). cbn [mbind option_bind].
  rewrite !val_ascii.
  - f_equal. pose proof (Nat.div_mod_eq n 256). lia.
  - apply Nat.mod_upper_bound. lia.
  - apply Nat.Div0.div_lt_upper_bound. change (256 * 256) with (Z.to_nat 65536). lia.
Qed.

Lemma slice_at (p l s : list byte) i :
  i = length p -> slice (p ++ l ++ s) i (i + length l) = Some l.
Proof.
  intros ->. unfold slice. rewrite !length_app.
  destruct (Nat.leb_spec (length p) (length p + length l)); [|lia].
  destruct (Nat.leb_spec (length p + length l) (length p + (length l + length s))); [|lia].
  simpl. rewrite drop_app_exact. replace (length p + length l - length p) with (length l) by lia.
  by rewrite take_app_exact.
Qed.

(** *** DNS *)
Definition label_ok (l : list byte) : Prop := 0 < length l < 64.
Definition enc_label (l : list byte) : list byte := ascii_of_nat (length l) :: l.
Definition enc_name (ls : list (list byte)) : list byte := concat (enc_label <$> ls) ++ ["000"%char].

(** Labels joined with dots. *)
Fixpoint dotted (b : list byte) (ls : list (list byte)) : list byte :=
  match ls with
  | [] => b
  | l :: ls' => dotted ((match b with [] => b | _ => b ++ ["."%char] end) ++ l) ls'
  end.

(** Bits 6 and 7 of a length byte are its pointer mark. *)
Lemma land_192 n : n < 64 -> Nat.land n 192 = 0.
Proof.
  intros Hn. assert (forallb (fun n => Nat.land n 192 =? 0) (seq 0 64) = true) as H by reflexivity.
  rewrite forallb_forall in H. apply Nat.eqb_eq, H, in_seq. lia.
Qed.

Lemma dns_labels_at fuel p ls s b :
  Forall label_ok ls -> length ls < fuel ->
  dns_labels fuel (p ++ enc_name ls ++ s) (length p) b =
    Some (Ok (length p + length (enc_name ls), dotted b ls)).
Proof.
  intros Hls. revert fuel p b. induction Hls as [|l ls [Hl1 Hl2] Hls IH]; intros [|f] p b Hf; simpl in Hf; try lia.
  - unfold enc_name. simpl. rewrite length_app. simpl.
    destruct (Nat.leb_spec (length p + S (length s)) (length p)); [lia|].
    rewrite lookup_at by done. simpl. do 3 f_equal; lia.
  - assert (E : p ++ enc_name (l :: ls) ++ s = p ++ ascii_of_nat (length l) :: (l ++ enc_name ls ++ s)).
    { unfold enc_name, enc_label. simpl. by rewrite <- !app_assoc. }
    assert (El : length (enc_name (l :: ls)) = S (length l + length (enc_name ls))).
    { unfold enc_name. rewrite fmap_cons. cbn [concat]. unfold enc_label at 1.
      rewrite !length_app. cbn [length]. lia. }
    cbn [dns_labels]. rewrite E, El.
    rewrite lookup_at by done. cbn [mbind option_bind].
    rewrite val_ascii, land_192 by lia. cbn [negb Nat.eqb].
    rewrite !length_app. cbn [length]. rewrite !length_app.
    destruct (Nat.leb_spec (length p + S (length l + (length (enc_name ls) + length s))) (length p)); [lia|].
    destruct (Nat.eqb_spec (length l) 0); [lia|]. destruct (Nat.ltb_spec 63 (length l)); [lia|].
    destruct (Nat.ltb_spec (length p + S (length l + (length (enc_name ls) + length s)))
                (length p + 1 + length l)); [lia|].
    rewrite cons_middle, app_assoc.
    rewrite slice_at by (rewrite length_app; simpl; lia). cbn [mbind option_bind].
    rewrite app_assoc.
    replace (length p + 1 + length l) with (length ((p ++ [ascii_of_nat (length l)]) ++ l))
      by (rewrite !length_app; simpl; lia).
    rewrite IH by lia. rewrite !length_app. cbn [length dotted]. do 3 f_equal. lia.
Qed.

(** A query: twelve header bytes with at least one question, the name, the
    type, the class, and whatever follows. *)
Definition dns_query (hdr : list byte) (ls : list (list byte)) (qtype qclass : nat) (rest : list byte) :
    list byte :=
  hdr ++ enc_name ls ++ enc16 qtype ++ enc16 qclass ++ rest.

Lemma u16_prefix p s i : i + 1 < length p -> u16 (p ++ s) i = u16 p i.
Proof. intros Hi. unfold u16. by rewrite !lookup_app_l by lia. Qed.

Lemma enc_name_length ls : Forall label_ok ls -> length ls < length (enc_name ls).
Proof.
  unfold enc_name. rewrite length_app. cbn [length].
  induction 1 as [|l ls [? ?] Hls IH]; [simpl; lia|]. rewrite fmap_cons. cbn [concat length].
  unfold enc_label at 1. rewrite length_app. cbn [length]. lia.
Qed.

(** *** TLS *)
Definition enc_ext (t : nat) (d : list byte) : list byte := enc16 t ++ enc16 (length d) ++ d.
Definition enc_exts (es : list (nat * list byte)) : list byte := concat ((fun e => enc_ext e.1 e.2) <$> es).
(** server_name_list length (not looked at), host_name, length, name. *)
Definition sni_data (listLen : nat) (host : list byte) : list byte :=
  enc16 listLen ++ ["000"%char] ++ enc16 (length host) ++ host.

Definition other_ext (e : nat * list byte) : Prop := 0 < e.1 /\ (Z.of_nat e.1 < 65536)%Z /\ (Z.of_nat (length e.2) < 65536)%Z.

Lemma length_enc16 n : length (enc16 n) = 2.
Proof. done. Qed.

Lemma length_enc_ext t d : length (enc_ext t d) = 4 + length d.
Proof. unfold enc_ext. rewrite !length_app, !length_enc16. lia. Qed.

Lemma extensions_sni fuel p listLen host s extEnd :
  (Z.of_nat (length host) + 5 < 65536)%Z -> 0 < fuel ->
  length p + length (enc_ext 0 (sni_data listLen host)) <= extEnd ->
  extensions fuel (p ++ enc_ext 0 (sni_data listLen host) ++ s) (length p) extEnd =
    Some (Ok (string_of_list host)).
Proof.
  intros Hh Hf He. destruct fuel as [|f]; [lia|]. rewrite length_enc_ext in He.
  assert (Hsd : length (sni_data listLen host) = 5 + length host)
    by (unfold sni_data; rewrite !length_app, !length_enc16; simpl; lia).
  set (buf := p ++ enc_ext 0 (sni_data listLen host) ++ s).
  pose (pre := p ++ enc16 0 ++ enc16 (5 + length host) ++ enc16 listLen).
  assert (Hpre : length pre = length p + 6) by (unfold pre; rewrite !length_app, !length_enc16; lia).
  assert (B1 : buf = p ++ enc16 0 ++ enc16 (5 + length host) ++ sni_data listLen host ++ s)
    by (unfold buf, enc_ext; by rewrite Hsd, <- !app_assoc).
  assert (B2 : buf = (p ++ enc16 0) ++ enc16 (5 + length host) ++ sni_data listLen host ++ s)
    by (by rewrite B1, <- !app_assoc).
  assert (B3 : buf = pre ++ "000"%char :: enc16 (length host) ++ host ++ s)
    by (rewrite B1; unfold pre, sni_data; by rewrite <- !app_assoc).
  assert (B4 : buf = (pre ++ ["000"%char]) ++ enc16 (length host) ++ host ++ s)
    by (by rewrite B3, <- !app_assoc).
  assert (B5 : buf = ((pre ++ ["000"%char]) ++ enc16 (length host)) ++ host ++ s)
    by (by rewrite B4, <- !app_assoc).
  assert (Hb : length buf = length p + 9 + length host + length s)
    by (rewrite B3, length_app; cbn [length]; rewrite !length_app, length_enc16; lia).
  cbn [extensions]. destruct (Nat.leb_spec (length p + 4) extEnd); [|lia].
  assert (u16 buf (length p) = Some 0) as -> by (rewrite B1; apply u16_at; lia).
  cbn [mbind option_bind].
  assert (u16 buf (length p + 2) = Some (5 + length host)) as ->
    by (rewrite B2; apply u16_at; rewrite ?length_app, ?length_enc16; lia).
  cbn [mbind option_bind]. rewrite Hb.
  destruct (Nat.ltb_spec (length p + 9 + length host + length s) (length p + 4 + (5 + length host))); [lia|].
  change (0 =? 0) with true. destruct (Nat.ltb_spec (5 + length host) 5); [lia|].
  assert (buf !! (length p + 4 + 2) = Some "000"%char) as -> by (rewrite B3; apply lookup_at; lia).
  cbn [mbind option_bind]. change (val "000"%char =? 0) with true. cbn [negb].
  assert (u16 buf (length p + 4 + 3) = Some (length host)) as ->
    by (rewrite B4; apply u16_at; rewrite ?length_app; cbn [length]; lia).
  cbn [mbind option_bind].
  destruct (Nat.ltb_spec (length p + 9 + length host + length s) (length p + 4 + 5 + length host)); [lia|].
  assert (slice buf (length p + 4 + 5) (length p + 4 + 5 + length host) = Some host) as ->
    by (rewrite B5; apply slice_at; rewrite !length_app, length_enc16; cbn [length]; lia).
  done.
Qed.

Lemma extensions_skip fuel p es listLen host s extEnd :
  Forall other_ext es -> (Z.of_nat (length host) + 5 < 65536)%Z -> length es < fuel ->
  length p + length (enc_exts es) + length (enc_ext 0 (sni_data listLen host)) <= extEnd ->
  extensions fuel (p ++ enc_exts es ++ enc_ext 0 (sni_data listLen host) ++ s) (length p) extEnd =
    Some (Ok (string_of_list host)).
Proof.
  intros Hes. revert fuel p. induction Hes as [|[t d] es (Ht0 & Ht & Hd) Hes IH]; intros fuel p Hh Hf He.
  - change (enc_exts []) with (@nil ascii) in *. cbn [app length] in *. apply extensions_sni; lia.
  - destruct fuel as [|f]; [simpl in Hf; lia|]. simpl in Ht0, Ht, Hd.
    assert (Hlen : length (enc_exts ((t, d) :: es)) = 4 + length d + length (enc_exts es)).
    { change (enc_exts ((t, d) :: es)) with (enc_ext t d ++ enc_exts es).
      by rewrite length_app, length_enc_ext. }
    assert (Ebuf : p ++ enc_exts ((t, d) :: es) ++ enc_ext 0 (sni_data listLen host) ++ s =
      p ++ enc16 t ++ enc16 (length d) ++ d ++ (enc_exts es ++ enc_ext 0 (sni_data listLen host) ++ s)).
    { change (enc_exts ((t, d) :: es)) with (enc_ext t d ++ enc_exts es).
      unfold enc_ext at 1. by rewrite <- !app_assoc. }
    set (buf := p ++ enc_exts ((t, d) :: es) ++ enc_ext 0 (sni_data listLen host) ++ s) in *.
    set (tail := enc_exts es ++ enc_ext 0 (sni_data listLen host) ++ s) in *.
    assert (B2 : buf = (p ++ enc16 t) ++ enc16 (length d) ++ d ++ tail)
      by (rewrite Ebuf; by rewrite <- !app_assoc).
    assert (B3 : buf = (((p ++ enc16 t) ++ enc16 (length d)) ++ d) ++ tail)
      by (rewrite B2; by rewrite <- !app_assoc).
    assert (Hb : length buf = length p + 4 + length d + length tail)
      by (rewrite Ebuf, !length_app, !length_enc16; lia).
    rewrite Hlen in He. cbn [extensions].
    destruct (Nat.leb_spec (length p + 4) extEnd); [|lia].
    assert (u16 buf (length p) = Some t) as -> by (rewrite Ebuf; apply u16_at; lia).
    cbn [mbind option_bind].
    assert (u16 buf (length p + 2) = Some (length d)) as ->
      by (rewrite B2; apply u16_at; rewrite ?length_app, ?length_enc16; lia).
    cbn [mbind option_bind].
    destruct (Nat.ltb_spec (length buf) (length p + 4 + length d)); [lia|].
    destruct (Nat.eqb_spec t 0); [lia|].
    replace (length p + 4 + length d) with (length (((p ++ enc16 t) ++ enc16 (length d)) ++ d))
      by (rewrite !length_app, !length_enc16; lia).
    rewrite B3. apply IH; [done|simpl in Hf; lia|]. rewrite !length_app, !length_enc16. lia.
Qed.

(** A ClientHello record: fixed fields, session id, cipher suites,
    compression methods, then extensions. *)
Definition client_hello (mid ver sid cs cm exts : list byte) : list byte :=
  "022"%char :: mid ++ "001"%char :: ver ++
  ascii_of_nat (length sid) :: sid ++ enc16 (length cs) ++ cs ++
  ascii_of_nat (length cm) :: cm ++ enc16 (length exts) ++ exts.

Lemma extensions_fuel es : Forall other_ext es -> length es <= length (enc_exts es).
Proof.
  induction 1 as [|e es _ _ IH]; [simpl; lia|].
  change (enc_exts (e :: es)) with (enc_ext e.1 e.2 ++ enc_exts es).
  rewrite length_app, length_enc_ext. simpl. lia.
Qed.

(** Everything before the extensions. *)
Lemma client_hello_head mid ver sid cs cm exts :
  length mid = 4 -> length ver = 37 -> length sid < 256 -> (Z.of_nat (length cs) < 65536)%Z ->
  length cm < 256 -> (Z.of_nat (length exts) < 65536)%Z ->
  exists p, client_hello mid ver sid cs cm exts = p ++ exts /\
    parseClientHelloSNI (client_hello mid ver sid cs cm exts) =
      extensions (S (length (p ++ exts))) (p ++ exts) (length p) (length p + length exts).
Proof.
  intros Hm Hv Hsid Hcs Hcm Hx.
  pose (p1 := "022"%char :: mid ++ "001"%char :: ver).
  pose (p2 := (p1 ++ [ascii_of_nat (length sid)]) ++ sid).
  pose (p3 := (p2 ++ enc16 (length cs)) ++ cs).
  pose (p4 := (p3 ++ [ascii_of_nat (length cm)]) ++ cm).
  assert (L1 : length p1 = 43) by (unfold p1; simpl; rewrite length_app; simpl; lia).
  assert (L2 : length p2 = 44 + length sid) by (unfold p2; rewrite !length_app, L1; simpl; lia).
  assert (L3 : length p3 = 46 + length sid + length cs)
    by (unfold p3; rewrite !length_app, L2, length_enc16; lia).
  assert (L4 : length p4 = 47 + length sid + length cs + length cm)
    by (unfold p4; rewrite !length_app, L3; simpl; lia).
  set (buf := client_hello mid ver sid cs cm exts).
  assert (B1 : buf = p1 ++ ascii_of_nat (length sid) :: sid ++ enc16 (length cs) ++ cs ++
     ascii_of_nat (length cm) :: cm ++ enc16 (length exts) ++ exts)
    by (unfold buf, client_hello, p1; simpl; by rewrite <- app_assoc).
  assert (B2 : buf = p2 ++ enc16 (length cs) ++ cs ++ ascii_of_nat (length cm) :: cm ++ enc16 (length exts) ++ exts)
    by (rewrite B1; unfold p2; by rewrite <- !app_assoc).
  assert (B3 : buf = p3 ++ ascii_of_nat (length cm) :: cm ++ enc16 (length exts) ++ exts)
    by (rewrite B2; unfold p3; by rewrite <- !app_assoc).
  assert (B4 : buf = p4 ++ enc16 (length exts) ++ exts)
    by (rewrite B3; unfold p4; by rewrite <- !app_assoc).
  assert (Hb : length buf = 49 + length sid + length cs + length cm + length exts)
    by (rewrite B4, !length_app, L4, length_enc16; lia).
  unfold parseClientHelloSNI.
  destruct (Nat.ltb_spec (length buf) 43); [lia|].
  assert (buf !! 0 = Some "022"%char) as -> by done. cbn [mbind option_bind].
  assert (buf !! 5 = Some "001"%char) as ->.
  { unfold buf, client_hello. change 5 with (S 4). simpl. rewrite <- Hm. by apply lookup_at. }
  cbn [mbind option_bind]. change (val "022"%char =? 22) with true.
  change (val "001"%char =? 1) with true. cbn [negb].
  destruct (Nat.leb_spec (length buf) 43); [lia|].
  assert (buf !! 43 = Some (ascii_of_nat (length sid))) as -> by (rewrite B1; by apply lookup_at).
  cbn [mbind option_bind]. rewrite val_ascii by done.
  destruct (Nat.ltb_spec (length buf) (43 + (1 + length sid) + 2)); [lia|].
  assert (u16 buf (43 + (1 + length sid)) = Some (length cs)) as -> by (rewrite B2; apply u16_at; lia).
  cbn [mbind option_bind].
  destruct (Nat.leb_spec (length buf) (43 + (1 + length sid) + (2 + length cs))); [lia|].
  assert (buf !! (43 + (1 + length sid) + (2 + length cs)) = Some (ascii_of_nat (length cm))) as ->
    by (rewrite B3; apply lookup_at; lia).
  cbn [mbind option_bind]. rewrite val_ascii by done.
  set (i4 := 43 + (1 + length sid) + (2 + length cs) + (1 + length cm)).
  destruct (Nat.ltb_spec (length buf) (i4 + 2)); [lia|].
  assert (u16 buf i4 = Some (length exts)) as -> by (rewrite B4; apply u16_at; lia).
  cbn [mbind option_bind]. destruct (Nat.ltb_spec (length buf) (i4 + 2 + length exts)); [lia|].
  exists (p4 ++ enc16 (length exts)). rewrite <- app_assoc, <- B4. split; [done|].
  replace (length (p4 ++ enc16 (length exts))) with (i4 + 2)
    by (rewrite length_app, length_enc16, L4; lia).
  done.
Qed.

Lemma dns_question_total buf : exists r, parseDNSQuestion buf = Some r.
Proof.
  unfold parseDNSQuestion. total. read. total.
  destruct (dns_labels_total (S (length buf)) buf 12 []) as (r & -> & Hr); [lia|].
  cbn [mbind option_bind]. destruct r as [[i b]|e]; [|by eexists].
  total_case; [by eexists|]. read. by eexists.
Qed.

Lemma client_hello_total buf : exists r, parseClientHelloSNI buf = Some r.
Proof.
  unfold parseClientHelloSNI. total. read. total_case; [|by eexists]. read.
  total_case; [|by eexists]. total_case; [by eexists|]. read.
  total_case; [by eexists|]. read. total_case; [by eexists|]. read.
  total_case; [by eexists|]. read.
  apply extensions_total; case_match eqn:Hlt; rewrite ?Nat.ltb_lt, ?Nat.ltb_ge in Hlt; lia.
Qed.

(** ** Properties *)

(** C29: the parsers are total. On every byte string the DNS parser returns a
    name and type or an error and the ClientHello parser a host name or an
    error: neither reads outside the buffer and their loops end. *)
Theorem parsers_total buf :
  (exists r, parseDNSQuestion buf = Some r) /\ (exists r, parseClientHelloSNI buf = Some r).
Proof. split; [apply dns_question_total|apply client_hello_total]. Qed.

(** DNS round trip. The question of an encoded query - a header announcing
    at least one question, labels of 1 to 63 bytes, type, class, anything
    after - is read back as the labels joined with dots and the type. *)
Theorem parseDNSQuestion_query hdr ls qtype qclass rest qd :
  length hdr = 12 -> u16 hdr 4 = Some qd -> qd <> 0 ->
  Forall label_ok ls -> (Z.of_nat qtype < 65536)%Z ->
  parseDNSQuestion (dns_query hdr ls qtype qclass rest) =
    Some (Ok (string_of_list (dotted [] ls), qtype)).
Proof.
  intros Hh Hqd Hq Hls Ht. unfold parseDNSQuestion, dns_query.
  pose proof (enc_name_length ls Hls) as Hn.
  assert (Hlen : length (hdr ++ enc_name ls ++ enc16 qtype ++ enc16 qclass ++ rest) =
                 12 + (length (enc_name ls) + (4 + length rest)))
    by (rewrite !length_app, !length_enc16; lia).
  rewrite Hlen. destruct (Nat.ltb_spec (12 + (length (enc_name ls) + (4 + length rest))) 12); [lia|].
  rewrite u16_prefix, Hqd by lia. cbn [mbind option_bind].
  destruct (Nat.eqb_spec qd 0); [done|].
  pose proof (dns_labels_at (S (12 + (length (enc_name ls) + (4 + length rest)))) hdr ls
                (enc16 qtype ++ enc16 qclass ++ rest) [] Hls ltac:(lia)) as Hl.
  rewrite Hh in Hl. rewrite Hl. cbn [mbind option_bind].
  destruct (Nat.ltb_spec (12 + (length (enc_name ls) + (4 + length rest)))
              (12 + length (enc_name ls) + 4)); [lia|].
  rewrite app_assoc, u16_at by (rewrite ?length_app; lia). done.
Qed.

Definition wit_header : list byte :=
  ["171"; "205"; "001"; "000"; "000"; "001"; "000"; "000"; "000"; "000"; "000"; "000"]%char.
Definition wit_labels : list (list byte) := [list_of_string "npmjs"; list_of_string "org"].

Lemma parseDNSQuestion_query_witness :
  parseDNSQuestion (dns_query wit_header wit_labels 28 1 []) = Some (Ok ("npmjs.org", 28)).
Proof.
  apply (parseDNSQuestion_query wit_header wit_labels 28 1 [] 1);
    [reflexivity|reflexivity|lia|repeat constructor; simpl; lia|lia].
Defined.

(** ClientHello round trip. The server name of an encoded ClientHello is
    read back whatever its session id, cipher suites, compression methods and
    other extensions before and after it are. *)
Theorem parseClientHelloSNI_hello mid ver sid cs cm es listLen host after :
  length mid = 4 -> length ver = 37 -> length sid < 256 -> (Z.of_nat (length cs) < 65536)%Z -> length cm < 256 ->
  Forall other_ext es -> (Z.of_nat (length host) + 5 < 65536)%Z ->
  (Z.of_nat (length (enc_exts es ++ enc_ext 0 (sni_data listLen host) ++ after)) < 65536)%Z ->
  parseClientHelloSNI (client_hello mid ver sid cs cm
      (enc_exts es ++ enc_ext 0 (sni_data listLen host) ++ after)) =
    Some (Ok (string_of_list host)).
Proof.
  intros Hm Hv Hsid Hcs Hcm Hes Hh Hx.
  destruct (client_hello_head mid ver sid cs cm _ Hm Hv Hsid Hcs Hcm Hx) as (p & _ & ->).
  pose proof (extensions_fuel es Hes). rewrite !length_app.
  apply extensions_skip; [done|done|lia|lia].
Qed.

Lemma parseClientHelloSNI_hello_witness :
  parseClientHelloSNI (client_hello (replicate 4 "000"%char) (replicate 37 "003"%char) []
    (replicate 2 "019"%char) ["000"%char]
    (enc_exts [(10, [])] ++ enc_ext 0 (sni_data 14 (list_of_string "npmjs.org")) ++ [])) =
  Some (Ok "npmjs.org").
Proof.
  apply (parseClientHelloSNI_hello (replicate 4 "000"%char) (replicate 37 "003"%char) []
    (replicate 2 "019"%char) ["000"%char] [(10, [])] 14 (list_of_string "npmjs.org") []);
    simpl; try lia. repeat constructor; simpl; lia.
Defined.

End Parsing.
