(* ===== verification/Wire.v ===== *)
(** * sensor: decoding ring-buffer records

    internal/runner/sensor/events.go and [decodeRecord] of sensor.go.
    [binary.Read] of a packed little-endian struct is a reader that consumes
    its fields in order and fails when the record is short; bytes after the
    struct are ignored. *)
From Stdlib Require Import Ascii.
From stdpp Require Import prelude strings list.
From S2P Require Import Prelude GoTime Json Proto NetIP Parsing.

Module Wire.
Import Parsing NetIP.

(** ** A byte reader *)
Definition R (A : Type) : Type := list ascii -> option (A * list ascii).
#[export] Instance R_ret : MRet R := fun A a s => Some (a, s).
#[export] Instance R_bind : MBind R := fun A B f m s =>
  match m s with Some (a, s') => f a s' | None => None end.

Definition rd_bytes (n : nat) : R (list ascii) := fun s =>
  if n <=? length s then Some (take n s, drop n s) else None.

Fixpoint le_val (l : list ascii) : Z :=
  match l with [] => 0 | c :: l' => ascii_Z c + 256 * le_val l' end%Z.
Fixpoint be_val (l : list ascii) : Z :=
  match l with [] => 0 | c :: l' => ascii_Z c * 256 ^ Z.of_nat (length l') + be_val l' end%Z.

Definition rd_u (w : nat) : R Z := l ← rd_bytes w; mret (le_val l).
Definition rd_i32 : R Z := n ← rd_u 4; mret (wrapS 32 n).
Definition skip (n : nat) : R unit := _ ← rd_bytes n; mret tt.

Fixpoint rd_list {A} (n : nat) (m : R A) : R (list A) :=
  match n with
  | O => mret []
  | S n' => a ← m; l ← rd_list n' m; mret (a :: l)
  end.

(** ** The structs *)
Definition rd_header : R EventHeader :=
  ts ← rd_u 8; cg ← rd_u 8; run ← rd_bytes RunIDLen;
  pid ← rd_u 4; tid ← rd_u 4; ppid ← rd_u 4; uid ← rd_u 4; gid ← rd_u 4;
  comm ← rd_bytes CommLen; ty ← rd_u 1; tags ← rd_u 1; _ ← skip 2;
  mret (mkEventHeader ts cg run pid tid ppid uid gid comm ty tags).

Definition rd_openat : R OpenatEvent :=
  h ← rd_header; dfd ← rd_i32; flags ← rd_i32; plen ← rd_u 2; tr ← rd_u 1; _ ← skip 1;
  path ← rd_bytes PathLen; mret (mkOpenatEvent h dfd flags plen tr path).

Definition rd_ancestor : R Ancestor :=
  pid ← rd_u 4; ppid ← rd_u 4; comm ← rd_bytes CommLen; mret (mkAncestor pid ppid comm).

Definition rd_exec : R ExecEvent :=
  h ← rd_header; argc ← rd_u 1; _ ← skip 3; lens ← rd_bytes ArgvNum;
  argv ← rd_bytes (ArgvNum * ArgvLen); bp ← rd_bytes PathLen;
  anc ← rd_list AncestorsDepth rd_ancestor; mret (mkExecEvent h argc lens argv bp anc).

Definition rd_net : R NetConnectEvent :=
  h ← rd_header; fam ← rd_u 1; src ← rd_u 1; port ← rd_u 2; fd ← rd_u 4;
  addr ← rd_bytes DestAddrLen; mret (mkNetConnectEvent h fam src port fd addr).

Definition rd_dns : R DnsQueryEvent :=
  h ← rd_header; fam ← rd_u 1; _ ← skip 1; port ← rd_u 2; qlen ← rd_u 2; _ ← skip 2;
  addr ← rd_bytes DestAddrLen; q ← rd_bytes DNSCaptureLen;
  mret (mkDnsQueryEvent h fam port qlen addr q).

Definition rd_tls : R TLSSniEvent :=
  h ← rd_header; src ← rd_u 1; _ ← skip 1; slen ← rd_u 2; rlen ← rd_u 2; _ ← skip 2;
  sni ← rd_bytes SNIMaxLen; raw ← rd_bytes TLSRawCapture;
  mret (mkTLSSniEvent h src slen rlen sni raw).

(** ** Strings and addresses *)
Fixpoint until_nul (l : list ascii) : list ascii :=
  match l with [] => [] | c :: l' => if val c =? 0 then [] else c :: until_nul l' end.
Definition cstring (b : list ascii) : string := string_of_list (until_nul b).

Definition formatDestIP (family : Z) (addr : list ascii) : string :=
  if (family =? AFInet)%Z then IP_String (of_v4 (be_val (take 4 addr)))
  else if (family =? AFInet6)%Z then IP_String (be_val addr)
  else "".

(** ** Decoded events *)
Record FileAccessEvent : Type := mkFileAccessEvent {
  fa_ev : OpenatEvent; fa_PathName : string; fa_CommStr : string
}.
Record ExecEventD : Type := mkExecEventD {
  xe_ev : ExecEvent; xe_BinaryPathStr : string; xe_ArgvStrs : list string;
  xe_CommStr : string; xe_AncestorComms : list string
}.
Record NetConnectEventD : Type := mkNetConnectEventD {
  ne_ev : NetConnectEvent; ne_DestIP : string; ne_CommStr : string
}.
Record DNSQueryEvent : Type := mkDNSQueryEvent {
  de_ev : DnsQueryEvent; de_QName : string; de_QType : Z; de_DestIP : string;
  de_CommStr : string; de_ParseErr : option error
}.
Record TLSSniEventD : Type := mkTLSSniEventD {
  te_ev : TLSSniEvent; te_SNI : string; te_DuplicateOf : string; te_SourceName : string;
  te_CommStr : string; te_ParseErr : option error
}.

Inductive Event : Type :=
  | EvFileAccess (e : FileAccessEvent)
  | EvExec (e : ExecEventD)
  | EvNetConnect (e : NetConnectEventD)
  | EvDNSQuery (e : DNSQueryEvent)
  | EvTLSSNI (e : TLSSniEventD).

Definition event_type (e : Event) : EventType :=
  match e with
  | EvFileAccess _ => EventTypeFileAccess
  | EvExec _ => EventTypeExec
  | EvNetConnect _ => EventTypeNetConnect
  | EvDNSQuery _ => EventTypeDNSQuery
  | EvTLSSNI _ => EventTypeTLSSNI
  end.

Definition event_header (e : Event) : EventHeader :=
  match e with
  | EvFileAccess e => oa_Header (fa_ev e)
  | EvExec e => ex_Header (xe_ev e)
  | EvNetConnect e => nc_Header (ne_ev e)
  | EvDNSQuery e => dq_Header (de_ev e)
  | EvTLSSNI e => ts_Header (te_ev e)
  end.

(** ** Decoders: [None] is a panic *)
Definition comm_of (h : EventHeader) : string := cstring (h_Comm h).
Definition short_read (what : string) : error := Wrapf what (Errorf "unexpected EOF").

Definition decodeOpenatEvent (raw : list ascii) : option (res FileAccessEvent) :=
  match rd_openat raw with
  | None => Some (Err (short_read "binary.Read OpenatEvent"))
  | Some (ev, _) =>
      let pathEnd := Nat.min (Z.to_nat (oa_PathLen ev)) (length (oa_Path ev)) in
      p ← slice (oa_Path ev) 0 pathEnd;
      Some (Ok (mkFileAccessEvent ev (cstring p) (comm_of (oa_Header ev))))
  end.

(** The argv slots: at most [Argc] and at most [ArgvNum] of them. *)
Fixpoint argv_strings (lens argv : list ascii) (n i : nat) : option (list string) :=
  match n with
  | O => Some []
  | S n' =>
      let off := i * ArgvLen in
      len ← lens !! i;
      let end_ := off + val len in
      let end_ := if length argv <? end_ then length argv else end_ in
      b ← slice argv off end_;
      l ← argv_strings lens argv n' (S i);
      Some (cstring b :: l)
  end.

Fixpoint ancestor_comms (l : list Ancestor) : list string :=
  match l with
  | [] => []
  | a :: l' => if (an_PID a =? 0)%Z then [] else cstring (an_Comm a) :: ancestor_comms l'
  end.

Definition decodeExecEvent (raw : list ascii) : option (res ExecEventD) :=
  match rd_exec raw with
  | None => Some (Err (short_read "binary.Read ExecEvent"))
  | Some (ev, _) =>
      argv ← argv_strings (ex_ArgvLens ev) (ex_Argv ev) (Nat.min (Z.to_nat (ex_Argc ev)) ArgvNum) 0;
      Some (Ok (mkExecEventD ev (cstring (ex_BinaryPath ev)) argv (comm_of (ex_Header ev))
                  (ancestor_comms (ex_Ancestors ev))))
  end.

Definition decodeNetConnectEvent (raw : list ascii) : option (res NetConnectEventD) :=
  match rd_net raw with
  | None => Some (Err (short_read "binary.Read NetConnectEvent"))
  | Some (ev, _) => Some (Ok (mkNetConnectEventD ev
      (formatDestIP (nc_Family ev) (nc_DestAddr ev)) (comm_of (nc_Header ev))))
  end.

Definition decodeDNSQueryEvent (raw : list ascii) : option (res DNSQueryEvent) :=
  match rd_dns raw with
  | None => Some (Err (short_read "binary.Read DnsQueryEvent"))
  | Some (ev, _) =>
      let ip := formatDestIP (dq_Family ev) (dq_DestAddr ev) in
      let qend := Nat.min (Z.to_nat (dq_QueryLen ev)) (length (dq_Query ev)) in
      q ← slice (dq_Query ev) 0 qend;
      r ← parseDNSQuestion q;
      Some (Ok (match r with
        | Err e => mkDNSQueryEvent ev "" 0 ip (comm_of (dq_Header ev)) (Some e)
        | Ok (qname, qtype) =>
            mkDNSQueryEvent ev qname (Z.of_nat qtype) ip (comm_of (dq_Header ev)) None
        end))
  end.

Definition decodeTLSSniEvent (raw : list ascii) : option (res TLSSniEventD) :=
  match rd_tls raw with
  | None => Some (Err (short_read "binary.Read TLSSniEvent"))
  | Some (ev, _) =>
      let out sni e := Some (Ok (mkTLSSniEventD ev sni "" (TLSSourceName (ts_Source ev))
                                   (comm_of (ts_Header ev)) e)) in
      if (ts_Source ev =? TLSSourceLibSSL)%Z || (ts_Source ev =? TLSSourceNodeInternal)%Z then
        s ← slice (ts_SNI ev) 0 (Nat.min (Z.to_nat (ts_SniLen ev)) (length (ts_SNI ev)));
        out (cstring s) None
      else if (ts_Source ev =? TLSSourceTCPClientHello)%Z then
        p ← slice (ts_RawPayload ev) 0
              (Nat.min (Z.to_nat (ts_RawPayloadLen ev)) (length (ts_RawPayload ev)));
        r ← parseClientHelloSNI p;
        match r with Err e => out "" (Some e) | Ok sni => out sni None end
      else out "" None
  end.

Definition lift_event {A} (f : A -> Event) (r : option (res A)) : option (res Event) :=
  match r with
  | None => None
  | Some (Err e) => Some (Err e)
  | Some (Ok a) => Some (Ok (f a))
  end.

Definition decodeRecord (raw : list ascii) : option (res Event) :=
  b ← raw !! HeaderTypeOffset;
  let ty := ascii_Z b in
  if (ty =? EventTypeFileAccess)%Z then lift_event EvFileAccess (decodeOpenatEvent raw)
  else if (ty =? EventTypeExec)%Z then lift_event EvExec (decodeExecEvent raw)
  else if (ty =? EventTypeNetConnect)%Z then lift_event EvNetConnect (decodeNetConnectEvent raw)
  else if (ty =? EventTypeDNSQuery)%Z then lift_event EvDNSQuery (decodeDNSQueryEvent raw)
  else if (ty =? EventTypeTLSSNI)%Z then lift_event EvTLSSNI (decodeTLSSniEvent raw)
  else Some (Err (Errorf "unknown event type")).

(** ** Writing, for the round trips *)
Fixpoint enc_u (w : nat) (z : Z) : list ascii :=
  match w with
  | O => []
  | S w' => ascii_of_N (Z.to_N (z mod 256)) :: enc_u w' (z / 256)%Z
  end.

Definition enc_header (h : EventHeader) : list ascii :=
  enc_u 8 (h_TsNs h) ++ enc_u 8 (h_CgroupID h) ++ h_RunID h ++ enc_u 4 (h_PID h) ++
  enc_u 4 (h_TID h) ++ enc_u 4 (h_PPID h) ++ enc_u 4 (h_UID h) ++ enc_u 4 (h_GID h) ++
  h_Comm h ++ enc_u 1 (h_Type h) ++ enc_u 1 (h_Tags h) ++ enc_u 2 0.

Definition enc_openat (e : OpenatEvent) : list ascii :=
  enc_header (oa_Header e) ++ enc_u 4 (oa_DFD e) ++ enc_u 4 (oa_Flags e) ++
  enc_u 2 (oa_PathLen e) ++ enc_u 1 (oa_Truncated e) ++ enc_u 1 0 ++ oa_Path e.

Definition enc_net (e : NetConnectEvent) : list ascii :=
  enc_header (nc_Header e) ++ enc_u 1 (nc_Family e) ++ enc_u 1 (nc_Source e) ++
  enc_u 2 (nc_DestPort e) ++ enc_u 4 (nc_Sockfd e) ++ nc_DestAddr e.

(** ** Lemmas *)
Definition fits (w : nat) (z : Z) : Prop := (0 <= z < 256 ^ Z.of_nat w)%Z.

Record header_ok (h : EventHeader) : Prop := {
  ho_ts : fits 8 (h_TsNs h); ho_cg : fits 8 (h_CgroupID h); ho_run : length (h_RunID h) = RunIDLen;
  ho_pid : fits 4 (h_PID h); ho_tid : fits 4 (h_TID h); ho_ppid : fits 4 (h_PPID h);
  ho_uid : fits 4 (h_UID h); ho_gid : fits 4 (h_GID h); ho_comm : length (h_Comm h) = CommLen;
  ho_type : fits 1 (h_Type h); ho_tags : fits 1 (h_Tags h)
}.

Lemma ascii_Z_of z : (0 <= z < 256)%Z -> ascii_Z (ascii_of_N (Z.to_N z)) = z.
Proof. intros Hz. unfold ascii_Z. rewrite N_ascii_embedding by lia. lia. Qed.

Lemma ascii_Z_range c : (0 <= ascii_Z c < 256)%Z.
Proof. destruct c as [[] [] [] [] [] [] [] []]; vm_compute; split; congruence. Qed.

Lemma length_enc_u w z : length (enc_u w z) = w.
Proof. revert z. induction w as [|w IH]; intros z; simpl; [done|]. by rewrite IH. Qed.

Lemma le_val_enc w z : fits w z -> le_val (enc_u w z) = z.
Proof.
  unfold fits. revert z. induction w as [|w IH]; intros z Hz.
  - simpl in *. lia.
  - cbn [enc_u le_val]. rewrite ascii_Z_of by (apply Z.mod_pos_bound; lia).
    rewrite IH; [pose proof (Z.div_mod z 256 ltac:(lia)); lia|].
    rewrite Nat2Z.inj_succ, Z.pow_succ_r in Hz by lia.
    split; [apply Z.div_pos; lia|apply Z.div_lt_upper_bound; lia].
Qed.

Lemma rd_bytes_app l s n : length l = n -> rd_bytes n (l ++ s) = Some (l, s).
Proof.
  intros <-. unfold rd_bytes. rewrite length_app.
  destruct (Nat.leb_spec (length l) (length l + length s)); [|lia].
  by rewrite take_app_exact, drop_app_exact.
Qed.

Lemma R_bind_ok {A B} (m : R A) (f : A -> R B) s a s' : m s = Some (a, s') -> (m ≫= f) s = f a s'.
Proof. intros E. unfold mbind, R_bind. by rewrite E. Qed.

Lemma rd_u_app w z s : fits w z -> rd_u w (enc_u w z ++ s) = Some (z, s).
Proof.
  intros Hz. unfold rd_u. rewrite (R_bind_ok _ _ _ _ _ (rd_bytes_app (enc_u w z) s w (length_enc_u w z))).
  unfold mret, R_ret. by rewrite le_val_enc.
Qed.

Lemma rd_i32_app z s : (- 2 ^ 31 <= z < 2 ^ 31)%Z -> rd_i32 (enc_u 4 (z mod 2 ^ 32) ++ s) = Some (z, s).
Proof.
  intros Hz. unfold rd_i32.
  rewrite (R_bind_ok _ _ _ _ _ (rd_u_app 4 (z mod 2 ^ 32) s ltac:(apply Z.mod_pos_bound; lia))).
  unfold mret, R_ret, wrapS. do 2 f_equal.
  rewrite Zplus_mod_idemp_l. rewrite Z.mod_small by lia. lia.
Qed.

Lemma skip_app n l s : length l = n -> skip n (l ++ s) = Some (tt, s).
Proof. intros E. unfold skip. by rewrite (R_bind_ok _ _ _ _ _ (rd_bytes_app l s n E)). Qed.

(** One field of a struct. *)
Ltac field := rewrite <- ?app_assoc; first
  [ erewrite R_bind_ok; [|apply rd_u_app; assumption]
  | erewrite R_bind_ok; [|apply rd_i32_app; assumption]
  | erewrite R_bind_ok; [|apply rd_bytes_app; assumption]
  | erewrite R_bind_ok; [|apply skip_app, length_enc_u] ].

Lemma rd_header_app h s : header_ok h -> rd_header (enc_header h ++ s) = Some (h, s).
Proof.
  intros []. unfold rd_header, enc_header. repeat field. by destruct h.
Qed.

Lemma rd_net_app e s :
  header_ok (nc_Header e) -> fits 1 (nc_Family e) -> fits 1 (nc_Source e) -> fits 2 (nc_DestPort e) ->
  fits 4 (nc_Sockfd e) -> length (nc_DestAddr e) = DestAddrLen ->
  rd_net (enc_net e ++ s) = Some (e, s).
Proof.
  intros. unfold rd_net, enc_net. rewrite <- app_assoc.
  rewrite (R_bind_ok _ _ _ _ _ (rd_header_app _ _ H)). repeat field. by destruct e.
Qed.

(** Signed fields travel as their two's complement. *)
Lemma rd_openat_app h dfd flags plen tr path s :
  header_ok h -> (- 2 ^ 31 <= dfd < 2 ^ 31)%Z -> (- 2 ^ 31 <= flags < 2 ^ 31)%Z ->
  fits 2 plen -> fits 1 tr -> length path = PathLen ->
  rd_openat (enc_openat (mkOpenatEvent h (dfd mod 2 ^ 32) (flags mod 2 ^ 32) plen tr path) ++ s) =
    Some (mkOpenatEvent h dfd flags plen tr path, s).
Proof.
  intros Hh Hd Hf Hp Ht Hl. unfold rd_openat, enc_openat.
  cbn [oa_Header oa_DFD oa_Flags oa_PathLen oa_Truncated oa_Path]. rewrite <- app_assoc.
  rewrite (R_bind_ok _ _ _ _ _ (rd_header_app _ _ Hh)). repeat field. done.
Qed.

(** The discriminator sits at its documented offset. *)
Lemma header_split h : header_ok h ->
  exists p q, enc_header h = p ++ enc_u 1 (h_Type h) ++ q /\ length p = HeaderTypeOffset.
Proof.
  intros []. unfold enc_header.
  exists (enc_u 8 (h_TsNs h) ++ enc_u 8 (h_CgroupID h) ++ h_RunID h ++ enc_u 4 (h_PID h) ++
    enc_u 4 (h_TID h) ++ enc_u 4 (h_PPID h) ++ enc_u 4 (h_UID h) ++ enc_u 4 (h_GID h) ++ h_Comm h),
    (enc_u 1 (h_Tags h) ++ enc_u 2 0).
  split; [by rewrite <- !app_assoc|]. rewrite !length_app, !length_enc_u, ho_run0, ho_comm0. done.
Qed.

Lemma header_type_at h s : header_ok h ->
  exists b, (enc_header h ++ s) !! HeaderTypeOffset = Some b /\ ascii_Z b = h_Type h.
Proof.
  intros Hh. destruct (header_split h Hh) as (p & q & -> & Hp).
  pose proof (ho_type h Hh) as [Ht1 Ht2]. change (256 ^ Z.of_nat 1)%Z with 256%Z in Ht2.
  exists (ascii_of_N (Z.to_N (h_Type h mod 256))). split.
  - rewrite <- !app_assoc. by apply lookup_at.
  - rewrite Z.mod_small by lia. by apply ascii_Z_of.
Qed.

Lemma until_nul_app l k : Forall (fun c => val c <> 0) l -> until_nul (l ++ "000"%char :: k) = l.
Proof.
  induction 1 as [|c l Hc _ IH]; [done|]. cbn [app until_nul].
  destruct (Nat.eqb_spec (val c) 0); [done|]. by rewrite IH.
Qed.

Lemma until_nul_all l : Forall (fun c => val c <> 0) l -> until_nul l = l.
Proof.
  induction 1 as [|c l Hc _ IH]; [done|]. cbn [until_nul].
  destruct (Nat.eqb_spec (val c) 0); [done|]. by rewrite IH.
Qed.

(** *** Reading keeps the discriminator *)
Lemma R_bind_Some {A B} (m : R A) (f : A -> R B) s b s' :
  (m ≫= f) s = Some (b, s') -> exists a s1, m s = Some (a, s1) /\ f a s1 = Some (b, s').
Proof.
  unfold mbind, R_bind. destruct (m s) as [[a s1]|] eqn:E; [|done]. eauto.
Qed.

Lemma rd_bytes_Some n s l s' : rd_bytes n s = Some (l, s') -> s = l ++ s' /\ length l = n.
Proof.
  unfold rd_bytes. destruct (Nat.leb_spec n (length s)); [|done]. intros [= <- <-].
  by rewrite take_drop, length_take_le.
Qed.

Lemma rd_u_Some w s z s' : rd_u w s = Some (z, s') -> exists l, s = l ++ s' /\ length l = w /\ z = le_val l.
Proof.
  unfold rd_u. intros (l & s1 & Hl & [= <- <-])%R_bind_Some. apply rd_bytes_Some in Hl as [-> ?]. eauto.
Qed.

Lemma rd_header_type s h s' : rd_header s = Some (h, s') ->
  exists b, s !! HeaderTypeOffset = Some b /\ ascii_Z b = h_Type h.
Proof.
  unfold rd_header. intros Hr.
  repeat (apply R_bind_Some in Hr as (? & ? & ? & Hr)).
  injection Hr as <- <-.
  repeat match goal with
  | H : rd_u _ _ = Some _ |- _ => apply rd_u_Some in H as (? & -> & ? & ->)
  | H : rd_bytes _ _ = Some _ |- _ => apply rd_bytes_Some in H as [-> ?]
  | H : skip _ _ = Some _ |- _ => clear H
  end.
  cbn [h_Type].
  match goal with H : length ?l = 1 |- context [le_val ?l] =>
    destruct l as [|b [|? ?]]; try discriminate H end.
  exists b. split; [|cbn [le_val]; lia].
  unfold RunIDLen, CommLen, HeaderTypeOffset in *. rewrite !app_assoc.
  do 2 rewrite lookup_app_l by (rewrite !length_app; simpl; lia).
  apply lookup_at. rewrite !length_app. lia.
Qed.

Lemma be_val4 l : (0 <= be_val (take 4 l) < 2 ^ 32)%Z.
Proof.
  destruct l as [|a [|b [|c [|d l]]]]; cbn [take be_val length]; try lia;
    repeat match goal with x : ascii |- _ => pose proof (ascii_Z_range x); generalize dependent (ascii_Z x); clear x; intros end;
    simpl; lia.
Qed.

(** *** No record makes the decoders panic *)
Lemma rd_list_length {A} n (m : R A) s l s' : rd_list n m s = Some (l, s') -> length l = n.
Proof.
  revert s l s'. induction n as [|n IH]; intros s l s'; simpl.
  - by intros [= <- <-].
  - intros (a & s1 & _ & (l1 & s2 & Hl & [= <- <-])%R_bind_Some)%R_bind_Some. simpl.
    f_equal. by eapply IH.
Qed.

Lemma argv_strings_total lens argv n i :
  length lens = ArgvNum -> length argv = ArgvNum * ArgvLen -> i + n <= ArgvNum ->
  exists l, argv_strings lens argv n i = Some l.
Proof.
  intros Hl Ha. revert i. induction n as [|n IH]; intros i Hi; [by eexists|]. cbn [argv_strings].
  destruct (lookup_ok lens i) as [c ->]; [lia|]. cbn [mbind option_bind].
  unfold ArgvNum, ArgvLen in *.
  destruct (slice_ok argv (i * 64) (if length argv <? i * 64 + val c then length argv else i * 64 + val c))
    as [b ->].
  { destruct (Nat.ltb_spec (length argv) (i * 64 + val c)); lia. }
  cbn [mbind option_bind]. destruct (IH (S i)) as [l ->]; [lia|]. by eexists.
Qed.

Lemma slice_min (l : list ascii) n : exists s, slice l 0 (Nat.min n (length l)) = Some s.
Proof. apply slice_ok. lia. Qed.

Lemma rd_exec_lengths s ev s' : rd_exec s = Some (ev, s') ->
  length (ex_ArgvLens ev) = ArgvNum /\ length (ex_Argv ev) = ArgvNum * ArgvLen.
Proof.
  unfold rd_exec. intros Hr. repeat (apply R_bind_Some in Hr as (? & ? & ? & Hr)).
  injection Hr as <- <-. cbn [ex_ArgvLens ex_Argv].
  repeat match goal with H : rd_bytes _ _ = Some _ |- _ => apply rd_bytes_Some in H as [-> ?] end.
  done.
Qed.

Ltac decoded :=
  match goal with
  | H : lift_event _ ?d = _ |- _ => destruct d as [[?|?]|]; simplify_eq/=
  end.

Lemma exec_total raw : exists r, decodeExecEvent raw = Some r.
Proof.
  unfold decodeExecEvent. destruct (rd_exec raw) as [[ev s]|] eqn:E; [|by eexists].
  apply rd_exec_lengths in E as [Hl Ha].
  destruct (argv_strings_total (ex_ArgvLens ev) (ex_Argv ev)
              (Nat.min (Z.to_nat (ex_Argc ev)) ArgvNum) 0 Hl Ha) as [l ->]; [lia|]. by eexists.
Qed.

Lemma dns_total raw : exists r, decodeDNSQueryEvent raw = Some r.
Proof.
  unfold decodeDNSQueryEvent. destruct (rd_dns raw) as [[ev s]|]; [|by eexists].
  destruct (slice_min (dq_Query ev) (Z.to_nat (dq_QueryLen ev))) as [q ->]. cbn [mbind option_bind].
  destruct (dns_question_total q) as [r ->]. by eexists.
Qed.

Lemma tls_total raw : exists r, decodeTLSSniEvent raw = Some r.
Proof.
  unfold decodeTLSSniEvent. destruct (rd_tls raw) as [[ev s]|]; [|by eexists].
  destruct (slice_min (ts_SNI ev) (Z.to_nat (ts_SniLen ev))) as [q ->].
  destruct (slice_min (ts_RawPayload ev) (Z.to_nat (ts_RawPayloadLen ev))) as [p ->].
  cbn [mbind option_bind]. destruct (client_hello_total p) as [r ->]. cbn [mbind option_bind].
  destruct ((ts_Source ev =? TLSSourceLibSSL)%Z || (ts_Source ev =? TLSSourceNodeInternal)%Z); [by eexists|].
  destruct (ts_Source ev =? TLSSourceTCPClientHello)%Z; [|by eexists].
  destruct r; by eexists.
Qed.

Lemma openat_total raw : exists r, decodeOpenatEvent raw = Some r.
Proof.
  unfold decodeOpenatEvent. destruct (rd_openat raw) as [[ev s]|]; [|by eexists].
  destruct (slice_min (oa_Path ev) (Z.to_nat (oa_PathLen ev))) as [q ->]. by eexists.
Qed.

Lemma net_total raw : exists r, decodeNetConnectEvent raw = Some r.
Proof. unfold decodeNetConnectEvent. destruct (rd_net raw) as [[ev s]|]; by eexists. Qed.

(** The header a decoder reads is the one at the front of the record. *)
Lemma header_first {A} (f : EventHeader -> R A) raw a s :
  (rd_header ≫= f) raw = Some (a, s) ->
  exists h s1 b, f h s1 = Some (a, s) /\ raw !! HeaderTypeOffset = Some b /\ ascii_Z b = h_Type h.
Proof.
  intros (h & s1 & Hh & Hf)%R_bind_Some. destruct (rd_header_type _ _ _ Hh) as (b & Hb & Ht). eauto 10.
Qed.

Ltac header_of H :=
  apply header_first in H as (h & s1 & b & H & Hb & Ht);
  repeat (apply R_bind_Some in H as (? & ? & _ & H)); injection H as <- <-; exists b; done.

Lemma openat_header raw ev : decodeOpenatEvent raw = Some (Ok ev) ->
  exists b, raw !! HeaderTypeOffset = Some b /\ ascii_Z b = h_Type (oa_Header (fa_ev ev)).
Proof.
  unfold decodeOpenatEvent. destruct (rd_openat raw) as [[e s]|] eqn:E; [|done].
  destruct (slice _ _ _); [|done]. intros [= <-]. cbn [fa_ev]. header_of E.
Qed.

Lemma exec_header raw ev : decodeExecEvent raw = Some (Ok ev) ->
  exists b, raw !! HeaderTypeOffset = Some b /\ ascii_Z b = h_Type (ex_Header (xe_ev ev)).
Proof.
  unfold decodeExecEvent. destruct (rd_exec raw) as [[e s]|] eqn:E; [|done].
  destruct (argv_strings _ _ _ _); [|done]. intros [= <-]. cbn [xe_ev]. header_of E.
Qed.

Lemma net_header raw ev : decodeNetConnectEvent raw = Some (Ok ev) ->
  exists b, raw !! HeaderTypeOffset = Some b /\ ascii_Z b = h_Type (nc_Header (ne_ev ev)).
Proof.
  unfold decodeNetConnectEvent. destruct (rd_net raw) as [[e s]|] eqn:E; [|done].
  intros [= <-]. cbn [ne_ev]. header_of E.
Qed.

Lemma dns_header raw ev : decodeDNSQueryEvent raw = Some (Ok ev) ->
  exists b, raw !! HeaderTypeOffset = Some b /\ ascii_Z b = h_Type (dq_Header (de_ev ev)).
Proof.
  unfold decodeDNSQueryEvent. destruct (rd_dns raw) as [[e s]|] eqn:E; [|done].
  destruct (slice _ _ _); [|done]. cbn [mbind option_bind].
  destruct (parseDNSQuestion _) as [[[? ?]|?]|]; [| |done]; intros [= <-]; cbn [de_ev]; header_of E.
Qed.

Lemma tls_header raw ev : decodeTLSSniEvent raw = Some (Ok ev) ->
  exists b, raw !! HeaderTypeOffset = Some b /\ ascii_Z b = h_Type (ts_Header (te_ev ev)).
Proof.
  unfold decodeTLSSniEvent. destruct (rd_tls raw) as [[e s]|] eqn:E; [|done].
  assert (Hev : forall sni er, te_ev (mkTLSSniEventD e sni "" (TLSSourceName (ts_Source e))
                                  (comm_of (ts_Header e)) er) = e) by done.
  intros Hd. assert (te_ev ev = e) as ->.
  { revert Hd. case_match; [|case_match]; repeat (case_match || (destruct (slice _ _ _); cbn [mbind option_bind]));
      intros; simplify_eq/=; auto;
      destruct (parseClientHelloSNI _) as [[?|?]|]; simplify_eq/=; auto. }
  header_of E.
Qed.

(** ** Properties *)

(** dispatch. A record long enough to hold the discriminator decodes to
    an event or an error, without a read outside the record or one of its
    arrays; and a decoded event's kind, the discriminator byte at offset 68
    and the type field of its parsed header agree. *)
Theorem decodeRecord_dispatch raw :
  HeaderTypeOffset < length raw ->
  exists r, decodeRecord raw = Some r /\
    match r with
    | Ok ev => h_Type (event_header ev) = event_type ev /\
               exists b, raw !! HeaderTypeOffset = Some b /\ ascii_Z b = event_type ev
    | Err _ => True
    end.
Proof.
  intros Hl. destruct (lookup_lt_is_Some_2 raw _ Hl) as [b Hb]. unfold decodeRecord. rewrite Hb.
  cbn [mbind option_bind].
  destruct (Z.eqb_spec (ascii_Z b) EventTypeFileAccess) as [E|_].
  { destruct (openat_total raw) as [[ev|e] Ed]; rewrite Ed; eexists; (split; [reflexivity|]); [|done].
    destruct (openat_header _ _ Ed) as (b' & Hb' & Ht). rewrite Hb in Hb'. injection Hb' as <-.
    simpl. split; [congruence|eauto]. }
  destruct (Z.eqb_spec (ascii_Z b) EventTypeExec) as [E|_].
  { destruct (exec_total raw) as [[ev|e] Ed]; rewrite Ed; eexists; (split; [reflexivity|]); [|done].
    destruct (exec_header _ _ Ed) as (b' & Hb' & Ht). rewrite Hb in Hb'. injection Hb' as <-.
    simpl. split; [congruence|eauto]. }
  destruct (Z.eqb_spec (ascii_Z b) EventTypeNetConnect) as [E|_].
  { destruct (net_total raw) as [[ev|e] Ed]; rewrite Ed; eexists; (split; [reflexivity|]); [|done].
    destruct (net_header _ _ Ed) as (b' & Hb' & Ht). rewrite Hb in Hb'. injection Hb' as <-.
    simpl. split; [congruence|eauto]. }
  destruct (Z.eqb_spec (ascii_Z b) EventTypeDNSQuery) as [E|_].
  { destruct (dns_total raw) as [[ev|e] Ed]; rewrite Ed; eexists; (split; [reflexivity|]); [|done].
    destruct (dns_header _ _ Ed) as (b' & Hb' & Ht). rewrite Hb in Hb'. injection Hb' as <-.
    simpl. split; [congruence|eauto]. }
  destruct (Z.eqb_spec (ascii_Z b) EventTypeTLSSNI) as [E|_]; [|by eexists].
  destruct (tls_total raw) as [[ev|e] Ed]; rewrite Ed; eexists; (split; [reflexivity|]); [|done].
  destruct (tls_header _ _ Ed) as (b' & Hb' & Ht). rewrite Hb in Hb'. injection Hb' as <-.
  simpl. split; [congruence|eauto].
Qed.

Definition zeros (n : nat) : list ascii := replicate n "000"%char.
Definition wit_hdr (ty : Z) : EventHeader :=
  mkEventHeader 1 2 (zeros 16) 10 11 9 0 0 (list_of_string "node" ++ zeros 12) ty 0.

Lemma wit_hdr_ok ty : (0 <= ty < 256)%Z -> header_ok (wit_hdr ty).
Proof. intros Ht. split; unfold fits; simpl; try done; lia. Qed.

Definition wit_net : NetConnectEvent :=
  mkNetConnectEvent (wit_hdr 3) 2 1 443 7 ("104"%char :: "016"%char :: "001"%char :: "034"%char :: zeros 12).

Lemma decodeRecord_dispatch_witness :
  exists r, decodeRecord (enc_net wit_net) = Some r /\
    match r with Ok ev => h_Type (event_header ev) = event_type ev | Err _ => True end.
Proof.
  destruct (decodeRecord_dispatch (enc_net wit_net)) as (r & H1 & H2).
  - vm_compute. lia.
  - exists r. split; [done|]. destruct r; [apply H2|done].
Defined.

(** a connect event survives the wire: the record the kernel side packs
    for an IPv4 connect decodes to the same fields, and the destination text
    it is stored under parses back to the four address bytes. *)
Theorem decodeRecord_net_connect e a rest :
  header_ok (nc_Header e) -> h_Type (nc_Header e) = EventTypeNetConnect ->
  nc_Family e = AFInet -> fits 1 (nc_Source e) -> fits 2 (nc_DestPort e) -> fits 4 (nc_Sockfd e) ->
  length (nc_DestAddr e) = DestAddrLen -> be_val (take 4 (nc_DestAddr e)) = a ->
  exists ev, decodeRecord (enc_net e ++ rest) = Some (Ok (EvNetConnect ev)) /\ ne_ev ev = e /\
    ParseIP (ne_DestIP ev) = Some (of_v4 a).
Proof.
  intros Hh Ht Hf Hs Hp Hk Hl Ha.
  destruct (header_type_at (nc_Header e)
    ((enc_u 1 (nc_Family e) ++ enc_u 1 (nc_Source e) ++ enc_u 2 (nc_DestPort e) ++
      enc_u 4 (nc_Sockfd e) ++ nc_DestAddr e) ++ rest) Hh) as (b & Hb & Hbt).
  exists (mkNetConnectEventD e (formatDestIP (nc_Family e) (nc_DestAddr e)) (comm_of (nc_Header e))).
  split_and!; [|done|].
  - assert (Hb' : (enc_net e ++ rest) !! HeaderTypeOffset = Some b)
      by (unfold enc_net; rewrite <- app_assoc; exact Hb).
    unfold decodeRecord. rewrite Hb'. cbn [mbind option_bind].
    rewrite Hbt, Ht. change (lift_event EvNetConnect (decodeNetConnectEvent (enc_net e ++ rest)) =
      Some (Ok (EvNetConnect (mkNetConnectEventD e (formatDestIP (nc_Family e) (nc_DestAddr e)) (comm_of (nc_Header e)))))).
    unfold decodeNetConnectEvent. rewrite rd_net_app; try done.
    rewrite Hf. unfold fits, AFInet. simpl. lia.
  - cbn [ne_DestIP]. unfold formatDestIP. rewrite Hf, Ha. change (AFInet =? AFInet)%Z with true.
    apply ipv4_text_roundtrip. rewrite <- Ha. apply be_val4.
Qed.

Lemma decodeRecord_net_connect_witness :
  exists ev, decodeRecord (enc_net wit_net ++ []) = Some (Ok (EvNetConnect ev)) /\ ne_ev ev = wit_net /\
    ParseIP (ne_DestIP ev) = Some (of_v4 1745879330).
Proof.
  apply decodeRecord_net_connect; try reflexivity; try (unfold fits; simpl; lia).
  apply wit_hdr_ok. lia.
Defined.

(** a file access survives the wire: for a NUL-free path of at most 256
    bytes the zero-padded record decodes to the same flags and to exactly
    that path. *)
Theorem decodeRecord_file_access h dfd flags tr path rest :
  header_ok h -> h_Type h = EventTypeFileAccess ->
  (- 2 ^ 31 <= dfd < 2 ^ 31)%Z -> (- 2 ^ 31 <= flags < 2 ^ 31)%Z -> fits 1 tr ->
  length path <= PathLen -> Forall (fun c => val c <> 0) path ->
  let packed := mkOpenatEvent h (dfd mod 2 ^ 32) (flags mod 2 ^ 32) (Z.of_nat (length path)) tr
                  (path ++ zeros (PathLen - length path)) in
  exists ev, decodeRecord (enc_openat packed ++ rest) = Some (Ok (EvFileAccess ev)) /\
    fa_PathName ev = string_of_list path /\ oa_Flags (fa_ev ev) = flags /\ oa_Header (fa_ev ev) = h.
Proof.
  intros Hh Ht Hd Hfl Htr Hpl Hnul packed.
  destruct (header_type_at h ((enc_u 4 (dfd mod 2 ^ 32) ++ enc_u 4 (flags mod 2 ^ 32) ++
    enc_u 2 (Z.of_nat (length path)) ++ enc_u 1 tr ++ enc_u 1 0 ++ path ++ zeros (PathLen - length path)) ++ rest) Hh)
    as (b & Hb & Hbt).
  assert (Hrd : rd_openat (enc_openat packed ++ rest) =
    Some (mkOpenatEvent h dfd flags (Z.of_nat (length path)) tr (path ++ zeros (PathLen - length path)), rest)).
  { apply rd_openat_app; try done.
    - unfold fits, PathLen in *. simpl. lia.
    - rewrite length_app. unfold zeros. rewrite length_replicate. lia. }
  eexists. split.
  - assert (Hb' : (enc_openat packed ++ rest) !! HeaderTypeOffset = Some b)
      by (unfold enc_openat, packed; cbn [oa_Header]; rewrite <- app_assoc; exact Hb).
    unfold decodeRecord. rewrite Hb'. cbn [mbind option_bind].
    rewrite Hbt, Ht. change ((EventTypeFileAccess =? EventTypeFileAccess)%Z) with true. cbn iota.
    unfold decodeOpenatEvent. rewrite Hrd. cbn [oa_PathLen oa_Path oa_Header].
    rewrite Nat2Z.id, length_app. rewrite Nat.min_l by lia.
    pose proof (slice_at [] path (zeros (PathLen - length path)) 0 eq_refl) as Hs.
    cbn [app Nat.add] in Hs. rewrite Hs. reflexivity.
  - cbn [fa_PathName fa_ev oa_Flags oa_Header]. split; [|done].
    unfold cstring. by rewrite until_nul_all.
Qed.

Lemma decodeRecord_file_access_witness :
  exists ev, decodeRecord (enc_openat (mkOpenatEvent (wit_hdr 1) ((-100) mod 2 ^ 32) (577 mod 2 ^ 32) 11 0
      (list_of_string "/etc/passwd" ++ zeros 245)) ++ []) = Some (Ok (EvFileAccess ev)) /\
    fa_PathName ev = "/etc/passwd" /\ oa_Flags (fa_ev ev) = 577%Z /\ oa_Header (fa_ev ev) = wit_hdr 1.
Proof.
  apply (decodeRecord_file_access (wit_hdr 1) (-100) 577 0 (list_of_string "/etc/passwd") []);
    try (unfold fits; simpl; lia); [apply wit_hdr_ok; lia|done|vm_compute; lia|].
  repeat constructor; discriminate.
Defined.

End Wire.
