(* ===== verification/Sensor.v ===== *)
(** * sensor: cgroup registration, deduplication, event loop

    internal/runner/sensor/sensor.go.  The kernel maps are finite maps; every
    [Put] and every [Delete] on them may fail, as its [MapCalls] says, and a
    call that fails leaves the map as it is.  Attaching probes and the
    ring-buffer reader are outside the model: [Events] is modelled record by
    record. *)
From Stdlib Require Import Ascii Sorted.
From stdpp Require Import prelude strings gmap list.
From S2P Require Import Prelude GoTime Json Proto NetIP Parsing Wire.

Module Sensor.
Import Wire.

(** ** Cgroup registration *)
Record Sensor : Type := mkSensor {
  registered : gmap Z (list WatchedPath);
  Cgmap : gmap Z CgmapValue;
  PathFilter : gmap PathFilterKey PathFilterAction
}.

Record AddCgroupOptions : Type := mkAddCgroupOptions {
  ac_CgroupID : Z; ac_RunID : list ascii; ac_WatchedPaths : list WatchedPath
}.

Definition buildPathFilterKey (prefix : string) : res PathFilterKey :=
  let n := String.length prefix in
  if decide (n = 0 \/ PathLen < n) then Err (Errorf "prefix length out of range")
  else Ok (mkPathFilterKey (Z.of_nat n * 8)
             (list_of_string prefix ++ replicate (PathLen - n) "000"%char)).

(** The kernel's answer to each map update of one call of [AddCgroup] or
    [RemoveCgroup].  The [nat] is the position of the prefix in the list of
    watched paths: the same prefix may succeed once and fail later. *)
Record MapCalls : Type := mkMapCalls {
  cgmap_put : Z -> bool;
  path_put : nat -> PathFilterKey -> bool;
  cgmap_delete : Z -> bool;
  path_delete : nat -> PathFilterKey -> bool
}.
Definition all_ok : MapCalls :=
  mkMapCalls (fun _ => true) (fun _ _ => true) (fun _ => true) (fun _ _ => true).

Definition delete_cgroup (ok : Z -> bool) (cg : Z) (m : gmap Z CgmapValue) : gmap Z CgmapValue :=
  if ok cg then delete cg m else m.

Definition delete_path (ok : PathFilterKey -> bool) (w : WatchedPath) (m : gmap PathFilterKey PathFilterAction) :
    gmap PathFilterKey PathFilterAction :=
  match buildPathFilterKey (Prefix w) with
  | Ok k => if ok k then delete k m else m
  | Err _ => m
  end.

(** The deletion loop of [rollbackPaths] and [RemoveCgroup]: an error is
    ignored or logged and the loop goes on. *)
Fixpoint delete_paths (ok : nat -> PathFilterKey -> bool) (ws : list WatchedPath)
    (m : gmap PathFilterKey PathFilterAction) : gmap PathFilterKey PathFilterAction :=
  match ws with
  | [] => m
  | w :: ws' => delete_paths (fun i => ok (S i)) ws' (delete_path (ok 0) w m)
  end.

Definition rollbackPaths (c : MapCalls) (cg : Z) (added : list WatchedPath) (s : Sensor) : Sensor :=
  mkSensor (registered s) (delete_cgroup (cgmap_delete c) cg (Cgmap s))
    (delete_paths (path_delete c) added (PathFilter s)).

Definition action_of (w : WatchedPath) : PathFilterAction :=
  if CredTagged w then PathActionKeepCredTagged else PathActionKeep.

Section kernel.
Context (c : MapCalls).

(** The insertion loop; [added] is in insertion order. *)
Fixpoint add_paths (cg : Z) (ws added : list WatchedPath) (s : Sensor) :
  res (list WatchedPath) * Sensor :=
  match ws with
  | [] => (Ok added, s)
  | w :: ws' =>
  match buildPathFilterKey (Prefix w) with
  | Err e => (Err (Wrapf "path_filter key" e), rollbackPaths c cg added s)
  | Ok key =>
      if path_put c (length added) key then
        add_paths cg ws' (added ++ [w])
          (mkSensor (registered s) (Cgmap s) (<[key := action_of w]> (PathFilter s)))
      else (Err (Wrapf "path_filter.Put" (Errorf "map update")), rollbackPaths c cg added s)
  end
  end.

Definition AddCgroup (opts : AddCgroupOptions) : M Sensor unit := fun s =>
  if decide (ac_WatchedPaths opts = []) then
  (Err (Errorf "at least one WatchedPath is required for file events to fire"), s) else
  match registered s !! ac_CgroupID opts with
  | Some _ => (Err (Errorf "cgroup already registered"), s)
  | None =>
  if cgmap_put c (ac_CgroupID opts) then
    let s := mkSensor (registered s)
               (<[ac_CgroupID opts := mkCgmapValue (ac_RunID opts) 0]> (Cgmap s)) (PathFilter s) in
    match add_paths (ac_CgroupID opts) (ac_WatchedPaths opts) [] s with
    | (Err e, s') => (Err e, s')
    | (Ok added, s') =>
        (Ok tt, mkSensor (<[ac_CgroupID opts := added]> (registered s')) (Cgmap s') (PathFilter s'))
    end
  else (Err (Wrapf "CGMAP.Put" (Errorf "map update")), s)
  end.

(** The owner is forgotten first; the errors of the deletions are logged. *)
Definition RemoveCgroup (cgroupID : Z) : M Sensor unit := fun s =>
  match registered s !! cgroupID with
  | None => (Ok tt, s)
  | Some paths =>
      (Ok tt, mkSensor (delete cgroupID (registered s)) (delete_cgroup (cgmap_delete c) cgroupID (Cgmap s))
                (delete_paths (path_delete c) paths (PathFilter s)))
  end.
End kernel.

Definition mapCounts (s : Sensor) : nat * nat := (size (Cgmap s), size (PathFilter s)).

(** The map side of [tearDownAll]. *)
Definition tearDownAll (ok : Z -> bool) (s : Sensor) : Sensor :=
  mkSensor ∅ (foldl (fun m cg => delete_cgroup ok cg m) (Cgmap s) (map_to_list (registered s)).*1) (PathFilter s).

(** Sum over CPUs in 64-bit arithmetic. *)
Definition Drops (perCPU : list Z) : Z := foldl (fun total c => wrapU 64 (total + c)) 0%Z perCPU.

(** ** Miss diagnostics *)
Record MissEntry : Type := mkMissEntry { me_CgroupID : Z; me_Count : Z }.

(** The inner loop of the sort, swapping a larger count to the front. *)
Fixpoint pass (x : MissEntry) (l : list MissEntry) : MissEntry * list MissEntry :=
  match l with
  | [] => (x, [])
  | y :: l' =>
      if (me_Count x <? me_Count y)%Z
      then let '(m, r) := pass y l' in (m, x :: r)
      else let '(m, r) := pass x l' in (m, y :: r)
  end.
Fixpoint select_sort (fuel : nat) (l : list MissEntry) : list MissEntry :=
  match fuel, l with
  | S f, x :: l' => let '(m, r) := pass x l' in m :: select_sort f r
  | _, _ => []
  end.

Definition DumpMisses (entries : list (Z * Z)) (top : Z) : list MissEntry :=
  let out := (fun kv => mkMissEntry kv.1 kv.2) <$> entries in
  let out := select_sort (length out) out in
  if ((0 <? top) && (top <? Z.of_nat (length out)))%Z then take (Z.to_nat top) out else out.

(** ** Duplicate suppression *)

(** Drop the entries older than the window. *)
Definition gc {V} (ts : V -> time) (window : duration) (now : time) (m : gmap string V) : gmap string V :=
  filter (fun kv => (now - ts kv.2 <= window)%Z) m.

Definition conn_key (pid family : Z) (ip : string) (port : Z) : string :=
  decimal pid +:+ "|" +:+ decimal family +:+ "|" +:+ ip +:+ "|" +:+ decimal port.

(** The decision and update once the key is known. *)
Definition conn_decide (window : duration) (key : string) (source : Z) (now : time)
    (pending : gmap string time) : bool * gmap string time :=
  if (source =? NetSourceSyscall)%Z then (false, <[key := now]> pending)
  else if (source =? NetSourceKprobe)%Z then
    match pending !! key with
    | Some ts => if (now - ts <=? window)%Z then (true, delete key pending) else (false, pending)
    | None => (false, pending)
    end
  else (false, pending).

Definition conn_observe (window : duration) (pid family source : Z) (ip : string) (port : Z)
    (now : time) (pending : gmap string time) : bool * gmap string time :=
  if decide (ip = "") then (false, pending) else
  conn_decide window (conn_key pid family ip port) source now (gc id window now pending).

Definition tls_key (pid : Z) (sni : string) : string := decimal pid +:+ "|" +:+ sni.

Definition tls_decide (window : duration) (key source : string) (now : time)
    (seen : gmap string (string * time)) : string * gmap string (string * time) :=
  match seen !! key with
  | Some (first, ts) =>
      if (now - ts <=? window)%Z then (first, seen) else ("", <[key := (source, now)]> seen)
  | None => ("", <[key := (source, now)]> seen)
  end.

Definition tls_observe (window : duration) (pid : Z) (sni source : string) (now : time)
    (seen : gmap string (string * time)) : string * gmap string (string * time) :=
  if decide (sni = "") then ("", seen) else
  tls_decide window (tls_key pid sni) source now (gc snd window now seen).

(** ** The event loop, one record at a time *)
Record Loop : Type := mkLoop {
  dedup : option (duration * gmap string (string * time));   (* nil when disabled *)
  connDedup : duration * gmap string time
}.

Definition set_duplicate (d : string) (e : TLSSniEventD) : TLSSniEventD :=
  mkTLSSniEventD (te_ev e) (te_SNI e) d (te_SourceName e) (te_CommStr e) (te_ParseErr e).

(** [None] when the record is dropped: too short, undecodable or a duplicate
    connect. *)
Definition events_step (now : time) (raw : list ascii) (l : Loop) : option Event * Loop :=
  if length raw <? HeaderTypeOffset + 1 then (None, l) else
  match decodeRecord raw with
  | Some (Ok (EvTLSSNI e)) =>
      match dedup l with
      | Some (w, seen) =>
          if decide (te_SNI e = "") then (Some (EvTLSSNI e), l) else
          let '(first, seen') := tls_observe w (h_PID (ts_Header (te_ev e))) (te_SNI e)
                                   (TLSSourceName (ts_Source (te_ev e))) now seen in
          (Some (EvTLSSNI (if decide (first = "") then e else set_duplicate first e)),
           mkLoop (Some (w, seen')) (connDedup l))
      | None => (Some (EvTLSSNI e), l)
      end
  | Some (Ok (EvNetConnect e)) =>
      if decide (ne_DestIP e = "") then (Some (EvNetConnect e), l) else
      let '(w, pending) := connDedup l in
      let '(dup, pending') := conn_observe w (h_PID (nc_Header (ne_ev e))) (nc_Family (ne_ev e))
                                (nc_Source (ne_ev e)) (ne_DestIP e) (nc_DestPort (ne_ev e)) now pending in
      (if dup then None else Some (EvNetConnect e), mkLoop (dedup l) (w, pending'))
  | Some (Ok ev) => (Some ev, l)
  | _ => (None, l)
  end.

(** ** Lemmas: path filter *)
Definition key_of (w : WatchedPath) (k : PathFilterKey) : Prop := buildPathFilterKey (Prefix w) = Ok k.

(** A deletion of [k] in the loop over [ws] went through. *)
Definition deleted (ok : nat -> PathFilterKey -> bool) (ws : list WatchedPath) (k : PathFilterKey) : Prop :=
  exists i w, ws !! i = Some w /\ key_of w k /\ ok i k = true.

Lemma delete_path_lookup ok w m k :
  (key_of w k /\ ok k = true /\ delete_path ok w m !! k = None) \/
  (~ (key_of w k /\ ok k = true) /\ delete_path ok w m !! k = m !! k).
Proof.
  unfold delete_path, key_of. destruct (buildPathFilterKey (Prefix w)) as [k'|e]; [|by right; split; [intros [? _]|]].
  destruct (ok k') eqn:E; [|right; split; [by intros [[= ->] ?]; congruence|done]].
  rewrite lookup_delete. case_decide; [left; by subst|right; split; [|done]]. by intros [[= ->] _].
Qed.

Lemma delete_paths_lookup ok ws m k :
  (deleted ok ws k /\ delete_paths ok ws m !! k = None) \/
  (~ deleted ok ws k /\ delete_paths ok ws m !! k = m !! k).
Proof.
  revert ok m. induction ws as [|w ws IH]; intros ok m; [right; split; [|done]; by intros (i & w & ? & _)|]. simpl.
  assert (Hs : deleted ok (w :: ws) k <-> key_of w k /\ ok 0 k = true \/ deleted (fun i => ok (S i)) ws k).
  { split.
    - intros ([|i] & w' & Hi & Hk & Ho); [left; simpl in Hi; by simplify_eq|right; by exists i, w'].
    - intros [[Hk Ho]|(i & w' & Hi & Hk)]; [by exists 0, w|by exists (S i), w']. }
  destruct (IH (fun i => ok (S i)) (delete_path (ok 0) w m)) as [[Hd E]|[Hn E]]; [left; tauto|].
  rewrite E. destruct (delete_path_lookup (ok 0) w m k) as [(? & ? & ?)|[? ?]]; [left|right]; tauto.
Qed.

(** What a loop over [ws] may leave behind: a deletion of [k] failed. *)
Definition left_path (ok : nat -> PathFilterKey -> bool) (ws : list WatchedPath) (k : PathFilterKey) : Prop :=
  exists i w, ws !! i = Some w /\ key_of w k /\ ok i k = false.
Definition left_cgroup (ok : Z -> bool) (cg cg' : Z) : Prop := cg' = cg /\ ok cg = false.
Definition deletes_ok (c : MapCalls) : Prop :=
  (forall cg, cgmap_delete c cg = true) /\ (forall i k, path_delete c i k = true).

Lemma not_deleted ok ws w k : w ∈ ws -> key_of w k -> ~ deleted ok ws k -> left_path ok ws k.
Proof.
  intros [i Hi]%list_elem_of_lookup Hk Hn. exists i, w. split_and!; [done..|].
  destruct (ok i k) eqn:E; [|done]. exfalso. apply Hn. by exists i, w.
Qed.
Lemma left_path_app ok ws ws' k : left_path ok ws k -> left_path ok (ws ++ ws') k.
Proof. intros (i & w & Hi & ?). exists i, w. split; [by apply lookup_app_l_Some|done]. Qed.
Lemma delete_cgroup_lookup ok cg m cg' :
  delete_cgroup ok cg m !! cg' = if ok cg then (if decide (cg' = cg) then None else m !! cg') else m !! cg'.
Proof. unfold delete_cgroup. destruct (ok cg); [|done]. rewrite lookup_delete. repeat case_decide; congruence. Qed.
Lemma no_left_path c ws k : deletes_ok c -> ~ left_path (path_delete c) ws k.
Proof. intros [_ H] (i & w & _ & _ & E). by rewrite H in E. Qed.
Lemma no_left_cgroup c cg cg' : deletes_ok c -> ~ left_cgroup (cgmap_delete c) cg cg'.
Proof. intros [H _] [_ E]. by rewrite H in E. Qed.

(** What is registered and what the kernel maps hold.  [lostC] and [lostP]
    are the entries that failed deletions may have left behind. *)
Record owned (lostC : Z -> Prop) (lostP : PathFilterKey -> Prop) (s : Sensor) : Prop := {
  ow_registered cg : is_Some (registered s !! cg) -> is_Some (Cgmap s !! cg);
  ow_cgmap cg : is_Some (Cgmap s !! cg) -> is_Some (registered s !! cg) \/ lostC cg;
  ow_paths k : is_Some (PathFilter s !! k) ->
    (exists cg ws w, registered s !! cg = Some ws /\ w ∈ ws /\ key_of w k) \/ lostP k
}.

(** Nothing was left behind. *)
Definition sensor_inv : Sensor -> Prop := owned (fun _ => False) (fun _ => False).

Lemma owned_mono (lostC lostC' : Z -> Prop) (lostP lostP' : PathFilterKey -> Prop) s :
  owned lostC lostP s -> (forall cg, lostC cg -> lostC' cg) -> (forall k, lostP k -> lostP' k) -> owned lostC' lostP' s.
Proof. intros [H1 H2 H3] HC HP. split; [done|naive_solver..]. Qed.

(** The insertion loop, relative to the filter [PF0] it started from:
    [added] covers everything that changed so far. *)
Definition changed_by (ws : list WatchedPath) (PF PF0 : gmap PathFilterKey PathFilterAction) : Prop :=
  forall k, (forall w, w ∈ ws -> ~ key_of w k) -> PF !! k = PF0 !! k.

(** [k] was deleted again, is as it was before, or its deletion failed. *)
Definition rolled_back (ok : nat -> PathFilterKey -> bool) (ws : list WatchedPath)
    (PF PF0 : gmap PathFilterKey PathFilterAction) : Prop :=
  forall k, (PF !! k = None /\ exists w, w ∈ ws /\ key_of w k) \/ PF !! k = PF0 !! k \/ left_path ok ws k.

Definition add_result (c : MapCalls) (cg : Z) (ws added : list WatchedPath)
    (PF0 : gmap PathFilterKey PathFilterAction) (s : Sensor) (r : res (list WatchedPath)) (s' : Sensor) : Prop :=
  registered s' = registered s /\
  match r with
  | Ok l => l = added ++ ws /\ Cgmap s' = Cgmap s /\ changed_by l (PathFilter s') PF0 /\
            (forall k, is_Some (PathFilter s !! k) -> is_Some (PathFilter s' !! k)) /\
            (forall w, w ∈ ws -> exists k, key_of w k /\ is_Some (PathFilter s' !! k))
  | Err _ => Cgmap s' = delete_cgroup (cgmap_delete c) cg (Cgmap s) /\
             rolled_back (path_delete c) (added ++ ws) (PathFilter s') PF0
  end.

Lemma rollback_result c cg ws added PF0 s e :
  changed_by added (PathFilter s) PF0 ->
  add_result c cg ws added PF0 s (Err e) (rollbackPaths c cg added s).
Proof.
  intros Hc. split; [done|]. split; [done|]. intros k. simpl.
  destruct (delete_paths_lookup (path_delete c) added (PathFilter s) k) as [[(i & w & Hi & Hk & _) E]|[Hn E]].
  - left. split; [done|]. exists w. split; [|done]. apply elem_of_app. left. by eapply list_elem_of_lookup_2.
  - right. destruct (decide (Exists (fun w => buildPathFilterKey (Prefix w) = Ok k) added)) as [Hx|Hno].
    + right. apply Exists_exists in Hx as (w & Hw & Hk). apply left_path_app. by eapply not_deleted.
    + left. rewrite E. apply Hc. intros w Hw Hk. apply Hno, Exists_exists. by exists w.
Qed.

Lemma add_paths_spec c cg ws added PF0 s r s' :
  changed_by added (PathFilter s) PF0 ->
  add_paths c cg ws added s = (r, s') ->
  add_result c cg ws added PF0 s r s'.
Proof.
  revert added s. induction ws as [|w ws IH]; intros added s Hc H; simpl in H.
  - injection H as <- <-. repeat split; [by rewrite app_nil_r|done..|].
    intros w Hw. by apply not_elem_of_nil in Hw.
  - destruct (buildPathFilterKey (Prefix w)) as [k|e] eqn:Ek.
    2:{ injection H as <- <-. by apply rollback_result. }
    destruct (path_put c (length added) k).
    2:{ injection H as <- <-. by apply rollback_result. }
    apply IH in H as [Hr H].
    2:{ intros k' Hk'. simpl. rewrite lookup_insert_ne.
        - apply Hc. intros w' Hw'. apply Hk', elem_of_app. by left.
        - intros ->. apply (Hk' w); [|done]. apply elem_of_app. right. by left. }
    split; [done|]. destruct r as [l|e]; simpl in H.
    + destruct H as (-> & Hcg & Hch & Hmono & Hin). rewrite <- app_assoc in *. simpl in *.
      split; [done|]. split; [done|]. split; [done|]. split.
      * intros k' Hk'. apply Hmono. rewrite lookup_insert. case_decide; [by eexists|done].
      * intros w' [->|Hw']%elem_of_cons; [|by apply Hin].
        exists k. split; [done|]. apply Hmono. rewrite lookup_insert_eq. by eexists.
    + destruct H as [Hcg H]. split; [done|]. by rewrite <- app_assoc in H.
Qed.

(** No prefix of [ws] is in the filter. *)
Definition fresh_paths (ws : list WatchedPath) (s : Sensor) : Prop :=
  forall w k, w ∈ ws -> key_of w k -> PathFilter s !! k = None.

(** [s'] is [s], except for entries of the cgroup and of its paths that a
    failed deletion left in the maps. *)
Record restored (c : MapCalls) (cg : Z) (ws : list WatchedPath) (s s' : Sensor) : Prop := {
  rs_registered : registered s' = registered s;
  rs_cgmap cg' : Cgmap s' !! cg' = Cgmap s !! cg' \/ left_cgroup (cgmap_delete c) cg cg';
  rs_paths k : PathFilter s' !! k = PathFilter s !! k \/ left_path (path_delete c) ws k
}.

Lemma restored_refl c cg ws s : restored c cg ws s s.
Proof. split; [done|by left..]. Qed.
Lemma restored_exact c cg ws s s' : restored c cg ws s s' -> deletes_ok c -> s' = s.
Proof.
  intros [Hr Hc Hp] Hok. destruct s, s'. simpl in *. subst. f_equal; apply map_eq; intros x.
  - destruct (Hc x) as [?|Hl]; [done|]. by destruct (no_left_cgroup c cg x Hok).
  - destruct (Hp x) as [?|Hl]; [done|]. by destruct (no_left_path c ws x Hok).
Qed.

Section registration.
Context (c : MapCalls).
Let Add := AddCgroup c.

(** What [AddCgroup] leaves, on every branch. *)
Lemma AddCgroup_outcome opts s r s' :
  Add opts s = (r, s') ->
  match r with
  | Ok _ => registered s !! ac_CgroupID opts = None /\
        registered s' = <[ac_CgroupID opts := ac_WatchedPaths opts]> (registered s) /\
        Cgmap s' = <[ac_CgroupID opts := mkCgmapValue (ac_RunID opts) 0]> (Cgmap s) /\
        changed_by (ac_WatchedPaths opts) (PathFilter s') (PathFilter s) /\
        (forall k, is_Some (PathFilter s !! k) -> is_Some (PathFilter s' !! k)) /\
        (forall w, w ∈ ac_WatchedPaths opts -> exists k, key_of w k /\ is_Some (PathFilter s' !! k))
  | Err _ => registered s' = registered s /\
        (Cgmap s' = Cgmap s \/
         registered s !! ac_CgroupID opts = None /\
         Cgmap s' = delete_cgroup (cgmap_delete c) (ac_CgroupID opts)
                      (<[ac_CgroupID opts := mkCgmapValue (ac_RunID opts) 0]> (Cgmap s))) /\
        rolled_back (path_delete c) (ac_WatchedPaths opts) (PathFilter s') (PathFilter s)
  end.
Proof.
  unfold Add, AddCgroup. case_decide as Hne.
  { intros [= <- <-]. split_and!; [done|by left|]. intros k. by right; left. }
  destruct (registered s !! ac_CgroupID opts) as [?|] eqn:Hreg.
  { intros [= <- <-]. split_and!; [done|by left|]. intros k. by right; left. }
  destruct (cgmap_put c (ac_CgroupID opts)).
  2:{ intros [= <- <-]. split_and!; [done|by left|]. intros k. by right; left. }
  destruct (add_paths _ _ _ _ _) as [r0 s0] eqn:Hadd.
  apply (add_paths_spec _ _ _ _ (PathFilter s)) in Hadd as [Hr H]; [|by intros k _].
  destruct r0 as [l|e]; simpl in H; intros [= <- <-]; simpl.
  - destruct H as (-> & Hcg & ?). rewrite Hr, Hcg. simpl. done.
  - destruct H as (Hcg & ?). rewrite Hr, Hcg. simpl. split_and!; [done|by right|done].
Qed.

(** The maps after a failed registration. *)
Lemma AddCgroup_failed_owned lostC lostP opts s e s' :
  owned lostC lostP s -> Add opts s = (Err e, s') ->
  owned (fun cg => lostC cg \/ left_cgroup (cgmap_delete c) (ac_CgroupID opts) cg)
        (fun k => lostP k \/ left_path (path_delete c) (ac_WatchedPaths opts) k) s'.
Proof.
  intros [H1 H2 H3] (Hr & Hc & HP)%AddCgroup_outcome. split.
  - intros cg Hcg. rewrite Hr in Hcg. destruct Hc as [->|[Hn ->]]; [by apply H1|].
    rewrite delete_cgroup_lookup, lookup_insert. destruct (cgmap_delete _ _); repeat case_decide; subst; eauto.
    rewrite Hn in Hcg. by destruct Hcg.
  - intros cg Hcg. rewrite Hr. destruct Hc as [Hc|[Hn Hc]]; rewrite Hc in Hcg; [destruct (H2 cg Hcg); tauto|].
    rewrite delete_cgroup_lookup, lookup_insert in Hcg. unfold left_cgroup.
    destruct (cgmap_delete c _) eqn:E; repeat case_decide; subst; auto; try (by destruct Hcg); destruct (H2 cg Hcg); tauto.
  - intros k Hk. rewrite Hr. destruct (HP k) as [[HN _]|[HE|?]]; [rewrite HN in Hk; by destruct Hk| |tauto].
    rewrite HE in Hk. destruct (H3 k Hk); tauto.
Qed.

Lemma AddCgroup_owned lostC lostP opts s u s' :
  owned lostC lostP s -> Add opts s = (Ok u, s') -> owned lostC lostP s'.
Proof.
  intros [H1 H2 H3] (Hn & Hr & Hc & Hch & _)%AddCgroup_outcome. split.
  - intros cg. rewrite Hr, Hc, !lookup_insert. case_decide; [eauto|apply H1].
  - intros cg. rewrite Hr, Hc, !lookup_insert. case_decide; [eauto|apply H2].
  - intros k Hk. destruct (decide (Exists (fun w => buildPathFilterKey (Prefix w) = Ok k)
                             (ac_WatchedPaths opts))) as [(w & Hw & Hwk)%Exists_exists|Hno].
    + left. exists (ac_CgroupID opts), (ac_WatchedPaths opts), w. by rewrite Hr, lookup_insert_eq.
    + rewrite Hch in Hk.
      2:{ intros w Hw Hwk. apply Hno, Exists_exists. by exists w. }
      destruct (H3 k Hk) as [(cg & ws & w & Hcg & Hw & Hwk)|?]; [left|by right].
      exists cg, ws, w. rewrite Hr, lookup_insert_ne; [done|]. congruence.
Qed.

Lemma RemoveCgroup_owned lostC lostP cg s :
  owned lostC lostP s ->
  owned (fun cg' => lostC cg' \/ left_cgroup (cgmap_delete c) cg cg')
        (fun k => lostP k \/ left_path (path_delete c) (default [] (registered s !! cg)) k) (RemoveCgroup c cg s).2.
Proof.
  intros Ho. unfold RemoveCgroup. destruct (registered s !! cg) as [ws|] eqn:Hcg.
  2:{ eapply owned_mono; [exact Ho|by left..]. }
  destruct Ho as [H1 H2 H3]. split; simpl.
  - intros cg'. rewrite lookup_delete, delete_cgroup_lookup. case_decide; [by intros []|].
    intros Hcg'%H1. destruct (cgmap_delete c cg); [|done]. by rewrite decide_False.
  - intros cg'. rewrite lookup_delete, delete_cgroup_lookup. unfold left_cgroup. destruct (decide (cg' = cg)) as [->|Hne].
    + destruct (cgmap_delete c cg); [by intros []|]. auto.
    + rewrite decide_False by done. intros Hs. destruct (H2 cg'); [by destruct (cgmap_delete c cg)|tauto..].
  - intros k Hk. destruct (delete_paths_lookup (path_delete c) ws (PathFilter s) k) as [[_ E]|[Hn E]];
      rewrite E in Hk; [by destruct Hk|].
    destruct (H3 k Hk) as [(cg' & ws' & w & Hcg' & Hw & Hwk)|?]; [|by right; left].
    destruct (decide (cg' = cg)) as [->|Hne].
    + right. right. rewrite Hcg in Hcg'. injection Hcg' as <-. by eapply not_deleted.
    + left. exists cg', ws', w. by rewrite lookup_delete_ne.
Qed.


Lemma AddCgroup_failed opts s e s' :
  (registered s !! ac_CgroupID opts = None -> Cgmap s !! ac_CgroupID opts = None) ->
  fresh_paths (ac_WatchedPaths opts) s -> Add opts s = (Err e, s') ->
  restored c (ac_CgroupID opts) (ac_WatchedPaths opts) s s'.
Proof.
  intros Hcn Hf (Hr & Hc & HP)%AddCgroup_outcome. split; [done| |].
  - intros cg. destruct Hc as [->|[Hn ->]]; [by left|]. rewrite delete_cgroup_lookup, lookup_insert. unfold left_cgroup.
    destruct (cgmap_delete c _) eqn:E; repeat case_decide; subst; auto;
      left; by rewrite Hcn.
  - intros k. destruct (HP k) as [[HN (w & Hw & Hk)]|[HE|?]]; [left|by left|by right].
    rewrite HN. symmetry. by apply (Hf w).
Qed.

(** The table of owners is restored whatever the maps answer. *)
Lemma AddCgroup_registered c' opts s r s' :
  Add opts s = (r, s') ->
  match r with
  | Ok _ => registered (RemoveCgroup c' (ac_CgroupID opts) s').2 = registered s
  | Err _ => registered s' = registered s
  end.
Proof.
  intros E%AddCgroup_outcome. destruct r; [|apply E]. destruct E as (Hn & Hr & _).
  unfold RemoveCgroup. rewrite Hr, lookup_insert_eq. simpl. by rewrite delete_insert_id.
Qed.
End registration.

Lemma AddCgroup_removed c c' opts s u s' :
  (registered s !! ac_CgroupID opts = None -> Cgmap s !! ac_CgroupID opts = None) ->
  fresh_paths (ac_WatchedPaths opts) s -> AddCgroup c opts s = (Ok u, s') ->
  restored c' (ac_CgroupID opts) (ac_WatchedPaths opts) s (RemoveCgroup c' (ac_CgroupID opts) s').2.
Proof.
  intros Hcn Hf (Hn & Hr & Hc & Hch & _)%AddCgroup_outcome.
  unfold RemoveCgroup. rewrite Hr, lookup_insert_eq, Hc. specialize (Hcn Hn). split; simpl.
  - by rewrite delete_insert_id.
  - intros cg. rewrite delete_cgroup_lookup, lookup_insert. unfold left_cgroup.
    destruct (cgmap_delete c' _) eqn:E; repeat case_decide; subst; auto; left; by rewrite Hcn.
  - intros k. destruct (delete_paths_lookup (path_delete c') (ac_WatchedPaths opts) (PathFilter s') k)
      as [[(i & w & Hi & Hk & _) ->]|[Hno ->]].
    + left. symmetry. apply (Hf w); [|done]. by eapply list_elem_of_lookup_2.
    + destruct (decide (Exists (fun w => buildPathFilterKey (Prefix w) = Ok k)
                          (ac_WatchedPaths opts))) as [(w & Hw & Hwk)%Exists_exists|Hx].
      * right. by eapply not_deleted.
      * left. apply Hch. intros w Hw Hk. apply Hx, Exists_exists. by exists w.
Qed.

Lemma unregistered_cgmap s cg : sensor_inv s -> registered s !! cg = None -> Cgmap s !! cg = None.
Proof. intros Hi H. apply eq_None_not_Some. intros [Hx|[]]%(ow_cgmap _ _ _ Hi). rewrite H in Hx. by destruct Hx. Qed.

Lemma sensor_inv_empty : sensor_inv (mkSensor ∅ ∅ ∅).
Proof. split; simpl; by intros ? [? ?]. Qed.

(** C6: Registering is a transaction, as far as the kernel deletes what it is told to.
  When the cgroup has no stale map entry and none of the watched prefixes is in
  the filter already: after a failing [AddCgroup] — whichever map update or
  prefix fails — and after [RemoveCgroup] of a cgroup that was added, the
  table of registered cgroups is the one before, and each kernel map differs
  from before at most in the entries of this cgroup whose deletion failed;
  when no deletion fails the sensor is exactly as it was. *)
Theorem AddCgroup_transaction c c' opts s r s' :
  (registered s !! ac_CgroupID opts = None -> Cgmap s !! ac_CgroupID opts = None) ->
  fresh_paths (ac_WatchedPaths opts) s ->
  AddCgroup c opts s = (r, s') ->
  match r with
  | Err _ => restored c (ac_CgroupID opts) (ac_WatchedPaths opts) s s' /\ (deletes_ok c -> s' = s)
  | Ok _ => exists s'', RemoveCgroup c' (ac_CgroupID opts) s' = (Ok tt, s'') /\
      restored c' (ac_CgroupID opts) (ac_WatchedPaths opts) s s'' /\ (deletes_ok c' -> s'' = s)
  end.
Proof.
  intros Hcn Hf E. destruct r as [u|e].
  - pose proof (AddCgroup_removed c c' opts s u s' Hcn Hf E) as R.
    assert (exists s'', RemoveCgroup c' (ac_CgroupID opts) s' = (Ok tt, s'')) as [s'' E2].
    { unfold RemoveCgroup. destruct (registered s' !! _); by eexists. }
    exists s''. rewrite E2 in *. split_and!; [done|exact R|]. by apply (restored_exact _ _ _ _ _ R).
  - pose proof (AddCgroup_failed c opts s e s' Hcn Hf E) as R. split; [done|]. by apply (restored_exact _ _ _ _ _ R).
Qed.

(** A kernel that refuses every deletion. *)
Definition no_deletes : MapCalls := mkMapCalls (fun _ => true) (fun _ _ => true) (fun _ => false) (fun _ _ => false).
Definition wit_opts : AddCgroupOptions := mkAddCgroupOptions 5 [] [mkWatchedPath "/proj" false].

(** A failed deletion is never retried: [RemoveCgroup] reports success, a
    second call finds nothing registered, and the entries, which go on
    attributing events to the run that is over, stay in both maps. *)
Theorem RemoveCgroup_leaks :
  let s2 := (RemoveCgroup no_deletes 5 (AddCgroup all_ok wit_opts (mkSensor ∅ ∅ ∅)).2).2 in
  (RemoveCgroup no_deletes 5 (AddCgroup all_ok wit_opts (mkSensor ∅ ∅ ∅)).2).1 = Ok tt /\
  registered s2 !! 5%Z = None /\ Cgmap s2 !! 5%Z = Some (mkCgmapValue [] 0) /\ size (PathFilter s2) = 1 /\
  RemoveCgroup all_ok 5 s2 = (Ok tt, s2).
Proof.
  intros s2. assert (Hr : registered s2 !! 5%Z = None) by (vm_compute; reflexivity).
  split_and!; [vm_compute; reflexivity|exact Hr|vm_compute; reflexivity|vm_compute; reflexivity|].
  unfold RemoveCgroup at 1. by rewrite Hr.
Qed.


Lemma AddCgroup_transaction_witness : exists s' s'',
  AddCgroup all_ok wit_opts (mkSensor ∅ ∅ ∅) = (Ok tt, s') /\
  RemoveCgroup all_ok 5 s' = (Ok tt, s'') /\ s'' = mkSensor ∅ ∅ ∅.
Proof.
  assert (E : exists s', AddCgroup all_ok wit_opts (mkSensor ∅ ∅ ∅) = (Ok tt, s')) by (eexists; reflexivity).
  destruct E as [s' E].
  destruct (AddCgroup_transaction all_ok all_ok wit_opts (mkSensor ∅ ∅ ∅) (Ok tt) s'
           (fun _ => lookup_empty _) (fun _ _ _ _ => lookup_empty _) E) as (s'' & Er & _ & H).
  exists s', s''. split_and!; [exact E|exact Er|]. by apply H.
Defined.

(** ** Lemmas: garbage collection does not change a decision *)
Section gc_lemmas.
Context {V : Type} (ts : V -> time) (window : duration).

(** [m] is [ref] less entries that were already outside the window at [last]. *)
Definition gc_of (last : time) (m ref : gmap string V) : Prop :=
  forall k, m !! k = ref !! k \/
        (m !! k = None /\ exists v, ref !! k = Some v /\ (last - ts v > window)%Z).

Lemma gc_lookup now (m : gmap string V) k :
  gc ts window now m !! k =
  match m !! k with Some v => if (now - ts v <=? window)%Z then Some v else None | None => None end.
Proof.
  unfold gc. destruct (m !! k) as [v|] eqn:E.
  - destruct (Z.leb_spec (now - ts v) window).
  + by apply map_lookup_filter_Some.
  + apply map_lookup_filter_None. right. intros v' Hv'. simpl. rewrite E in Hv'.
  injection Hv' as <-. lia.
  - apply map_lookup_filter_None. by left.
Qed.

Lemma gc_of_refl now m : gc_of now m m.
Proof. intros k. by left. Qed.

Lemma gc_of_gc last now m ref : gc_of last m ref -> (last <= now)%Z -> gc_of now (gc ts window now m) ref.
Proof.
  intros H Hle k. rewrite gc_lookup. destruct (H k) as [->|[-> (v & -> & Hv)]].
  - destruct (ref !! k) as [v|]; [|by left]. destruct (Z.leb_spec (now - ts v) window); [by left|].
  right. split; [done|]. exists v. split; [done|lia].
  - right. split; [done|]. exists v. split; [done|lia].
Qed.

(** A lookup that respects the window sees the same entry in both. *)
Lemma gc_of_live now m ref k :
  gc_of now m ref ->
  match m !! k with Some v => if (now - ts v <=? window)%Z then Some v else None | None => None end =
  match ref !! k with Some v => if (now - ts v <=? window)%Z then Some v else None | None => None end.
Proof.
  intros H. destruct (H k) as [->|[-> (v & -> & Hv)]]; [done|].
  destruct (Z.leb_spec (now - ts v) window); [lia|done].
Qed.

Lemma gc_of_insert now m ref k v : gc_of now m ref -> gc_of now (<[k := v]> m) (<[k := v]> ref).
Proof. intros H k'. rewrite !lookup_insert. case_decide; [by left|apply H]. Qed.

Lemma gc_of_delete now m ref k : gc_of now m ref -> gc_of now (delete k m) (delete k ref).
Proof. intros H k'. rewrite !lookup_delete. case_decide; [by left|apply H]. Qed.
End gc_lemmas.

(** ** Connect deduplication *)
Record Conn : Type := mkConn {
  cn_now : time; cn_pid : Z; cn_family : Z; cn_source : Z; cn_ip : string; cn_port : Z
}.
Definition cn_key (c : Conn) : string := conn_key (cn_pid c) (cn_family c) (cn_ip c) (cn_port c).

(** The tracker over a sequence of connects: [true] marks a dropped one. *)
Fixpoint conn_run (window : duration) (cs : list Conn) (pending : gmap string time) : list bool :=
  match cs with
  | [] => []
  | c :: cs' =>
      let '(d, p) := conn_observe window (cn_pid c) (cn_family c) (cn_source c) (cn_ip c) (cn_port c)
                       (cn_now c) pending in
      d :: conn_run window cs' p
  end.

(** The same without the collection of old entries. *)
Fixpoint conn_ref (window : duration) (cs : list Conn) (pending : gmap string time) : list bool :=
  match cs with
  | [] => []
  | c :: cs' =>
      if decide (cn_ip c = "") then false :: conn_ref window cs' pending else
      let '(d, p) := conn_decide window (cn_key c) (cn_source c) (cn_now c) pending in
      d :: conn_ref window cs' p
  end.

(** The clock of a sequence of observations does not go back. *)
Fixpoint nondecreasing (last : time) (ts : list time) : Prop :=
  match ts with [] => True | t :: ts' => (last <= t)%Z /\ nondecreasing t ts' end.

Lemma conn_decide_gc window key source now m ref :
  gc_of id window now m ref ->
  (conn_decide window key source now m).1 = (conn_decide window key source now ref).1 /\
  gc_of id window now (conn_decide window key source now m).2 (conn_decide window key source now ref).2.
Proof.
  intros H. unfold conn_decide. destruct (source =? NetSourceSyscall)%Z.
  { split; [done|]. by apply gc_of_insert. }
  destruct (source =? NetSourceKprobe)%Z; [|done].
  pose proof (gc_of_live id window now m ref key H) as L.
  destruct (m !! key) as [v|], (ref !! key) as [v'|]; unfold id in L;
    repeat match goal with |- context [(?a <=? ?b)%Z] => destruct (Z.leb_spec a b) end;
    simpl; try done; split; try done; by apply gc_of_delete.
Qed.

Lemma gc_of_later {V} (ts : V -> time) window last now m ref :
  gc_of ts window last m ref -> (last <= now)%Z -> gc_of ts window now m ref.
Proof.
  intros H Hle k. destruct (H k) as [E|[E (v & Hr & Hv)]]; [by left|].
  right. split; [done|]. exists v. split; [done|lia].
Qed.

Lemma conn_run_ref window cs last m ref :
  gc_of id window last m ref -> nondecreasing last (cn_now <$> cs) ->
  conn_run window cs m = conn_ref window cs ref.
Proof.
  revert last m ref. induction cs as [|c cs IH]; intros last m ref Hm Hn; [done|].
  destruct Hn as [Hle Hn]. simpl. unfold conn_observe. fold (cn_key c). case_decide.
  - f_equal. eapply (IH (cn_now c)); [|done]. by apply (gc_of_later _ _ last).
  - apply (gc_of_gc _ _ _ (cn_now c)) in Hm; [|done].
    destruct (conn_decide_gc window (cn_key c) (cn_source c) (cn_now c) _ _ Hm) as [E1 E2].
    destruct (conn_decide _ _ _ _ _) as [d p], (conn_decide _ _ _ _ ref) as [d' p'].
    simpl in *. subst d'. f_equal. by apply (IH (cn_now c)).
Qed.

(** Collecting old entries never changes a verdict.  With a clock that
    does not go back, the connect tracker drops exactly the connects that the
    tracker without any garbage collection would drop, so its memory stays
    bounded by the window at no cost in precision. *)
Theorem conn_gc_transparent window cs :
  nondecreasing 0%Z (cn_now <$> cs) -> conn_run window cs ∅ = conn_ref window cs ∅.
Proof. intros H. apply (conn_run_ref window cs 0%Z); [apply gc_of_refl|done]. Qed.

Lemma conn_gc_transparent_witness :
  conn_run 2 [mkConn 1 7 2 NetSourceSyscall "1.2.3.4" 80; mkConn 2 7 2 NetSourceKprobe "1.2.3.4" 80;
              mkConn 9 7 2 NetSourceKprobe "1.2.3.4" 80] ∅ = [false; true; false].
Proof.
  rewrite (conn_gc_transparent 2); [vm_compute; reflexivity|]. vm_compute. intuition discriminate.
Defined.

Definition key_hits (key : string) (src : Z) (cs : list Conn) : nat :=
  length (filter (fun c => cn_key c = key /\ cn_source c = src /\ cn_ip c <> "") cs).
(** How many connects with this key were dropped. *)
Fixpoint key_drops (key : string) (cs : list Conn) (ds : list bool) : nat :=
  match cs, ds with
  | c :: cs', d :: ds' => (if d then (if decide (cn_key c = key) then 1 else 0) else 0) + key_drops key cs' ds'
  | _, _ => 0
  end.
Definition has (key : string) (m : gmap string time) : nat := if m !! key then 1 else 0.

Lemma has_insert key k v m : has key (<[k := v]> m) <= has key m + (if decide (k = key) then 1 else 0).
Proof. unfold has. rewrite lookup_insert. repeat case_decide; subst; destruct (m !! key); simpl; lia. Qed.

Lemma has_gc window now key m : has key (gc id window now m) <= has key m.
Proof. unfold has. rewrite gc_lookup. destruct (m !! key); [destruct (_ <=? _)%Z|]; simpl; lia. Qed.

Lemma conn_decide_count window k source now m key :
  (if (conn_decide window k source now m).1 then (if decide (k = key) then 1 else 0) else 0) +
    has key (conn_decide window k source now m).2 <=
  has key m + (if decide (k = key /\ source = NetSourceSyscall) then 1 else 0).
Proof.
  unfold conn_decide. destruct (Z.eqb_spec source NetSourceSyscall) as [->|Hs].
  { simpl. pose proof (has_insert key k now m). repeat case_decide; naive_solver lia. }
  rewrite (decide_False (P := k = key /\ source = NetSourceSyscall)); [|tauto].
  destruct (source =? NetSourceKprobe)%Z; [|simpl; lia].
  destruct (m !! k) as [v|] eqn:E; [|simpl; lia]. destruct (now - v <=? window)%Z; simpl; [|lia].
  unfold has. rewrite lookup_delete. destruct (decide (k = key)) as [<-|].
  - unfold time in *. rewrite E. simpl. lia.
  - destruct (m !! key); simpl; lia.
Qed.

Lemma conn_run_count window key cs m :
  key_drops key cs (conn_run window cs m) <= key_hits key NetSourceSyscall cs + has key m.
Proof.
  revert m. induction cs as [|c cs IH]; intros m; [simpl; lia|]. simpl. unfold conn_observe.
  fold (cn_key c). unfold key_hits in *. rewrite filter_cons. case_decide as Hip.
  - rewrite decide_False by tauto. specialize (IH m). lia.
  - pose proof (conn_decide_count window (cn_key c) (cn_source c) (cn_now c) (gc id window (cn_now c) m) key) as D.
    pose proof (has_gc window (cn_now c) key m).
    destruct (conn_decide _ _ _ _ _) as [d p]. specialize (IH p). simpl in *.
    repeat case_decide; simpl; try tauto; lia.
Qed.

(** Deduplication never loses a connection.  For every destination the
    tracker drops at most as many records as the syscall probe reported for
    it, and it drops no record of the syscall probe itself, whatever the clock
    does: each connection is still reported at least once. *)
Theorem conn_no_loss window cs m :
  (forall key, key_drops key cs (conn_run window cs m) <= key_hits key NetSourceSyscall cs + has key m) /\
  (forall i c, cs !! i = Some c -> cn_source c <> NetSourceKprobe -> conn_run window cs m !! i = Some false).
Proof.
  split; [intros key; apply conn_run_count|]. revert m. induction cs as [|c cs IH]; intros m i c' Hi Hk; [done|].
  simpl. unfold conn_observe. fold (cn_key c).
  destruct (if decide (cn_ip c = "") then _ else _) as [d p] eqn:E. destruct i as [|i]; [|by apply (IH p i c')].
  simpl in *. injection Hi as <-. f_equal. case_decide; [congruence|]. unfold conn_decide in E.
  destruct (cn_source c =? NetSourceSyscall)%Z; [congruence|].
  destruct (Z.eqb_spec (cn_source c) NetSourceKprobe); [done|congruence].
Qed.

Lemma conn_no_loss_witness :
  conn_run 2 [mkConn 1 7 2 NetSourceSyscall "1.2.3.4" 80] ∅ !! 0 = Some false.
Proof.
  apply (proj2 (conn_no_loss 2 [mkConn 1 7 2 NetSourceSyscall "1.2.3.4" 80] ∅) 0
           (mkConn 1 7 2 NetSourceSyscall "1.2.3.4" 80)); [reflexivity|discriminate].
Defined.

(** ** TLS deduplication *)
Record Tls : Type := mkTls { tl_now : time; tl_pid : Z; tl_sni : string; tl_source : string }.
Definition tl_key (t : Tls) : string := tls_key (tl_pid t) (tl_sni t).

Definition tls_step (window : duration) (t : Tls) (seen : gmap string (string * time)) :
    string * gmap string (string * time) :=
  tls_observe window (tl_pid t) (tl_sni t) (tl_source t) (tl_now t) seen.

Fixpoint tls_run (window : duration) (ts : list Tls) (seen : gmap string (string * time)) : list string :=
  match ts with
  | [] => []
  | t :: ts' => (tls_step window t seen).1 :: tls_run window ts' (tls_step window t seen).2
  end.

(** Every remembered entry comes from an observation in [past]. *)
Definition from_past (past : list Tls) (seen : gmap string (string * time)) : Prop :=
  forall k src ts, seen !! k = Some (src, ts) ->
    exists t, t ∈ past /\ tl_key t = k /\ tl_source t = src /\ tl_now t = ts.

Lemma tls_step_past window t past seen :
  from_past past seen -> from_past (past ++ [t]) (tls_step window t seen).2.
Proof.
  intros H k src ts. unfold tls_step, tls_observe, tls_decide. fold (tl_key t).
  assert (Hold : forall k src ts, seen !! k = Some (src, ts) \/
            gc snd window (tl_now t) seen !! k = Some (src, ts) ->
            exists t', t' ∈ past ++ [t] /\ tl_key t' = k /\ tl_source t' = src /\ tl_now t' = ts).
  { intros k' src' ts' Hk'. assert (Hs : seen !! k' = Some (src', ts')).
    { destruct Hk' as [?|Hk']; [done|]. rewrite gc_lookup in Hk'. by destruct (seen !! k') as [?|]; [destruct (_ <=? _)%Z|]. }
    destruct (H _ _ _ Hs) as (t' & Ht' & ?). exists t'. split; [|done]. apply elem_of_app. by left. }
  assert (Hnew : <[tl_key t := (tl_source t, tl_now t)]> (gc snd window (tl_now t) seen) !! k = Some (src, ts) ->
            exists t', t' ∈ past ++ [t] /\ tl_key t' = k /\ tl_source t' = src /\ tl_now t' = ts).
  { rewrite lookup_insert. case_decide as Hk; [|by eauto]. intros [= <- <-].
    exists t. split; [|done]. apply elem_of_app. right. by apply list_elem_of_singleton. }
  case_decide; [by eauto|].
  destruct (gc snd window (tl_now t) seen !! tl_key t) as [[f ts0]|]; [destruct (_ <=? _)%Z|]; simpl; eauto.
Qed.

Lemma tls_step_tag window t past seen src :
  from_past past seen -> (tls_step window t seen).1 = src -> src <> "" ->
  exists t', t' ∈ past /\ tl_key t' = tl_key t /\ tl_source t' = src /\ (tl_now t - tl_now t' <= window)%Z.
Proof.
  intros H Hsrc Hne. unfold tls_step, tls_observe, tls_decide in Hsrc. fold (tl_key t) in Hsrc.
  case_decide; [by subst|]. rewrite gc_lookup in Hsrc.
  unfold time in *. destruct (seen !! tl_key t) as [[f ts0]|] eqn:E; [|by subst]. simpl in Hsrc.
  destruct (tl_now t - ts0 <=? window)%Z eqn:Hle; simpl in Hsrc; [|by subst].
  rewrite Hle in Hsrc. simpl in Hsrc. subst f. apply Z.leb_le in Hle.
  destruct (H _ _ _ E) as (t' & Ht' & Hk & Hs & Hts). exists t'. repeat split; [done..|lia].
Qed.

Lemma tls_run_sound window ts past seen i t src :
  from_past past seen -> ts !! i = Some t -> tls_run window ts seen !! i = Some src -> src <> "" ->
  exists t', t' ∈ past ++ take i ts /\ tl_key t' = tl_key t /\ tl_source t' = src /\
             (tl_now t - tl_now t' <= window)%Z.
Proof.
  revert past seen i. induction ts as [|t0 ts IH]; intros past seen i H Ht Hr Hne; [done|].
  destruct i as [|i]; simpl in *.
  - injection Ht as ->. injection Hr as Hr. rewrite app_nil_r. by eapply tls_step_tag.
  - destruct (IH (past ++ [t0]) _ i (tls_step_past window t0 past seen H) Ht Hr Hne) as (t' & Ht' & ?).
    exists t'. split; [|done]. by rewrite <- app_assoc in Ht'.
Qed.

(** A TLS record tagged as a duplicate really is one.  Whenever the tracker
    names a first source for an observation, that source had reported the same
    process and server name earlier in the run, at most one window before. *)
Theorem tls_duplicate_sound window ts i t src :
  ts !! i = Some t -> tls_run window ts ∅ !! i = Some src -> src <> "" ->
  exists t', t' ∈ take i ts /\ tl_key t' = tl_key t /\ tl_source t' = src /\
             (tl_now t - tl_now t' <= window)%Z.
Proof. intros. apply (tls_run_sound window ts [] ∅); by try intros ???. Qed.

Lemma tls_duplicate_sound_witness :
  exists t', t' ∈ take 1 [mkTls 1 9 "npmjs.org" "tc"; mkTls 2 9 "npmjs.org" "uprobe"] /\
    tl_key t' = "9|npmjs.org" /\ tl_source t' = "tc" /\ (2 - tl_now t' <= 5)%Z.
Proof.
  apply (tls_duplicate_sound 5 [mkTls 1 9 "npmjs.org" "tc"; mkTls 2 9 "npmjs.org" "uprobe"] 1
           (mkTls 2 9 "npmjs.org" "uprobe") "tc"); [reflexivity|vm_compute; reflexivity|discriminate].
Defined.

(** ** Miss diagnostics *)
Definition by_count (a b : MissEntry) : Prop := (me_Count b <= me_Count a)%Z.
#[global] Instance by_count_trans : Transitive by_count.
Proof. unfold by_count. intros a b c. lia. Qed.

Lemma pass_spec x l :
  (pass x l).1 :: (pass x l).2 ≡ₚ x :: l /\
  (forall y, y ∈ x :: l -> by_count (pass x l).1 y) /\ length (pass x l).2 = length l.
Proof.
  revert x. induction l as [|y l IH]; intros x; simpl.
  { split; [done|]. split; [|done]. intros z ->%list_elem_of_singleton. unfold by_count. lia. }
  destruct (Z.ltb_spec (me_Count x) (me_Count y)) as [Hlt|Hge].
  - destruct (IH y) as (Hp & Hm & Hl). destruct (pass y l) as [m r]. simpl in *. split; [|split; [|by rewrite Hl]].
    + rewrite Permutation_swap. by rewrite Hp.
    + intros z [->|Hz]%elem_of_cons; [|by apply Hm].
      assert (by_count m y) as Hy by (apply Hm; left). unfold by_count in *. lia.
  - destruct (IH x) as (Hp & Hm & Hl). destruct (pass x l) as [m r]. simpl in *. split; [|split; [|by rewrite Hl]].
    + rewrite Permutation_swap, Hp. by apply Permutation_swap.
    + intros z [->|[->|Hz]%elem_of_cons]%elem_of_cons.
      * apply Hm. left.
      * assert (by_count m x) as Hx by (apply Hm; left). unfold by_count in *. lia.
      * apply Hm. by right.
Qed.

Lemma select_sort_spec n l :
  length l <= n -> select_sort n l ≡ₚ l /\ StronglySorted by_count (select_sort n l).
Proof.
  revert l. induction n as [|n IH]; intros [|x l] Hn; simpl in *; try (split; [done|constructor]); try lia.
  destruct (pass_spec x l) as (Hp & Hm & Hl). destruct (pass x l) as [m r]. simpl in *.
  destruct (IH r) as [Hr Hs]; [lia|]. split; [by rewrite Hr|]. constructor; [done|].
  rewrite Hr. apply Forall_forall. intros y Hy. apply Hm. rewrite <- Hp. by right.
Qed.

(** The miss report is ranked.  [DumpMisses] returns, in descending order
    of count, the first [top] entries of a permutation of the kernel map (all
    of them when [top] is not positive), so no entry it leaves out counts more
    than one it shows. *)
Theorem DumpMisses_ranked entries top :
  exists rest, DumpMisses entries top ++ rest ≡ₚ (fun kv => mkMissEntry kv.1 kv.2) <$> entries /\
    StronglySorted by_count (DumpMisses entries top ++ rest) /\
    length (DumpMisses entries top) =
      (if (0 <? top)%Z then Nat.min (Z.to_nat top) (length entries) else length entries).
Proof.
  unfold DumpMisses. set (l := (fun kv => _) <$> entries).
  destruct (select_sort_spec (length l) l ltac:(done)) as [Hp Hs].
  assert (Hlen : length (select_sort (length l) l) = length entries).
  { rewrite Hp. unfold l. apply length_fmap. }
  rewrite Hlen. destruct (Z.ltb_spec 0 top), (Z.ltb_spec top (Z.of_nat (length entries))); simpl.
  - exists (drop (Z.to_nat top) (select_sort (length l) l)). rewrite take_drop, length_take. repeat split; [done..|lia].
  - exists []. rewrite app_nil_r. repeat split; [done..|]. lia.
  - exists []. rewrite app_nil_r. by repeat split.
  - exists []. rewrite app_nil_r. by repeat split.
Qed.

(** Cgroups are not isolated in the path filter.  The filter is keyed by
    prefix alone: after two sandboxes watching the same prefix have been
    registered, removing one of them empties the filter while the other is
    still registered, so its file events stop. *)
Theorem RemoveCgroup_steals_shared_prefix :
  let w := mkWatchedPath "/proj" false in
  let add cg := AddCgroup all_ok (mkAddCgroupOptions cg [] [w]) in
  let s := (RemoveCgroup all_ok 2 (add 2%Z (add 1%Z (mkSensor ∅ ∅ ∅)).2).2).2 in
  registered s !! 1%Z = Some [w] /\ PathFilter s = ∅.
Proof. vm_compute. split; reflexivity. Qed.

End Sensor.
