(* ===== verification/SensorLife.v ===== *)
(** * The life of the sensor

    internal/runner/sensor/sensor.go around the registration of Sensor.v: [New]
    with everything it opens in the kernel, [Close], and the goroutine behind
    [Events] with its channel, as a step relation.  What the kernel answers (attaching a probe,
    loading the object, opening the ring buffer, mounting tracefs) is a
    parameter; every call that opens or releases something is an [Effect]. *)
From Stdlib Require Import Ascii.
From stdpp Require Import prelude strings gmap list relations.
From S2P Require Import Prelude GoTime Json Proto NetIP Parsing Wire Sensor.

Module SensorLife.
Import Wire Sensor.Sensor.

(** ** What is opened and released *)
Inductive Probe : Type :=
  | Tracepoint (group name : string)
  | Kprobe (symbol : string)
  | Uprobe (path : string).
#[export] Instance Probe_eq_dec : EqDecision Probe.
Proof. solve_decision. Defined.

Inductive Effect : Type :=
  | Mounted
  | Loaded
  | Attached (p : Probe)
  | ReaderOpened
  | ReaderClosed
  | Detached (p : Probe)
  | ObjectsClosed.

(** The kernel and file system as [New] meets them; [None] is success. *)
Record Kernel : Type := mkKernel {
  k_memlock : option error;
  k_tracing : bool;                      (* /sys/kernel/tracing/events, before *)
  k_tracing_mounted : bool;              (* ... and after the mount *)
  k_mount : option error;
  k_load : option error;
  k_attach : Probe -> option error;
  k_stat : string -> bool;
  k_open : string -> option error;
  k_ringbuf : option error
}.

(** "group/name" of a tracepoint. *)
Definition probe_name (p : Probe) : string :=
  match p with Tracepoint g n => g ++ "/" ++ n | Kprobe s => s | Uprobe q => q end.

Record Options : Type := mkOptions {
  LibSSLPath : string;
  EnsureTracefs : bool;
  DedupWindow : duration
}.

(** The parts of the sensor struct that Sensor.v does not hold. *)
Record Life : Type := mkLife {
  links : list Probe;
  reader : bool;
  maps : Sensor;
  loop0 : Loop;
  closed_once : bool;
  closeErr : option error
}.

Definition tps : list Probe :=
  [Tracepoint "syscalls" "sys_enter_openat"; Tracepoint "syscalls" "sys_enter_execve";
   Tracepoint "syscalls" "sys_enter_connect"; Tracepoint "syscalls" "sys_enter_sendto";
   Tracepoint "syscalls" "sys_enter_sendmmsg"; Tracepoint "syscalls" "sys_enter_sendmsg";
   Tracepoint "syscalls" "sys_enter_write"].
Definition kps : list Probe := [Kprobe "tcp_v4_connect"; Kprobe "tcp_v6_connect"].

Definition libssl_paths : list string :=
  ["/usr/lib/x86_64-linux-gnu/libssl.so.3"; "/usr/lib/x86_64-linux-gnu/libssl.so.1.1";
   "/lib/x86_64-linux-gnu/libssl.so.3"; "/lib/x86_64-linux-gnu/libssl.so.1.1";
   "/usr/lib64/libssl.so.3"; "/usr/lib64/libssl.so.1.1"; "/usr/lib/libssl.so.3"].

Section start.
Context (k : Kernel).

Definition ensureTracefs : option error * list Effect :=
  if k_tracing k then (None, []) else
  match k_mount k with
  | Some e => (Some (Wrapf "mount tracefs at /sys/kernel/tracing" e), [])
  | None => (if k_tracing_mounted k then None else Some (Errorf "tracefs mounted but /sys/kernel/tracing/events still missing"), [Mounted])
  end.

Definition findLibSSL : res string :=
  match filter (fun p => k_stat k p = true) libssl_paths with
  | p :: _ => Ok p
  | [] => Err (Errorf "libssl.so.{3,1.1} not found")
  end.

(** [tearDownAll]: reader, links, cgroup entries, objects. *)
Definition tear_down (rd : bool) (ls : list Probe) : list Effect :=
  (if rd then [ReaderClosed] else []) ++ (Detached <$> ls) ++ [ObjectsClosed].

(** The tracepoints, up to the first that fails. *)
Fixpoint attach_all (ps ls : list Probe) : option error * list Probe * list Effect :=
  match ps with
  | [] => (None, ls, [])
  | p :: ps' =>
      match k_attach k p with
      | Some e => (Some (Wrapf ("attach tracepoint " ++ probe_name p) e), ls, [])
      | None => let '(e, ls', tr) := attach_all ps' (ls ++ [p]) in (e, ls', Attached p :: tr)
      end
  end.

(** The kprobes: one that fails is skipped. *)
Fixpoint attach_some (ps ls : list Probe) : list Probe * list Effect :=
  match ps with
  | [] => (ls, [])
  | p :: ps' =>
      match k_attach k p with
      | Some _ => attach_some ps' ls
      | None => let '(ls', tr) := attach_some ps' (ls ++ [p]) in (ls', Attached p :: tr)
      end
  end.

Definition attach_libssl (opts : Options) (ls : list Probe) : list Probe * list Effect :=
  let path := if decide (LibSSLPath opts = "")
              then match findLibSSL with Ok p => p | Err _ => "" end else LibSSLPath opts in
  if decide (path = "") then (ls, []) else
  match k_open k path with
  | Some _ => (ls, [])
  | None => attach_some [Uprobe path] ls
  end.

Definition start_tracefs (opts : Options) : option error * list Effect :=
  if EnsureTracefs opts then ensureTracefs else (None, []).

Definition New (opts : Options) : res Life * list Effect :=
  match k_memlock k with
  | Some e => (Err (Wrapf "rlimit.RemoveMemlock" e), [])
  | None =>
  let '(te, tr0) := start_tracefs opts in
  match te with
  | Some e => (Err (Wrapf "tracefs" e), tr0)
  | None =>
  let loop := mkLoop (if (0 <? DedupWindow opts)%Z then Some (DedupWindow opts, ∅) else None)
                     ((100 * Millisecond)%Z, ∅) in
  match k_load k with
  | Some e => (Err (Wrapf "load BPF objects" e), tr0)
  | None =>
  let '(ae, ls, tr1) := attach_all tps [] in
  match ae with
  | Some e => (Err e, tr0 ++ [Loaded] ++ tr1 ++ tear_down false ls)
  | None =>
  let '(ls, tr2) := attach_some kps ls in
  let '(ls, tr3) := attach_libssl opts ls in
  match k_ringbuf k with
  | Some e => (Err (Wrapf "ringbuf reader" e), tr0 ++ [Loaded] ++ tr1 ++ tr2 ++ tr3 ++ tear_down false ls)
  | None => (Ok (mkLife ls true (mkSensor ∅ ∅ ∅) loop false None), tr0 ++ [Loaded] ++ tr1 ++ tr2 ++ tr3 ++ [ReaderOpened])
  end end end end end.
End start.

(** [Close]: the first call tears down and keeps the error of releasing the
    objects, [close_objs], which the later calls repeat; [del] says which
    deletions of a cgroup entry succeed. *)
Definition Close (del : Z -> bool) (close_objs : option error) (s : Life) : option error * Life * list Effect :=
  if closed_once s then (closeErr s, s, [])
  else (close_objs, mkLife [] (reader s) (tearDownAll del (maps s)) (loop0 s) true close_objs,
        tear_down (reader s) (links s)).

(** ** What is open after a history of effects *)
Record Open : Type := mkOpen { o_objects : bool; o_reader : bool; o_probes : list Probe }.
Definition nothing : Open := mkOpen false false [].

Fixpoint detach (p : Probe) (l : list Probe) : list Probe :=
  match l with
  | [] => []
  | q :: l' => if decide (q = p) then l' else q :: detach p l'
  end.

Definition apply_effect (o : Open) (e : Effect) : Open :=
  match e with
  | Mounted => o
  | Loaded => mkOpen true (o_reader o) (o_probes o)
  | ObjectsClosed => mkOpen false (o_reader o) (o_probes o)
  | Attached p => mkOpen (o_objects o) (o_reader o) (o_probes o ++ [p])
  | Detached p => mkOpen (o_objects o) (o_reader o) (detach p (o_probes o))
  | ReaderOpened => mkOpen (o_objects o) true (o_probes o)
  | ReaderClosed => mkOpen (o_objects o) false (o_probes o)
  end.
Definition open_after (tr : list Effect) : Open := foldl apply_effect nothing tr.

(** ** The goroutine behind [Events]

    The loop reads a record from the ring buffer, filters it ([events_step]
    of Sensor.v) and offers the event to the channel of 256; a second
    goroutine closes the reader when the context ends.  [g_taken] (the
    records read, with the clock reading of each), [g_received] (what the
    consumer got) and [g_lost] are ghost state. *)
Inductive Pc : Type := Reading | Offering (e : Event) | Returned.

Record Gor : Type := mkGor {
  g_pc : Pc;
  g_loop : Loop;
  g_ring : list (list ascii);
  g_reader_closed : bool;
  g_ctx_done : bool;
  g_chan : list Event;
  g_chan_closed : bool;
  g_taken : list (time * list ascii);
  g_received : list Event;
  g_lost : list Event
}.

Definition chan_cap : nat := 256.

Definition Events (l : Loop) (reader_closed ctx_done : bool) : Gor :=
  mkGor Reading l [] reader_closed ctx_done [] false [] [] [].

(** A record taken from the ring buffer. *)
Definition take (now : time) (raw : list ascii) (rest : list (list ascii)) (g : Gor) : Gor :=
  let '(o, l) := events_step now raw (g_loop g) in
  mkGor (match o with Some e => Offering e | None => Reading end) l rest (g_reader_closed g) (g_ctx_done g)
    (g_chan g) (g_chan_closed g) (g_taken g ++ [(now, raw)]) (g_received g) (g_lost g).

(** The goroutine returns: [defer close(out)]. *)
Definition return_ (lost : list Event) (g : Gor) : Gor :=
  mkGor Returned (g_loop g) (g_ring g) (g_reader_closed g) (g_ctx_done g) (g_chan g) true
    (g_taken g) (g_received g) (g_lost g ++ lost).

Definition offer (e : Event) (g : Gor) : Gor :=
  mkGor Reading (g_loop g) (g_ring g) (g_reader_closed g) (g_ctx_done g) (g_chan g ++ [e]) (g_chan_closed g)
    (g_taken g) (g_received g) (g_lost g).

Definition set_flags (rc cd : bool) (g : Gor) : Gor :=
  mkGor (g_pc g) (g_loop g) (g_ring g) rc cd (g_chan g) (g_chan_closed g) (g_taken g) (g_received g) (g_lost g).

(** The loop's own steps.  [reader.Read] fails when the reader is closed, and
    may fail otherwise ([os_fail]). *)
Inductive own_step : Gor -> Gor -> Prop :=
  | os_read g now raw rest :
      g_pc g = Reading -> g_reader_closed g = false -> g_ring g = raw :: rest -> own_step g (take now raw rest g)
  | os_fail g : g_pc g = Reading -> own_step g (return_ [] g)
  | os_send g e : g_pc g = Offering e -> length (g_chan g) < chan_cap -> own_step g (offer e g)
  | os_cancelled g e : g_pc g = Offering e -> g_ctx_done g = true -> own_step g (return_ [e] g).

(** The kernel, the consumer, the context, its watcher and [Sensor.Close]. *)
Inductive env_step : Gor -> Gor -> Prop :=
  | es_submit g raw :
      env_step g (mkGor (g_pc g) (g_loop g) (g_ring g ++ [raw]) (g_reader_closed g) (g_ctx_done g) (g_chan g)
                    (g_chan_closed g) (g_taken g) (g_received g) (g_lost g))
  | es_recv g e rest :
      g_chan g = e :: rest ->
      env_step g (mkGor (g_pc g) (g_loop g) (g_ring g) (g_reader_closed g) (g_ctx_done g) rest
                    (g_chan_closed g) (g_taken g) (g_received g ++ [e]) (g_lost g))
  | es_cancel g : env_step g (set_flags (g_reader_closed g) true g)
  | es_watcher g : g_ctx_done g = true -> env_step g (set_flags true true g)
  | es_close g : env_step g (set_flags true (g_ctx_done g) g).

Definition gor_step (g g' : Gor) : Prop := own_step g g' \/ env_step g g'.

(** What the records decode to, one after the other. *)
Fixpoint decode_run (rs : list (time * list ascii)) (l : Loop) : list Event * Loop :=
  match rs with
  | [] => ([], l)
  | (now, raw) :: rs' =>
      let '(o, l1) := events_step now raw l in
      let '(es, l2) := decode_run rs' l1 in
      (option_list o ++ es, l2)
  end.

Definition offered (g : Gor) : list Event := match g_pc g with Offering e => [e] | _ => [] end.

(** ** Start-up *)
Section lemmas.
Context (k : Kernel).

Definition attaches (p : Probe) : Prop := k_attach k p = None.
#[local] Instance attaches_dec p : Decision (attaches p).
Proof. unfold attaches. apply _. Defined.

(** Effects that attach the probes between two lists. *)
Definition attaching (ls ls' : list Probe) (tr : list Effect) : Prop :=
  forall ob rd, foldl apply_effect (mkOpen ob rd ls) tr = mkOpen ob rd ls'.

Lemma attaching_app ls ls' tr ob rd ef : attaching ls ls' tr ->
  foldl apply_effect (mkOpen ob rd ls) (tr ++ ef) = foldl apply_effect (mkOpen ob rd ls') ef.
Proof. intros H. by rewrite foldl_app, H. Qed.

Lemma attach_all_spec ps ls : let '(e, ls', tr) := attach_all k ps ls in
  attaching ls ls' tr /\
  match e with
  | None => ls' = ls ++ ps /\ Forall attaches ps
  | Some _ => ~ Forall attaches ps
  end.
Proof.
  revert ls. induction ps as [|p ps IH]; intros ls; simpl; [by rewrite app_nil_r|].
  destruct (k_attach k p) as [e|] eqn:E.
  - split; [done|]. rewrite Forall_cons. intros [Hp _]. unfold attaches in Hp. congruence.
  - specialize (IH (ls ++ [p])). destruct (attach_all k ps (ls ++ [p])) as [[e ls'] tr].
    destruct IH as [Ht He]. split; [intros ob rd; simpl; apply Ht|].
    destruct e; [rewrite Forall_cons; tauto|]. destruct He as [-> Hf]. rewrite <- app_assoc. split; [done|].
    by constructor.
Qed.

Lemma attach_some_spec ps ls : let '(ls', tr) := attach_some k ps ls in
  attaching ls ls' tr /\ ls' = ls ++ filter attaches ps.
Proof.
  revert ls. induction ps as [|p ps IH]; intros ls; simpl; [by rewrite app_nil_r|].
  rewrite filter_cons. case_decide as Hp; unfold attaches in Hp; [rewrite Hp | destruct (k_attach k p); [apply IH|done]].
  - specialize (IH (ls ++ [p])). destruct (attach_some k ps (ls ++ [p])) as [ls' tr].
    destruct IH as [Ht ->]. split; [intros ob rd; simpl; apply Ht|]. by rewrite <- app_assoc.
Qed.

(** The uprobe [New] adds, if any. *)
Definition uprobes (opts : Options) : list Probe := (attach_libssl k opts []).1.

Lemma attach_libssl_spec opts ls : let '(ls', tr) := attach_libssl k opts ls in
  attaching ls ls' tr /\ ls' = ls ++ uprobes opts.
Proof.
  unfold uprobes, attach_libssl. case_decide; [by rewrite app_nil_r|]. set (path := if decide _ then _ else _).
  destruct (k_open k path); [by rewrite app_nil_r|].
  pose proof (attach_some_spec [Uprobe path] ls) as H1. pose proof (attach_some_spec [Uprobe path] []) as H2.
  destruct (attach_some k [Uprobe path] ls), (attach_some k [Uprobe path] []). simpl in *.
  destruct H1 as [H1 ->], H2 as [_ ->]. done.
Qed.

Lemma tear_down_closes rd ls : foldl apply_effect (mkOpen true rd ls) (tear_down rd ls) = nothing.
Proof.
  unfold tear_down. rewrite !foldl_app.
  assert (Hl : foldl apply_effect (mkOpen true false ls) (Detached <$> ls) = mkOpen true false []).
  { induction ls as [|p ls IH]; [done|]. csimpl. by rewrite decide_True. }
  destruct rd; simpl; by rewrite Hl.
Qed.

Lemma ensureTracefs_opens : foldl apply_effect nothing (ensureTracefs k).2 = nothing.
Proof. unfold ensureTracefs. by destruct (k_tracing k), (k_mount k), (k_tracing_mounted k). Qed.

(** Tracefs is there, or was mounted. *)
Definition tracefs_ok (opts : Options) : Prop :=
  EnsureTracefs opts = true -> (ensureTracefs k).1 = None.

Lemma start_tracefs_spec opts :
  foldl apply_effect nothing (start_tracefs k opts).2 = nothing /\
  ((start_tracefs k opts).1 = None <-> tracefs_ok opts).
Proof.
  unfold start_tracefs, tracefs_ok. destruct (EnsureTracefs opts); [|naive_solver].
  split; [apply ensureTracefs_opens | naive_solver].
Qed.
End lemmas.

(** What [New] leaves open, on every branch. *)
Lemma New_outcome k opts :
  let '(r, tr) := New k opts in
  match r with
  | Err _ => open_after tr = nothing
  | Ok s => open_after tr = mkOpen true true (links s) /\
      links s = tps ++ filter (attaches k) kps ++ uprobes k opts /\
      closed_once s = false /\ reader s = true /\ maps s = mkSensor ∅ ∅ ∅
  end /\
  ((exists s, r = Ok s) <-> k_memlock k = None /\ tracefs_ok k opts /\ k_load k = None /\
                      Forall (attaches k) tps /\ k_ringbuf k = None).
Proof.
  unfold New. destruct (k_memlock k); [naive_solver|].
  pose proof (start_tracefs_spec k opts) as Ht. destruct (start_tracefs k opts) as [te tr0].
  destruct Ht as [Htr0 Hte]. simpl in Htr0, Hte. destruct te; [naive_solver|]. destruct Hte as [Hte _]. specialize (Hte eq_refl).
  destruct (k_load k); [naive_solver|].
  pose proof (attach_all_spec k tps []) as Ha. destruct (attach_all k tps []) as [[ae ls] tr1].
  destruct Ha as [Ha1 Ha]. destruct ae.
  { split; [|naive_solver]. unfold open_after. rewrite !foldl_app, Htr0. simpl. rewrite Ha1. apply tear_down_closes. }
  destruct Ha as [-> Hall]. simpl ([] ++ tps) in *.
  pose proof (attach_some_spec k kps tps) as Hs. destruct (attach_some k kps tps) as [ls2 tr2]. destruct Hs as [Ha2 ->].
  pose proof (attach_libssl_spec k opts (tps ++ filter (attaches k) kps)) as Hu.
  destruct (attach_libssl _ _ _) as [ls3 tr3]. destruct Hu as [Ha3 ->].
  assert (Hop : forall ef, foldl apply_effect nothing (tr0 ++ [Loaded] ++ tr1 ++ tr2 ++ tr3 ++ ef) = foldl apply_effect (mkOpen true false (tps ++ filter (attaches k) kps ++ uprobes k opts)) ef).
  { intros ef. rewrite foldl_app, Htr0. simpl.
    by rewrite (attaching_app _ _ _ _ _ _ Ha1), (attaching_app _ _ _ _ _ _ Ha2), (attaching_app _ _ _ _ _ _ Ha3), <- app_assoc. }
  unfold open_after. destruct (k_ringbuf k); [split; [rewrite Hop, <- app_assoc; apply tear_down_closes | naive_solver]|].
  split; [|naive_solver]. rewrite <- !app_assoc. split; [by rewrite Hop|]. done.
Qed.

Lemma Close_releases del ce s tr :
  open_after tr = mkOpen true true (links s) -> closed_once s = false -> reader s = true ->
  open_after (tr ++ (Close del ce s).2) = nothing.
Proof.
  intros Ho Hc Hr. unfold Close. rewrite Hc, Hr. cbn [snd]. unfold open_after in *. rewrite foldl_app, Ho.
  apply tear_down_closes.
Qed.

(** C35: [New] is all or nothing.  Whatever fails — a tracepoint after others were attached,
    the ring buffer after every probe — nothing stays attached, loaded or
    open; it succeeds exactly when the mandatory steps do, with all seven
    tracepoints and those of the optional probes that attach; and [Close]
    releases everything, once, later calls only repeating its error. *)
Theorem New_all_or_nothing k opts del ce :
  let '(r, tr) := New k opts in
  match r with
  | Err _ => open_after tr = nothing
  | Ok s =>
      open_after tr = mkOpen true true (links s) /\
      links s = tps ++ filter (attaches k) kps ++ uprobes k opts /\
      let '(err, s', tr') := Close del ce s in
      open_after (tr ++ tr') = nothing /\ err = ce /\
      forall del' ce', Close del' ce' s' = (ce, s', [])
  end /\
  ((exists s, r = Ok s) <-> k_memlock k = None /\ tracefs_ok k opts /\ k_load k = None /\
                      Forall (attaches k) tps /\ k_ringbuf k = None).
Proof.
  pose proof (New_outcome k opts) as Hn. destruct (New k opts) as [[s|e] tr]; destruct Hn as [Hn Hiff]; split; try done.
  destruct Hn as (Ho & Hl & Hc & Hr & _). split; [done|]. split; [done|].
  pose proof (Close_releases del ce s tr Ho Hc Hr) as Hcl. unfold Close in *. rewrite Hc in *. done.
Qed.

(** ** The event loop *)
Lemma decode_run_snoc rs now raw l :
  decode_run (rs ++ [(now, raw)]) l =
  let '(es, l1) := decode_run rs l in let '(o, l2) := events_step now raw l1 in (es ++ option_list o, l2).
Proof.
  revert l. induction rs as [|[n r] rs IH]; intros l; simpl.
  - destruct (events_step now raw l) as [o l2]. by rewrite app_nil_r.
  - destruct (events_step n r l) as [o l1]. rewrite IH. destruct (decode_run rs l1) as [es l2].
    destruct (events_step now raw l2). by rewrite app_assoc.
Qed.

Record gor_inv (l0 : Loop) (g : Gor) : Prop := {
  gi_decoded : decode_run (g_taken g) l0 = (g_received g ++ g_chan g ++ offered g ++ g_lost g, g_loop g);
  gi_cap : length (g_chan g) <= chan_cap;
  gi_closed : g_chan_closed g = true <-> g_pc g = Returned;
  gi_lost : g_lost g = [] \/ (g_pc g = Returned /\ g_ctx_done g = true /\ length (g_lost g) = 1)
}.

Lemma own_step_inv l0 g g' : gor_inv l0 g -> own_step g g' -> gor_inv l0 g'.
Proof.
  intros [Hd Hc Hcl Hl]. unfold offered in Hd.
  destruct 1 as [g now raw rest Hpc Hrc Hr|g Hpc|g e Hpc Hlt|g e Hpc Hx]; rewrite Hpc in *;
    (destruct Hl as [Hl|(? & _)]; [|done]); rewrite Hl in *; simpl in Hd; rewrite ?app_nil_r in Hd.
  - unfold take. destruct (events_step now raw (g_loop g)) as [o l] eqn:E.
    split; simpl; [| done | destruct o; naive_solver | by left].
    rewrite decode_run_snoc, Hd, E. unfold offered; simpl. rewrite Hl. by destruct o; simpl; rewrite <- !app_assoc, ?app_nil_r.
  - split; simpl; [by rewrite Hd, Hl, !app_nil_r | done | done | left; by rewrite Hl].
  - split; simpl; [|rewrite length_app; simpl; lia | naive_solver | by left].
    rewrite Hd, Hl. unfold offered. simpl. by rewrite app_nil_r.
  - split; simpl; [by rewrite Hd, Hl | done | done | right; by rewrite Hl].
Qed.

Lemma env_step_inv l0 g g' : gor_inv l0 g -> env_step g g' -> gor_inv l0 g'.
Proof.
  intros [Hd Hc Hcl Hl]. unfold offered in Hd. destruct 1; split; unfold offered; simpl; try done;
    try (destruct Hl as [?|(? & ? & ?)]; [by left|by right]).
  - rewrite Hd, H. by rewrite <- !app_assoc.
  - rewrite H in Hc. simpl in Hc. lia.
Qed.

Lemma gor_reachable l0 rc cd g : rtc gor_step (Events l0 rc cd) g -> gor_inv l0 g.
Proof.
  intros H. remember (Events l0 rc cd) as g0. assert (gor_inv l0 g0) as H0.
  { subst. split; simpl; [done | unfold chan_cap; lia | done | by left]. }
  clear Heqg0. induction H as [|g1 g2 g3 [Hs|Hs] _ IH]; [done| |]; apply IH; [eapply own_step_inv|eapply env_step_inv]; eauto.
Qed.

(** The steps the loop can still take once its reader is closed. *)
Definition todo (g : Gor) : nat := match g_pc g with Offering _ => 2 | Reading => 1 | Returned => 0 end.

Lemma own_step_closed g g' : own_step g g' -> g_reader_closed g = true -> todo g' < todo g /\ g_reader_closed g' = true.
Proof.
  intros H Hr. destruct H as [g now raw rest Hpc Hrc|g Hpc|g e Hpc|g e Hpc]; unfold todo; rewrite ?Hpc; simpl; [congruence|..]; lia || (split; [lia|done]).
Qed.

(** [Close] alone does not end the loop when nobody drains the channel. *)
Lemma full_channel_blocks g e :
  g_pc g = Offering e -> length (g_chan g) = chan_cap -> g_ctx_done g = false -> ~ exists g', own_step g g'.
Proof. intros Hpc Hf Hx [g' H]. destruct H; congruence || lia. Qed.

(** C18: the event channel.  However the kernel, the loop, the consumer, the
    cancellation and [Close] interleave, what the consumer received followed
    by what is in the channel and in hand is exactly what the records read so
    far decode to, in order; at most 256 events wait; the channel is closed
    exactly when the loop has returned; at most one event is ever lost, and
    only to a cancellation.  Once the reader is closed the loop ends within
    two of its own steps, and it can always take one unless the channel is
    full and the context is still alive. *)
Theorem events_delivered l0 rc cd g :
  rtc gor_step (Events l0 rc cd) g ->
  (exists lost, decode_run (g_taken g) l0 = (g_received g ++ g_chan g ++ offered g ++ lost, g_loop g) /\
     length lost <= 1 /\ (g_ctx_done g = false \/ g_pc g <> Returned -> lost = [])) /\
  length (g_chan g) <= chan_cap /\
  (g_chan_closed g = true <-> g_pc g = Returned) /\
  (g_reader_closed g = true ->
     (forall g', own_step g g' -> todo g' < todo g /\ g_reader_closed g' = true) /\
     (g_pc g = Returned \/ (exists g', own_step g g') \/ (length (g_chan g) = chan_cap /\ g_ctx_done g = false))).
Proof.
  intros H. destruct (gor_reachable _ _ _ _ H) as [Hd Hc Hcl Hl]. split_and!; [|done..|].
  - exists (g_lost g). split; [done|]. destruct Hl as [->|(? & ? & ->)]; [naive_solver lia|].
    split; [lia|]. intros [?|?]; congruence.
  - intros Hr. split; [intros g'; by intros; apply own_step_closed|].
    destruct (g_pc g) as [|e|] eqn:Hpc; [right; left; eexists; by apply os_fail | right | by left].
    destruct (decide (length (g_chan g) < chan_cap)); [left; eexists; by eapply os_send|].
    destruct (g_ctx_done g) eqn:Hx; [left; eexists; by eapply os_cancelled | right; split; [lia|done]].
Qed.

(** A connect is submitted, read and sent; the sensor is closed; the loop
    returns, and the event waits for its consumer. *)
Definition wit_loop : Loop := mkLoop None ((100 * Millisecond)%Z, ∅).
Definition wit_taken : Gor :=
  take 5 (enc_net wit_net) [] (mkGor Reading wit_loop [enc_net wit_net] false false [] false [] [] []).
Definition wit_sent : Gor := match g_pc wit_taken with Offering e => offer e wit_taken | _ => wit_taken end.
Definition wit_returned : Gor := return_ [] (set_flags true false wit_sent).

Lemma wit_returned_reachable : rtc gor_step (Events wit_loop false false) wit_returned.
Proof.
  eapply rtc_l; [right; by apply (es_submit _ (enc_net wit_net))|].
  eapply rtc_l; [left; by apply (os_read _ 5 (enc_net wit_net) [])|].
  eapply rtc_l; [|eapply rtc_l; [right; apply (es_close wit_sent)|apply rtc_once; left; by apply os_fail]].
  left. change (own_step wit_taken wit_sent). unfold wit_sent.
  destruct (g_pc wit_taken) as [|e|] eqn:E; [by vm_compute in E | | by vm_compute in E].
  apply os_send; [done | vm_compute; lia].
Qed.

Lemma events_delivered_witness :
  g_chan_closed wit_returned = true /\ length (g_chan wit_returned) = 1 /\
  (decode_run (g_taken wit_returned) wit_loop).1 = g_chan wit_returned.
Proof.
  destruct (events_delivered _ _ _ _ wit_returned_reachable) as ((lost & H & _ & Hl) & _ & Hc & _).
  split; [apply Hc; reflexivity|]. split; [vm_compute; reflexivity|].
  rewrite H, (Hl (or_introl eq_refl)). vm_compute. reflexivity.
Defined.

End SensorLife.
