(* ===== verification/Smoke.v ===== *)
(** * sensor-smoketest

    cmd/sensor-smoketest: main.go (the -watch flag, the run id, the run
    around one sensor) and output.go (the JSON line of each event).  The file
    system, the clock, the kernel and the JSON writer are parameters; a line
    is kept as a value of [eventJSON], and its ts_rel field is an argument.
    [None] is a panic. *)
From Stdlib Require Import Ascii.
From stdpp Require Import prelude strings gmap list.
From S2P Require Import Prelude GoTime Json Proto NetIP Parsing Wire Sensor SensorLife.

Module Smoke.
Import NetIP Parsing Wire Sensor.Sensor SensorLife.SensorLife.

(** ** The -watch flag *)
Record watchSpec : Type := mkWatchSpec { ws_Prefix : string; ws_CredTagged : bool }.

Definition spec_text (w : watchSpec) : string :=
  if ws_CredTagged w then ws_Prefix w +:+ "@cred" else ws_Prefix w.

Definition watchList_String (l : list watchSpec) : string :=
  match spec_text <$> l with
  | [] => ""
  | x :: l' => foldl (fun acc y => acc +:+ "," +:+ y) x l'
  end.

Definition watchList_Set (v : string) (w : list watchSpec) : res (list watchSpec) :=
  let credTagged := HasSuffix v "@cred" in
  let v := if credTagged then TrimSuffix v "@cred" else v in
  if decide (v = "") then Err (Errorf "empty path prefix")
  else if negb (HasPrefix v "/") then Err (Errorf "watch prefix must be absolute (start with /)")
  else if PathLen <? String.length v then Err (Errorf "watch prefix exceeds 256 bytes")
  else Ok (w ++ [mkWatchSpec v credTagged]).

(** ** The run id *)
Fixpoint hex_decode (l : list ascii) : option (list ascii) :=
  match l with
  | [] => Some []
  | a :: b :: l' =>
      x ← hex_val a; y ← hex_val b; r ← hex_decode l';
      Some (ascii_of_N (Z.to_N (16 * x + y)) :: r)
  | _ => None
  end.

(** Big-endian bytes. *)
Fixpoint be_bytes (n : nat) (z : Z) : list ascii :=
  match n with
  | O => []
  | S n' => be_bytes n' (z / 256) ++ [ascii_of_N (Z.to_N (z mod 256))]
  end.

Definition parseOrGenerateRunID (now : time) (hexStr : string) : res (list ascii) :=
  if decide (hexStr = "") then Ok (be_bytes 8 (wrapU 64 now) ++ replicate 8 "000"%char)
  else match hex_decode (list_of_string hexStr) with
       | None => Err (Wrapf "parse hex" (Errorf "encoding/hex"))
       | Some b => if negb (length b =? RunIDLen) then Err (Errorf "run id must be exactly 16 bytes (32 hex chars)")
                   else Ok b
       end.

(** ** Output *)
Record headerJSON : Type := mkHeaderJSON {
  hj_TsRel : string; hj_Type : string; hj_RunID : string; hj_CgroupID : Z; hj_PID : Z; hj_TID : Z; hj_PPID : Z;
  hj_UID : Z; hj_GID : Z; hj_Comm : string; hj_Tags : list string
}.
Record ancestorJSON : Type := mkAncestorJSON { aj_PID : Z; aj_PPID : Z; aj_Comm : string }.

Inductive eventJSON : Type :=
  | openatJSON (h : headerJSON) (dfd flags : Z) (path : string) (truncated : bool)
  | execJSON (h : headerJSON) (binary_path : string) (argc : Z) (argv : list string) (ancestors : list ancestorJSON)
  | netConnectJSON (h : headerJSON) (family dest_addr : string) (dest_port sockfd : Z)
  | dnsQueryJSON (h : headerJSON) (family dest_addr : string) (dest_port query_len : Z) (qname : string) (qtype : Z)
      (parse_err : option error)
  | tlsSniJSON (h : headerJSON) (source sni duplicate_of : string) (parse_err : option error).

Definition EventTagInteresting : Z := 1.
Definition EventTagCredAccess : Z := 2.

Definition decodeTags (b : Z) : list string :=
  (if decide (Z.land b EventTagInteresting = 0%Z) then [] else ["interesting"]) ++
  (if decide (Z.land b EventTagCredAccess = 0%Z) then [] else ["cred_access"]).

Definition familyString (f : Z) : string :=
  if (f =? AFInet)%Z then "ipv4" else if (f =? AFInet6)%Z then "ipv6" else "family_" +:+ decimal f.

(** The 16-bit groups of the address bytes. *)
Fixpoint groups (l : list ascii) : list Z :=
  match l with
  | a :: b :: l' => (Z.lor (Z.shiftl (ascii_Z a) 8) (ascii_Z b)) :: groups l'
  | _ => []
  end.

Definition formatIP (family : Z) (addr : list ascii) : string :=
  if (family =? AFInet)%Z then
    match addr with
    | a :: b :: c :: d :: _ => decimal (ascii_Z a) +:+ "." +:+ decimal (ascii_Z b) +:+ "." +:+
                               decimal (ascii_Z c) +:+ "." +:+ decimal (ascii_Z d)
    | _ => ""
    end
  else if (family =? AFInet6)%Z then
    if length addr <? 16 then "" else join_groups (groups (firstn 16 addr))
  else "".

Definition jsonifyHeader (ts_rel : string) (ev : Event) : headerJSON :=
  let h := event_header ev in
  mkHeaderJSON ts_rel (EventType_String (event_type ev)) (hex (h_RunID h)) (h_CgroupID h) (h_PID h) (h_TID h)
    (h_PPID h) (h_UID h) (h_GID h) (cstring (h_Comm h)) (decodeTags (h_Tags h)).

Fixpoint argv_json (lens argv : list ascii) (n i : nat) : option (list string) :=
  match n with
  | O => Some []
  | S n' =>
      let start := i * ArgvLen in
      len ← lens !! i;
      b ← slice argv start (start + Nat.min (val len) ArgvLen);
      l ← argv_json lens argv n' (S i);
      Some (cstring b :: l)
  end.

Fixpoint ancestors_json (l : list Ancestor) : list ancestorJSON :=
  match l with
  | [] => []
  | a :: l' => if (an_PID a =? 0)%Z && (an_PPID a =? 0)%Z then []
               else mkAncestorJSON (an_PID a) (an_PPID a) (cstring (an_Comm a)) :: ancestors_json l'
  end.

Definition eventToJSON (ts_rel : string) (ev : Event) : option eventJSON :=
  let h := jsonifyHeader ts_rel ev in
  match ev with
  | EvFileAccess e =>
      p ← slice (oa_Path (fa_ev e)) 0 (Nat.min (Z.to_nat (oa_PathLen (fa_ev e))) (length (oa_Path (fa_ev e))));
      Some (openatJSON h (oa_DFD (fa_ev e)) (oa_Flags (fa_ev e)) (cstring p) (oa_Truncated (fa_ev e) =? 1)%Z)
  | EvExec e =>
      argv ← argv_json (ex_ArgvLens (xe_ev e)) (ex_Argv (xe_ev e)) (Nat.min (Z.to_nat (ex_Argc (xe_ev e))) ArgvNum) 0;
      Some (execJSON h (cstring (ex_BinaryPath (xe_ev e))) (ex_Argc (xe_ev e)) argv
              (ancestors_json (ex_Ancestors (xe_ev e))))
  | EvNetConnect e =>
      Some (netConnectJSON h (familyString (nc_Family (ne_ev e))) (formatIP (nc_Family (ne_ev e)) (nc_DestAddr (ne_ev e)))
              (nc_DestPort (ne_ev e)) (nc_Sockfd (ne_ev e)))
  | EvDNSQuery e =>
      Some (dnsQueryJSON h (familyString (dq_Family (de_ev e))) (formatIP (dq_Family (de_ev e)) (dq_DestAddr (de_ev e)))
              (dq_DestPort (de_ev e)) (dq_QueryLen (de_ev e)) (de_QName e) (de_QType e) (de_ParseErr e))
  | EvTLSSNI e =>
      Some (tlsSniJSON h (TLSSourceName (ts_Source (te_ev e))) (te_SNI e) (te_DuplicateOf e) (te_ParseErr e))
  end.

(** ** The program *)
Section program.
Context (stat : string -> res Z) (k : Kernel) (add remove : MapCalls) (del : Z -> bool).
(** The JSON writer, and the error of releasing the kernel objects. *)
Context (encode : eventJSON -> option error) (close_objs : option error).

Definition cgroupIDFromPath (path : string) : res Z :=
  match stat path with Err e => Err (Wrapf "stat" e) | Ok ino => Ok ino end.

(** The print loop over the events of the channel: the lines printed and the
    error that ended it. *)
Fixpoint print_events (jsonOut : bool) (rel : nat -> string) (i : nat) (evs : list Event) :
    option (list eventJSON * option error) :=
  match evs with
  | [] => Some ([], None)
  | ev :: evs' =>
      if jsonOut then
        j ← eventToJSON (rel i) ev;
        match encode j with
        | Some e => Some ([], Some (Wrapf "json encode" e))
        | None => '(l, e) ← print_events jsonOut rel (S i) evs'; Some (j :: l, e)
        end
      else print_events jsonOut rel (S i) evs'
  end.

(** What a run did: its error, the lines printed, the kernel effects and the
    two maps it leaves. *)
Record RunResult : Type := mkRunResult {
  rr_err : option error; rr_out : list eventJSON; rr_trace : list Effect; rr_maps : Sensor
}.

Definition watched (l : list watchSpec) : list WatchedPath :=
  (fun w => mkWatchedPath (ws_Prefix w) (ws_CredTagged w)) <$> l.

(** The deferred calls run in reverse: RemoveCgroup, then Close. *)
Definition run (cgroupPath runIDHex : string) (jsonOut : bool) (watches : list watchSpec) (now : time)
    (rel : nat -> string) (evs : list Event) : option RunResult :=
  match cgroupIDFromPath cgroupPath with
  | Err e => Some (mkRunResult (Some (Wrapf "resolve cgroup id" e)) [] [] (mkSensor ∅ ∅ ∅))
  | Ok cgroupID =>
  match parseOrGenerateRunID now runIDHex with
  | Err e => Some (mkRunResult (Some (Wrapf "run id" e)) [] [] (mkSensor ∅ ∅ ∅))
  | Ok runID =>
  match New k (mkOptions "" true (5 * Second)) with
  | (Err e, tr) => Some (mkRunResult (Some e) [] tr (mkSensor ∅ ∅ ∅))
  | (Ok s, tr) =>
      let close m :=
        let '(_, s', tr') := Close del close_objs (mkLife (links s) (reader s) m (loop0 s) (closed_once s) (closeErr s)) in
        (tr ++ tr', maps s') in
      match AddCgroup add (mkAddCgroupOptions cgroupID runID (watched watches)) (maps s) with
      | (Err e, m) => let '(tr, m) := close m in Some (mkRunResult (Some (Wrapf "AddCgroup" e)) [] tr m)
      | (Ok _, m) =>
          '(out, e) ← print_events jsonOut rel 0 evs;
          let '(tr, m) := close (RemoveCgroup remove cgroupID m).2 in
          Some (mkRunResult e out tr m)
      end
  end end end.

(** [main]: the exit status, and what the run did if there was one. *)
Definition main (cgroupPath runIDHex : string) (jsonOut : bool) (watches : list watchSpec) (now : time)
    (rel : nat -> string) (evs : list Event) : option (Z * option RunResult) :=
  if decide (cgroupPath = "") then Some (2%Z, None)
  else match watches with
       | [] => Some (2%Z, None)
       | _ => r ← run cgroupPath runIDHex jsonOut watches now rel evs;
              Some (match rr_err r with Some _ => 1%Z | None => 0%Z end, Some r)
       end.
End program.

(** ** Suffixes *)
Lemma slice_split s n : slice_to s n +:+ slice_from s n = s.
Proof. unfold slice_to, slice_from. rewrite <- string_of_list_app, take_drop. apply string_of_list_of_string. Qed.

Lemma TrimSuffix_app s suf : HasSuffix (s +:+ suf) suf = true /\ TrimSuffix (s +:+ suf) suf = s.
Proof.
  assert (Hn : String.length (s +:+ suf) - String.length suf = String.length s) by (rewrite length_string_app; lia).
  assert (Hs : HasSuffix (s +:+ suf) suf = true).
  { unfold HasSuffix. rewrite Hn, slice_from_app, bool_decide_true by done. rewrite andb_true_r.
    apply Nat.leb_le. rewrite length_string_app. lia. }
  split; [done|]. unfold TrimSuffix. by rewrite Hs, Hn, slice_to_app.
Qed.

Lemma TrimSuffix_split s suf : HasSuffix s suf = true -> s = TrimSuffix s suf +:+ suf.
Proof.
  intros Hs. unfold TrimSuffix. rewrite Hs. unfold HasSuffix in Hs. apply andb_prop in Hs as [_ Hs%bool_decide_eq_true_1].
  transitivity (slice_to s (String.length s - String.length suf) +:+
    slice_from s (String.length s - String.length suf)); [by rewrite slice_split|by rewrite Hs].
Qed.

(** ** The -watch flag *)

(** The specification a flag value names. *)
Definition spec_of (v : string) : watchSpec :=
  let c := HasSuffix v "@cred" in mkWatchSpec (if c then TrimSuffix v "@cred" else v) c.

Definition valid_prefix (p : string) : Prop :=
  p <> "" /\ HasPrefix p "/" = true /\ String.length p <= PathLen.

Lemma Set_spec v l :
  (valid_prefix (ws_Prefix (spec_of v)) /\ watchList_Set v l = Ok (l ++ [spec_of v])) \/
  (~ valid_prefix (ws_Prefix (spec_of v)) /\ exists e, watchList_Set v l = Err e).
Proof.
  unfold watchList_Set, valid_prefix, spec_of. cbn [ws_Prefix]. set (p := if HasSuffix v "@cred" then _ else _).
  case_decide; [right; split; [tauto|by eexists]|].
  destruct (HasPrefix p "/"); simpl; [|right; split; [naive_solver|by eexists]].
  destruct (Nat.ltb_spec PathLen (String.length p)); [right; split; [intros (_ & _ & ?); lia|by eexists]|].
  left. split; [done|done].
Qed.

Lemma spec_text_of v : spec_text (spec_of v) = v.
Proof.
  unfold spec_text, spec_of. simpl. destruct (HasSuffix v "@cred") eqn:E; [|done]. by rewrite <- TrimSuffix_split.
Qed.

(** An untagged prefix that ends in "@cred" has no flag value. *)
Lemma spec_of_text w :
  spec_of (spec_text w) = w \/ (ws_CredTagged w = false /\ HasSuffix (ws_Prefix w) "@cred" = true).
Proof.
  destruct w as [p []]; unfold spec_of, spec_text; simpl.
  - left. destruct (TrimSuffix_app p "@cred") as [-> ->]. done.
  - destruct (HasSuffix p "@cred"); [by right|by left].
Qed.

Lemma valid_prefix_key p : valid_prefix p -> 1 <= String.length p <= PathLen /\ is_Ok (buildPathFilterKey p) = true.
Proof.
  intros (Hp & _ & Hl). assert (1 <= String.length p) by (destruct p; [done|simpl; lia]).
  split; [done|]. unfold buildPathFilterKey. rewrite decide_False by lia. done.
Qed.

(** The flag round trip, and what it promises to the sensor.  [Set]
    appends one specification or none; what it accepts is an absolute path of
    1 to 256 bytes, for which the path filter has a key; and giving the text
    of an accepted specification again yields the same specification. *)
Theorem watch_flag_roundtrip v ws :
  match watchList_Set v ws with
  | Ok ws' => exists w, ws' = ws ++ [w] /\ spec_text w = v /\
      HasPrefix (ws_Prefix w) "/" = true /\ 1 <= String.length (ws_Prefix w) <= PathLen /\
      is_Ok (buildPathFilterKey (ws_Prefix w)) = true /\
      forall l, watchList_Set (spec_text w) l = Ok (l ++ [w])
  | Err _ => forall w, spec_text w = v -> ws_Prefix w = "" \/ HasPrefix (ws_Prefix w) "/" = false \/
      PathLen < String.length (ws_Prefix w) \/ (ws_CredTagged w = false /\ HasSuffix (ws_Prefix w) "@cred" = true)
  end.
Proof.
  destruct (Set_spec v ws) as [[Hv ->]|[Hv [e ->]]].
  - exists (spec_of v). rewrite spec_text_of. split; [done|]. split; [done|]. destruct (valid_prefix_key _ Hv).
    split_and!; try lia; [apply Hv|done|]. intros l. by destruct (Set_spec v l) as [[_ ?]|[? _]].
  - intros w <-. destruct (spec_of_text w) as [E|?]; [|tauto]. rewrite E in Hv. unfold valid_prefix in Hv.
    destruct (decide (ws_Prefix w = "")); [tauto|]. destruct (HasPrefix (ws_Prefix w) "/"); [|tauto].
    destruct (decide (String.length (ws_Prefix w) <= PathLen)); [tauto|]. right. right. left. lia.
Qed.

(** ** Output against the sensor's own decoding *)
Lemma decoded_open {A B} (m : R A) (f : A -> option (res B)) raw what ev :
  match m raw with None => Some (Err (short_read what)) | Some (a, _) => f a end = Some (Ok ev) ->
  exists a s, m raw = Some (a, s) /\ f a = Some (Ok ev).
Proof. destruct (m raw) as [[a s]|]; [eauto|done]. Qed.

Lemma ascii_byte (c : ascii) : (0 <= ascii_Z c < 256)%Z.
Proof. apply ascii_Z_range. Qed.

Lemma v4_bytes a b c d :
  v4_string (be_val [a; b; c; d]) =
  decimal (ascii_Z a) +:+ "." +:+ decimal (ascii_Z b) +:+ "." +:+ decimal (ascii_Z c) +:+ "." +:+ decimal (ascii_Z d).
Proof.
  pose proof (ascii_byte a). pose proof (ascii_byte b). pose proof (ascii_byte c). pose proof (ascii_byte d).
  cbn [be_val length]. change (256 ^ Z.of_nat 3)%Z with 16777216%Z. change (256 ^ Z.of_nat 2)%Z with 65536%Z.
  change (256 ^ Z.of_nat 1)%Z with 256%Z. change (256 ^ Z.of_nat 0)%Z with 1%Z.
  unfold v4_string. change (2 ^ 24)%Z with 16777216%Z. change (2 ^ 16)%Z with 65536%Z. change (2 ^ 8)%Z with 256%Z.
  set (x := ascii_Z a) in *. set (y := ascii_Z b) in *. set (z := ascii_Z c) in *. set (t := ascii_Z d) in *.
  assert ((x * 16777216 + (y * 65536 + (z * 256 + (t * 1 + 0)))) / 16777216 mod 256 = x)%Z as -> by
    (rewrite Z.div_add_l, (Z.div_small (y * 65536 + _)), Z.add_0_r, Z.mod_small by lia; lia).
  replace (x * 16777216 + (y * 65536 + (z * 256 + (t * 1 + 0))))%Z with ((x * 256 + y) * 65536 + (z * 256 + t))%Z by lia.
  assert (((x * 256 + y) * 65536 + (z * 256 + t)) / 65536 mod 256 = y)%Z as ->.
  { rewrite Z.div_add_l, (Z.div_small (z * 256 + t)), Z.add_0_r, Z.add_comm, Z.mod_add, Z.mod_small by lia. lia. }
  replace ((x * 256 + y) * 65536 + (z * 256 + t))%Z with (((x * 256 + y) * 256 + z) * 256 + t)%Z by lia.
  assert ((((x * 256 + y) * 256 + z) * 256 + t) / 256 mod 256 = z)%Z as ->.
  { rewrite Z.div_add_l, (Z.div_small t), Z.add_0_r, Z.add_comm, Z.mod_add, Z.mod_small by lia. lia. }
  by rewrite Z.add_comm, Z.mod_add, Z.mod_small by lia.
Qed.

Lemma formatIP_v4 addr : length addr = DestAddrLen -> formatIP AFInet addr = formatDestIP AFInet addr.
Proof.
  intros Hl. unfold formatIP, formatDestIP. change (AFInet =? AFInet)%Z with true. cbn iota.
  destruct addr as [|a [|b [|c [|d addr]]]]; try done. unfold IP_String.
  pose proof (be_val4 (a :: b :: c :: d :: addr)) as Hb. cbn [firstn] in Hb |- *. rewrite To4_of_v4 by done.
  by rewrite v4_bytes.
Qed.

(** What the kernel side writes: argument lengths within their slots, no
    parent for the missing ancestor. *)
Definition kernel_lens (lens : list ascii) : Prop := Forall (fun c => val c <= ArgvLen) lens.
Definition kernel_ancestors (l : list Ancestor) : Prop := Forall (fun a => an_PID a = 0%Z -> an_PPID a = 0%Z) l.

Lemma argv_json_total lens argv n i :
  length lens = ArgvNum -> length argv = ArgvNum * ArgvLen -> i + n <= ArgvNum ->
  exists l, argv_json lens argv n i = Some l /\ length l = n.
Proof.
  intros Hl Ha. revert i. induction n as [|n IH]; intros i Hi; [by exists []|]. cbn [argv_json].
  destruct (lookup_ok lens i) as [c ->]; [lia|]. cbn [mbind option_bind].
  unfold ArgvNum, ArgvLen in *.
  destruct (slice_ok argv (i * 64) (i * 64 + Nat.min (val c) 64)) as [b ->]; [lia|]. cbn [mbind option_bind].
  destruct (IH (S i)) as (l & -> & Hn); [lia|]. eexists. split; [done|]. simpl. by rewrite Hn.
Qed.

Lemma argv_json_strings lens argv n i :
  length lens = ArgvNum -> length argv = ArgvNum * ArgvLen -> i + n <= ArgvNum -> kernel_lens lens ->
  argv_json lens argv n i = argv_strings lens argv n i.
Proof.
  intros Hl Ha Hi Hk. revert i Hi. induction n as [|n IH]; intros i Hi; [done|]. cbn [argv_json argv_strings].
  destruct (lookup_ok lens i) as [c Hc]; [lia|]. rewrite Hc. cbn [mbind option_bind].
  assert (val c <= ArgvLen) by (eapply (proj1 (Forall_lookup _ _) Hk); done).
  unfold ArgvNum, ArgvLen in *. rewrite IH by lia. rewrite Nat.min_l by lia.
  by destruct (Nat.ltb_spec (length argv) (i * 64 + val c)); [lia|].
Qed.

Lemma ancestors_json_comms l : kernel_ancestors l -> aj_Comm <$> ancestors_json l = ancestor_comms l.
Proof.
  induction 1 as [|a l Ha _ IH]; [done|]. cbn [ancestors_json ancestor_comms].
  destruct (Z.eqb_spec (an_PID a) 0); cbn [andb]; [by rewrite Ha|]. by rewrite fmap_cons, IH.
Qed.

(** Fields of what a decoder returns. *)
Lemma rd_net_addr raw ev s : rd_net raw = Some (ev, s) -> length (nc_DestAddr ev) = DestAddrLen.
Proof.
  unfold rd_net. intros Hr. repeat (apply R_bind_Some in Hr as (? & ? & ? & Hr)). injection Hr as <- <-.
  repeat match goal with H : rd_bytes _ _ = Some _ |- _ => apply rd_bytes_Some in H as [-> ?] end. done.
Qed.
Lemma rd_dns_addr raw ev s : rd_dns raw = Some (ev, s) -> length (dq_DestAddr ev) = DestAddrLen.
Proof.
  unfold rd_dns. intros Hr. repeat (apply R_bind_Some in Hr as (? & ? & ? & Hr)). injection Hr as <- <-.
  repeat match goal with H : rd_bytes _ _ = Some _ |- _ => apply rd_bytes_Some in H as [-> ?] end. done.
Qed.

Lemma decodeDNSQueryEvent_fields raw e : decodeDNSQueryEvent raw = Some (Ok e) ->
  length (dq_DestAddr (de_ev e)) = DestAddrLen /\ de_DestIP e = formatDestIP (dq_Family (de_ev e)) (dq_DestAddr (de_ev e)).
Proof.
  unfold decodeDNSQueryEvent. destruct (rd_dns raw) as [[ev s]|] eqn:E; [|done]. apply rd_dns_addr in E.
  destruct (slice _ _ _); [|done]. cbn [mbind option_bind].
  destruct (parseDNSQuestion _) as [[[? ?]|?]|]; [| |done]; by intros [= <-].
Qed.

Lemma decodeTLSSniEvent_source raw e : decodeTLSSniEvent raw = Some (Ok e) ->
  te_SourceName e = TLSSourceName (ts_Source (te_ev e)).
Proof.
  unfold decodeTLSSniEvent. destruct (rd_tls raw) as [[ev s]|]; [|done]. intros Hd.
  repeat (case_match; simplify_eq/=; try done);
    repeat (destruct (slice _ _ _); cbn [mbind option_bind] in Hd; simplify_eq/=; try done);
    destruct (parseClientHelloSNI _) as [[?|?]|]; cbn [mbind option_bind] in Hd; by simplify_eq/=.
Qed.

(** The line printed for a decoded event, next to the sensor's own strings. *)
Definition agrees (rel : string) (ev : Event) : Prop :=
  let h := jsonifyHeader rel ev in
  match ev with
  | EvFileAccess e => eventToJSON rel ev =
      Some (openatJSON h (oa_DFD (fa_ev e)) (oa_Flags (fa_ev e)) (fa_PathName e) (oa_Truncated (fa_ev e) =? 1)%Z)
  | EvExec e => exists argv anc,
      eventToJSON rel ev = Some (execJSON h (xe_BinaryPathStr e) (ex_Argc (xe_ev e)) argv anc) /\
      length argv = Nat.min (Z.to_nat (ex_Argc (xe_ev e))) ArgvNum /\
      (kernel_lens (ex_ArgvLens (xe_ev e)) -> argv = xe_ArgvStrs e) /\
      (kernel_ancestors (ex_Ancestors (xe_ev e)) -> aj_Comm <$> anc = xe_AncestorComms e)
  | EvNetConnect e => exists addr,
      eventToJSON rel ev = Some (netConnectJSON h (familyString (nc_Family (ne_ev e))) addr
                                   (nc_DestPort (ne_ev e)) (nc_Sockfd (ne_ev e))) /\
      (nc_Family (ne_ev e) = AFInet -> addr = ne_DestIP e)
  | EvDNSQuery e => exists addr,
      eventToJSON rel ev = Some (dnsQueryJSON h (familyString (dq_Family (de_ev e))) addr (dq_DestPort (de_ev e))
                                   (dq_QueryLen (de_ev e)) (de_QName e) (de_QType e) (de_ParseErr e)) /\
      (dq_Family (de_ev e) = AFInet -> addr = de_DestIP e)
  | EvTLSSNI e => eventToJSON rel ev =
      Some (tlsSniJSON h (te_SourceName e) (te_SNI e) (te_DuplicateOf e) (te_ParseErr e))
  end.

Lemma decoded_agrees rel raw ev : decodeRecord raw = Some (Ok ev) -> agrees rel ev.
Proof.
  unfold agrees, decodeRecord. destruct (raw !! _); [|done]. cbn [mbind option_bind]. intros Hd.
  repeat match type of Hd with (if ?c then _ else _) = _ => destruct c end; [..|done];
    match type of Hd with lift_event _ ?d = _ => destruct d as [[e|?]|] eqn:E end; try done; injection Hd as <-; cbn zeta.
  - unfold decodeOpenatEvent in E. destruct (rd_openat raw) as [[o s]|]; [|done]. revert E.
    unfold eventToJSON. destruct (slice _ _ _) as [p|] eqn:Ep; cbn [mbind option_bind]; [|done]. intros [= <-].
    cbn [fa_ev fa_PathName]. by rewrite Ep.
  - unfold decodeExecEvent in E. destruct (rd_exec raw) as [[x s]|] eqn:Ex; [|done].
    apply rd_exec_lengths in Ex as [Hl Ha]. revert E. destruct (argv_strings _ _ _ _) as [l|] eqn:Ea; [|done].
    cbn [mbind option_bind]. intros [= <-]. unfold eventToJSON. cbn [xe_ev xe_ArgvStrs xe_BinaryPathStr xe_AncestorComms].
    destruct (argv_json_total (ex_ArgvLens x) (ex_Argv x) (Nat.min (Z.to_nat (ex_Argc x)) ArgvNum) 0 Hl Ha)
      as (l' & Ej & Hn); [lia|]. rewrite Ej. cbn [mbind option_bind]. eexists _, _. split; [done|]. split; [done|].
    split; [|apply ancestors_json_comms]. intros Hk. rewrite argv_json_strings, Ea in Ej by (done || lia). congruence.
  - unfold decodeNetConnectEvent in E. destruct (rd_net raw) as [[x s]|] eqn:Ex; [|done]. apply rd_net_addr in Ex.
    injection E as <-. eexists. split; [done|]. cbn [ne_ev ne_DestIP]. intros ->. by apply formatIP_v4.
  - apply decodeDNSQueryEvent_fields in E as [Hl ->]. eexists. split; [done|]. intros ->. by apply formatIP_v4.
  - apply decodeTLSSniEvent_source in E as ->. done.
Qed.

(** Two decoders, one answer.  The smoke test prints every event the
    sensor decodes, without a panic, and shapes it anew from the packed
    fields: path, binary, SNI, query and IPv4 address are those the runner
    sends, and so are the arguments and the ancestors' names as long as the
    kernel side keeps every argument in its slot and leaves an absent
    ancestor without a parent. *)
Theorem eventToJSON_agrees rel raw ev : decodeRecord raw = Some (Ok ev) -> agrees rel ev.
Proof. apply decoded_agrees. Qed.

Lemma eventToJSON_agrees_witness : exists h,
  eventToJSON "0.000000" (EvNetConnect (mkNetConnectEventD wit_net "104.16.1.34" "node")) =
    Some (netConnectJSON h "ipv4" "104.16.1.34" 443 7).
Proof.
  destruct (eventToJSON_agrees "0.000000" (enc_net wit_net) (EvNetConnect (mkNetConnectEventD wit_net "104.16.1.34" "node")))
    as (addr & E & Ha); [vm_compute; reflexivity|].
  eexists. rewrite E, (Ha eq_refl). reflexivity.
Defined.

(** ** The run *)
Lemma agrees_printable rel ev : agrees rel ev -> is_Some (eventToJSON rel ev).
Proof. unfold agrees. destruct ev; intros Ha; [by rewrite Ha|naive_solver..]. Qed.

(** Everything the event loop offers can be printed. *)
Lemma events_step_printable rel now raw l ev l' :
  events_step now raw l = (Some ev, l') -> is_Some (eventToJSON rel ev).
Proof.
  unfold events_step. destruct (_ <? _); [done|]. destruct (decodeRecord raw) as [[ev0|?]|] eqn:E; [|done..].
  pose proof (agrees_printable rel _ (decoded_agrees rel raw ev0 E)) as Hp. destruct ev0; try (by intros [= <- _]).
  - case_decide; [by intros [= <- _]|]. destruct (connDedup l). destruct (conn_observe _ _ _ _ _ _ _ _) as [[] ?]; [done|].
    by intros [= <- _].
  - destruct (dedup l) as [[w seen]|]; [|by intros [= <- _]]. case_decide; [by intros [= <- _]|].
    destruct (tls_observe _ _ _ _ _ _). intros [= <- _]. by eexists.
Qed.

Lemma decode_run_printable rel rs l : Forall (fun ev => is_Some (eventToJSON rel ev)) (decode_run rs l).1.
Proof.
  revert l. induction rs as [|[now raw] rs IH]; intros l; simpl; [done|].
  destruct (events_step now raw l) as [o l1] eqn:E. specialize (IH l1). destruct (decode_run rs l1) as [es l2].
  destruct o as [ev|]; simpl; [|done]. constructor; [by eapply events_step_printable|done].
Qed.

Lemma print_events_spec encode jsonOut rel i evs :
  (forall j, Forall (fun ev => is_Some (eventToJSON (rel j) ev)) evs) ->
  exists out e, print_events encode jsonOut rel i evs = Some (out, e) /\
    (e = None -> out = if jsonOut then omap id (imap (fun j ev => eventToJSON (rel (i + j)) ev) evs) else []) /\
    length out <= length evs.
Proof.
  revert i. induction evs as [|ev evs IH]; intros i Hp; [by exists [], None; destruct jsonOut|].
  assert (Hp' : forall j, Forall (fun ev => is_Some (eventToJSON (rel j) ev)) evs) by (intros j; by apply (Forall_cons_1 _ _ _ (Hp j))).
  destruct (IH (S i) Hp') as (out & e & E & Ho & Hl). simpl. destruct jsonOut; [|by exists out, e; rewrite E; auto].
  destruct (Forall_cons_1 _ _ _ (Hp i)) as [[j Hj] _]. rewrite Nat.add_0_r, Hj. cbn [mbind option_bind].
  destruct (encode j) as [er|].
  - exists [], (Some (Wrapf "json encode" er)). simpl. split; [done|]. split; [done|lia].
  - rewrite E. exists (j :: out), e. split; [done|]. split; [|simpl; lia]. intros He. simpl. rewrite (Ho He).
    f_equal. f_equal. apply imap_ext. intros k x _. simpl. by rewrite Nat.add_succ_r.
Qed.

(** From the empty sensor a registration, undone or failed, leaves nothing
    registered, and nothing in the maps when the deletions succeed. *)
Lemma AddCgroup_from_empty add remove opts :
  let '(r, m) := AddCgroup add opts (mkSensor ∅ ∅ ∅) in
  let m' := match r with Err _ => m | Ok _ => (RemoveCgroup remove (ac_CgroupID opts) m).2 end in
  registered m' = ∅ /\ (deletes_ok add -> deletes_ok remove -> m' = mkSensor ∅ ∅ ∅).
Proof.
  assert (Hf : fresh_paths (ac_WatchedPaths opts) (mkSensor ∅ ∅ ∅)) by (intros w k _ _; apply lookup_empty).
  destruct (AddCgroup _ _ _) as [[u|e] m] eqn:E; cbv zeta.
  - pose proof (AddCgroup_removed add remove opts _ _ _ (fun _ => lookup_empty _) Hf E) as R.
    split; [apply R|]. intros _ Hr. by apply (restored_exact _ _ _ _ _ R).
  - pose proof (AddCgroup_failed add opts _ _ _ (fun _ => lookup_empty _) Hf E) as R.
    split; [apply R|]. intros Ha _. by apply (restored_exact _ _ _ _ _ R).
Qed.

(** The smoke test cleans up after itself.  Whatever fails — the path, the
    run id, any probe, either kernel map, the writer in the middle of the
    stream — a run over whatever the ring buffer held ends without a panic,
    with no probe attached, nothing loaded or open and no cgroup registered,
    and it had emptied both maps unless a deletion failed; it prints at most one line per event, and without an error exactly the line
    of each event, in order. *)
Theorem run_cleans_up stat k add remove del encode ce cgroupPath runIDHex jsonOut watches now rel rs l :
  let evs := (decode_run rs l).1 in
  exists r, run stat k add remove del encode ce cgroupPath runIDHex jsonOut watches now rel evs = Some r /\
    open_after (rr_trace r) = nothing /\ registered (rr_maps r) = ∅ /\
    (deletes_ok add -> deletes_ok remove -> rr_maps r = mkSensor ∅ ∅ ∅) /\
    length (rr_out r) <= length evs /\
    (rr_err r = None ->
       rr_out r = (if jsonOut then omap id (imap (fun i ev => eventToJSON (rel i) ev) evs) else []) /\
       is_Ok (stat cgroupPath) = true /\ is_Ok (parseOrGenerateRunID now runIDHex) = true /\ watches <> []).
Proof.
  cbn zeta. set (evs := (decode_run rs l).1).
  destruct (print_events_spec encode jsonOut rel 0 evs) as (out & pe & Ep & Ho & Hl); [intros j; apply decode_run_printable|].
  unfold run, cgroupIDFromPath. destruct (stat cgroupPath) as [ino|e]; [|by eexists; split; [done|]; split_and!; try done; simpl; lia].
  destruct (parseOrGenerateRunID now runIDHex) as [id|e]; [|by eexists; split; [done|]; split_and!; try done; simpl; lia].
  pose proof (New_outcome k (mkOptions "" true (5 * Second))) as Hn.
  destruct (New k (mkOptions "" true (5 * Second))) as [[s|e] tr]; destruct Hn as [Hn _];
    [|by eexists; split; [done|]; split_and!; try done; simpl; lia].
  destruct Hn as (Hopen & _ & Hc & Hr & Hm). rewrite Hm.
  assert (Hclose : forall m,
    let '(_, s', tr') := Close del ce (mkLife (links s) (reader s) m (loop0 s) (closed_once s) (closeErr s)) in
    open_after (tr ++ tr') = nothing /\ registered (maps s') = ∅ /\
    (m = mkSensor ∅ ∅ ∅ -> maps s' = mkSensor ∅ ∅ ∅)).
  { intros m. pose proof (Close_releases del ce (mkLife (links s) (reader s) m (loop0 s) (closed_once s) (closeErr s)) tr Hopen Hc Hr) as Hx.
    unfold Close in *. cbn [closed_once] in *. rewrite Hc in *. split; [done|]. split; [done|]. by intros ->. }
  pose proof (AddCgroup_from_empty add remove (mkAddCgroupOptions ino id (watched watches))) as Ha.
  assert (Hw : watches = [] -> exists e, (AddCgroup add (mkAddCgroupOptions ino id (watched watches)) (mkSensor ∅ ∅ ∅)).1 = Err e).
  { intros ->. unfold AddCgroup. simpl. by eexists. }
  destruct (AddCgroup _ _ _) as [[u|e] m]; destruct Ha as [_ Ha].
  - rewrite Ep. cbn [mbind option_bind ac_CgroupID] in Ha |- *.
    specialize (Hclose (RemoveCgroup remove ino m).2). destruct (Close _ _ _) as [[? s'] tr']. destruct Hclose as (Ht & Hs & Hm0).
    eexists. split; [done|]. split_and!; [done|done|by intros; apply Hm0, Ha|done|]. cbn [rr_err rr_out]. intros He.
    split_and!; [by rewrite (Ho He)|done|done|]. intros ->. by destruct Hw.
  - specialize (Hclose m). destruct (Close _ _ _) as [[? s'] tr']. destruct Hclose as (Ht & Hs & Hm0).
    eexists. split; [done|]. split_and!; [done|done|by intros; apply Hm0, Ha|simpl; lia|done].
Qed.

(** A run over one connect, on a kernel that accepts everything. *)
Definition wit_kernel : Kernel :=
  mkKernel None true true None None (fun _ => None) (fun _ => false) (fun _ => None) None.

Lemma run_cleans_up_witness : exists r,
  run (fun _ => Ok 7%Z) wit_kernel all_ok all_ok (fun _ => true) (fun _ => None) None "/cg" "" true
    [mkWatchSpec "/etc" true] 1%Z (fun _ => "0") (decode_run [(5%Z, enc_net wit_net)] wit_loop).1 = Some r /\
  open_after (rr_trace r) = nothing /\ rr_maps r = mkSensor ∅ ∅ ∅.
Proof.
  destruct (run_cleans_up (fun _ => Ok 7%Z) wit_kernel all_ok all_ok (fun _ => true) (fun _ => None) None "/cg" "" true
    [mkWatchSpec "/etc" true] 1%Z (fun _ => "0") [(5%Z, enc_net wit_net)] wit_loop) as (r & E & Ht & _ & Hm & _).
  exists r. split; [exact E|]. split; [exact Ht|by apply Hm].
Defined.

(** ** The run id *)
Lemma nibble_val n : (n < 16)%N -> hex_val (nibble n) = Some (Z.of_N n).
Proof.
  intros Hn. assert (Hall : Forall (fun m => hex_val (nibble (N.of_nat m)) = Some (Z.of_nat m)) (seq 0 16))
    by (apply (bool_decide_eq_true_1 _); vm_compute; reflexivity).
  rewrite Forall_forall in Hall. specialize (Hall (N.to_nat n)). rewrite N2Nat.id in Hall.
  rewrite Hall; [f_equal; lia|]. apply elem_of_seq. lia.
Qed.

Lemma hex_decode_hex l : hex_decode (list_of_string (hex l)) = Some l.
Proof.
  unfold hex. rewrite list_of_string_of_list. induction l as [|b l IH]; [done|]. csimpl.
  pose proof (N_ascii_bounded b).
  rewrite (nibble_val (N_of_ascii b / 16)) by (apply N.Div0.div_lt_upper_bound; lia).
  rewrite (nibble_val (N_of_ascii b mod 16)) by (apply N.mod_lt; lia). cbn [mbind option_bind]. rewrite IH. cbn [mbind option_bind]. do 2 f_equal.
  transitivity (ascii_of_N (N_of_ascii b)); [f_equal | apply ascii_N_embedding].
  pose proof (N.div_mod (N_of_ascii b) 16 ltac:(lia)). lia.
Qed.

(** the run id.  The hex text of any 16 bytes is read back as those
    bytes, every id accepted has 16 bytes, and with no flag one is
    generated. *)
Theorem run_id_roundtrip now id hexStr :
  (length id = RunIDLen -> parseOrGenerateRunID now (hex id) = Ok id) /\
  (forall b, parseOrGenerateRunID now hexStr = Ok b -> length b = RunIDLen) /\
  is_Ok (parseOrGenerateRunID now "") = true.
Proof.
  unfold parseOrGenerateRunID. split_and!; [|intros b|done].
  - intros Hl. rewrite decide_False, hex_decode_hex by (destruct id; [done|by intros ?]). by rewrite Hl.
  - case_decide; [by intros [= <-]|].
    destruct (hex_decode _) as [c|]; [|done]. destruct (Nat.eqb_spec (length c) RunIDLen); [|done]. by intros [= <-].
Qed.

Lemma run_id_roundtrip_witness : parseOrGenerateRunID 0 (hex (zeros 16)) = Ok (zeros 16).
Proof. apply (proj1 (run_id_roundtrip 0 (zeros 16) "")). reflexivity. Defined.

Lemma watch_flag_roundtrip_witness :
  exists w, spec_text w = "/root/.ssh@cred" /\ watchList_Set (spec_text w) [] = Ok [w].
Proof.
  destruct (watch_flag_roundtrip "/root/.ssh@cred" []) as (w & _ & Ht & _ & _ & _ & H).
  exists w. split; [exact Ht|]. apply H.
Defined.
End Smoke.
