(* ===== verification/Dispatcher.v ===== *)
(** * core: the job dispatcher

    internal/orchestrator/core/dispatcher.go.  The critical sections under the
    mutex are functions on the dispatcher's state; [QueueJob] and [PollJob]
    are threads that interleave at the points where the mutex is not held: the
    wake-up is sent after the lock is released, and a long-poller blocks on
    its channel outside the lock. *)
From Stdlib Require Import Ascii.
From stdpp Require Import prelude strings gmap list relations.
From S2P Require Import Prelude GoTime Json Proto.

Module Dispatcher.

(** ** State and critical sections *)

(** A wake channel has a buffer of one: [true] when a token is in it. *)
Record Dispatcher : Type := mkDispatcher {
  queues : gmap string (list Job);
  signals : gmap string bool
}.

Definition New : Dispatcher := mkDispatcher ∅ ∅.

Definition jobs_of (runner : string) (d : Dispatcher) : list Job := default [] (queues d !! runner).
Definition QueueDepth (runner : string) (d : Dispatcher) : nat := length (jobs_of runner d).

Definition getSignal (runner : string) (d : Dispatcher) : Dispatcher :=
  match signals d !! runner with
  | Some _ => d
  | None => mkDispatcher (queues d) (<[runner := false]> (signals d))
  end.

(** The locked part of [QueueJob]. *)
Definition enqueue (runner : string) (job : Job) (d : Dispatcher) : Dispatcher :=
  getSignal runner (mkDispatcher (<[runner := jobs_of runner d ++ [job]]> (queues d)) (signals d)).

(** The non-blocking send: a token already in the buffer is enough. *)
Definition wake (runner : string) (d : Dispatcher) : Dispatcher :=
  mkDispatcher (queues d) (<[runner := true]> (signals d)).

(** The locked part of [PollJob]: take the first job, or look up the channel
    to wait on. *)
Definition try_dequeue (runner : string) (d : Dispatcher) : option Job * Dispatcher :=
  match jobs_of runner d with
  | next :: rest => (Some next, mkDispatcher (<[runner := rest]> (queues d)) (signals d))
  | [] => (None, getSignal runner d)
  end.

(** Receiving from the channel, when it holds a token. *)
Definition receive (runner : string) (d : Dispatcher) : option Dispatcher :=
  match signals d !! runner with
  | Some true => Some (mkDispatcher (queues d) (<[runner := false]> (signals d)))
  | _ => None
  end.

(** ** Threads *)
Inductive thread : Type :=
  | Sending (runner : string)          (* QueueJob, lock released, before the send *)
  | Checking (runner : string)         (* PollJob, at the top of its loop *)
  | Waiting (runner : string)          (* PollJob, in its select *)
  | Returned (runner : string) (r : option Job).

(** The log records the calls' effects in order. *)
Inductive effect : Type :=
  | Queued (runner : string) (job : Job)
  | Delivered (runner : string) (job : Job).

Record Config : Type := mkConfig {
  disp : Dispatcher;
  threads : gmap nat thread;
  history : list effect
}.
Definition init : Config := mkConfig New ∅ [].

Inductive step : Config -> Config -> Prop :=
  | step_queue c i runner job :
      threads c !! i = None ->
      step c (mkConfig (enqueue runner job (disp c)) (<[i := Sending runner]> (threads c))
                (history c ++ [Queued runner job]))
  | step_send c i runner :
      threads c !! i = Some (Sending runner) ->
      step c (mkConfig (wake runner (disp c)) (delete i (threads c)) (history c))
  | step_poll c i runner :
      threads c !! i = None ->
      step c (mkConfig (disp c) (<[i := Checking runner]> (threads c)) (history c))
  | step_take c i runner job d :
      threads c !! i = Some (Checking runner) ->
      try_dequeue runner (disp c) = (Some job, d) ->
      step c (mkConfig d (<[i := Returned runner (Some job)]> (threads c)) (history c ++ [Delivered runner job]))
  | step_block c i runner d :
      threads c !! i = Some (Checking runner) ->
      try_dequeue runner (disp c) = (None, d) ->
      step c (mkConfig d (<[i := Waiting runner]> (threads c)) (history c))
  | step_wake c i runner d :
      threads c !! i = Some (Waiting runner) ->
      receive runner (disp c) = Some d ->
      step c (mkConfig d (<[i := Checking runner]> (threads c)) (history c))
  | step_timeout c i runner :
      threads c !! i = Some (Waiting runner) ->
      step c (mkConfig (disp c) (<[i := Returned runner None]> (threads c)) (history c)).

Definition queued_of (runner : string) (h : list effect) : list Job :=
  omap (fun e => match e with Queued r j => if decide (r = runner) then Some j else None | _ => None end) h.
Definition delivered_of (runner : string) (h : list effect) : list Job :=
  omap (fun e => match e with Delivered r j => if decide (r = runner) then Some j else None | _ => None end) h.

(** A poller of this runner that has not returned. *)
Definition polls (runner : string) (t : thread) : Prop := t = Checking runner \/ t = Waiting runner.
Definition single_poller (c : Config) : Prop :=
  forall runner i j t u, threads c !! i = Some t -> threads c !! j = Some u ->
    polls runner t -> polls runner u -> i = j.
(** A job is on its way to being noticed: a token in the channel, or a
    [QueueJob] that still has to send one. *)
Definition wake_pending (runner : string) (c : Config) : Prop :=
  signals (disp c) !! runner = Some true \/ exists i, threads c !! i = Some (Sending runner).

(** A synthetic run id: the big-endian timestamp, then zeros. *)
Definition byte_Z (z : Z) : ascii := ascii_of_N (Z.to_N (z mod 256)).
Definition SyntheticRunID (now : time) : list ascii :=
  ((fun i => byte_Z (Z.shiftr now (56 - 8 * Z.of_nat i))) <$> seq 0 8) ++ replicate 8 "000"%char.

(** ** Lemmas *)
Lemma jobs_getSignal r r' d : jobs_of r (getSignal r' d) = jobs_of r d.
Proof. unfold getSignal. by destruct (signals d !! r'). Qed.

Lemma jobs_enqueue r r' job d :
  jobs_of r (enqueue r' job d) = jobs_of r d ++ (if decide (r' = r) then [job] else []).
Proof.
  unfold enqueue. rewrite jobs_getSignal. unfold jobs_of at 1. simpl. rewrite lookup_insert.
  case_decide; subst; simpl; [done|]. by rewrite app_nil_r.
Qed.

Lemma try_dequeue_some r job d d' :
  try_dequeue r d = (Some job, d') ->
  jobs_of r d = job :: jobs_of r d' /\ (forall r', r' <> r -> jobs_of r' d' = jobs_of r' d) /\
  signals d' = signals d.
Proof.
  unfold try_dequeue. destruct (jobs_of r d) as [|j rest] eqn:E; intros [= <- <-].
  unfold jobs_of at 1 3. simpl. rewrite lookup_insert_eq. repeat split.
  intros r' Hr'. unfold jobs_of. simpl. by rewrite lookup_insert_ne.
Qed.

Lemma try_dequeue_none r d d' :
  try_dequeue r d = (None, d') -> jobs_of r d = [] /\ d' = getSignal r d.
Proof. unfold try_dequeue. destruct (jobs_of r d); [|done]. by intros [= <-]. Qed.

Lemma receive_some r d d' :
  receive r d = Some d' ->
  queues d' = queues d /\ forall r', signals d' !! r' = if decide (r = r') then Some false else signals d !! r'.
Proof.
  unfold receive. destruct (signals d !! r) as [[]|]; intros [= <-]. split; [done|].
  intros r'. simpl. apply lookup_insert.
Qed.

Lemma getSignal_keeps r r' d b : signals d !! r' = Some b -> signals (getSignal r d) !! r' = Some b.
Proof.
  intros H. unfold getSignal. destruct (signals d !! r) eqn:E; [done|]. simpl.
  rewrite lookup_insert_ne; congruence.
Qed.

Definition fifo_inv (c : Config) : Prop :=
  forall r, queued_of r (history c) = delivered_of r (history c) ++ jobs_of r (disp c).

Lemma step_fifo c c' : fifo_inv c -> step c c' -> fifo_inv c'.
Proof.
  intros H Hs r. specialize (H r). destruct Hs as
    [c i r' job Hi|c i r' Hi|c i r' Hi|c i r' job d Hi Hd|c i r' d Hi Hd|c i r' d Hi Hd|c i r' Hi]; simpl; try done;
    unfold queued_of, delivered_of in *; rewrite ?omap_app; simpl.
  - rewrite H, jobs_enqueue. case_decide; simpl; rewrite ?app_nil_r; by rewrite ?(assoc app).
  - apply try_dequeue_some in Hd as (Hj & Hother & _). rewrite app_nil_r, H.
    destruct (decide (r' = r)) as [<-|Hne]; simpl.
    + by rewrite Hj, <- (assoc app).
    + by rewrite app_nil_r, Hother.
  - apply try_dequeue_none in Hd as [_ ->]. by rewrite jobs_getSignal.
  - apply receive_some in Hd as [Hq _]. unfold jobs_of in *. by rewrite Hq.
Qed.

(** No job is lost, duplicated or reordered.  In every configuration that
    any number of concurrent [QueueJob] and [PollJob] calls can reach, the
    jobs delivered to a runner, in delivery order, followed by those still in
    its queue are exactly the jobs queued for it, in queueing order. *)
Theorem dispatcher_fifo c runner :
  rtc step init c ->
  queued_of runner (history c) = delivered_of runner (history c) ++ jobs_of runner (disp c).
Proof.
  intros H. enough (fifo_inv c) as Hi by apply Hi.
  assert (fifo_inv init) as H0 by (intros r; reflexivity).
  revert H0. induction H as [|c c' c'' Hs _ IH]; [done|]. intros H0. apply IH. by eapply step_fifo.
Qed.

(** ** No missed wake-up with one poller per runner *)
Definition wake_inv (c : Config) : Prop :=
  forall i runner, threads c !! i = Some (Waiting runner) -> jobs_of runner (disp c) <> [] ->
    wake_pending runner c.

(** A step of a system in which a runner has at most one poll in flight. *)
Definition single_step (c c' : Config) : Prop := step c c' /\ single_poller c'.

Lemma sending_insert r c i t d h :
  (forall r', threads c !! i <> Some (Sending r')) ->
  (exists j, threads c !! j = Some (Sending r)) ->
  exists j, threads (mkConfig d (<[i := t]> (threads c)) h) !! j = Some (Sending r).
Proof.
  intros Hi [j Hj]. exists j. simpl. rewrite lookup_insert_ne; [done|]. intros ->. by apply (Hi r).
Qed.

(** A step that only moves thread [i] to [t] and keeps the tokens. *)
Lemma pending_mono r c i t d h :
  (forall r', threads c !! i <> Some (Sending r')) ->
  (signals (disp c) !! r = Some true -> signals d !! r = Some true) ->
  wake_pending r c -> wake_pending r (mkConfig d (<[i := t]> (threads c)) h).
Proof. intros Hi Hd [Hs|He]; [left; by apply Hd|right; by apply sending_insert]. Qed.

Lemma step_wake_inv c c' : single_poller c -> wake_inv c -> step c c' -> wake_inv c'.
Proof.
  intros Hone Hinv Hs j r. destruct Hs as
    [c i r' job Hi|c i r' Hi|c i r' Hi|c i r' job d Hi Hd|c i r' d Hi Hd|c i r' d Hi Hd|c i r' Hi];
    simpl; rewrite ?lookup_insert, ?lookup_delete; case_decide as Hij; try done; intros Hj Hjobs.
  - destruct (decide (r' = r)) as [->|Hne].
    + right. exists i. simpl. by rewrite lookup_insert_eq.
    + rewrite jobs_enqueue, decide_False, app_nil_r in Hjobs by done.
      apply (pending_mono r c i); [by rewrite Hi| |by eapply Hinv].
      intros Ht. unfold enqueue. by apply getSignal_keeps.
  - destruct (decide (r' = r)) as [->|Hne]; [left; simpl; by rewrite lookup_insert_eq|].
    destruct (Hinv j r Hj Hjobs) as [Ht|[k Hk]]; [left; simpl; by rewrite lookup_insert_ne|].
    right. exists k. simpl. rewrite lookup_delete_ne; [done|]. congruence.
  - apply (pending_mono r c i); [by rewrite Hi|done|by eapply Hinv].
  - apply try_dequeue_some in Hd as (Hq & Hother & Hsig).
    destruct (decide (r' = r)) as [->|Hne].
    + destruct Hij. eapply (Hone r i j); [done..|by left|by right].
    + rewrite Hother in Hjobs by done. apply (pending_mono r c i); [by rewrite Hi|by rewrite Hsig|by eapply Hinv].
  - apply try_dequeue_none in Hd as [Hq ->]. rewrite jobs_getSignal in Hjobs. congruence.
  - apply try_dequeue_none in Hd as [Hq ->]. rewrite jobs_getSignal in Hjobs.
    apply (pending_mono r c i); [by rewrite Hi|by apply getSignal_keeps|by eapply Hinv].
  - apply receive_some in Hd as [Hq Hsig]. destruct (decide (r' = r)) as [->|Hne].
    + destruct Hij. eapply (Hone r i j); [done..|by right|by right].
    + assert (jobs_of r d = jobs_of r (disp c)) as E by (unfold jobs_of; by rewrite Hq).
      rewrite E in Hjobs. apply (pending_mono r c i); [by rewrite Hi| |by eapply Hinv].
      by rewrite Hsig, decide_False.
  - apply (pending_mono r c i); [by rewrite Hi|done|by eapply Hinv].
Qed.

(** C21: A waiting runner never sleeps on a job.  When each runner has at most
    one poll in flight, every reachable configuration in which a poll waits
    while its queue is not empty has a wake-up pending: a token in the
    runner's channel, or a [QueueJob] that has still to send one. *)
Theorem dispatcher_no_missed_wakeup c i runner :
  rtc single_step init c ->
  threads c !! i = Some (Waiting runner) -> QueueDepth runner (disp c) <> 0 ->
  wake_pending runner c.
Proof.
  intros H Hi Hd.
  assert (wake_inv c /\ single_poller c) as [Hw _].
  { assert (wake_inv init /\ single_poller init) as H0 by (split; [by intros ???|by intros ??????]).
    clear Hi Hd. revert H0. induction H as [|c c' c'' [Hs Hp] _ IH]; [done|]. intros [Hw H1].
    apply IH. split; [by eapply step_wake_inv|done]. }
  apply (Hw i); [done|]. unfold QueueDepth in Hd. by destruct (jobs_of runner (disp c)).
Qed.

(** ** A concrete run *)
Definition job1 : Job := mkJob [] "scan" "a" "1" "" [] 0 0 None.
Definition job2 : Job := mkJob [] "scan" "b" "1" "" [] 0 0 None.

(** One runner polls, blocks, and a job is queued for it. *)
Definition waiting_config : Config :=
  mkConfig (enqueue "r" job1 (getSignal "r" New)) {[ 0 := Waiting "r"; 1 := Sending "r" ]} [Queued "r" job1].

Ltac solve_single :=
  intros r a b u v Ha Hb Hu Hv; simpl in *;
  repeat (rewrite lookup_insert in Ha; case_decide);
  repeat (rewrite lookup_insert in Hb; case_decide);
  rewrite ?lookup_empty in *; destruct Hu, Hv; simplify_eq; done.

Lemma waiting_config_reachable : rtc single_step init waiting_config.
Proof.
  eapply rtc_l. { split; [apply (step_poll init 0 "r"); reflexivity|solve_single]. }
  eapply rtc_l. { split; [eapply (step_block _ 0 "r"); reflexivity|solve_single]. }
  eapply rtc_l. { split; [apply (step_queue _ 1 "r" job1); reflexivity|solve_single]. }
  replace (mkConfig _ _ _) with waiting_config; [constructor|]. vm_compute. reflexivity.
Qed.

Lemma dispatcher_no_missed_wakeup_witness : wake_pending "r" waiting_config.
Proof.
  apply (dispatcher_no_missed_wakeup waiting_config 0 "r" waiting_config_reachable); [reflexivity|].
  vm_compute. discriminate.
Defined.

Lemma dispatcher_fifo_witness :
  queued_of "r" (history waiting_config) = [] ++ jobs_of "r" (disp waiting_config).
Proof.
  apply (dispatcher_fifo waiting_config "r"). eapply rtc_subrel; [|apply waiting_config_reachable].
  by intros ?? [? _].
Defined.

(** Two pollers of one runner, two jobs: both sends have put one token, one
    poller has taken it and one job; the other sleeps on the second job. *)
Definition asleep (c : Config) : Prop :=
  exists i runner, threads c !! i = Some (Waiting runner) /\ QueueDepth runner (disp c) <> 0 /\
    ~ wake_pending runner c /\ forall j, threads c !! j <> Some (Checking runner).

Definition asleep_config : Config :=
  mkConfig (mkDispatcher {[ "r" := [job2] ]} {[ "r" := false ]})
    (<[0 := Returned "r" (Some job1)]> {[ 1 := Waiting "r" ]})
    [Queued "r" job1; Queued "r" job2; Delivered "r" job1].

(** The condition on pollers is needed.  With two polls in flight for one
    runner, two queued jobs can share one wake-up: a configuration is
    reachable in which a poll sleeps, its queue is not empty, and nothing
    is left that would wake it before its timeout. *)
Theorem dispatcher_shared_wakeup : exists c, rtc step init c /\ asleep c.
Proof.
  exists asleep_config. split.
  - eapply rtc_l. { apply (step_poll init 0 "r"). reflexivity. }
    eapply rtc_l. { eapply (step_block _ 0 "r"); reflexivity. }
    eapply rtc_l. { apply (step_poll _ 1 "r"). reflexivity. }
    eapply rtc_l. { eapply (step_block _ 1 "r"); reflexivity. }
    eapply rtc_l. { apply (step_queue _ 2 "r" job1). reflexivity. }
    eapply rtc_l. { apply (step_send _ 2 "r"). reflexivity. }
    eapply rtc_l. { apply (step_queue _ 2 "r" job2). reflexivity. }
    eapply rtc_l. { apply (step_send _ 2 "r"). reflexivity. }
    eapply rtc_l. { eapply (step_wake _ 0 "r"); reflexivity. }
    eapply rtc_l. { eapply (step_take _ 0 "r"); reflexivity. }
    replace (mkConfig _ _ _) with asleep_config; [constructor|]. vm_compute. reflexivity.
  - exists 1, "r". split; [reflexivity|]. split; [vm_compute; discriminate|]. split.
    + intros [H|[i H]]; [vm_compute in H; discriminate|].
      unfold asleep_config in H. simpl in H. apply lookup_insert_Some in H as [[_ H]|[_ H%lookup_singleton_Some]]; naive_solver.
    + intros j H. unfold asleep_config in H. simpl in H. apply lookup_insert_Some in H as [[_ H]|[_ H%lookup_singleton_Some]]; naive_solver.
Qed.

(** ** Synthetic run ids *)
Definition be_decode (l : list ascii) : Z := foldl (fun acc b => (acc * 256 + ascii_Z b)%Z) 0%Z l.
(** The [n] low bytes of [t], most significant first. *)
Definition be_bytes (n : nat) (t : Z) : list ascii :=
  (fun i => byte_Z (Z.shiftr t (8 * (Z.of_nat n - 1) - 8 * Z.of_nat i))) <$> seq 0 n.

Lemma ascii_Z_byte_Z z : ascii_Z (byte_Z z) = (z `mod` 256)%Z.
Proof.
  unfold ascii_Z, byte_Z. pose proof (Z.mod_pos_bound z 256 ltac:(lia)).
  rewrite N_ascii_embedding; [|lia]. lia.
Qed.

Lemma be_bytes_S n t : be_bytes (S n) t = byte_Z (Z.shiftr t (8 * Z.of_nat n)) :: be_bytes n t.
Proof.
  unfold be_bytes. simpl. f_equal; [f_equal; f_equal; lia|].
  rewrite <- seq_shift, <- list_fmap_compose. apply list_fmap_ext. intros i x _. simpl.
  f_equal. f_equal. lia.
Qed.

Lemma be_decode_bytes n t acc :
  foldl (fun acc b => (acc * 256 + ascii_Z b)%Z) acc (be_bytes n t) = (acc * 256 ^ Z.of_nat n + t `mod` 256 ^ Z.of_nat n)%Z.
Proof.
  revert acc. induction n as [|n IH]; intros acc; [simpl; rewrite Z.mod_1_r; lia|].
  rewrite be_bytes_S. simpl foldl. rewrite IH, ascii_Z_byte_Z, Z.shiftr_div_pow2 by lia.
  replace (2 ^ (8 * Z.of_nat n))%Z with (256 ^ Z.of_nat n)%Z by (rewrite Z.pow_mul_r by lia; done).
  rewrite Nat2Z.inj_succ, Z.pow_succ_r by lia.
  set (p := (256 ^ Z.of_nat n)%Z). assert (0 < p)%Z by (apply Z.pow_pos_nonneg; lia).
  rewrite (Z.mul_comm 256 p), Z.rem_mul_r by lia. lia.
Qed.

(** A synthetic run id is 16 bytes long and determined by the clock.  Its
    first eight bytes decode to the 64-bit timestamp, so two ids are equal
    only when they were drawn at the same nanosecond (modulo 2^64). *)
Theorem SyntheticRunID_injective now now' :
  length (SyntheticRunID now) = RunIDLen /\
  be_decode (take 8 (SyntheticRunID now)) = wrapU 64 now /\
  (SyntheticRunID now = SyntheticRunID now' <-> wrapU 64 now = wrapU 64 now').
Proof.
  assert (D : forall t, be_decode (take 8 (SyntheticRunID t)) = wrapU 64 t).
  { intros t. unfold SyntheticRunID, be_decode. rewrite take_app_length'; [|done].
    exact (be_decode_bytes 8 t 0). }
  split; [done|]. split; [done|]. split.
  - intros E. by rewrite <- (D now), <- (D now'), E.
  - intros E. unfold SyntheticRunID. f_equal. apply list_fmap_ext. intros i j Hj.
    apply lookup_seq in Hj as [-> Hi]. unfold byte_Z. do 2 f_equal.
    apply Z.bits_inj'. intros k Hk. destruct (Z.lt_ge_cases k 8).
    + change 256%Z with (2 ^ 8)%Z. rewrite !Z.mod_pow2_bits_low, !Z.shiftr_spec by lia.
      apply (f_equal (fun z => Z.testbit z (k + (56 - 8 * Z.of_nat i))%Z)) in E.
      unfold wrapU in E. rewrite !Z.mod_pow2_bits_low in E by lia. exact E.
    + change 256%Z with (2 ^ 8)%Z. by rewrite !Z.mod_pow2_bits_high by lia.
Qed.

End Dispatcher.
