(* ===== verification/Notifier.v ===== *)
(** * notifier: per-run webhook summaries

    internal/orchestrator/notifier: notifier.go (selection of targets, the
    request, the retry loop and its audit log), templates.go (the payloads,
    as JSON values) and loader.go (the boot-time file).  The network, the
    environment, the clock, the random source, HMAC and the JSON text codec
    are arguments.  Delivery goroutines are independent of each other; one
    is modelled at a time. *)
From Stdlib Require Import Ascii.
From stdpp Require Import prelude strings gmap list.
From S2P Require Import Prelude GoTime Json Sql Storage Sqlite SqliteSpec Fingerprint Proto.

Module Notifier.
Import (hints) SqliteSpec.SqliteSpec.

(** [err.Error()] *)
Fixpoint error_text (e : error) : string :=
  match e with
  | Sentinel m => m
  | Errorf m => m
  | Wrapf m e' => m +:+ ": " +:+ error_text e'
  end.

(** ** Options *)
Record Config : Type := mkConfig { maxAttempt : Z; baseDelay : duration; httpTimeout : duration }.

Definition New (timeout : duration) (maxAttempts : Z) (base : duration) : Config :=
  mkConfig (if decide (maxAttempts = 0%Z) then 5%Z else maxAttempts)
    (if decide (base = 0%Z) then Second else base)
    (if decide (timeout = 0%Z) then (10 * Second)%Z else timeout).

(** ** Severity *)
Definition severityRank (s : string) : Z :=
  if decide (s = "critical") then 4 else if decide (s = "high") then 3
  else if decide (s = "medium") then 2 else if decide (s = "low") then 1 else 0.

(** One iteration: the best severity so far and its rank. *)
Definition pick (acc : string * Z) (d : DeviationRow) : string * Z :=
  let r := severityRank (Dev_Severity d) in if (acc.2 <? r)%Z then (Dev_Severity d, r) else acc.
Definition highestSeverity (devs : list DeviationRow) : string := (foldl pick ("", 0%Z) devs).1.

(** The two conditions under which [Trigger] delivers to a target. *)
Definition eligible (maxSev : string) (t : NotifierRow) : bool :=
  Nt_Enabled t &&
  negb (negb (bool_decide (Nt_MinSeverity t = "")) &&
        (severityRank maxSev <? severityRank (Nt_MinSeverity t))%Z).

(** ** Outcome of one attempt *)
Definition classify (code : Z) (err : option error) : string :=
  match err with
  | Some _ => "failed"
  | None =>
      if ((200 <=? code) && (code <? 300))%Z then "sent"
      else if ((code =? 408) || (code =? 429))%Z then "failed"
      else if ((400 <=? code) && (code <? 500))%Z then "permanent"
      else if (500 <=? code)%Z then "failed"
      else "failed"
  end.

(** [rand n] draws from [0, n); [Int64N] panics when [n <= 0]: [None].
    [time.Duration] arithmetic wraps at 64 bits. *)
Definition backoff (c : Config) (rand : Z -> Z) (attempt : Z) : option duration :=
  let d := wrapS 64 (baseDelay c * wrapS 64 (Z.shiftl 1 (attempt - 1))) in
  let n := Z.quot d 2 in
  if (n <=? 0)%Z then None else Some (wrapS 64 (d - Z.quot d 4 + rand n)).

(** ** The request *)
Definition isLoopbackHost (host : string) : bool :=
  let host := match IndexByte host ":" with Some i => slice_to host i | None => host end in
  bool_decide (host = "127.0.0.1" \/ host = "localhost" \/ host = "::1").

(** net/textproto canonicalization of a header key. *)
Definition token_char (c : ascii) : bool :=
  let n := N_of_ascii c in
  ((48 <=? n) && (n <=? 57) || (65 <=? n) && (n <=? 90) || (97 <=? n) && (n <=? 122))%N ||
  existsb (Ascii.eqb c) (list_of_string "!#$%&'*+-.^_`|~").
Definition upper_ascii (c : ascii) : ascii :=
  let n := N_of_ascii c in if ((97 <=? n) && (n <=? 122))%N then ascii_of_N (n - 32) else c.
Fixpoint canonical (up : bool) (l : list ascii) : list ascii :=
  match l with
  | [] => []
  | c :: l' => (if up then upper_ascii c else lower_ascii c) :: canonical (Ascii.eqb c "-") l'
  end.
Definition CanonicalHeaderKey (k : string) : string :=
  let l := list_of_string k in
  if forallb token_char l then string_of_list (canonical true l) else k.

Definition Header_Set (k v : string) (h : gmap string string) : gmap string string :=
  <[CanonicalHeaderKey k := v]> h.

Record Request : Type := mkRequest {
  rq_URL : string; rq_Headers : gmap string string; rq_Body : string
}.

(** A decoded JSON object of strings; [null] decodes to the zero value and
    anything else fails the whole call. *)
Definition string_entries (o : list (string * json)) : option (list (string * string)) :=
  mapM (fun kv : string * json => (fun v => (kv.1, v)) <$> conv_string kv.2 "") o.
Definition parseJSONStringMap (d : jdata) : list (string * string) :=
  match unmarshal_object d with
  | Some o => default [] (string_entries o)
  | None => []
  end.

Section http.
Context (json_decode : string -> jdata)
        (parse_url : string -> res (string * string))  (* scheme and host *)
        (getenv : string -> string)
        (hmac_hex : string -> string -> string).       (* secret, body *)

Definition parseHeaders (raw : string) : list (string * string) :=
  if decide (raw = "") then [] else parseJSONStringMap (json_decode raw).

(** The header fields, in the order they are set. *)
Definition build_headers (target : NotifierRow) (contentType : string) : gmap string string :=
  foldl (fun h kv => Header_Set kv.1 kv.2 h)
    (Header_Set "User-Agent" "fangs-orchestrator" (Header_Set "Content-Type" contentType ∅))
    (parseHeaders (Nt_Headers target)).

Definition signs (target : NotifierRow) : bool :=
  negb (bool_decide (Nt_SecretEnv target = "")) &&
  negb (bool_decide (Nt_Template target = "slack")) && negb (bool_decide (Nt_Template target = "discord")).

(** The HMAC step: the request, signed when the target asks for it. *)
Definition sign_request (target : NotifierRow) (body : string) (h : gmap string string) : res Request :=
  if signs target then
    let secret := getenv (Nt_SecretEnv target) in
    if decide (secret = "") then Err (Errorf "secret env is empty")
    else Ok (mkRequest (Nt_URL target)
               (Header_Set "X-FANGS-Signature" ("sha256=" +:+ hmac_hex secret body) h) body)
  else Ok (mkRequest (Nt_URL target) h body).

(** Everything [post] does before the request leaves. *)
Definition build_request (target : NotifierRow) (body contentType : string) : res Request :=
  match parse_url (Nt_URL target) with
  | Err e => Err (Wrapf "invalid url" e)
  | Ok (scheme, host) =>
      if negb (bool_decide (scheme = "https")) && negb (bool_decide (scheme = "http")) then
        Err (Errorf "unsupported scheme (https/http only)")
      else if bool_decide (scheme = "http") && negb (isLoopbackHost host) then
        Err (Errorf "plain http only allowed for loopback hosts")
      else sign_request target body (build_headers target contentType)
  end.

(** [do] is the HTTP client: a status code and a body, or an error. *)
Definition post (do : Request -> res (Z * string)) (target : NotifierRow) (body contentType : string) :
    Z * string * option error :=
  match build_request target body contentType with
  | Err e => (0%Z, "", Some e)
  | Ok req =>
      match do req with
      | Err e => (0%Z, "", Some e)
      | Ok (code, resp) => (code, slice_to resp 2048, None)
      end
  end.
End http.

(** ** Payloads *)
Definition plural (n : nat) : string := if decide (n = 1) then "" else "s".
Definition shortID (id : string) : string := if 12 <? String.length id then slice_to id 12 else id.
Definition truncate (s : string) (n : nat) : string :=
  if String.length s <=? n then s else slice_to s n +:+ "…".

Definition devItem (d : DeviationRow) : json :=
  JObj [("id", JStr (Dev_ID d)); ("category", JStr (Dev_Category d)); ("value", JStr (Dev_Value d));
        ("severity", JStr (Dev_Severity d)); ("evidence_event_id", JNum (Dev_EvidenceEventID d))].

Definition renderGeneric (run : Run) (devs : list DeviationRow) : json :=
  JObj [("source", JStr "fangs-orchestrator"); ("schema_version", JStr "v1");
        ("run_id", JStr (Run_ID run)); ("package_name", JStr (Run_PackageName run));
        ("version", JStr (Run_Version run)); ("state", JStr (Run_State run));
        ("is_baseline", JBool (Run_IsBaseline run)); ("max_severity", JStr (highestSeverity devs));
        ("deviations", JArr (devItem <$> devs)); ("deviation_count", JNum (Z.of_nat (length devs)))].

Definition nat_text (n : nat) : string := decimal (Z.of_nat n).

(** The loop of [renderSlack]; [i] is the index of the first deviation. *)
Fixpoint slack_lines (total i : nat) (devs : list DeviationRow) : list string :=
  match devs with
  | [] => []
  | d :: devs' =>
      if 12 <=? i then ["_… and " +:+ nat_text (total - 12) +:+ " more_"]
      else ("• *" +:+ Dev_Severity d +:+ "* `" +:+ truncate (Dev_Value d) 80 +:+ "` — " +:+ Dev_Category d)
             :: slack_lines total (S i) devs'
  end.

Definition join_lines (l : list string) : string := String.concat (String "010"%char "") l.

(** Keys of a Go map are marshalled in sorted order. *)
Definition renderSlack (run : Run) (devs : list DeviationRow) : json :=
  let n := length devs in
  let headerText := "🚨 FANGS deviation: " +:+ Run_PackageName run +:+ "@" +:+ Run_Version run +:+ " — " +:+
    nat_text n +:+ " finding" +:+ plural n +:+ " (max: " +:+ highestSeverity devs +:+ ")" in
  let section text := JObj [("text", JObj [("text", JStr text); ("type", JStr "mrkdwn")]); ("type", JStr "section")] in
  JObj [("blocks", JArr [
           JObj [("text", JObj [("emoji", JBool true); ("text", JStr headerText); ("type", JStr "plain_text")]);
                 ("type", JStr "header")];
           section ("Run `" +:+ shortID (Run_ID run) +:+ "` · package `" +:+ Run_PackageName run +:+
                    "` · version `" +:+ Run_Version run +:+ "`");
           section (join_lines (slack_lines n 0 devs))]);
        ("text", JStr headerText)].

Definition discordColor (severity : string) : Z :=
  if decide (severity = "critical") then 0xE3635D else if decide (severity = "high") then 0xD3A851
  else if decide (severity = "medium") then 0xD3A851 else if decide (severity = "low") then 0x6DA3D8
  else 0x808080.

Definition discord_field (name value : string) : json :=
  JObj [("inline", JBool false); ("name", JStr name); ("value", JStr value)].
Fixpoint discord_fields (total i : nat) (devs : list DeviationRow) : list json :=
  match devs with
  | [] => []
  | d :: devs' =>
      if 12 <=? i then [discord_field "…" ("and " +:+ nat_text (total - 12) +:+ " more")]
      else discord_field (Dev_Severity d +:+ " · " +:+ Dev_Category d) ("`" +:+ truncate (Dev_Value d) 100 +:+ "`")
             :: discord_fields total (S i) devs'
  end.

Definition renderDiscord (run : Run) (devs : list DeviationRow) : json :=
  let n := length devs in
  JObj [("embeds", JArr [JObj [
           ("color", JNum (discordColor (highestSeverity devs)));
           ("description", JStr ("**" +:+ nat_text n +:+ " finding" +:+ plural n +:+ "** (max severity: **" +:+
              highestSeverity devs +:+ "**)" +:+ String "010"%char "" +:+ "Run `" +:+ shortID (Run_ID run) +:+ "`"));
           ("fields", JArr (discord_fields n 0 devs));
           ("title", JStr ("FANGS deviation: " +:+ Run_PackageName run +:+ "@" +:+ Run_Version run))]]);
        ("username", JStr "FANGS")].

Definition renderers (template : string) : option (Run -> list DeviationRow -> json) :=
  if decide (template = "slack") then Some renderSlack
  else if decide (template = "discord") then Some renderDiscord
  else if decide (template = "generic") then Some renderGeneric
  else None.
Definition contentType : string := "application/json".

(** ** The retry loop *)
Definition newNotificationID (random : list ascii) (attempt : nat) : string :=
  hex random +:+ "-" +:+ nat_text attempt.

(** A delivery's state: the store, and the metrics sink's observations
    ([None] for the nil sink). *)
Record NS (S : Type) : Type := mkNS { ns_store : S; ns_metrics : option (list (string * string)) }.
Arguments mkNS {S} ns_store ns_metrics.
Arguments ns_store {S} n.
Arguments ns_metrics {S} n.

(** How a delivery ends.  [Panicked] is [Int64N] called with a non-positive
    bound. *)
Inductive outcome : Type := Delivered | PermanentFailure | GaveUp | Panicked.

Section delivery.
Context {S : Type} `{Backend S} (c : Config).
Context (clock : nat -> time) (rand : nat -> Z -> Z) (random : nat -> list ascii).
Context (target : NotifierRow) (run : Run) (devCount : nat).

Definition attempt_row (attempt : nat) (status : string) (code : Z) (resp : string)
    (err : option error) (nextAt : option time) : NotificationRow :=
  let now := clock (2 * attempt + 1) in
  mkNotificationRow (newNotificationID (random attempt) attempt) (Run_ID run) (Nt_Name target)
    (Z.of_nat attempt) status (Some now) nextAt code resp (from_option error_text "" err)
    (Z.of_nat devCount) now.

(** An error of the store is logged and dropped. *)
Definition recordAttempt (row : NotificationRow) (s : NS S) : NS S :=
  mkNS (RecordNotification (Nf_CreatedAt row) row (ns_store s)).2 (ns_metrics s).

Definition ObserveNotification (status : string) (s : NS S) : NS S :=
  mkNS (ns_store s) ((fun log => log ++ [(Nt_Name target, status)]) <$> ns_metrics s).

Section loop.
(** What the [i]-th POST yields. *)
Context (answer : nat -> Z * string * option error).

Definition status_of (i : nat) : string := classify (answer i).1.1 (answer i).2.

(** [attempt] runs from 1 while it is at most [maxAttempt]; [remaining] is
    the number of iterations left. *)
Fixpoint deliver_loop (remaining attempt : nat) (s : NS S) : outcome * NS S :=
  match remaining with
  | O => (GaveUp, s)
  | Datatypes.S remaining' =>
      let '(code, resp, err) := answer attempt in
      let status := classify code err in
      let last := negb (Z.of_nat attempt <? maxAttempt c)%Z in
      let record nextAt :=
        ObserveNotification status (recordAttempt (attempt_row attempt status code resp err nextAt) s) in
      let continue s :=
        if decide (status = "sent") then (Delivered, s)
        else if decide (status = "permanent") then (PermanentFailure, s)
        else if last then deliver_loop remaining' (Datatypes.S attempt) s
        else match backoff c (rand (2 * attempt + 1)) (Z.of_nat attempt) with
             | None => (Panicked, s)
             | Some _ => deliver_loop remaining' (Datatypes.S attempt) s
             end in
      if bool_decide (status = "failed") && negb last then
        match backoff c (rand (2 * attempt)) (Z.of_nat attempt) with
        | None => (Panicked, s)
        | Some d => continue (record (Some (clock (2 * attempt) + d)%Z))
        end
      else continue (record None)
  end.
End loop.

Definition deliverWithRetry (json_decode : string -> jdata) (json_encode : json -> string)
    (parse_url : string -> res (string * string)) (getenv : string -> string)
    (hmac_hex : string -> string -> string) (do : nat -> Request -> res (Z * string))
    (devs : list DeviationRow) (s : NS S) : outcome * NS S :=
  match renderers (Nt_Template target) with
  | None => (PermanentFailure,
             recordAttempt (attempt_row 1 "permanent" 0 "" (Some (Errorf "unknown template")) None) s)
  | Some rend =>
      deliver_loop
        (fun i => post json_decode parse_url getenv hmac_hex (do i) target (json_encode (rend run devs)) contentType)
        (Z.to_nat (maxAttempt c)) 1 s
  end.
End delivery.

(** ** Trigger: the deliveries spawned for a run *)
Section trigger.
Context {S : Type} `{Backend S}.

Definition Trigger (runID : string) : M S (list (NotifierRow * Run * list DeviationRow)) :=
  run ← wrap_err "notifier: load run" (GetRun runID);
  devs ← wrap_err "notifier: load deviations" (ListDeviations runID);
  match devs with
  | [] => mret []
  | _ =>
      targets ← wrap_err "notifier: load notifiers" ListNotifiers;
      mret ((fun t => (t, run, devs)) <$> filter (fun t => eligible (highestSeverity devs) t = true) targets)
  end.
End trigger.

(** ** The boot-time file *)
Record FileEntry : Type := mkFileEntry {
  fe_Name : string; fe_URL : string; fe_Template : string; fe_SecretEnv : string;
  fe_Headers : gmap string string; fe_MinSeverity : string; fe_Enabled : option bool
}.
Definition zero_entry : FileEntry := mkFileEntry "" "" "" "" ∅ "" None.

Definition conv_headers (j : json) (old : gmap string string) : option (gmap string string) :=
  match j with
  | JObj o => (fun kvs => list_to_map (reverse kvs) ∪ old) <$> string_entries o
  | JNull => Some ∅
  | _ => None
  end.
Definition conv_bool_ptr (j : json) (old : option bool) : option (option bool) :=
  match j with JBool b => Some (Some b) | JNull => Some None | _ => None end.

Definition conv_entry (j : json) : option FileEntry :=
  match j with
  | JNull => Some zero_entry
  | JObj o =>
      name ← unmarshal_field "name" conv_string "" o;
      url ← unmarshal_field "url" conv_string "" o;
      template ← unmarshal_field "template" conv_string "" o;
      secret ← unmarshal_field "secret_env" conv_string "" o;
      headers ← unmarshal_field "headers" conv_headers ∅ o;
      sev ← unmarshal_field "min_severity" conv_string "" o;
      enabled ← unmarshal_field "enabled" conv_bool_ptr None o;
      Some (mkFileEntry name url template secret headers sev enabled)
  | _ => None
  end.
Definition conv_entries (j : json) (_ : list FileEntry) : option (list FileEntry) :=
  match j with JArr l => mapM conv_entry l | JNull => Some [] | _ => None end.

(** A Go run-time panic: no code of the program recovers from it. *)
Definition runtime_panic : error := Sentinel "panic: runtime error".

Definition parse_entries (json_decode : string -> jdata) (raw : string) : res (list FileEntry) :=
  match TrimSpace raw with
  | EmptyString => Err runtime_panic                    (* [0] of an empty string *)
  | String ch _ =>
      let entries :=
        if Ascii.eqb ch "{" then
          o ← unmarshal_object (json_decode raw); unmarshal_field "notifiers" conv_entries [] o
        else j ← json_decode raw; conv_entries j [] in
      match entries with Some l => Ok l | None => Err (Wrapf "parse" (Errorf "json")) end
  end.

Section loader.
Context {S : Type} `{Backend S} (marshal_map : gmap string string -> string) (now : time).

Definition entry_valid (e : FileEntry) : bool :=
  negb (bool_decide (fe_Name e = "" \/ fe_URL e = "" \/ fe_Template e = "")).

Definition entry_row (e : FileEntry) : NotifierRow :=
  mkNotifierRow (fe_Name e) (fe_URL e) (fe_Template e) (fe_SecretEnv e)
    (if decide (fe_Headers e = ∅) then "" else marshal_map (fe_Headers e))
    (fe_MinSeverity e) (default true (fe_Enabled e)) zero_time zero_time.

Fixpoint upsert_entries (l : list FileEntry) : M S unit :=
  match l with
  | [] => mret tt
  | e :: l' =>
      if entry_valid e then
        _ ← wrap_err "upsert" (UpsertNotifier now (entry_row e)); upsert_entries l'
      else fail (Errorf "name/url/template are required")
  end.

Definition LoadFromFile (json_decode : string -> jdata) (ReadFile : string -> res string) (path : string) :
    M S nat :=
  if decide (path = "") then mret 0 else
  match ReadFile path with
  | Err e => fail (Wrapf "read" e)
  | Ok raw =>
      match parse_entries json_decode raw with
      | Err e => fail e
      | Ok entries => _ ← upsert_entries entries; mret (length entries)
      end
  end.
End loader.

(** ** Lemmas: one attempt *)
Lemma classify_cases code err :
  classify code err = "sent" \/ classify code err = "permanent" \/ classify code err = "failed".
Proof. unfold classify. destruct err; [tauto|]. repeat case_match; tauto. Qed.

Lemma shift_pow a : (1 <= a)%Z -> Z.shiftl 1 (a - 1) = (2 ^ (a - 1))%Z.
Proof. intros. rewrite Z.shiftl_mul_pow2 by lia. lia. Qed.

Lemma backoff_value c rand a :
  (2 <= baseDelay c)%Z -> (1 <= a)%Z -> (baseDelay c * 2 ^ (a - 1) < 2 ^ 62)%Z ->
  (forall n, 0 < n -> 0 <= rand n < n)%Z ->
  let d := (baseDelay c * 2 ^ (a - 1))%Z in
  backoff c rand a = Some (d - d / 4 + rand (d / 2))%Z.
Proof.
  intros Hb Ha Hd Hr d. assert (1 <= 2 ^ (a - 1))%Z as Hp by (apply (Z.pow_le_mono_r 2 0); lia).
  assert (2 <= d /\ 2 ^ (a - 1) <= d)%Z as [Hd2 Hdp] by (unfold d; nia).
  unfold backoff. rewrite shift_pow by done.
  rewrite (wrapS_small 64 (2 ^ (a - 1))) by lia. fold d.
  rewrite (wrapS_small 64 d) by lia. rewrite !Z.quot_div_nonneg by lia.
  assert (1 <= d / 2)%Z by (apply Z.div_le_lower_bound; lia).
  destruct (Z.leb_spec (d / 2) 0); [lia|]. f_equal.
  specialize (Hr (d / 2)%Z ltac:(lia)). apply wrapS_small; [lia|].
  assert (0 <= d / 4 <= d)%Z by (split; [apply Z.div_pos; lia|apply Z.div_le_upper_bound; lia]).
  assert (d / 2 <= d)%Z by (apply Z.div_le_upper_bound; lia). lia.
Qed.

(** The retry delay stays within its jitter window.  As long as the
    doubled base delay fits the duration type, the wait before the next try
    is at least three quarters and less than five quarters of
    [baseDelay * 2^(attempt-1)], and drawing the jitter cannot panic. *)
Theorem backoff_bounds c rand a :
  (2 <= baseDelay c)%Z -> (1 <= a)%Z -> (baseDelay c * 2 ^ (a - 1) < 2 ^ 62)%Z ->
  (forall n, 0 < n -> 0 <= rand n < n)%Z ->
  exists r, backoff c rand a = Some r /\
    (3 * (baseDelay c * 2 ^ (a - 1)) <= 4 * r < 5 * (baseDelay c * 2 ^ (a - 1)))%Z.
Proof.
  intros Hb Ha Hd Hr. rewrite backoff_value by done. eexists. split; [done|].
  assert (1 <= 2 ^ (a - 1))%Z as Hp by (apply (Z.pow_le_mono_r 2 0); lia).
  set (d := (baseDelay c * 2 ^ (a - 1))%Z) in *. assert (2 <= d)%Z by (unfold d; nia).
  assert (1 <= d / 2)%Z by (apply Z.div_le_lower_bound; lia).
  specialize (Hr (d / 2)%Z ltac:(lia)).
  pose proof (Z.div_mod d 4 ltac:(lia)). pose proof (Z.mod_pos_bound d 4 ltac:(lia)).
  pose proof (Z.div_mod d 2 ltac:(lia)). pose proof (Z.mod_pos_bound d 2 ltac:(lia)). lia.
Qed.

Lemma backoff_bounds_witness :
  exists r, backoff (New 0 0 0) (fun n => n - 1)%Z 4 = Some r /\ (3 * (8 * Second) <= 4 * r < 5 * (8 * Second))%Z.
Proof. apply (backoff_bounds (New 0 0 0) (fun n => n - 1)%Z 4); [done|done|done|intros; lia]. Defined.

(** ** Lemmas: the retry loop *)
Section delivery_lemmas.
Context {S : Type} `{Backend S} (c : Config).
Context (clock : nat -> time) (rand : nat -> Z -> Z) (random : nat -> list ascii).
Context (target : NotifierRow) (run : Run) (devCount : nat).
Context (answer : nat -> Z * string * option error).
Let status := status_of answer.
Let loop := deliver_loop (S := S) c clock rand random target run devCount answer.

Definition next_of (i : nat) : option time :=
  if bool_decide (status i = "failed") && (Z.of_nat i <? maxAttempt c)%Z
  then (fun d => (clock (2 * i) + d)%Z) <$> backoff c (rand (2 * i)) (Z.of_nat i) else None.

Definition row_of (i : nat) : NotificationRow :=
  attempt_row clock random target run devCount i (status i) (answer i).1.1 (answer i).1.2 (answer i).2 (next_of i).

Definition apply_attempt (s : NS S) (i : nat) : NS S :=
  ObserveNotification target (status i) (recordAttempt (row_of i) s).

Definition outcome_of (st : string) : outcome :=
  if decide (st = "sent") then Delivered else if decide (st = "permanent") then PermanentFailure else GaveUp.

Lemma deliver_loop_spec rem a s :
  (Z.of_nat a + Z.of_nat rem = maxAttempt c + 1)%Z -> 0 < rem ->
  (forall i r, a <= i -> (Z.of_nat i < maxAttempt c)%Z -> is_Some (backoff c (rand r) (Z.of_nat i))) ->
  exists k, 0 < k <= rem /\ (forall j, j + 1 < k -> status (a + j) = "failed") /\
    (k = rem \/ status (a + (k - 1)) <> "failed") /\
    loop rem a s = (outcome_of (status (a + (k - 1))), foldl apply_attempt s (seq a k)).
Proof.
  revert a s. induction rem as [|rem IH]; intros a s Ha Hrem Hb; [lia|]. clear Hrem.
  assert (Hone : forall P : Prop, P -> exists k, 0 < k <= Datatypes.S rem /\
            (forall j, j + 1 < k -> status (a + j) = "failed") /\ k = 1 /\ P).
  { intros P HP. exists 1. split; [lia|]. split; [lia|done]. }
  unfold loop. cbn [deliver_loop]. destruct (answer a) as [[code resp] err] eqn:Ea.
  assert (classify code err = status a) as -> by (unfold status, status_of; by rewrite Ea).
  assert (Hrow : forall nx, nx = next_of a ->
    ObserveNotification target (status a) (recordAttempt
      (attempt_row clock random target run devCount a (status a) code resp err nx) s) = apply_attempt s a).
  { intros nx ->. unfold apply_attempt, row_of. by rewrite Ea. }
  destruct (Z.ltb_spec (Z.of_nat a) (maxAttempt c)) as [Hlt|Hge]; simpl negb; rewrite ?andb_true_r, ?andb_false_r.
  - destruct (Hb a (2 * a) ltac:(lia) Hlt) as [d Hd]. destruct (Hb a (2 * a + 1) ltac:(lia) Hlt) as [d' Hd'].
    destruct (classify_cases (answer a).1.1 (answer a).2) as [E|[E|E]]; fold (status_of answer a) in E; fold (status a) in E.
    + exists 1. rewrite Nat.add_0_r. split; [lia|]. split; [lia|]. split; [right; by rewrite E|].
      rewrite bool_decide_false by (by rewrite E). rewrite Hrow; [by rewrite E|]. unfold next_of. by rewrite bool_decide_false by (by rewrite E).
    + exists 1. rewrite Nat.add_0_r. split; [lia|]. split; [lia|]. split; [right; by rewrite E|].
      rewrite bool_decide_false by (by rewrite E). rewrite Hrow; [by rewrite E|]. unfold next_of. by rewrite bool_decide_false by (by rewrite E).
    + rewrite bool_decide_true by done. rewrite Hd, Hd', Hrow.
      2:{ unfold next_of. rewrite bool_decide_true by done. rewrite (proj2 (Z.ltb_lt _ _) Hlt), Hd. done. }
      rewrite !decide_False by (by rewrite E).
      destruct (IH (Datatypes.S a) (apply_attempt s a)) as (k & Hk & Hf & Hlast & Heq); [lia|lia|naive_solver lia|].
      exists (Datatypes.S k). split; [lia|]. split.
      * intros [|j] Hj; [by rewrite Nat.add_0_r|]. rewrite Nat.add_succ_r. apply Hf. lia.
      * replace (a + (Datatypes.S k - 1)) with (Datatypes.S a + (k - 1)) by lia.
        split; [destruct Hlast; [left; lia|by right]|]. exact Heq.
  - assert (rem = 0) as -> by lia. exists 1. rewrite Nat.add_0_r. split; [lia|]. split; [lia|]. split; [by left|].
    rewrite Hrow.
    2:{ unfold next_of. by rewrite (proj2 (Z.ltb_ge _ _) Hge), andb_false_r. }
    unfold outcome_of. repeat case_decide; done.
Qed.

Lemma attempts_metrics s l :
  ns_metrics (foldl apply_attempt s l) =
    (fun log => log ++ ((fun i => (Nt_Name target, status i)) <$> l)) <$> ns_metrics s.
Proof.
  revert s. induction l as [|i l IH]; intros s; simpl.
  - destruct (ns_metrics s); simpl; [by rewrite app_nil_r|done].
  - rewrite IH. simpl. destruct (ns_metrics s); simpl; [by rewrite <- (assoc app)|done].
Qed.

Lemma attempts_store s l :
  ns_store (foldl apply_attempt s l) =
    foldl (fun st i => (RecordNotification (Nf_CreatedAt (row_of i)) (row_of i) st).2) (ns_store s) l.
Proof. revert s. induction l as [|i l IH]; intros s; simpl; [done|]. by rewrite IH. Qed.

Lemma backoffs_defined :
  (2 <= baseDelay c)%Z -> (baseDelay c * 2 ^ maxAttempt c < 2 ^ 62)%Z ->
  (forall r n, 0 < n -> 0 <= rand r n < n)%Z ->
  forall i r, 1 <= i -> (Z.of_nat i < maxAttempt c)%Z -> is_Some (backoff c (rand r) (Z.of_nat i)).
Proof.
  intros Hb Hd Hr i r Hi Hlt. rewrite backoff_value; [by eexists|done|lia| |apply Hr].
  assert (2 ^ (Z.of_nat i - 1) <= 2 ^ maxAttempt c)%Z by (apply Z.pow_le_mono_r; lia). nia.
Qed.

(** C24: A delivery is tried until it succeeds, is refused for good, or the
    attempts run out.  With usable delays, for every behaviour of the target
    the loop ends after some number [k] of POSTs, at most [maxAttempt]: all
    but the last had a transient failure, the last one is final or the limit
    is reached, the metrics sink sees the [k] statuses in order, and exactly
    one audit row per POST is handed to the store, in order. *)
Theorem deliver_attempts s :
  (2 <= baseDelay c)%Z -> (1 <= maxAttempt c)%Z -> (baseDelay c * 2 ^ maxAttempt c < 2 ^ 62)%Z ->
  (forall r n, 0 < n -> 0 <= rand r n < n)%Z ->
  exists k, 1 <= k <= Z.to_nat (maxAttempt c) /\
    (forall i, 1 <= i < k -> status_of answer i = "failed") /\
    (k = Z.to_nat (maxAttempt c) \/ status_of answer k <> "failed") /\
    exists s', deliver_loop c clock rand random target run devCount answer (Z.to_nat (maxAttempt c)) 1 s =
                 (outcome_of (status_of answer k), s') /\
      ns_metrics s' = (fun log => log ++ ((fun i => (Nt_Name target, status_of answer i)) <$> seq 1 k)) <$> ns_metrics s /\
      ns_store s' = foldl (fun st i => (RecordNotification (Nf_CreatedAt (row_of i)) (row_of i) st).2)
                      (ns_store s) (seq 1 k).
Proof.
  intros Hb Hm Hd Hr.
  destruct (deliver_loop_spec (Z.to_nat (maxAttempt c)) 1 s) as (k & Hk & Hf & Hlast & Heq);
    [lia|lia|by apply backoffs_defined|].
  replace (1 + (k - 1)) with k in * by lia. exists k. split; [lia|]. split.
  - intros i Hi. replace i with (1 + (i - 1)) by lia. apply Hf. lia.
  - split; [done|]. eexists. split; [exact Heq|]. split; [apply attempts_metrics|apply attempts_store].
Qed.
End delivery_lemmas.

(** A target that is busy twice and then accepts. *)
Definition flaky (i : nat) : Z * string * option error := if i <? 3 then (503%Z, "", None) else (200%Z, "ok", None).
Definition wit_target : NotifierRow := mkNotifierRow "ops" "https://h/" "generic" "" "" "" true 0 0.
Definition wit_rand (_ : nat) (n : Z) : Z := (n - 1)%Z.

Lemma deliver_attempts_witness :
  exists k, 1 <= k <= 5 /\ (forall i, 1 <= i < k -> status_of flaky i = "failed") /\
    (k = 5 \/ status_of flaky k <> "failed").
Proof.
  destruct (deliver_attempts (S := Sqlite.DB) (New 0 0 0) (fun i => Z.of_nat i) wit_rand (fun _ => []) wit_target
    (new_run "r" "p" "1" RunStateDone 1) 1 flaky (mkNS Sqlite.empty_db None)) as (k & Hk & Hf & Hl & _);
    [done|done|done|unfold wit_rand; intros; lia|]. exists k. done.
Defined.

(** ** The audit log on the SQLite backend *)
Lemma record_accepted now n d :
  Nf_RunID n ∈ Run_ID <$> Sqlite.runs d -> Nf_NotifierName n ∈ Nt_Name <$> Sqlite.notifiers d ->
  Nf_ID n ∉ Nf_ID <$> Sqlite.notifications d -> Nf_CreatedAt n = now ->
  (RecordNotification now n d).2 = Sqlite.set_notifications (Sqlite.notifications d ++ [n]) d.
Proof.
  intros H1 H2 H3 <-. simpl. unfold Sqlite.RecordNotification. rewrite decide_True by done.
  unfold insert_unique. assert (Sqlite.stamp_notification (Nf_CreatedAt n) n = n) as ->.
  { unfold Sqlite.stamp_notification. destruct n. simpl. by case_match. }
  by rewrite decide_False.
Qed.

Section audit.
Context (c : Config) (clock : nat -> time) (rand : nat -> Z -> Z) (random : nat -> list ascii).
Context (target : NotifierRow) (run : Run) (devCount : nat) (answer : nat -> Z * string * option error).
Let row := row_of c clock rand random target run devCount answer.

Lemma record_fold l d :
  Run_ID run ∈ Run_ID <$> Sqlite.runs d -> Nt_Name target ∈ Nt_Name <$> Sqlite.notifiers d ->
  NoDup (Nf_ID <$> (row <$> l)) -> (forall i, i ∈ l -> Nf_ID (row i) ∉ Nf_ID <$> Sqlite.notifications d) ->
  Sqlite.notifications (foldl (fun st i => (RecordNotification (Nf_CreatedAt (row i)) (row i) st).2) d l) =
  Sqlite.notifications d ++ (row <$> l).
Proof.
  revert d. induction l as [|i l IH]; intros d Hr Ht Hnd Hfresh; simpl foldl; [by rewrite app_nil_r|].
  rewrite !fmap_cons, NoDup_cons in Hnd. destruct Hnd as [Hi Hnd].
  rewrite record_accepted; [|done|done|apply Hfresh; by left|done].
  rewrite IH; [|done..|]; cbn [Sqlite.notifications Sqlite.set_notifications].
  { rewrite fmap_cons. by rewrite <- (assoc app). }
  intros j Hj. rewrite fmap_app, not_elem_of_app. split; [apply Hfresh; by right|].
  change (Nf_ID <$> [row i]) with [Nf_ID (row i)]. rewrite list_elem_of_singleton. intros E. apply Hi. rewrite <- E.
  by do 2 apply list_elem_of_fmap_2.
Qed.

(** Every POST leaves its audit row.  On the SQLite backend, when the run
    and the target are stored and the drawn ids are new, a delivery appends to
    the notification log exactly the rows of its attempts 1 to [k], each with
    its own attempt number, the status the response earned, and a next-attempt
    time exactly when another attempt follows a transient failure. *)
Theorem delivery_audited s :
  (2 <= baseDelay c)%Z -> (1 <= maxAttempt c)%Z -> (baseDelay c * 2 ^ maxAttempt c < 2 ^ 62)%Z ->
  (forall r n, 0 < n -> 0 <= rand r n < n)%Z ->
  Run_ID run ∈ Run_ID <$> Sqlite.runs (ns_store s) -> Nt_Name target ∈ Nt_Name <$> Sqlite.notifiers (ns_store s) ->
  (let ids := (fun i => newNotificationID (random i) i) <$> seq 1 (Z.to_nat (maxAttempt c)) in
   NoDup ids /\ forall id, id ∈ ids -> id ∉ Nf_ID <$> Sqlite.notifications (ns_store s)) ->
  exists k s' new, deliver_loop c clock rand random target run devCount answer (Z.to_nat (maxAttempt c)) 1 s =
                 (outcome_of (status_of answer k), s') /\
    Sqlite.notifications (ns_store s') = Sqlite.notifications (ns_store s) ++ new /\ length new = k /\
    1 <= k <= Z.to_nat (maxAttempt c) /\
    forall j n, new !! j = Some n ->
      Nf_Attempt n = Z.of_nat (Datatypes.S j) /\ Nf_Status n = status_of answer (Datatypes.S j) /\
      Nf_NotifierName n = Nt_Name target /\ Nf_RunID n = Run_ID run /\
      (Nf_NextAttemptAt n <> None <-> Nf_Status n = "failed" /\ (Nf_Attempt n < maxAttempt c)%Z).
Proof.
  intros Hb Hm Hd Hr Hrun Ht [Hnd Hfresh].
  pose proof (backoffs_defined c rand Hb Hd Hr) as Hback.
  destruct (deliver_attempts c clock rand random target run devCount answer s Hb Hm Hd Hr)
    as (k & Hk & _ & _ & s' & Heq & _ & Hst).
  assert (Hids : Nf_ID <$> (row <$> seq 1 k) `prefix_of`
                 (fun i => newNotificationID (random i) i) <$> seq 1 (Z.to_nat (maxAttempt c))).
  { rewrite <- list_fmap_compose. replace (Z.to_nat (maxAttempt c)) with (k + (Z.to_nat (maxAttempt c) - k)) by lia.
    rewrite seq_app, fmap_app. by eexists. }
  exists k, s', (row <$> seq 1 k). split; [done|]. split.
  { rewrite Hst. apply record_fold; [done|done| |].
    - destruct Hids as [rest E]. rewrite E in Hnd. by apply NoDup_app in Hnd as [? _].
    - intros i Hi. apply Hfresh. destruct Hids as [rest ->]. apply elem_of_app. left.
      by do 2 apply list_elem_of_fmap_2. }
  split; [by rewrite length_fmap, length_seq|]. split; [done|].
  intros j n Hj. apply list_lookup_fmap_Some in Hj as (i & -> & Hi). apply lookup_seq in Hi as [-> Hj].
  cbn [Nf_Attempt Nf_Status Nf_NotifierName Nf_RunID Nf_NextAttemptAt row row_of attempt_row].
  do 4 (split; [done|]). unfold next_of. change (1 + j) with (Datatypes.S j).
  destruct (bool_decide_reflect (status_of answer (Datatypes.S j) = "failed")) as [E|E];
    [|split; [done|by intros [? _]]].
  destruct (Z.ltb_spec (Z.of_nat (Datatypes.S j)) (maxAttempt c)) as [Hlt|]; [|split; [done|lia]].
  simpl andb. cbv iota. destruct (Hback (Datatypes.S j) (2 * Datatypes.S j) ltac:(lia) Hlt) as [d0 ->]. done.
Qed.
End audit.

Definition wit_db : Sqlite.DB :=
  Sqlite.set_notifiers [wit_target] (Sqlite.set_runs [new_run "r" "p" "1" RunStateDone 1] Sqlite.empty_db).

Lemma delivery_audited_witness :
  exists k s' new, deliver_loop (New 0 0 0) (fun i => Z.of_nat i) wit_rand (fun _ => []) wit_target
      (new_run "r" "p" "1" RunStateDone 1) 1 flaky 5 1 (mkNS wit_db None) = (outcome_of (status_of flaky k), s') /\
    Sqlite.notifications (ns_store s') = [] ++ new /\ length new = k.
Proof.
  destruct (delivery_audited (New 0 0 0) (fun i => Z.of_nat i) wit_rand (fun _ => []) wit_target
    (new_run "r" "p" "1" RunStateDone 1) 1 flaky (mkNS wit_db None)) as (k & s' & new & H1 & H2 & H3 & _);
    [done|done|done|unfold wit_rand; intros; lia|vm_compute; left|vm_compute; left| |].
  - split; [vm_compute|intros id _; vm_compute; inversion 1]. apply (bool_decide_unpack _). vm_compute. done.
  - by exists k, s', new.
Defined.

(** ** The request *)
(** A host is a loopback host exactly when it is one of the two names, with
    or without a port; the third name of the source contains the separator
    and never matches. *)
Lemma isLoopbackHost_spec host :
  isLoopbackHost host = true <->
  exists h, (h = "127.0.0.1" \/ h = "localhost") /\ (host = h \/ exists port, host = h +:+ ":" +:+ port).
Proof.
  assert (Hcut : forall h t, h = "127.0.0.1" \/ h = "localhost" ->
            IndexByte (h +:+ ":" +:+ t) ":" = Some (String.length h) /\ slice_to (h +:+ ":" +:+ t) (String.length h) = h).
  { intros h t Hh. split.
    - unfold IndexByte. rewrite list_of_string_app. change (list_of_string (":" +:+ t)) with (":"%char :: list_of_string t).
      rewrite index_from_app; [by rewrite length_list_of_string|].
      destruct Hh as [-> | ->]; repeat (constructor; [done|]); constructor.
    - unfold slice_to. rewrite list_of_string_app, <- length_list_of_string, take_app_length.
      apply string_of_list_of_string. }
  unfold isLoopbackHost. rewrite bool_decide_eq_true. split.
  - unfold IndexByte. destruct (index_from ":"%char (list_of_string host) 0) as [i|] eqn:E.
    + apply index_from_Some in E as (j & -> & Hf & k & E). simpl. unfold slice_to. intros Hh.
      set (h := string_of_list (take j (list_of_string host))) in *.
      assert (Hhost : host = h +:+ ":" +:+ string_of_list k).
      { rewrite <- (string_of_list_of_string host), E at 1. by rewrite string_of_list_app. }
      exists h. destruct Hh as [Hh|[Hh|Hh]]; [eauto|eauto|]. exfalso.
      apply (f_equal list_of_string) in Hh. unfold h in Hh. rewrite list_of_string_of_list in Hh. simpl in Hf, Hh.
      rewrite Hh in Hf. by apply Forall_cons in Hf as [? _].
    + intros [->|[->| ->]]; [eauto|eauto|]. vm_compute in E. done.
  - intros (h & Hh & [->|[port ->]]).
    + destruct Hh as [-> | ->]; vm_compute; tauto.
    + destruct (Hcut h port Hh) as [-> ->]. tauto.
Qed.

Section request.
Context (json_decode : string -> jdata) (parse_url : string -> res (string * string))
        (getenv : string -> string) (hmac_hex : string -> string -> string).
Let build := build_request json_decode parse_url getenv hmac_hex.

Lemma sign_request_ok target body h req :
  sign_request getenv hmac_hex target body h = Ok req ->
  rq_Body req = body /\ rq_URL req = Nt_URL target /\
  (signs target = true -> getenv (Nt_SecretEnv target) <> "" /\
     rq_Headers req !! "X-Fangs-Signature" = Some ("sha256=" +:+ hmac_hex (getenv (Nt_SecretEnv target)) body)).
Proof.
  unfold sign_request. destruct (signs target); [case_decide; [done|]|]; intros [= <-]; [|done].
  repeat split; [done|]. unfold Header_Set. apply lookup_insert_eq.
Qed.

(** What leaves the orchestrator is encrypted or local, and signed when
    asked.  A request is built only for an https target or for a plain http
    target on 127.0.0.1 or localhost; it carries the payload unchanged; and a
    target with a secret (other than Slack and Discord) gets the signature of
    that payload under a non-empty secret, which no configured header can
    replace. *)
Theorem build_request_safe target body ctype req :
  build target body ctype = Ok req ->
  rq_Body req = body /\ rq_URL req = Nt_URL target /\
  (exists scheme host, parse_url (Nt_URL target) = Ok (scheme, host) /\
    (scheme = "https" \/
     scheme = "http" /\ exists h, (h = "127.0.0.1" \/ h = "localhost") /\
                                 (host = h \/ exists port, host = h +:+ ":" +:+ port))) /\
  (signs target = true -> getenv (Nt_SecretEnv target) <> "" /\
     rq_Headers req !! "X-Fangs-Signature" =
       Some ("sha256=" +:+ hmac_hex (getenv (Nt_SecretEnv target)) body)).
Proof.
  unfold build, build_request. destruct (parse_url (Nt_URL target)) as [[scheme host]|e]; [|done].
  destruct (bool_decide_reflect (scheme = "https")) as [Hs|Hs];
    destruct (bool_decide_reflect (scheme = "http")) as [Hh|Hh]; simpl; try done.
  - congruence.
  - intros (? & ? & ?)%sign_request_ok. repeat split; [done|done| |naive_solver..]. exists scheme, host. auto.
  - destruct (isLoopbackHost host) eqn:Hl; [|done]. simpl. apply isLoopbackHost_spec in Hl.
    intros (? & ? & ?)%sign_request_ok. repeat split; [done|done| |naive_solver..]. exists scheme, host. auto.
Qed.
End request.

(** ** Severities *)
Lemma highest_fold devs acc :
  acc.2 = severityRank acc.1 ->
  let r := foldl pick acc devs in
  r.2 = severityRank r.1 /\ (acc.2 <= r.2)%Z /\
  (forall d, d ∈ devs -> severityRank (Dev_Severity d) <= r.2)%Z /\
  (r = acc \/ exists d, d ∈ devs /\ r.1 = Dev_Severity d).
Proof.
  revert acc. induction devs as [|d devs IH]; intros acc Hacc; simpl.
  { repeat split; [done|lia| |by left]. intros d Hd. by apply not_elem_of_nil in Hd. }
  set (a := pick acc d).
  assert (a.2 = severityRank a.1 /\ (acc.2 <= a.2)%Z /\ (severityRank (Dev_Severity d) <= a.2)%Z /\
          (a = acc \/ a.1 = Dev_Severity d)) as (Ha & Ha1 & Ha2 & Ha3).
  { unfold a, pick. destruct (Z.ltb_spec acc.2 (severityRank (Dev_Severity d))); simpl; auto with lia. }
  destruct (IH a Ha) as (H1 & H2 & H3 & H4). split; [done|]. split; [lia|]. split.
  - intros d' [->|Hd']%elem_of_cons; [lia|by apply H3].
  - destruct H4 as [->|(d' & Hd' & ->)].
    + destruct Ha3 as [->|Ha3]; [by left|]. right. exists d. split; [by left|done].
    + right. exists d'. split; [by right|done].
Qed.

Lemma highest_spec devs :
  (forall d, d ∈ devs -> severityRank (Dev_Severity d) <= severityRank (highestSeverity devs))%Z /\
  (highestSeverity devs = "" \/ exists d, d ∈ devs /\ highestSeverity devs = Dev_Severity d).
Proof.
  destruct (highest_fold devs ("", 0%Z) eq_refl) as (H1 & _ & H3 & H4). unfold highestSeverity.
  rewrite <- H1. split; [done|]. destruct H4 as [->|?]; [by left|by right].
Qed.

(** A target is selected exactly when it is enabled and some deviation
    reaches its threshold.  A threshold that is empty or not one of the four
    known severities never suppresses. *)
Theorem eligible_spec devs t :
  eligible (highestSeverity devs) t = true <->
  Nt_Enabled t = true /\
  (severityRank (Nt_MinSeverity t) = 0%Z \/
   exists d, d ∈ devs /\ (severityRank (Nt_MinSeverity t) <= severityRank (Dev_Severity d))%Z).
Proof.
  destruct (highest_spec devs) as [Hmax Hwho].
  assert (Hpos : forall s, (0 <= severityRank s)%Z) by (intros s; unfold severityRank; repeat case_decide; lia).
  unfold eligible. rewrite andb_true_iff, negb_true_iff, andb_false_iff, negb_false_iff, bool_decide_eq_true, Z.ltb_ge.
  split; intros [He H]; (split; [done|]).
  - destruct H as [->|H]; [by left|]. destruct Hwho as [E|(d & Hd & E)].
    + left. rewrite E in H. specialize (Hpos (Nt_MinSeverity t)). change (severityRank "") with 0%Z in H. lia.
    + right. exists d. by rewrite <- E.
  - right. destruct H as [->|(d & Hd & H)]; [apply Hpos|]. specialize (Hmax d Hd). lia.
Qed.

(** The analysis never emits a severity the notifier ranks.  Deviations
    carry the Differ's info, warn and crit, none of which the notifier knows,
    so a target with any of the four recognised thresholds is skipped whatever
    the deviations are. *)
Theorem min_severity_silences devs t :
  (forall d, d ∈ devs -> exists cat, Dev_Severity d = Fingerprint.defaultSeverity cat) ->
  (0 < severityRank (Nt_MinSeverity t))%Z -> eligible (highestSeverity devs) t = false.
Proof.
  intros Hd Ht. apply not_true_iff_false. rewrite eligible_spec. intros (_ & [?|(d & Hin & Hle)]); [lia|].
  destruct (Hd d Hin) as [cat Hc]. assert (severityRank (Dev_Severity d) = 0%Z) as Hz; [|lia].
  rewrite Hc. unfold Fingerprint.defaultSeverity. repeat case_decide; done.
Qed.

Lemma min_severity_silences_witness :
  eligible (highestSeverity [mkDeviationRow "d" "r" "net_new_dns" "evil" 1 "warn" 0 None false])
    (mkNotifierRow "ops" "https://h/" "generic" "" "" "low" true 0 0) = false.
Proof.
  apply min_severity_silences; [|vm_compute; done].
  intros d ->%list_elem_of_singleton. exists Fingerprint.CatNetDNS. vm_compute. done.
Defined.

Lemma build_request_safe_witness :
  exists req, build_request (fun _ => None) (fun _ => Ok ("http", "localhost:80")) (fun _ => "k") (fun _ _ => "ab")
    (mkNotifierRow "ops" "http://localhost:80" "generic" "SECRET" "" "" true 0 0) "{}" "application/json" = Ok req /\
    rq_Headers req !! "X-Fangs-Signature" = Some "sha256=ab".
Proof.
  eexists. split; [reflexivity|].
  apply (build_request_safe (fun _ => None) (fun _ => Ok ("http", "localhost:80")) (fun _ => "k") (fun _ _ => "ab")
    (mkNotifierRow "ops" "http://localhost:80" "generic" "SECRET" "" "" true 0 0) "{}" "application/json");
    reflexivity.
Defined.

(** ** The loader on the SQLite backend *)
Section loading.
Context (marshal_map : gmap string string -> string) (now : time).
Let rowof e := Sqlite.stamp_notifier now (entry_row marshal_map e).

(** The entries before the first invalid one. *)
Fixpoint valid_prefix (l : list FileEntry) : list FileEntry :=
  match l with e :: l' => if entry_valid e then e :: valid_prefix l' else [] | [] => [] end.

Lemma valid_prefix_prefix l : valid_prefix l `prefix_of` l.
Proof.
  induction l as [|e l [k IH]]; simpl; [by exists []|]. destruct (entry_valid e); [|by eexists].
  exists k. simpl. by rewrite <- IH.
Qed.

Definition upserts (l : list FileEntry) (t : list NotifierRow) : list NotifierRow :=
  foldl (fun t e => upsert Nt_Name Sqlite.upsert_merge (rowof e) t) t l.

Lemma upsert_entries_run l d :
  upsert_entries marshal_map now l d =
    ((if forallb entry_valid l then Ok tt else Err (Errorf "name/url/template are required")),
     Sqlite.set_notifiers (upserts (valid_prefix l) (Sqlite.notifiers d)) d).
Proof.
  revert d. induction l as [|e l IH]; intros d; simpl; [by destruct d|].
  destruct (entry_valid e); simpl; [|by destruct d].
  erewrite M_bind_ok; [|apply wrap_err_ok; reflexivity]. by rewrite IH.
Qed.

Lemma upserts_out l t :
  keyed Nt_Name t ->
  keyed Nt_Name (upserts l t) /\
  forall name, name ∉ fe_Name <$> l -> tbl Nt_Name (upserts l t) !! name = tbl Nt_Name t !! name.
Proof.
  revert t. induction l as [|e l IH]; intros t Hk; simpl; [done|].
  destruct (IH (upsert Nt_Name Sqlite.upsert_merge (rowof e) t)) as (Hk' & Hout); [by apply keyed_upsert|].
  split; [done|]. intros name. rewrite not_elem_of_cons. intros [Hne Hn]. rewrite Hout by done.
  rewrite tbl_upsert by done. by rewrite lookup_insert_ne.
Qed.

Lemma upserts_in l t e :
  keyed Nt_Name t -> NoDup (fe_Name <$> l) -> e ∈ l ->
  tbl Nt_Name (upserts l t) !! fe_Name e =
    Some (from_option (fun old => Sqlite.upsert_merge old (rowof e)) (rowof e) (tbl Nt_Name t !! fe_Name e)).
Proof.
  revert t. induction l as [|e' l IH]; intros t Hk Hnd He; [by apply not_elem_of_nil in He|].
  rewrite fmap_cons, NoDup_cons in Hnd. destruct Hnd as [He' Hnd]. simpl.
  apply elem_of_cons in He as [->|He].
  - destruct (upserts_out l (upsert Nt_Name Sqlite.upsert_merge (rowof e') t)) as [_ Ho]; [by apply keyed_upsert|].
    unfold upserts in Ho. rewrite Ho, tbl_upsert by done. simpl. rewrite lookup_insert_eq.
    by destruct (tbl Nt_Name t !! fe_Name e').
  - change (foldl _ _ l) with (upserts l (upsert Nt_Name Sqlite.upsert_merge (rowof e') t)).
    rewrite IH; [|by apply keyed_upsert|done|done].
    rewrite tbl_upsert by done. rewrite lookup_insert_ne; [done|].
    simpl. intros E. apply He'. rewrite E. by apply list_elem_of_fmap_2.
Qed.

(** The boot file is additive and stops at its first bad entry.  Loading
    a file into the SQLite backend succeeds with the number of entries when
    every entry has a name, a URL and a template, and fails otherwise with
    the entries before the first incomplete one stored.  Targets the file
    does not name keep their rows; a target it names has the file's settings,
    enabled unless the file says otherwise, and keeps its creation time. *)
Theorem LoadFromFile_additive json_decode ReadFile path raw entries d :
  SqliteSpec.wf d -> path <> "" -> ReadFile path = Ok raw -> parse_entries json_decode raw = Ok entries ->
  NoDup (fe_Name <$> entries) ->
  let '(r, d') := LoadFromFile marshal_map now json_decode ReadFile path d in
  (if forallb entry_valid entries then r = Ok (length entries) else exists e, r = Err e) /\
  (forall name, name ∉ fe_Name <$> valid_prefix entries ->
     tbl Nt_Name (Sqlite.notifiers d') !! name = tbl Nt_Name (Sqlite.notifiers d) !! name) /\
  (forall e, e ∈ valid_prefix entries -> exists n,
     tbl Nt_Name (Sqlite.notifiers d') !! fe_Name e = Some n /\
     Nt_URL n = fe_URL e /\ Nt_Template n = fe_Template e /\ Nt_SecretEnv n = fe_SecretEnv e /\
     Nt_MinSeverity n = fe_MinSeverity e /\ Nt_Enabled n = default true (fe_Enabled e) /\
     Nt_UpdatedAt n = now /\
     Nt_CreatedAt n = from_option Nt_CreatedAt now (tbl Nt_Name (Sqlite.notifiers d) !! fe_Name e)).
Proof.
  intros Hwf Hp Hr He Hnd. unfold LoadFromFile. rewrite decide_False, Hr, He by done.
  assert (Hk : keyed Nt_Name (Sqlite.notifiers d)) by apply Hwf.
  assert (Hpre : NoDup (fe_Name <$> valid_prefix entries)).
  { destruct (valid_prefix_prefix entries) as [rest E]. rewrite E, fmap_app in Hnd at 1. by apply NoDup_app in Hnd as [? _]. }
  pose proof (upserts_out (valid_prefix entries) _ Hk) as [_ Hout].
  pose proof (fun e => upserts_in (valid_prefix entries) _ e Hk Hpre) as Hin.
  assert (Hrow : forall e, e ∈ valid_prefix entries -> exists n,
     tbl Nt_Name (upserts (valid_prefix entries) (Sqlite.notifiers d)) !! fe_Name e = Some n /\
     Nt_URL n = fe_URL e /\ Nt_Template n = fe_Template e /\ Nt_SecretEnv n = fe_SecretEnv e /\
     Nt_MinSeverity n = fe_MinSeverity e /\ Nt_Enabled n = default true (fe_Enabled e) /\
     Nt_UpdatedAt n = now /\
     Nt_CreatedAt n = from_option Nt_CreatedAt now (tbl Nt_Name (Sqlite.notifiers d) !! fe_Name e)).
  { intros e Hel. rewrite Hin by done. eexists. split; [done|]. by destruct (tbl Nt_Name _ !! fe_Name e). }
  destruct (forallb entry_valid entries) eqn:Hv.
  - erewrite M_bind_ok; [|rewrite upsert_entries_run, Hv; reflexivity]. done.
  - erewrite M_bind_err; [|rewrite upsert_entries_run, Hv; reflexivity]. split; [by eexists|done].
Qed.
End loading.

Definition wit_file : json :=
  JArr [JObj [("name", JStr "ops"); ("url", JStr "https://h/"); ("template", JStr "generic")];
        JObj [("name", JStr "bad")]].

Lemma LoadFromFile_additive_witness :
  exists n, tbl Nt_Name (Sqlite.notifiers (LoadFromFile (fun _ => "{}") 7 (fun _ => Some wit_file)
    (fun _ => Ok "[]") "f" Sqlite.empty_db).2) !! "ops" = Some n /\ Nt_Enabled n = true.
Proof.
  destruct (LoadFromFile_additive (fun _ => "{}") 7 (fun _ => Some wit_file) (fun _ => Ok "[]") "f" "[]"
    [mkFileEntry "ops" "https://h/" "generic" "" ∅ "" None; mkFileEntry "bad" "" "" "" ∅ "" None] Sqlite.empty_db)
    as (_ & _ & H); [apply SqliteSpec.wf_empty|done|done|vm_compute; reflexivity| |].
  - apply (bool_decide_unpack _). vm_compute. done.
  - destruct (H (mkFileEntry "ops" "https://h/" "generic" "" ∅ "" None)) as (n & Hn & _ & _ & _ & _ & He & _);
      [vm_compute; left|]. exists n. done.
Defined.

End Notifier.
