(* ===== verification/Api.v ===== *)
(** * api: the orchestrator's HTTP surface

    internal/orchestrator/api/server.go.  A handler takes the decoded request
    and the server and returns its response and the new server; the runner
    registry, the dispatcher, the store and the debounce timers are the
    server's state.  JSON decoding of a body is done by the caller: a body is
    given as what its decoder yields.  Listening and the HTTP machinery are
    not modelled; [buildServerTLSConfig] is.

    The debounced analysis runs concurrently with the handlers: its timers
    and callbacks are a step relation at the end of the file. *)
From Stdlib Require Import Ascii.
From stdpp Require Import prelude strings gmap list relations.
From S2P Require Import Prelude GoTime Json Sql Storage Sqlite SqliteSpec Proto Dispatcher.

Module Api.
Import Dispatcher.
Import (hints) SqliteSpec.SqliteSpec.

(** ** Server state *)
Record registeredRunner : Type := mkRegisteredRunner {
  Registration : RunnerRegistration;
  RegisteredAt : time;
  LastSeen : time;
  ActiveRunID : string;
  Status : string;
  EventsQueued : Z
}.

(** Calls on the metrics sink. *)
Inductive Observation : Type :=
  | ScanQueued
  | EventObs (eventType : string) (n : nat)
  | EventsDroppedObs (n : Z).

Record Server (S : Type) : Type := mkServer {
  orchestratorID : string;
  version : string;
  defaultWatchedPaths : list WatchedPath;
  runners : gmap string registeredRunner;
  dispatcher : Dispatcher;
  store : option S;
  differTimers : gmap string time;          (* run id to the instant its timer fires *)
  metrics : option (list Observation)
}.
Arguments mkServer {S}.
Arguments orchestratorID {S}. Arguments version {S}. Arguments defaultWatchedPaths {S}.
Arguments runners {S}. Arguments dispatcher {S}. Arguments store {S}. Arguments differTimers {S}.
Arguments metrics {S}.

Section setters.
Context {S : Type} (s : Server S).
Definition set_runners (x : gmap string registeredRunner) : Server S :=
mkServer (orchestratorID s) (version s) (defaultWatchedPaths s) x (dispatcher s) (store s) (differTimers s) (metrics s).
Definition set_dispatcher (x : Dispatcher) : Server S :=
mkServer (orchestratorID s) (version s) (defaultWatchedPaths s) (runners s) x (store s) (differTimers s) (metrics s).
Definition set_store (x : option S) : Server S :=
mkServer (orchestratorID s) (version s) (defaultWatchedPaths s) (runners s) (dispatcher s) x (differTimers s) (metrics s).
Definition set_timers (x : gmap string time) : Server S :=
mkServer (orchestratorID s) (version s) (defaultWatchedPaths s) (runners s) (dispatcher s) (store s) x (metrics s).
Definition observe (l : list Observation) : Server S :=
mkServer (orchestratorID s) (version s) (defaultWatchedPaths s) (runners s) (dispatcher s) (store s) (differTimers s)
  ((fun log => log ++ l) <$> metrics s).
End setters.

Definition New {S} (id ver : string) (paths : list WatchedPath) (st : option S) : Server S :=
  mkServer (if decide (id = "") then "fangs-orchestrator" else id) ver paths ∅ Dispatcher.New st ∅ None.

(** ** Responses *)
Inductive Body : Type :=
  | HealthB (h : HealthResponse)
  | RegistrationB (a : RegistrationAck)
  | HeartbeatB (a : HeartbeatAck)
  | JobB (j : Job)
  | QueuedB (run_id : string)
  | EventsB (batches events persisted : nat)
  | RecordedB (b : bool)
  | ErrorB (msg : string)
  | NoBody.
Record Response : Type := mkResponse { rs_code : Z; rs_body : Body }.
Definition writeError (code : Z) (msg : string) : Response := mkResponse code (ErrorB msg).

(** ** Runner registry *)
Section handlers.
Context {S : Type} `{Backend S}.
Implicit Types s : Server S.

Definition handleHealth (s : Server S) : Response :=
  mkResponse 200 (HealthB (mkHealthResponse "ok" (orchestratorID s) (version s))).

Definition handleRegister (body : res RunnerRegistration) (now : time) (s : Server S) : Response * Server S :=
  match body with
  | Err _ => (writeError 400 "decode body", s)
  | Ok reg =>
      if decide (rg_RunnerID reg = "") then (writeError 400 "missing runner_id", s)
      else if decide (rg_ProtoVersion reg <> CurrentProtoVersion) then (writeError 400 "proto_version", s)
      else (mkResponse 200 (RegistrationB (mkRegistrationAck true (orchestratorID s) (5 * Second) (30 * Second))),
            set_runners s (<[rg_RunnerID reg := mkRegisteredRunner reg now now "" "" 0]> (runners s)))
  end.

(** [body] is [None] when the request has no content. *)
Definition handleHeartbeat (runnerID : string) (body : option (res Heartbeat)) (now : time) (s : Server S) :
    Response * Server S :=
  if decide (runnerID = "") then (writeError 400 "runner id required", s) else
  match default (Ok (mkHeartbeat "" "" "" 0)) body with
  | Err _ => (writeError 400 "decode heartbeat", s)
  | Ok hb =>
      match runners s !! runnerID with
      | None => (mkResponse 200 (HeartbeatB (mkHeartbeatAck false true)), s)
      | Some rr =>
          let rr' := mkRegisteredRunner (Registration rr) (RegisteredAt rr) now (hb_ActiveRunID hb)
                       (if decide (hb_Status hb = "") then Status rr else hb_Status hb) (hb_EventsQueued hb) in
          (mkResponse 200 (HeartbeatB (mkHeartbeatAck true false)),
           set_runners s (<[runnerID := rr']> (runners s)))
      end
  end.

(** One tick of [prunerLoop]. *)
Definition prune (cutoff : duration) (now : time) (s : Server S) : Server S :=
  set_runners s (filter (fun kv => (now - LastSeen kv.2 <= cutoff)%Z) (runners s)).

Definition RegisteredRunners (s : Server S) : list string := (map_to_list (runners s)).*1.
(** [i] is the position map iteration happens to start at. *)
Definition FirstRegisteredRunner (i : nat) (s : Server S) : string :=
  match RegisteredRunners s with [] => "" | id :: l => default id ((id :: l) !! i) end.

Record RunnerSnapshot : Type := mkRunnerSnapshot {
  sn_ID : string; sn_Hostname : string; sn_KernelVersion : string; sn_ProtoVersion : Z;
  sn_Capabilities : list string; sn_RegisteredAt : time; sn_LastSeen : time;
  sn_ActiveRunID : string; sn_Status : string; sn_EventsQueued : Z
  }.
Definition RegisteredRunnersDetail (s : Server S) : list RunnerSnapshot :=
  (fun kv : string * registeredRunner =>
     let r := kv.2 in let g := Registration r in
     mkRunnerSnapshot (rg_RunnerID g) (rg_Hostname g) (rg_KernelVersion g) (rg_ProtoVersion g)
       (rg_Capabilities g) (RegisteredAt r) (LastSeen r) (ActiveRunID r) (Status r) (EventsQueued r))
    <$> map_to_list (runners s).

(** ** Job dispatch *)

(** [poll] is the outcome of [PollJob] under the request's deadline. *)
Definition handlePollJob (runnerID : string) (poll : Dispatcher -> option Job * Dispatcher) (s : Server S) :
    Response * Server S :=
  if decide (runnerID = "") then (writeError 400 "missing runner id", s) else
  match runners s !! runnerID with
  | None => (writeError 404 "runner not registered", s)
  | Some _ =>
      let '(job, d) := poll (dispatcher s) in
      (match job with Some j => mkResponse 200 (JobB j) | None => mkResponse 204 NoBody end,
       set_dispatcher s d)
  end.

Definition zero_run_id : list ascii := replicate RunIDLen "000"%char.

(** The defaults of [SubmitScan]; [t0] is the clock of the synthetic id, [t1]
    that of the dispatch stamp. *)
Definition fill_job (defaults : list WatchedPath) (t0 t1 : time) (j : Job) : Job :=
  mkJob (if decide (jb_RunID j = zero_run_id) then SyntheticRunID t0 else jb_RunID j)
    (if decide (jb_Kind j = "") then "sensor_only" else jb_Kind j)
    (jb_PackageName j) (jb_Version j) (jb_CgroupPath j)
    (match jb_WatchedPaths j with [] => defaults | ps => ps end)
    (if decide (jb_Duration j = 0%Z) then (10 * Second)%Z else jb_Duration j)
    t1 (jb_Sandbox j).

Definition run_of_job (j : Job) : Run :=
  new_run (hex (jb_RunID j))
    (match jb_PackageName j, jb_Sandbox j with
     | EmptyString, Some sb => sb_Image sb
     | p, _ => p
     end) (jb_Version j) RunStatePending 1.

Definition SubmitScan (target : string) (job : Job) (t0 t1 now : time) : M (Server S) string := fun s =>
  match runners s !! target with
  | None => (Err (Errorf "target_runner not registered"), s)
  | Some _ =>
      let job := fill_job (defaultWatchedPaths s) t0 t1 job in
      (* an error of CreateRun is logged at most *)
      let s := set_store s ((fun st => (CreateRun now (run_of_job job) st).2) <$> store s) in
      let d := enqueue target job (dispatcher s) in
      (Ok (hex (jb_RunID job)), observe (set_dispatcher s (wake target d)) [ScanQueued])
  end.

Definition handleQueueScan (body : res (string * Job)) (t0 t1 now : time) (s : Server S) : Response * Server S :=
  match body with
  | Err _ => (writeError 400 "decode body", s)
  | Ok (target, job) =>
      if decide (target = "") then (writeError 400 "missing target_runner", s) else
      match SubmitScan target job t0 t1 now s with
      | (Err _, s') => (writeError 404 "target_runner not registered", s')
      | (Ok id, s') => (mkResponse 202 (QueuedB id), s')
      end
  end.

(** ** Event ingest *)
Definition debounce : duration := (2 * Second)%Z.

(** The Differ exists when a store is configured; [Reset] moves the timer. *)
Definition scheduleDiffer (runID : string) (now : time) (s : Server S) : Server S :=
  match store s with
  | None => s
  | Some _ => set_timers s (<[runID := (now + debounce)%Z]> (differTimers s))
  end.

Definition perType (l : list EventEnvelope) : gmap string nat :=
  foldl (fun m env => let t := EventType_String (ee_Type env) in
                      <[t := default 0 (m !! t) + 1]> m) ∅ l.

(** The rows of a batch; [k] counts the clock reads so far. *)
Definition event_rows (runID : string) (clock : nat -> time) (k : nat) (l : list EventEnvelope) : list EventRow :=
  imap (fun i env => mkEventRow 0 runID (clock (k + i)) (EventType_String (ee_Type env)) (Some (ee_Payload env))) l.

Record Counts : Type := mkCounts { c_batches : nat; c_events : nat; c_persisted : nat }.

Definition ingest_batch (runID : string) (clock : nat -> time) (batch : EventBatch) (c : Counts) (s : Server S) :
    Counts * Server S :=
  let evs := eb_Events batch in
  let c := mkCounts (c_batches c + 1) (c_events c + length evs) (c_persisted c) in
  let s := observe s ((fun kv : string * nat => EventObs kv.1 kv.2) <$> map_to_list (perType evs)) in
  match store s, evs with
  | Some st, _ :: _ =>
      let rows := event_rows runID clock (c_events c - length evs) evs in
      match AppendEvents runID rows st with
      | (Ok _, st') => (mkCounts (c_batches c) (c_events c) (c_persisted c + length rows), set_store s (Some st'))
      | (Err _, st') => (c, set_store s (Some st'))
      end
  | _, _ => (c, s)
  end.

Fixpoint ingest (runID : string) (clock : nat -> time) (l : list EventBatch) (c : Counts) (s : Server S) :
    Counts * Server S :=
  match l with
  | [] => (c, s)
  | b :: l' => let '(c, s) := ingest_batch runID clock b c s in ingest runID clock l' c s
  end.

(** [eof] tells whether the stream ends cleanly after [batches] or with a
    decode error. *)
Definition handleEvents (runID : string) (batches : list EventBatch) (eof : bool) (clock : nat -> time)
    (now : time) (s : Server S) : Response * Server S :=
  if decide (runID = "") then (writeError 400 "missing run_id", s) else
  let '(c, s) := ingest runID clock batches (mkCounts 0 0 0) s in
  if negb eof then (writeError 400 "decode batch", s) else
  let s := set_store s ((fun st => (UpdateRunState now runID RunStateDone "" st).2) <$> store s) in
  (mkResponse 200 (EventsB (c_batches c) (c_events c) (c_persisted c)), scheduleDiffer runID now s).

Definition handleScanResult (runID : string) (body : res PScanResult) (now : time) (s : Server S) :
    Response * Server S :=
  if decide (runID = "") then (writeError 400 "run_id required", s) else
  match body with
  | Err _ => (writeError 400 "decode ScanResult", s)
  | Ok r =>
      if decide (sr_Status r ∉ ["ok"; "failed"; "timeout"]) then (writeError 400 "status must be ok|failed|timeout", s)
      else match store s with
      | None => (mkResponse 200 (RecordedB false), s)
      | Some st =>
          match RecordScanResult now runID (mkScanResult (sr_Status r) (sr_Reason r) (sr_EventsEmitted r)
                  (wrapS 64 (sr_EventsDropped r)) (sr_Duration r)) st with
          | (Err e, st') =>
              (if errors_Is e ErrNotFound then writeError 404 "run not found" else writeError 500 "record scan result",
               set_store s (Some st'))
          | (Ok _, st') =>
              let s := set_store s (Some st') in
              (mkResponse 200 (RecordedB true),
               if (0 <? sr_EventsDropped r)%Z then observe s [EventsDroppedObs (wrapS 64 (sr_EventsDropped r))] else s)
          end
      end
  end.
End handlers.

(** ** TLS *)
Record TLSConfig : Type := mkTLSConfig { ClientCAs : option string; RequireAndVerifyClientCert : bool }.
(** [usable pem] says whether [AppendCertsFromPEM] accepted a certificate. *)
Definition buildServerTLSConfig (ReadFile : string -> res string) (usable : string -> bool) (clientCAFile : string) :
    res TLSConfig :=
  if decide (clientCAFile = "") then Ok (mkTLSConfig None false) else
  match ReadFile clientCAFile with
  | Err e => Err (Wrapf "read client CA" e)
  | Ok pem => if usable pem then Ok (mkTLSConfig (Some pem) true) else Err (Errorf "client CA contained no usable certs")
  end.

(** ** The registry *)
Inductive registry_op : Type :=
  | OpRegister (reg : RunnerRegistration)
  | OpHeartbeat (id : string) (hb : Heartbeat)
  | OpPrune.

Section registry.
Context {S : Type} `{Backend S} (cutoff : duration).
Implicit Types s : Server S.

Definition run_op (o : time * registry_op) (s : Server S) : Server S :=
  match o.2 with
  | OpRegister reg => (handleRegister (Ok reg) o.1 s).2
  | OpHeartbeat id hb => (handleHeartbeat id (Some (Ok hb)) o.1 s).2
  | OpPrune => prune cutoff o.1 s
  end.

(** [id] is heard of at least every [cutoff] along the history, starting
    from its last sign of life. *)
Fixpoint kept_alive (id : string) (last : time) (l : list (time * registry_op)) : Prop :=
  match l with
  | [] => True
  | (t, o) :: l' =>
      (last <= t <= last + cutoff)%Z /\
      kept_alive id (match o with OpHeartbeat id' _ => if decide (id' = id) then t else last | _ => last end) l'
  end.

(** What the registry records about a runner is what it registered. *)
Definition registry_inv (s : Server S) : Prop :=
  forall id rr, runners s !! id = Some rr ->
    rg_RunnerID (Registration rr) = id /\ id <> "" /\ rg_ProtoVersion (Registration rr) = CurrentProtoVersion.

Lemma run_op_inv o s : registry_inv s -> registry_inv (run_op o s).
Proof.
  intros Hinv id rr. destruct o as [t [reg|id' hb|]]; unfold run_op; simpl.
  - unfold handleRegister. repeat case_decide; try apply Hinv. simpl. rewrite lookup_insert.
    case_decide as E; [|apply Hinv]. intros [= <-]. simpl. split; [done|]. split; [congruence|].
    destruct (decide (rg_ProtoVersion reg = CurrentProtoVersion)); [done|congruence].
  - unfold handleHeartbeat. case_decide; [apply Hinv|]. simpl. destruct (runners s !! id') eqn:E; [|apply Hinv].
    simpl. rewrite lookup_insert. case_decide; [|apply Hinv]. intros [= <-]. simpl. subst. by apply Hinv.
  - intros Hrr. apply map_lookup_filter_Some in Hrr as [Hrr _]. by apply Hinv.
Qed.

Lemma run_op_known o s id last :
  (exists rr, runners s !! id = Some rr /\ (last <= LastSeen rr)%Z) ->
  (last <= o.1 <= last + cutoff)%Z -> id <> "" ->
  exists rr, runners (run_op o s) !! id = Some rr /\
    ((match o.2 with OpHeartbeat id' _ => if decide (id' = id) then o.1 else last | _ => last end) <= LastSeen rr)%Z.
Proof.
  intros (rr & Hrr & Hl) Ht Hid. destruct o as [t [reg|id' hb|]]; unfold run_op; simpl in *.
  - unfold handleRegister. repeat case_decide; try by exists rr. simpl.
    destruct (decide (rg_RunnerID reg = id)) as [->|].
    + rewrite lookup_insert_eq. eexists. split; [done|]. simpl. lia.
    + rewrite lookup_insert_ne by done. by exists rr.
  - unfold handleHeartbeat. case_decide; [rewrite decide_False by congruence; by exists rr|]. simpl.
    destruct (decide (id' = id)) as [->|].
    + rewrite Hrr. simpl. rewrite lookup_insert_eq. eexists. split; [done|]. simpl. lia.
    + destruct (runners s !! id'); [|by exists rr]. simpl. rewrite lookup_insert_ne by done. by exists rr.
  - exists rr. split; [|done]. apply map_lookup_filter_Some. split; [done|]. simpl. lia.
Qed.

(** A runner that keeps its heartbeat is never evicted, and the registry
    never lies about who is registered.  Through any history of registrations,
    heartbeats and pruner ticks, a runner heard of at least every [cutoff]
    stays registered, and every record is the registration of the runner it is
    filed under, with the current protocol version. *)
Theorem heartbeat_keeps_runner id last l s :
  registry_inv s -> (exists rr, runners s !! id = Some rr /\ (last <= LastSeen rr)%Z) ->
  kept_alive id last l ->
  let s' := foldl (fun s o => run_op o s) s l in
  registry_inv s' /\ id ∈ RegisteredRunners s'.
Proof.
  intros Hinv Hk Hl. revert last s Hinv Hk Hl. induction l as [|o l IH]; intros last s Hinv Hk Hl; simpl.
  - split; [done|]. destruct Hk as (rr & Hrr & _). unfold RegisteredRunners.
    apply list_elem_of_fmap. exists (id, rr). split; [done|]. by apply elem_of_map_to_list.
  - destruct o as [t o]. destruct Hl as [Ht Hl]. eapply IH; [by apply run_op_inv| |exact Hl].
    apply (run_op_known (t, o) s id last Hk Ht). destruct Hk as (rr & Hrr & _). by apply Hinv in Hrr as (_ & ? & _).
Qed.
End registry.

Definition wit_reg : RunnerRegistration := mkRunnerRegistration "r1" "host" ["sensor"] "6.1" 1.
Definition wit_server : Server Sqlite.DB :=
  (handleRegister (Ok wit_reg) 0 (New "" "v1" [mkWatchedPath "/etc/" false] (Some Sqlite.empty_db))).2.

Lemma wit_server_inv : registry_inv wit_server.
Proof.
  intros id rr H. unfold wit_server in H. simpl in H. apply lookup_insert_Some in H as [[<- <-]|[_ H]]; done.
Qed.

Lemma heartbeat_keeps_runner_witness :
  "r1" ∈ RegisteredRunners (foldl (fun s o => run_op 90 o s) wit_server
    [(60%Z, OpHeartbeat "r1" (mkHeartbeat "r1" "" "" 0)); (120%Z, OpPrune)]).
Proof.
  apply (heartbeat_keeps_runner 90 "r1" 0 [(60%Z, OpHeartbeat "r1" (mkHeartbeat "r1" "" "" 0)); (120%Z, OpPrune)]).
  - apply wit_server_inv.
  - eexists. split; [reflexivity|done].
  - simpl. lia.
Defined.

(** ** Submitting a scan *)

(** A submitted scan reaches its runner.  On the SQLite backend, for a
    registered runner the call returns the hex form of the job's run id, the
    job with its defaults filled in (kind, duration, dispatch time, and the
    configured watched paths when it names none) is appended to that runner's
    queue with a wake-up left in its channel, no other queue changes, and a run row with
    that id is stored: a pending first attempt if there was none, the existing
    row otherwise.  For an unknown runner nothing changes. *)
Theorem SubmitScan_queues target job t0 t1 now (s : Server Sqlite.DB) d :
  SqliteSpec.wf d -> store s = Some d ->
  let job' := fill_job (defaultWatchedPaths s) t0 t1 job in
  match runners s !! target with
  | None => exists e, SubmitScan target job t0 t1 now s = (Err e, s)
  | Some _ => exists s' d', SubmitScan target job t0 t1 now s = (Ok (hex (jb_RunID job')), s') /\
      (forall r, jobs_of r (dispatcher s') = jobs_of r (dispatcher s) ++ (if decide (target = r) then [job'] else [])) /\
      signals (dispatcher s') !! target = Some true /\ runners s' = runners s /\
      store s' = Some d' /\
      match tbl Run_ID (Sqlite.runs d) !! hex (jb_RunID job') with
      | Some _ => d' = d
      | None => exists r, Sqlite.runs d' = Sqlite.runs d ++ [r] /\ Run_ID r = hex (jb_RunID job') /\
                  Run_State r = RunStatePending /\ Run_Attempt r = 1%Z /\ Run_Version r = jb_Version job
      end
  end /\
  jb_PackageName job' = jb_PackageName job /\ jb_Version job' = jb_Version job /\ jb_Sandbox job' = jb_Sandbox job /\
  jb_WatchedPaths job' = (if decide (jb_WatchedPaths job = []) then defaultWatchedPaths s else jb_WatchedPaths job) /\
  jb_Kind job' <> "" /\ jb_Duration job' <> 0%Z /\ jb_DispatchedAt job' = t1.
Proof.
  intros Hwf Hst job'. split.
  2:{ do 3 (split; [done|]). split; [by destruct (jb_WatchedPaths job) eqn:E; unfold job'; simpl; rewrite E|].
      unfold job', fill_job. simpl. repeat case_decide; done. }
  unfold SubmitScan. destruct (runners s !! target); [|by eexists].
  fold job'. rewrite Hst. eexists _, _. split; [reflexivity|].
  split; [intros r0; apply (jobs_enqueue r0 target job')|]. split; [apply lookup_insert_eq|].
  split; [done|]. split; [reflexivity|]. simpl. unfold Sqlite.CreateRun. simpl.
  change (IsValid RunStatePending) with true. simpl.
  destruct (insert_unique _ _ _) as [t|] eqn:E.
  - apply insert_unique_Some in E as (Hn & _ & _ & ->); [|apply Hwf]. simpl in Hn. rewrite Hn. eexists. done.
  - apply insert_unique_None in E as [r0 Hr0]. simpl in Hr0. by rewrite Hr0.
Qed.

Definition wit_job : Job := mkJob zero_run_id "" "left-pad" "1.0" "" [] 0 0 None.
Lemma SubmitScan_queues_witness :
  exists s', SubmitScan "r1" wit_job 7 8 9 wit_server = (Ok "00000000000000070000000000000000", s') /\
    length (jobs_of "r1" (dispatcher s')) = 1.
Proof.
  pose proof (SubmitScan_queues "r1" wit_job 7 8 9 wit_server Sqlite.empty_db SqliteSpec.wf_empty eq_refl) as H.
  destruct H as [(s' & d' & E & Hq & _) _]. exists s'. split; [rewrite E; vm_compute; reflexivity|].
  rewrite Hq. reflexivity.
Defined.

(** ** Ingesting events *)
Definition ev_core (e : EventRow) : string * string * jdata := (Ev_RunID e, Ev_Type e, Ev_Data e).
Definition env_core (runID : string) (env : EventEnvelope) : string * string * jdata :=
  (runID, EventType_String (ee_Type env), Some (ee_Payload env)).
Definition all_events (batches : list EventBatch) : list EventEnvelope := concat (eb_Events <$> batches).

Lemma append_core runID clock k l (d : Sqlite.DB) :
  runID ∈ Run_ID <$> Sqlite.runs d -> l <> [] ->
  exists d', AppendEvents runID (event_rows runID clock k l) d = (Ok tt, d') /\
    Sqlite.runs d' = Sqlite.runs d /\
    ev_core <$> Sqlite.events d' = (ev_core <$> Sqlite.events d) ++ (env_core runID <$> l).
Proof.
  intros Hin Hl. simpl. unfold Sqlite.AppendEvents.
  destruct (event_rows runID clock k l) as [|r rows] eqn:E; [by destruct l|]. rewrite decide_True by done.
  eexists. split; [reflexivity|]. split; [done|]. simpl Sqlite.events. rewrite fmap_app. f_equal.
  rewrite <- E. apply list_eq. intros i. unfold Sqlite.number_events, event_rows.
  rewrite !list_lookup_fmap, !list_lookup_imap. by destruct (l !! i).
Qed.

(** One batch, for a known run. *)
Lemma ingest_batch_known runID clock b c (s : Server Sqlite.DB) d :
  store s = Some d -> runID ∈ Run_ID <$> Sqlite.runs d ->
  exists s' d', ingest_batch runID clock b c s =
      (mkCounts (c_batches c + 1) (c_events c + length (eb_Events b)) (c_persisted c + length (eb_Events b)), s') /\
    store s' = Some d' /\ Sqlite.runs d' = Sqlite.runs d /\ differTimers s' = differTimers s /\
    ev_core <$> Sqlite.events d' = (ev_core <$> Sqlite.events d) ++ (env_core runID <$> eb_Events b).
Proof.
  intros Hst Hin. unfold ingest_batch. cbn [observe store]. rewrite Hst.
  destruct (eb_Events b) as [|e l] eqn:Eb.
  - eexists _, d. split; [simpl; rewrite !Nat.add_0_r; reflexivity|]. by rewrite app_nil_r.
  - destruct (append_core runID clock (c_events c + length (e :: l) - length (e :: l)) (e :: l) d Hin ltac:(done))
      as (d1 & E & Hr & Hev). cbn [c_events]. rewrite E. eexists _, d1. split.
    { unfold event_rows. rewrite length_imap. reflexivity. }
    done.
Qed.

(** A stream of batches, for a known run. *)
Lemma ingest_known runID clock batches c (s : Server Sqlite.DB) d :
  store s = Some d -> runID ∈ Run_ID <$> Sqlite.runs d ->
  exists s' d', ingest runID clock batches c s =
      (mkCounts (c_batches c + length batches) (c_events c + length (all_events batches))
                (c_persisted c + length (all_events batches)), s') /\
    store s' = Some d' /\ Sqlite.runs d' = Sqlite.runs d /\ differTimers s' = differTimers s /\
    ev_core <$> Sqlite.events d' = (ev_core <$> Sqlite.events d) ++ (env_core runID <$> all_events batches).
Proof.
  revert c s d. induction batches as [|b batches IH]; intros c s d Hst Hin.
  { exists s, d. simpl. rewrite !Nat.add_0_r, app_nil_r. by destruct c. }
  destruct (ingest_batch_known runID clock b c s d Hst Hin) as (s1 & d1 & E & Hst1 & Hr1 & Ht1 & Hev1).
  cbn [ingest]. rewrite E. rewrite <- Hr1 in Hin.
  destruct (IH (mkCounts (c_batches c + 1) (c_events c + length (eb_Events b)) (c_persisted c + length (eb_Events b)))
              s1 d1 Hst1 Hin) as (s' & d' & Hgo & Hst' & Hr' & Ht' & Hev').
  exists s', d'. rewrite Hgo. unfold all_events. rewrite fmap_cons. cbn [concat]. rewrite length_app. split.
  { simpl. do 2 f_equal; lia. }
  split; [done|]. split; [congruence|]. split; [congruence|].
  by rewrite Hev', Hev1, fmap_app, <- (assoc app).
Qed.

Lemma handleEvents_known runID batches clock now (s : Server Sqlite.DB) d r :
  keyed Run_ID (Sqlite.runs d) -> store s = Some d -> runID <> "" -> tbl Run_ID (Sqlite.runs d) !! runID = Some r ->
  let n := length (all_events batches) in
  exists s' d', handleEvents runID batches true clock now s =
      (mkResponse 200 (EventsB (length batches) n n), s') /\
    store s' = Some d' /\
    ev_core <$> Sqlite.events d' = (ev_core <$> Sqlite.events d) ++ (env_core runID <$> all_events batches) /\
    (exists r', tbl Run_ID (Sqlite.runs d') = <[runID := r']> (tbl Run_ID (Sqlite.runs d)) /\
       Run_State r' = RunStateDone /\ Run_FinishedAt r' = Some now /\ Run_FailureReason r' = Run_FailureReason r) /\
    differTimers s' = <[runID := (now + 2 * Second)%Z]> (differTimers s) /\ keyed Run_ID (Sqlite.runs d').
Proof.
  intros Hwf Hst Hid Hr n. unfold handleEvents. rewrite decide_False by done.
  assert (Hin : runID ∈ Run_ID <$> Sqlite.runs d).
  { apply tbl_lookup in Hr as [Hr <-]; [|exact Hwf]. by apply list_elem_of_fmap_2. }
  destruct (ingest_known runID clock batches (mkCounts 0 0 0) s d Hst Hin) as (s1 & d1 & -> & Hst1 & Hr1 & Ht1 & Hev).
  simpl negb. cbv iota. rewrite Hst1. simpl fmap. unfold option_map.
  simpl UpdateRunState. unfold Sqlite.UpdateRunState. change (IsValid RunStateDone) with true. simpl negb. cbv iota.
  rewrite decide_False.
  2:{ rewrite Hr1. intros Hz. apply rows_affected_key in Hz. congruence. }
  eexists _, _. split; [reflexivity|]. split; [reflexivity|]. split; [done|]. split.
  2:{ rewrite <- Ht1. split; [done|]. simpl. rewrite Hr1. by apply keyed_update. }
  simpl Sqlite.runs. rewrite Hr1. eexists. split; [apply tbl_update_key; [exact Hwf|done|exact Hr]|]. done.
Qed.

(** C22: An accepted event stream is stored completely and in order.  On the
    SQLite backend, a stream that ends cleanly for a known run is answered with
    its exact counts; every event of every batch becomes a row of that run
    with its type and payload, after the rows already there and in stream
    order; the run is marked done whatever its state was, and the analysis is
    (re)scheduled two seconds later. *)
Theorem handleEvents_stores runID batches clock now (s : Server Sqlite.DB) d r :
  SqliteSpec.wf d -> store s = Some d -> runID <> "" -> tbl Run_ID (Sqlite.runs d) !! runID = Some r ->
  let n := length (all_events batches) in
  exists s' d', handleEvents runID batches true clock now s =
      (mkResponse 200 (EventsB (length batches) n n), s') /\
    store s' = Some d' /\
    ev_core <$> Sqlite.events d' = (ev_core <$> Sqlite.events d) ++ (env_core runID <$> all_events batches) /\
    (exists r', tbl Run_ID (Sqlite.runs d') = <[runID := r']> (tbl Run_ID (Sqlite.runs d)) /\
       Run_State r' = RunStateDone /\ Run_FinishedAt r' = Some now /\ Run_FailureReason r' = Run_FailureReason r) /\
    differTimers s' = <[runID := (now + 2 * Second)%Z]> (differTimers s).
Proof.
  intros Hwf Hst Hid Hr. destruct (handleEvents_known runID batches clock now s d r) as (s' & d' & H);
    [apply Hwf|done..|]. exists s', d'. naive_solver.
Qed.

Definition wit_db : Sqlite.DB :=
  Sqlite.set_runs [new_run "r1" "left-pad" "1.0" RunStateFailed 1] Sqlite.empty_db.
Lemma wit_db_wf : SqliteSpec.wf wit_db.
Proof.
  split; try apply NoDup_nil_2; try apply Forall_nil_2; try done; simpl.
  - apply NoDup_singleton.
  - by repeat constructor.
Qed.
Definition wit_batch : EventBatch := mkEventBatch [] 1 [mkEventEnvelope EventTypeDNSQuery JNull; mkEventEnvelope EventTypeExec JNull].

Lemma handleEvents_stores_witness :
  exists s', handleEvents "r1" [wit_batch] true (fun i => Z.of_nat i) 9 (New "" "" [] (Some wit_db)) =
    (mkResponse 200 (EventsB 1 2 2), s').
Proof.
  destruct (handleEvents_stores "r1" [wit_batch] (fun i => Z.of_nat i) 9 (New "" "" [] (Some wit_db)) wit_db
    (new_run "r1" "left-pad" "1.0" RunStateFailed 1) wit_db_wf eq_refl) as (s' & _ & H & _);
    [done|vm_compute; reflexivity|]. by exists s'.
Defined.

(** Batches are not deduplicated.  A runner that sends the same stream
    again, sequence numbers included, has every one of its events stored a
    second time. *)
Theorem resent_stream_stored_twice runID batches clock now now' (s : Server Sqlite.DB) d r :
  SqliteSpec.wf d -> store s = Some d -> runID <> "" -> tbl Run_ID (Sqlite.runs d) !! runID = Some r ->
  exists d', store (handleEvents runID batches true clock now' (handleEvents runID batches true clock now s).2).2 = Some d' /\
    ev_core <$> Sqlite.events d' = (ev_core <$> Sqlite.events d) ++ (env_core runID <$> all_events batches)
                                     ++ (env_core runID <$> all_events batches).
Proof.
  intros Hwf Hst Hid Hr.
  destruct (handleEvents_known runID batches clock now s d r) as (s1 & d1 & -> & Hst1 & Hev1 & (r1 & Hr1 & _) & _ & Hk1);
    [apply Hwf|done..|].
  destruct (handleEvents_known runID batches clock now' s1 d1 r1) as (s2 & d2 & E & Hst2 & Hev2 & _);
    [done|done|done|by rewrite Hr1, lookup_insert_eq|].
  exists d2. simpl snd at 2. rewrite E. split; [done|]. by rewrite Hev2, Hev1, <- (assoc app).
Qed.

Lemma resent_stream_stored_twice_witness :
  exists d', store (handleEvents "r1" [wit_batch] true (fun i => Z.of_nat i) 9
    (handleEvents "r1" [wit_batch] true (fun i => Z.of_nat i) 5 (New "" "" [] (Some wit_db))).2).2 = Some d' /\
    length (Sqlite.events d') = 4.
Proof.
  destruct (resent_stream_stored_twice "r1" [wit_batch] (fun i => Z.of_nat i) 5 9 (New "" "" [] (Some wit_db)) wit_db
    (new_run "r1" "left-pad" "1.0" RunStateFailed 1) wit_db_wf eq_refl) as (d' & H & E);
    [done|vm_compute; reflexivity|]. exists d'. split; [exact H|].
  apply (f_equal length) in E. rewrite length_fmap in E. exact E.
Defined.

(** A scan result is recorded exactly once and only when it is well formed.
    On the SQLite backend: a known run gets the runner's counters and ends
    done on "ok" and failed otherwise, keeping its old failure reason when
    none is given; an unknown run is a 404; any other status is a 400; and
    only the first of these changes the store. *)
Theorem handleScanResult_spec runID body now (s : Server Sqlite.DB) d :
  SqliteSpec.wf d -> store s = Some d ->
  let '(resp, s') := handleScanResult runID body now s in
  match body with
  | Ok r =>
      if decide (runID <> "" /\ sr_Status r ∈ ["ok"; "failed"; "timeout"]) then
        match tbl Run_ID (Sqlite.runs d) !! runID with
        | None => rs_code resp = 404%Z /\ store s' = Some d
        | Some run => resp = mkResponse 200 (RecordedB true) /\ exists d' run',
            store s' = Some d' /\ d' = Sqlite.set_runs (Sqlite.runs d') d /\
            tbl Run_ID (Sqlite.runs d') = <[runID := run']> (tbl Run_ID (Sqlite.runs d)) /\
            Run_State run' = (if decide (sr_Status r = "ok") then RunStateDone else RunStateFailed) /\
            Run_FinishedAt run' = Some now /\ Run_EventsEmitted run' = sr_EventsEmitted r /\
            Run_FailureReason run' = (if decide (sr_Reason r = "") then Run_FailureReason run else sr_Reason r)
        end
      else rs_code resp = 400%Z /\ s' = s
  | Err _ => rs_code resp = 400%Z /\ s' = s
  end.
Proof.
  intros Hwf Hst. unfold handleScanResult. destruct (decide (runID = "")) as [Hid|Hid].
  { destruct body; [rewrite decide_False by naive_solver|]; done. }
  destruct body as [r|e]; [|done]. destruct (decide (sr_Status r ∈ ["ok"; "failed"; "timeout"])) as [Hs|Hs].
  2:{ by repeat (case_decide; try tauto). }
  rewrite (decide_False (P := sr_Status r ∉ _)) by tauto.
  rewrite Hst. simpl RecordScanResult. unfold Sqlite.RecordScanResult.
  pose proof (rows_affected_key Run_ID (Sqlite.runs d) runID) as Hz.
  destruct (tbl Run_ID (Sqlite.runs d) !! runID) as [run|] eqn:Hr.
  - rewrite decide_False by naive_solver. rewrite decide_True by done. split; [done|]. eexists _, _.
    split; [by destruct (0 <? sr_EventsDropped r)%Z|]. split; [done|].
    split; [apply tbl_update_key; [apply Hwf|done|exact Hr]|]. split; [|done].
    simpl. unfold Sqlite.result_state.
    rewrite !elem_of_cons in Hs. destruct Hs as [->|[->|[->|Hs]]]; [done..|]. by apply not_elem_of_nil in Hs.
  - rewrite decide_True by (by apply Hz). rewrite decide_True by done. done.
Qed.

Lemma handleScanResult_spec_witness :
  rs_code (handleScanResult "zz" (Ok (mkPScanResult [] "ok" "" 1 0 5)) 9 (New "" "" [] (Some wit_db))).1 = 404%Z.
Proof.
  exact (proj1 (handleScanResult_spec "zz" (Ok (mkPScanResult [] "ok" "" 1 0 5)) 9 (New "" "" [] (Some wit_db)) wit_db
    wit_db_wf eq_refl)).
Defined.

(** ** The debounced analysis *)

(** A timer belongs to the run it was created for; its callback analyses the
    run and then forgets the timer.  [dirty] holds the runs with a stream
    closed since the last analysis read their events. *)
Record Sched : Type := mkSched {
  in_map : gmap string nat;                  (* differTimers *)
  owner : gmap nat string;
  armed : gset nat;
  callbacks : gmap nat (string * bool);      (* callback: run, and whether it has analysed it *)
  dirty : gset string
}.
Definition idle : Sched := mkSched ∅ ∅ ∅ ∅ ∅.

Inductive sched_step : Sched -> Sched -> Prop :=
  | sched_new s r t :
      in_map s !! r = None -> owner s !! t = None ->
      sched_step s (mkSched (<[r := t]> (in_map s)) (<[t := r]> (owner s)) ({[t]} ∪ armed s) (callbacks s) ({[r]} ∪ dirty s))
  | sched_reset s r t :
      in_map s !! r = Some t ->
      sched_step s (mkSched (in_map s) (owner s) ({[t]} ∪ armed s) (callbacks s) ({[r]} ∪ dirty s))
  | sched_fire s t r c :
      t ∈ armed s -> owner s !! t = Some r -> callbacks s !! c = None ->
      sched_step s (mkSched (in_map s) (owner s) (armed s ∖ {[t]}) (<[c := (r, false)]> (callbacks s)) (dirty s))
  | sched_analyze s c r :
      callbacks s !! c = Some (r, false) ->
      sched_step s (mkSched (in_map s) (owner s) (armed s) (<[c := (r, true)]> (callbacks s)) (dirty s ∖ {[r]}))
  | sched_finish s c r :
      callbacks s !! c = Some (r, true) ->
      sched_step s (mkSched (delete r (in_map s)) (owner s) (armed s) (delete c (callbacks s)) (dirty s)).

(** An analysis of [r] is on its way. *)
Definition analysis_due (r : string) (s : Sched) : Prop :=
  (exists t, t ∈ armed s /\ owner s !! t = Some r) \/ (exists c, callbacks s !! c = Some (r, false)).

Definition sched_inv (s : Sched) : Prop :=
  (forall r t, in_map s !! r = Some t -> owner s !! t = Some r) /\
  (forall r, r ∈ dirty s -> analysis_due r s).

Lemma sched_step_inv s s' : sched_inv s -> sched_step s s' -> sched_inv s'.
Proof.
  intros [Hown Hdirty] Hs. destruct Hs as [s r t Hr Ht|s r t Hr|s t r c Ht Ho Hc|s c r Hc|s c r Hc]; split; simpl.
  - intros r' t'. rewrite !lookup_insert. repeat case_decide; naive_solver.
  - intros r' [->%elem_of_singleton|Hd]%elem_of_union.
    + left. exists t. simpl. rewrite lookup_insert_eq. set_solver.
    + destruct (Hdirty r' Hd) as [(t' & Ht' & Ho)|Hc]; [left|by right].
      exists t'. simpl. rewrite lookup_insert_ne by congruence. set_solver.
  - done.
  - intros r' [->%elem_of_singleton|Hd]%elem_of_union.
    + left. exists t. simpl. split; [set_solver|by apply Hown].
    + destruct (Hdirty r' Hd) as [(t' & Ht' & Ho)|Hc]; [left; exists t'; set_solver|by right].
  - done.
  - intros r' Hd. destruct (Hdirty r' Hd) as [(t' & Ht' & Ho')|[c' Hc']].
    + destruct (decide (t' = t)) as [->|Hne].
      * right. exists c. simpl. rewrite lookup_insert_eq. congruence.
      * left. exists t'. simpl. split; [set_solver|done].
    + right. exists c'. simpl. rewrite lookup_insert_ne; [done|congruence].
  - done.
  - intros r' [Hd Hne]%elem_of_difference. rewrite elem_of_singleton in Hne.
    destruct (Hdirty r' Hd) as [?|[c' Hc']]; [by left|]. right. exists c'. simpl.
    rewrite lookup_insert_ne; [done|congruence].
  - intros r' t' Ht'. apply lookup_delete_Some in Ht' as [_ Ht']. by apply Hown.
  - intros r' Hd. destruct (Hdirty r' Hd) as [?|[c' Hc']]; [by left|]. right. exists c'. simpl.
    rewrite lookup_delete_ne; [done|congruence].
Qed.

(** No closed stream stays unanalysed.  However event streams, timer
    expiries and analyses interleave — a stream closing while an analysis is
    running, a timer reset after it fired — a run with a stream closed since
    its events were last read has an armed timer, or a callback that has not
    read them yet. *)
Theorem no_stream_unanalysed s r : rtc sched_step idle s -> r ∈ dirty s -> analysis_due r s.
Proof.
  intros H. enough (sched_inv s) as [_ Hd] by apply Hd.
  assert (sched_inv idle) as H0 by (split; [done|intros ? ?%elem_of_empty; done]).
  revert H0. induction H as [|s s' s'' Hs _ IH]; [done|]. intros H0. apply IH. by eapply sched_step_inv.
Qed.

(** The run's stream closes, its timer fires, and before that analysis is
    over another stream closes and the timer fires again. *)
Definition overlapping : Sched :=
  mkSched {[ "r" := 0 ]} {[ 0 := "r" ]} ∅ {[ 0 := ("r", false); 1 := ("r", false) ]} {[ "r" ]}.

Lemma overlapping_reachable : rtc sched_step idle overlapping.
Proof.
  eapply rtc_l. { apply (sched_new idle "r" 0); reflexivity. }
  eapply rtc_l. { apply (sched_fire _ 0 "r" 0); [set_solver|reflexivity|reflexivity]. }
  eapply rtc_l. { apply (sched_reset _ "r" 0). reflexivity. }
  eapply rtc_l. { apply (sched_fire _ 0 "r" 1); [set_solver|reflexivity|reflexivity]. }
  replace (mkSched _ _ _ _ _) with overlapping; [constructor|]. vm_compute. reflexivity.
Qed.

Lemma no_stream_unanalysed_witness : analysis_due "r" overlapping.
Proof. apply (no_stream_unanalysed overlapping "r" overlapping_reachable). vm_compute. set_solver. Defined.

(** The debounce does not serialise analyses.  Two analyses of one run can
    be in progress at the same time: the timer of a run whose analysis takes
    longer than the debounce interval is armed again by the next stream. *)
Theorem analyses_overlap :
  exists s r c c', rtc sched_step idle s /\ c <> c' /\
    callbacks s !! c = Some (r, false) /\ callbacks s !! c' = Some (r, false).
Proof. exists overlapping, "r", 0, 1. split; [apply overlapping_reachable|done]. Qed.

End Api.
