(* ===== verification/Serve.v ===== *)
(** * The HTTP front of the orchestrator

    Routes and transport: the [Mount] functions of orchestrator/api/server.go,
    orchestrator/ui/ui.go and orchestrator/metrics/metrics.go on one
    [http.ServeMux], put together as cmd/fangs-orchestrator/main.go does, and
    [ServeWith].  The mux is Go's: patterns "METHOD /path" with literal
    segments, wildcards {x} and a trailing slash that matches any rest;
    registering a pattern that overlaps another without being more specific
    panics; a request goes to the most specific pattern.  Paths are clean
    (the mux redirects others first) and kept as the segments after the
    leading slash: "/ui/" is ["ui"; ""]. *)
From Stdlib Require Import Ascii.
From stdpp Require Import prelude strings gmap list.
From S2P Require Import Prelude GoTime Json Proto Dispatcher Api.

Module Serve.
(** ** Patterns *)
Inductive Seg : Type := Lit (s : string) | Wild (name : string) | Multi.
#[export] Instance Seg_eq_dec : EqDecision Seg.
Proof. solve_decision. Defined.

Record Pattern : Type := mkPattern { pat_method : string; pat_segs : list Seg }.
#[export] Instance Pattern_eq_dec : EqDecision Pattern.
Proof. solve_decision. Defined.

Fixpoint split_on (c : ascii) (l acc : list ascii) : list string :=
  match l with
  | [] => [string_of_list (rev acc)]
  | x :: l' => if decide (x = c) then string_of_list (rev acc) :: split_on c l' [] else split_on c l' (x :: acc)
  end.
Definition split (c : ascii) (s : string) : list string := split_on c (list_of_string s) [].

Definition parse_seg (s : string) : Seg :=
  if HasPrefix s "{" && HasSuffix s "}" then Wild (TrimSuffix (slice_from s 1) "}") else Lit s.

(** The segments after the leading slash; a trailing slash is [Multi]. *)
Fixpoint parse_segs (l : list string) : list Seg :=
  match l with
  | [] => []
  | [s] => [if decide (s = "") then Multi else parse_seg s]
  | s :: l' => parse_seg s :: parse_segs l'
  end.

Definition parsePattern (s : string) : option Pattern :=
  match split " " s with
  | [m; p] => match split "/" p with "" :: segs => Some (mkPattern m (parse_segs segs)) | _ => None end
  | _ => None
  end.

(** ** Conflicts *)
Inductive relationship : Type := equivalent | moreGeneral | moreSpecific | disjoint_ | overlaps.
#[export] Instance relationship_eq_dec : EqDecision relationship.
Proof. solve_decision. Defined.

Definition compareSegments (s1 s2 : Seg) : relationship :=
  match s1, s2 with
  | Multi, Multi => equivalent
  | Multi, _ => moreGeneral
  | _, Multi => moreSpecific
  | Wild _, Wild _ => equivalent
  | Wild _, Lit _ => moreGeneral
  | Lit _, Wild _ => moreSpecific
  | Lit a, Lit b => if decide (a = b) then equivalent else disjoint_
  end.

Definition inverse (r : relationship) : relationship :=
  match r with moreGeneral => moreSpecific | moreSpecific => moreGeneral | _ => r end.

Definition combine (r1 r2 : relationship) : relationship :=
  match r1 with
  | equivalent => r2
  | disjoint_ => disjoint_
  | overlaps => if decide (r2 = disjoint_) then disjoint_ else overlaps
  | _ => if decide (r2 = equivalent) then r1 else if decide (r2 = inverse r1) then overlaps else r2
  end.

Definition ends_multi (l : list Seg) : bool := match last l with Some Multi => true | _ => false end.

Fixpoint compare_from (rel : relationship) (m1 m2 : bool) (l1 l2 : list Seg) : relationship :=
  match l1, l2 with
  | s1 :: l1', s2 :: l2' =>
      let r := combine rel (compareSegments s1 s2) in
      if decide (r = disjoint_) then disjoint_ else compare_from r m1 m2 l1' l2'
  | [], [] => rel
  | [], _ :: _ => if m1 then combine rel moreGeneral else disjoint_
  | _ :: _, [] => if m2 then combine rel moreSpecific else disjoint_
  end.

Definition comparePaths (l1 l2 : list Seg) : relationship :=
  if negb (length l1 =? length l2) && negb (ends_multi l1) && negb (ends_multi l2) then disjoint_
  else compare_from equivalent (ends_multi l1) (ends_multi l2) l1 l2.

Definition compareMethods (m1 m2 : string) : relationship :=
  if decide (m1 = m2) then equivalent
  else if decide (m1 = "") then moreGeneral
  else if decide (m2 = "") then moreSpecific
  else if decide (m1 = "GET" /\ m2 = "HEAD") then moreGeneral
  else if decide (m2 = "GET" /\ m1 = "HEAD") then moreSpecific
  else disjoint_.

Definition compare (p1 p2 : Pattern) : relationship :=
  let r := compareMethods (pat_method p1) (pat_method p2) in
  if decide (r = disjoint_) then disjoint_ else combine r (comparePaths (pat_segs p1) (pat_segs p2)).

Definition conflicts (p1 p2 : Pattern) : bool :=
  bool_decide (compare p1 p2 = equivalent \/ compare p1 p2 = overlaps).

(** ** The mux *)
Section mux.
Context {H : Type}.

Definition Mux : Type := list (Pattern * H).

(** [HandleFunc]; [None] is a panic. *)
Definition HandleFunc (pattern : string) (h : H) (mux : Mux) : option Mux :=
  p ← parsePattern pattern;
  if existsb (fun e : Pattern * H => conflicts p e.1) mux then None else Some (mux ++ [(p, h)]).

Fixpoint HandleAll (l : list (string * H)) (mux : Mux) : option Mux :=
  match l with
  | [] => Some mux
  | (s, h) :: l' => mux ← HandleFunc s h mux; HandleAll l' mux
  end.

(** The routing tree, kept as the patterns below a node with the segments
    still to match. *)
Definition Node : Type := list (list Seg * (Pattern * H)).

Definition child (f : Seg -> bool) (n : Node) : Node :=
  omap (fun e : list Seg * (Pattern * H) => match e.1 with s :: l => if f s then Some (l, e.2) else None | [] => None end) n.
Definition is_lit (x : string) (s : Seg) : bool := match s with Lit y => bool_decide (y = x) | _ => false end.
Definition is_wild (s : Seg) : bool := match s with Wild _ => true | _ => false end.

(** The first pattern with nothing but [l0] left: the pattern that ends here,
    and the one that matches any rest. *)
Definition with_rest (l0 : list Seg) (n : Node) : option (Pattern * H) :=
  head (omap (fun e : list Seg * (Pattern * H) => if decide (e.1 = l0) then Some e.2 else None) n).
Definition leaf : Node -> option (Pattern * H) := with_rest [].
Definition multi : Node -> option (Pattern * H) := with_rest [Multi].

(** Literals first, then the wildcard, then the trailing slash; the segments
    that wildcards matched are returned in order. *)
Fixpoint search (path : list string) (n : Node) : option (Pattern * H * list string) :=
  match path with
  | [] => e ← leaf n; Some (e, [])
  | x :: path' =>
      match search path' (child (is_lit x) n) with
      | Some r => Some r
      | None =>
          match (if decide (x = "") then None else search path' (child is_wild n)) with
          | Some (e, ms) => Some (e, x :: ms)
          | None => e ← multi n; Some (e, [])
          end
      end
  end.

Definition node_of (m : string) (mux : Mux) : Node :=
  (fun e : Pattern * H => (pat_segs e.1, e)) <$> filter (fun e : Pattern * H => pat_method e.1 = m) mux.

(** [routingNode.match]: the method, GET for HEAD, then the patterns without
    a method. *)
Definition find (mux : Mux) (m : string) (path : list string) : option (Pattern * H * list string) :=
  match search path (node_of m mux) with
  | Some r => Some r
  | None =>
      match (if decide (m = "HEAD") then search path (node_of "GET" mux) else None) with
      | Some r => Some r
      | None => search path (node_of "" mux)
      end
  end.

Fixpoint wild_names (l : list Seg) : list string :=
  match l with
  | [] => []
  | Wild n :: l' => n :: wild_names l'
  | _ :: l' => wild_names l'
  end.

(** Go's exactMatch: nothing was left to a trailing slash. *)
Definition exactMatch (p : Pattern) (path : list string) : bool :=
  negb (ends_multi (pat_segs p)) ||
  (bool_decide (last path = Some "") && (length (pat_segs p) =? length path)).

(** What happens to a request; [Handled] carries the path values. *)
Inductive Outcome : Type :=
  | Handled (h : H) (values : list (string * string))
  | RedirectSlash
  | MethodNotAllowed
  | NotFound.

Definition ServeHTTP (mux : Mux) (m : string) (path : list string) : Outcome :=
  let r := find mux m path in
  let exact (r : option (Pattern * H * list string)) path :=
    match r with Some (p, _, _) => exactMatch p path | None => false end in
  if negb (exact r path) && negb (bool_decide (last path = Some "")) &&
     exact (find mux m (path ++ [""])) (path ++ [""])
  then RedirectSlash
  else match r with
       | Some (p, h, ms) => Handled h (zip (wild_names (pat_segs p)) ms)
       | None => if existsb (fun e : Pattern * H => bool_decide (is_Some (find mux (pat_method e.1) path))) mux
                 then MethodNotAllowed else NotFound
       end.
End mux.
Arguments Mux : clear implicits.
Arguments Outcome : clear implicits.

(** ** The routes *)
Inductive Handler : Type :=
  (* api *)
  | handleHealth | handleRegister | handleHeartbeat | handlePollJob | handleQueueScan | handleEvents
  | handleScanResult
  (* metrics *)
  | promhttp
  (* ui *)
  | handleRoot | handleOverview | handlePackages | handlePackageDetail | handleRuns | handleRunDetail
  | handleLineage | handleDeviations | handleDeviationDetail | handleEventDetail | handlePending
  | handleAllowlist | handleNotifiers | handleConfig | staticHTTP.

#[export] Instance Handler_eq_dec : EqDecision Handler.
Proof. solve_decision. Defined.

Definition api_Mount : Mux Handler -> option (Mux Handler) := HandleAll
  [("GET /v1/health", handleHealth); ("POST /v1/runners/register", handleRegister);
   ("POST /v1/runners/{id}/heartbeat", handleHeartbeat); ("GET /v1/runners/{id}/jobs", handlePollJob);
   ("POST /v1/scans", handleQueueScan); ("POST /v1/runs/{run_id}/events", handleEvents);
   ("POST /v1/runs/{run_id}/result", handleScanResult)].

Definition metrics_Mount : Mux Handler -> option (Mux Handler) := HandleAll [("GET /metrics", promhttp)].

Definition ui_Mount : Mux Handler -> option (Mux Handler) := HandleAll
  [("GET /", handleRoot); ("GET /ui/", handleOverview); ("GET /ui/packages", handlePackages);
   ("GET /ui/packages/{name}", handlePackageDetail); ("GET /ui/runs", handleRuns);
   ("GET /ui/runs/{id}", handleRunDetail); ("GET /ui/runs/{id}/lineage", handleLineage);
   ("GET /ui/deviations", handleDeviations); ("GET /ui/deviations/{id}", handleDeviationDetail);
   ("GET /ui/events/{id}", handleEventDetail); ("GET /ui/pending", handlePending);
   ("GET /ui/allowlist", handleAllowlist); ("GET /ui/notifiers", handleNotifiers);
   ("GET /ui/config", handleConfig); ("GET /static/", staticHTTP)].

(** main: the API always, the others as the flags say. *)
Definition orchestrator_mux (metrics ui : bool) : option (Mux Handler) :=
  mux ← api_Mount [];
  mux ← (if metrics then metrics_Mount mux else Some mux);
  if ui then ui_Mount mux else Some mux.

(** [handleRoot]: "/" goes to the overview. *)
Inductive RootAnswer : Type := Found302 (location : string) | NotFound404.
Definition root_answer (path : list string) : RootAnswer :=
  if decide (path = [""]) then Found302 "/ui/" else NotFound404.

(** ** Transport *)
Inductive Transport : Type := PlainHTTP | HTTPS (cfg : Api.Api.TLSConfig).

(** How serving ends: the context, with what [Shutdown] returned, or the
    listener with an error. *)
Inductive Ending : Type := CtxDone (shutdown : option error) | ListenerReturned (e : error).
Definition ErrServerClosed : error := Sentinel "http: Server closed".

Section serving.
Context (ReadFile : string -> res string) (usable : string -> bool).

Definition transport (tlsCertFile tlsKeyFile tlsClientCAFile : string) : res Transport :=
  let tlsEnabled := negb (bool_decide (tlsCertFile = "")) && negb (bool_decide (tlsKeyFile = "")) in
  if tlsEnabled then
    match Api.Api.buildServerTLSConfig ReadFile usable tlsClientCAFile with
    | Err e => Err (Wrapf "tls config" e)
    | Ok cfg => Ok (HTTPS cfg)
    end
  else Ok PlainHTTP.

Definition ServeWith (tlsCertFile tlsKeyFile tlsClientCAFile : string) (ending : Ending) : option error :=
  match transport tlsCertFile tlsKeyFile tlsClientCAFile with
  | Err e => Some e
  | Ok _ =>
      match ending with
      | CtxDone (Some e) => Some (Wrapf "http shutdown" e)
      | CtxDone None => None
      | ListenerReturned e => if errors_Is e ErrServerClosed then None else Some e
      end
  end.
End serving.


(** ** What a pattern matches *)
Fixpoint seg_matches (l : list Seg) (path : list string) : option (list string) :=
  match l, path with
  | [], [] => Some []
  | [Multi], _ :: _ => Some []
  | Lit s :: l', x :: path' => if decide (s = x) then seg_matches l' path' else None
  | Wild _ :: l', x :: path' => if decide (x = "") then None else ms ← seg_matches l' path'; Some (x :: ms)
  | _, _ => None
  end.
Definition matched (l : list Seg) (path : list string) : Prop := is_Some (seg_matches l path).

(** At the first segment where they differ in kind, [l1] is the more
    specific one. *)
Fixpoint before (l1 l2 : list Seg) : Prop :=
  match l1, l2 with
  | s1 :: l1', s2 :: l2' =>
      compareSegments s1 s2 = moreSpecific \/ (compareSegments s1 s2 = equivalent /\ before l1' l2')
  | [], [] => True
  | _, _ => False
  end.

Section tree.
Context {H : Type}.
Implicit Types (n : Node (H := H)) (e : Pattern * H).

Lemma child_elem f n l e : (l, e) ∈ child f n <-> exists s, f s = true /\ (s :: l, e) ∈ n.
Proof.
  unfold child. rewrite list_elem_of_omap. split.
  - intros [[[|s l'] e'] [Hin E]]; simpl in E; [done|]. destruct (f s) eqn:F; [|done]. injection E as <- <-. eauto.
  - intros (s & F & Hin). exists (s :: l, e). simpl. by rewrite F.
Qed.

Lemma head_omap {A B} (f : A -> option B) (l : list A) :
  match head (omap f l) with
  | Some y => exists x, x ∈ l /\ f x = Some y
  | None => forall x, x ∈ l -> f x = None
  end.
Proof.
  destruct (omap f l) as [|y l'] eqn:E; simpl.
  - intros x Hx. destruct (f x) as [y|] eqn:F; [|done]. exfalso. apply (not_elem_of_nil y). rewrite <- E.
    apply list_elem_of_omap. eauto.
  - apply list_elem_of_omap. rewrite E. left.
Qed.

Lemma head_at n (l0 : list Seg) :
  match with_rest l0 n with
  | Some e => (l0, e) ∈ n
  | None => forall e, (l0, e) ∉ n
  end.
Proof.
  unfold with_rest. pose proof (head_omap (fun e : list Seg * (Pattern * H) => if decide (e.1 = l0) then Some e.2 else None) n) as Hh.
  destruct (head _) as [e|].
  - destruct Hh as ([l e'] & Hin & E). simpl in E. case_decide; [|done]. by simplify_eq.
  - intros e Hin. specialize (Hh _ Hin). simpl in Hh. by rewrite decide_True in Hh.
Qed.

(** The search finds a matching pattern that comes before every other. *)
Lemma search_spec path n :
  match search path n with
  | Some (e, ms) => exists l, (l, e) ∈ n /\ seg_matches l path = Some ms /\
      forall l' e', (l', e') ∈ n -> matched l' path -> before l l'
  | None => forall l' e', (l', e') ∈ n -> ~ matched l' path
  end.
Proof.
  revert n. induction path as [|x path IH]; intros n; simpl.
  { pose proof (head_at n []) as Hh. unfold leaf. destruct (with_rest _ _) as [e|]; simpl.
    - exists []. split; [done|]. split; [done|]. intros [|[] ?] e' _ [? E]; done || by destruct l.
    - intros [|s l] e' Hin [? E]; [by apply (Hh e')|]. by destruct s, l. }
  pose proof (IH (child (is_lit x) n)) as H1. destruct (search path (child (is_lit x) n)) as [[e ms]|].
  { destruct H1 as (l & (s & Hs & Hin)%child_elem & Hm & Hmin). destruct s as [y|?|]; try done. simpl in Hs.
    apply bool_decide_eq_true_1 in Hs as ->. exists (Lit x :: l). split; [done|]. simpl. rewrite decide_True by done.
    split; [done|]. intros [|[y|w|] l'] e' Hin' [ms' E']; simpl in E' |- *; try done; [|by left..].
    case_decide; [|done]. subst. rewrite decide_True by done. right. split; [done|]. apply (Hmin _ e'); [|by eexists].
    apply child_elem. exists (Lit x). simpl. by rewrite bool_decide_true. }
  assert (Hlit : forall l' e', (Lit x :: l', e') ∈ n -> ~ matched l' path).
  { intros l' e' Hin. apply (H1 l' e'), child_elem. exists (Lit x). simpl. by rewrite bool_decide_true. }
  clear H1. pose proof (IH (child is_wild n)) as H2.
  assert (Hw : match (if decide (x = "") then None else search path (child is_wild n)) with
               | Some (e, ms) => x <> "" /\ exists l, (l, e) ∈ child is_wild n /\ seg_matches l path = Some ms /\
                   forall l' e', (l', e') ∈ child is_wild n -> matched l' path -> before l l'
               | None => x = "" \/ forall l' e', (l', e') ∈ child is_wild n -> ~ matched l' path
               end).
  { case_decide; [by left|]. destruct (search path (child is_wild n)) as [[e ms]|]; [by split|by right]. }
  clear H2. destruct (if decide (x = "") then None else search path (child is_wild n)) as [[e ms]|].
  { destruct Hw as (Hx & l & (s & Hs & Hin)%child_elem & Hm & Hmin). destruct s as [|w|]; try done.
    exists (Wild w :: l). split; [done|]. simpl. rewrite decide_False by done. rewrite Hm. split; [done|].
    intros [|[y|w'|] l'] e' Hin' [ms' E']; simpl in E' |- *; try done; [|right|by left].
    - case_decide; [|done]. subst. exfalso. eapply Hlit; [done|by eexists].
    - split; [done|]. rewrite decide_False in E' by done. destruct (seg_matches l' path) as [ms''|] eqn:El; [|done].
      apply (Hmin _ e'); [|by eexists]. apply child_elem. by exists (Wild w'). }
  pose proof (head_at n [Multi]) as Hh. unfold multi.
  assert (Hrest : forall l' e', (l', e') ∈ n -> matched l' (x :: path) -> l' = [Multi]).
  { intros [|[y|w|] l'] e' Hin [ms' E']; simpl in E'; try done.
    - case_decide; [|done]. subst. exfalso. eapply Hlit; [done|by eexists].
    - case_decide; [done|]. destruct (seg_matches l' path) eqn:El; [|done]. destruct Hw as [->|Hw]; [done|].
      exfalso. eapply (Hw l' e'); [apply child_elem; by exists (Wild w)|by eexists].
    - by destruct l'. }
  destruct (with_rest _ _) as [e|]; simpl.
  - exists [Multi]. split; [done|]. split; [done|]. intros l' e' Hin Hm. rewrite (Hrest _ _ Hin Hm). simpl. by right.
  - intros l' e' Hin Hm. rewrite (Hrest _ _ Hin Hm) in Hin. by apply (Hh e').
Qed.
End tree.

(** ** Comparing patterns *)
Lemma inverse_combine r1 r2 : inverse (combine r1 r2) = combine (inverse r1) (inverse r2).
Proof. by destruct r1, r2. Qed.

Lemma compareSegments_inverse s1 s2 : compareSegments s2 s1 = inverse (compareSegments s1 s2).
Proof. destruct s1, s2; simpl; try done. repeat case_decide; simpl; congruence. Qed.

Lemma compare_from_inverse rel m1 m2 l1 l2 :
  compare_from (inverse rel) m2 m1 l2 l1 = inverse (compare_from rel m1 m2 l1 l2).
Proof.
  revert rel l2. induction l1 as [|s1 l1 IH]; intros rel [|s2 l2]; simpl; try done.
  - destruct m1; [by destruct rel|done].
  - destruct m2; [by destruct rel|done].
  - rewrite compareSegments_inverse, <- inverse_combine.
    destruct (combine rel (compareSegments s1 s2)); simpl; try done;
      match goal with |- _ = inverse (compare_from ?r _ _ _ _) => apply (IH r l2) end.
Qed.

Lemma comparePaths_inverse l1 l2 : comparePaths l2 l1 = inverse (comparePaths l1 l2).
Proof.
  unfold comparePaths. rewrite (Nat.eqb_sym (length l2)).
  destruct (length l1 =? length l2), (ends_multi l1), (ends_multi l2); simpl; try done;
    apply (compare_from_inverse equivalent).
Qed.

Lemma compareMethods_inverse m1 m2 : compareMethods m2 m1 = inverse (compareMethods m1 m2).
Proof. unfold compareMethods. repeat case_decide; simpl; try done; intuition congruence. Qed.

Lemma compare_inverse p1 p2 : compare p2 p1 = inverse (compare p1 p2).
Proof.
  unfold compare. rewrite comparePaths_inverse, compareMethods_inverse.
  by destruct (compareMethods _ _), (comparePaths _ _).
Qed.

Lemma conflicts_sym p1 p2 : conflicts p2 p1 = conflicts p1 p2.
Proof. unfold conflicts. rewrite compare_inverse. by destruct (compare p1 p2). Qed.

Lemma matched_cons_inv s l x path :
  matched (s :: l) (x :: path) -> (s = Multi /\ l = []) \/ (matched l path /\ s <> Multi).
Proof.
  intros [ms E]. destruct s as [y|w|]; simpl in E.
  - case_decide; [|done]. right. split; [by eexists|done].
  - case_decide; [done|]. right. destruct (seg_matches l path) eqn:El; [|done]. split; [by eexists|done].
  - left. split; [done|]. by destruct l.
Qed.

Lemma matched_nil_inv l : matched l [] -> l = [].
Proof. intros [ms E]. destruct l as [|[] ?]; try done. simpl in E. by destruct l. Qed.

Lemma matched_nonempty l x path : matched l (x :: path) -> l <> [].
Proof. intros [ms E] ->. done. Qed.

Lemma ends_multi_cons s l : l <> [] -> ends_multi (s :: l) = ends_multi l.
Proof. unfold ends_multi. by destruct l. Qed.

Lemma matched_length l path : matched l path -> ends_multi l = false -> length l = length path.
Proof.
  revert path. induction l as [|s l IH]; intros [|x path] Hm He; try done.
  - by destruct Hm.
  - by apply matched_nil_inv in Hm.
  - apply matched_cons_inv in Hm as [[-> ->]|[Hm _]]; [done|]. simpl. f_equal. apply IH; [done|].
    destruct l; [done|by rewrite ends_multi_cons in He].
Qed.

Definition late (r : relationship) : Prop := r = moreSpecific \/ r = overlaps.

Lemma late_combine r r2 : late r -> r2 <> disjoint_ -> late (combine r r2).
Proof. unfold late. intros [-> | ->]; destruct r2; simpl; naive_solver. Qed.

Lemma late_not_disjoint r : late r -> r <> disjoint_.
Proof. by intros [-> | ->]. Qed.

(** The flags cover the patterns' trailing slashes. *)
Definition covers (m : bool) (l : list Seg) : Prop := ends_multi l = true -> m = true.

Lemma covers_cons m s l : covers m (s :: l) -> covers m l.
Proof. unfold covers. destruct l; [done|]. by rewrite ends_multi_cons. Qed.

(** Two segments that match the same string. *)
Lemma compareSegments_matched s1 l1 s2 l2 x path :
  matched (s1 :: l1) (x :: path) -> matched (s2 :: l2) (x :: path) -> compareSegments s1 s2 <> disjoint_.
Proof.
  intros [? E1] [? E2]. destruct s1, s2; simpl in *; try done. by repeat case_decide; subst.
Qed.

Lemma compare_from_late rel m1 m2 l1 l2 path :
  late rel -> matched l1 path -> matched l2 path -> covers m1 l1 -> covers m2 l2 ->
  late (compare_from rel m1 m2 l1 l2).
Proof.
  revert rel l2 path. induction l1 as [|s1 l1 IH]; intros rel l2 path Hr H1 H2 C1 C2.
  { destruct path; [|by destruct H1]. by apply matched_nil_inv in H2 as ->. }
  destruct path as [|x path]; [by apply matched_nil_inv in H1|].
  destruct l2 as [|s2 l2]; [by apply matched_nonempty in H2|]. simpl.
  pose proof (late_combine _ _ Hr (compareSegments_matched _ _ _ _ _ _ H1 H2)) as Hr'.
  rewrite decide_False by (by apply late_not_disjoint).
  apply matched_cons_inv in H1 as [[-> ->]|[H1 _]], H2 as [[-> ->]|[H2 _]]; simpl.
  - done.
  - destruct l2; [done|]. rewrite (C1 eq_refl). by apply late_combine.
  - destruct l1; [done|]. simpl. rewrite (C2 eq_refl). by apply late_combine.
  - eauto using covers_cons.
Qed.

Lemma compare_from_before m1 m2 l1 l2 path :
  before l1 l2 -> matched l1 path -> matched l2 path -> covers m1 l1 -> covers m2 l2 ->
  compare_from equivalent m1 m2 l1 l2 = equivalent \/ late (compare_from equivalent m1 m2 l1 l2).
Proof.
  revert l2 path. induction l1 as [|s1 l1 IH]; intros [|s2 l2] path Hb H1 H2 C1 C2; try done; [by left|].
  destruct path as [|x path]; [by apply matched_nil_inv in H1|]. simpl.
  destruct Hb as [E|[E Hb]]; rewrite E; simpl.
  - right. assert (late moreSpecific) by by left. apply matched_cons_inv in H1 as [[-> ->]|[H1 _]]; [by destruct s2|].
    apply matched_cons_inv in H2 as [[-> ->]|[H2 _]]; [|eauto using compare_from_late, covers_cons].
    destruct l1; [done|]. simpl. rewrite (C2 eq_refl). by left.
  - apply matched_cons_inv in H1 as [[-> ->]|[H1 Hs1]].
    + destruct s2; try done. apply matched_cons_inv in H2 as [[_ ->]|[_ ?]]; [|done]. by left.
    + apply matched_cons_inv in H2 as [[-> ->]|[H2 _]]; [by destruct s1|]. eauto using covers_cons.
Qed.

Lemma compare_before p1 p2 path :
  pat_method p1 = pat_method p2 -> before (pat_segs p1) (pat_segs p2) ->
  matched (pat_segs p1) path -> matched (pat_segs p2) path -> conflicts p1 p2 = false -> compare p1 p2 = moreSpecific.
Proof.
  intros Hm Hb H1 H2 Hc. apply bool_decide_eq_false_1 in Hc.
  assert (compare p1 p2 = equivalent \/ late (compare p1 p2)) as [|[|]]; [|tauto|done|tauto].
  assert (Hq : compareMethods (pat_method p1) (pat_method p2) = equivalent) by (unfold compareMethods; by rewrite decide_True).
  unfold compare. rewrite Hq. simpl. unfold comparePaths.
  destruct (negb _ && _ && _) eqn:E; [|eapply compare_from_before; eauto; by intros ?].
  apply andb_prop in E as [[E%negb_true_iff ?%negb_true_iff]%andb_prop ?%negb_true_iff].
  apply Nat.eqb_neq in E. rewrite (matched_length _ path), (matched_length (pat_segs p2) path) in E; done.
Qed.

(** ** The mux *)
Section registered.
Context {H : Type}.
Implicit Types (mux : Mux H) (e : Pattern * H).

Definition conflict_free mux : Prop := ForallOrdPairs (fun e e' : Pattern * H => conflicts e.1 e'.1 = false) mux.

Lemma HandleFunc_conflict_free s h mux mux' : conflict_free mux -> HandleFunc s h mux = Some mux' -> conflict_free mux'.
Proof.
  unfold HandleFunc, conflict_free. intros Hc. destruct (parsePattern s) as [p|]; simpl; [|done].
  destruct (existsb _ mux) eqn:E; [done|]. intros [= <-].
  assert (Hp : Forall (fun e => conflicts p e.1 = false) mux).
  { apply Forall_forall. intros e He. destruct (conflicts p e.1) eqn:F; [|done]. rewrite <- E. symmetry.
    apply existsb_exists. exists e. by rewrite <- list_elem_of_In. }
  clear E. induction Hc as [|e mux He Hc IH]; simpl; [by repeat constructor|]. inversion Hp; subst.
  constructor; [|by apply IH]. apply Forall_app. split; [done|]. by constructor; [rewrite conflicts_sym|].
Qed.

Lemma HandleAll_conflict_free l mux mux' : conflict_free mux -> HandleAll l mux = Some mux' -> conflict_free mux'.
Proof.
  revert mux. induction l as [|[s h] l IH]; intros mux Hc; simpl; [by intros [= <-]|].
  destruct (HandleFunc s h mux) as [mux1|] eqn:E; simpl; [|done]. apply IH. by eapply HandleFunc_conflict_free.
Qed.

Lemma conflict_free_pair mux e e' : conflict_free mux -> e ∈ mux -> e' ∈ mux -> e = e' \/ conflicts e.1 e'.1 = false.
Proof.
  intros Hc H1%list_elem_of_In H2%list_elem_of_In.
  destruct (ForallOrdPairs_In Hc e e' H1 H2) as [->|[Hp|Hp]]; [by left|by right|right]. by rewrite conflicts_sym.
Qed.

Lemma node_of_elem m mux l e : (l, e) ∈ node_of m mux <-> l = pat_segs e.1 /\ e ∈ mux /\ pat_method e.1 = m.
Proof.
  unfold node_of. rewrite list_elem_of_fmap. setoid_rewrite list_elem_of_filter. split.
  - intros (e' & [= -> ->] & ? & ?). done.
  - intros (-> & ? & ?). by exists e.
Qed.

(** The search below a method: the most specific of the patterns that match. *)
Lemma search_most_specific mux m path : conflict_free mux ->
  match search path (node_of m mux) with
  | Some (e, ms) => e ∈ mux /\ pat_method e.1 = m /\ seg_matches (pat_segs e.1) path = Some ms /\
      forall e', e' ∈ mux -> pat_method e'.1 = m -> matched (pat_segs e'.1) path ->
        e' = e \/ compare e.1 e'.1 = moreSpecific
  | None => forall e, e ∈ mux -> pat_method e.1 = m -> ~ matched (pat_segs e.1) path
  end.
Proof.
  intros Hc. pose proof (search_spec path (node_of m mux)) as Hs. destruct (search _ _) as [[e ms]|].
  - destruct Hs as (l & (-> & Hin & Hm)%node_of_elem & Hmt & Hb). split_and!; [done..|].
    intros e' Hin' Hm' Hmt'. destruct (conflict_free_pair mux e e' Hc Hin Hin') as [->|Hf]; [by left|right].
    eapply compare_before; [by rewrite Hm, Hm'| |by eexists|done|done].
    apply (Hb _ e'); [|done]. by apply node_of_elem.
  - intros e Hin Hm. apply (Hs _ e). by apply node_of_elem.
Qed.

Lemma find_exact mux m path e ms :
  conflict_free mux -> e ∈ mux -> pat_method e.1 = m -> seg_matches (pat_segs e.1) path = Some ms ->
  Forall (fun e' => compare e'.1 e.1 <> moreSpecific) mux -> find mux m path = Some (e, ms).
Proof.
  intros Hc Hin Hm Hmt Hf. unfold find. pose proof (search_most_specific mux m path Hc) as Hs.
  destruct (search _ _) as [[e' ms']|]; [|exfalso; apply (Hs e Hin Hm); by eexists].
  destruct Hs as (Hin' & _ & Hmt' & Hb). destruct (Hb e Hin Hm) as [<-|Hcmp]; [by eexists|by rewrite Hmt in Hmt'; simplify_eq|].
  rewrite Forall_forall in Hf. by apply Hf in Hcmp.
Qed.

(** A request for a pattern without a trailing slash that nothing is more
    specific than. *)
Lemma handled mux m path p h ms :
  conflict_free mux -> (p, h) ∈ mux -> pat_method p = m -> seg_matches (pat_segs p) path = Some ms ->
  Forall (fun e' => compare e'.1 p <> moreSpecific) mux -> ends_multi (pat_segs p) = false ->
  ServeHTTP mux m path = Handled h (zip (wild_names (pat_segs p)) ms).
Proof.
  intros Hc Hin Hm Hmt Hf He. unfold ServeHTTP. rewrite (find_exact mux m path (p, h) ms Hc Hin Hm Hmt Hf).
  unfold exactMatch. by rewrite He.
Qed.
End registered.

(** ** The orchestrator's routes *)
Lemma orchestrator_mux_ok metrics ui :
  exists mux, orchestrator_mux metrics ui = Some mux /\ conflict_free mux.
Proof.
  assert (is_Some (orchestrator_mux metrics ui)) as [mux E] by (destruct metrics, ui; vm_compute; by eexists).
  exists mux. split; [done|]. revert E. unfold orchestrator_mux.
  destruct (api_Mount []) as [mux1|] eqn:E1; simpl; [|done].
  apply HandleAll_conflict_free in E1; [|constructor].
  destruct (if metrics then metrics_Mount mux1 else Some mux1) as [mux2|] eqn:E2; simpl; [|done].
  assert (conflict_free mux2) as Hc.
  { destruct metrics; [by apply HandleAll_conflict_free in E2 | by simplify_eq]. }
  destruct ui; [by apply HandleAll_conflict_free | by intros [= <-]].
Qed.

(** The endpoints without a trailing slash, with an [id] in the place of the
    wildcard: the pattern, the request, the handler and its path values. *)
Record Endpoint : Type := mkEndpoint {
  ep_pattern : string; ep_method : string; ep_path : list string; ep_handler : Handler;
  ep_values : list (string * string)
}.

Definition api_endpoints (id : string) : list Endpoint :=
  [mkEndpoint "GET /v1/health" "GET" ["v1"; "health"] handleHealth [];
   mkEndpoint "POST /v1/runners/register" "POST" ["v1"; "runners"; "register"] handleRegister [];
   mkEndpoint "POST /v1/runners/{id}/heartbeat" "POST" ["v1"; "runners"; id; "heartbeat"] handleHeartbeat [("id", id)];
   mkEndpoint "GET /v1/runners/{id}/jobs" "GET" ["v1"; "runners"; id; "jobs"] handlePollJob [("id", id)];
   mkEndpoint "POST /v1/scans" "POST" ["v1"; "scans"] handleQueueScan [];
   mkEndpoint "POST /v1/runs/{run_id}/events" "POST" ["v1"; "runs"; id; "events"] handleEvents [("run_id", id)];
   mkEndpoint "POST /v1/runs/{run_id}/result" "POST" ["v1"; "runs"; id; "result"] handleScanResult [("run_id", id)]].

Definition metrics_endpoints : list Endpoint := [mkEndpoint "GET /metrics" "GET" ["metrics"] promhttp []].

Definition ui_endpoints (id : string) : list Endpoint :=
  [mkEndpoint "GET /ui/packages" "GET" ["ui"; "packages"] handlePackages [];
   mkEndpoint "GET /ui/packages/{name}" "GET" ["ui"; "packages"; id] handlePackageDetail [("name", id)];
   mkEndpoint "GET /ui/runs" "GET" ["ui"; "runs"] handleRuns [];
   mkEndpoint "GET /ui/runs/{id}" "GET" ["ui"; "runs"; id] handleRunDetail [("id", id)];
   mkEndpoint "GET /ui/runs/{id}/lineage" "GET" ["ui"; "runs"; id; "lineage"] handleLineage [("id", id)];
   mkEndpoint "GET /ui/deviations" "GET" ["ui"; "deviations"] handleDeviations [];
   mkEndpoint "GET /ui/deviations/{id}" "GET" ["ui"; "deviations"; id] handleDeviationDetail [("id", id)];
   mkEndpoint "GET /ui/events/{id}" "GET" ["ui"; "events"; id] handleEventDetail [("id", id)];
   mkEndpoint "GET /ui/pending" "GET" ["ui"; "pending"] handlePending [];
   mkEndpoint "GET /ui/allowlist" "GET" ["ui"; "allowlist"] handleAllowlist [];
   mkEndpoint "GET /ui/notifiers" "GET" ["ui"; "notifiers"] handleNotifiers [];
   mkEndpoint "GET /ui/config" "GET" ["ui"; "config"] handleConfig []].

Definition endpoints (metrics ui : bool) (id : string) : list Endpoint :=
  api_endpoints id ++ (if metrics then metrics_endpoints else []) ++ (if ui then ui_endpoints id else []).

Definition answered (mux : Mux Handler) (e : Endpoint) : Prop :=
  ServeHTTP mux (ep_method e) (ep_path e) = Handled (ep_handler e) (ep_values e).

(** The part of [handled] that does not look at the path. *)
Definition wired (mux : Mux Handler) (m pattern : string) (h : Handler) : option (list Seg) :=
  p ← parsePattern pattern;
  if bool_decide ((p, h) ∈ mux /\ pat_method p = m /\ ends_multi (pat_segs p) = false /\
                  Forall (fun e' : Pattern * Handler => compare e'.1 p <> moreSpecific) mux)
  then Some (pat_segs p) else None.

Lemma wired_handled mux m pattern path h l ms :
  conflict_free mux -> wired mux m pattern h = Some l -> seg_matches l path = Some ms ->
  ServeHTTP mux m path = Handled h (zip (wild_names l) ms).
Proof.
  unfold wired. destruct (parsePattern pattern) as [p|]; simpl; [|done]. intros Hc.
  case_bool_decide as Hw; [|done]. destruct Hw as (Hin & Hm & He & Hf). intros [= <-] Hs. by apply handled.
Qed.

(** Each pattern is wired, by computation; what is left is to match the path. *)
Ltac serve_one E Hc Hid :=
  match goal with
  | |- answered ?mux (mkEndpoint ?pat ?m ?path ?h ?vs) =>
      let l := eval vm_compute in (match parsePattern pat with Some p => pat_segs p | None => [] end) in
      let W := fresh "W" in
      assert (W : wired mux m pat h = Some l) by (rewrite <- E; vm_compute; reflexivity);
      unfold answered; cbn [ep_method ep_path ep_handler ep_values];
      etransitivity; [eapply (wired_handled mux); [exact Hc | exact W | simpl; rewrite ?decide_False by exact Hid; reflexivity] | reflexivity]
  end.

Lemma endpoints_answered metrics ui mux id :
  orchestrator_mux metrics ui = Some mux -> conflict_free mux -> id <> "" ->
  Forall (answered mux) (endpoints metrics ui id).
Proof.
  intros E Hc Hid. destruct metrics, ui; vm_compute in E; injection E as E;
    unfold endpoints, api_endpoints, metrics_endpoints, ui_endpoints; cbn [app];
    repeat (apply Forall_cons; split; [serve_one E Hc Hid|]); apply Forall_nil; exact I.
Qed.

(** The two trailing-slash routes and the root. *)
Lemma find_some {H} (mux : Mux H) m path : conflict_free mux -> (exists e : Pattern * H, e ∈ mux /\ pat_method e.1 = m /\ matched (pat_segs e.1) path) ->
  is_Some (find mux m path).
Proof.
  intros Hc (e & Hin & Hm & Hmt). unfold find. pose proof (search_most_specific mux m path Hc) as Hs.
  destruct (search _ _); [by eexists|]. exfalso. by apply (Hs e Hin Hm).
Qed.

Lemma ui_total mux metrics path :
  orchestrator_mux metrics true = Some mux -> conflict_free mux -> path <> [] ->
  (exists h vs, ServeHTTP mux "GET" path = Handled h vs) \/ ServeHTTP mux "GET" path = RedirectSlash.
Proof.
  intros E Hc Hp. assert (is_Some (find mux "GET" path)) as [[[p h] ms] Hf].
  { apply find_some; [done|]. exists (mkPattern "GET" [Multi], handleRoot). split.
    - destruct metrics; vm_compute in E; injection E as <-; apply (bool_decide_eq_true_1 _); vm_compute; reflexivity.
    - split; [done|]. destruct path; [done|]. by eexists. }
  unfold ServeHTTP. rewrite Hf. destruct (_ && _); [by right|left; eauto].
Qed.

Lemma static_handled mux metrics f rest :
  orchestrator_mux metrics true = Some mux -> conflict_free mux ->
  ServeHTTP mux "GET" ("static" :: f :: rest) = Handled staticHTTP [].
Proof.
  intros E Hc. set (p := mkPattern "GET" [Lit "static"; Multi]).
  assert (Hf : forall l, find mux "GET" ("static" :: f :: l) = Some ((p, staticHTTP), [])).
  { intros l. apply find_exact; [done| |done|done|];
      destruct metrics; vm_compute in E; injection E as <-; apply (bool_decide_eq_true_1 _); vm_compute; reflexivity. }
  unfold ServeHTTP. simpl app. rewrite !Hf. unfold exactMatch. simpl.
  destruct (bool_decide (last (f :: rest) = Some "")); [by rewrite andb_false_r|]. simpl.
  destruct rest; simpl; by rewrite ?andb_false_r.
Qed.

(** C23: The routes of the orchestrator.  Whatever -metrics and -ui say,
    mounting never panics; every endpoint reaches its handler with the path
    values it reads, for any id that is one non-empty clean segment of a
    path; a request goes to a pattern that matches it
    and is more specific than every other of the method that matches; with
    the dashboard, every GET is answered by some handler, "/static/" and what
    is below it by the file server, and "/ui" is redirected to "/ui/". *)
Theorem orchestrator_routes metrics ui :
  exists mux, orchestrator_mux metrics ui = Some mux /\
    (forall id, id <> "" -> Forall (answered mux) (endpoints metrics ui id)) /\
    (forall m path, match search path (node_of m mux) with
       | Some (e, ms) => e ∈ mux /\ pat_method e.1 = m /\ seg_matches (pat_segs e.1) path = Some ms /\
           forall e', e' ∈ mux -> pat_method e'.1 = m -> matched (pat_segs e'.1) path ->
             e' = e \/ compare e.1 e'.1 = moreSpecific
       | None => forall e, e ∈ mux -> pat_method e.1 = m -> ~ matched (pat_segs e.1) path
       end) /\
    (ui = true ->
       (forall path, path <> [] -> (exists h vs, ServeHTTP mux "GET" path = Handled h vs) \/
          ServeHTTP mux "GET" path = RedirectSlash) /\
       (forall f rest, ServeHTTP mux "GET" ("static" :: f :: rest) = Handled staticHTTP []) /\
       ServeHTTP mux "GET" ["ui"; ""] = Handled handleOverview [] /\ ServeHTTP mux "GET" ["ui"] = RedirectSlash /\
       ServeHTTP mux "GET" [""] = Handled handleRoot [] /\ root_answer [""] = Found302 "/ui/").
Proof.
  destruct (orchestrator_mux_ok metrics ui) as (mux & E & Hc). exists mux. split; [done|].
  split; [intros id; by apply endpoints_answered|]. split; [intros m path; by apply search_most_specific|].
  intros ->. split; [intros path; by eapply ui_total|]. split; [intros f rest; by eapply static_handled|].
  destruct metrics; vm_compute in E; injection E as <-; split_and!; vm_compute; reflexivity.
Qed.

Lemma orchestrator_routes_witness :
  exists mux, orchestrator_mux false false = Some mux /\
    Forall (answered mux) (endpoints false false "register").
Proof.
  destruct (orchestrator_routes false false) as (mux & E & H & _). exists mux. split; [exact E|]. apply H. discriminate.
Defined.

(** Without the dashboard nothing answers GET / and a GET of a POST endpoint
    is refused; with it, the root's pattern takes every GET nobody claims. *)
Lemma scans_by_get :
  (mux ← orchestrator_mux false false; Some (ServeHTTP mux "GET" ["v1"; "scans"])) = Some MethodNotAllowed /\
  (mux ← orchestrator_mux false true; Some (ServeHTTP mux "GET" ["v1"; "scans"])) = Some (Handled handleRoot []) /\
  (mux ← orchestrator_mux false true; Some (ServeHTTP mux "POST" ["nowhere"])) = Some MethodNotAllowed /\
  root_answer ["v1"; "scans"] = NotFound404.
Proof. split_and!; vm_compute; reflexivity. Qed.

(** ** Transport *)

(** the transport.  Connections are encrypted exactly when both the
    certificate and the key are configured; then a client CA makes a verified
    client certificate mandatory, and a CA file that cannot be read or holds
    no certificate stops the server before it listens.  Without one of the two
    the server listens in the clear, client CA or not.  A server that the
    context stops cleanly ends without an error. *)
Theorem transport_spec ReadFile usable cert key ca :
  match transport ReadFile usable cert key ca with
  | Ok (HTTPS cfg) => cert <> "" /\ key <> "" /\
      (ca = "" -> cfg = Api.Api.mkTLSConfig None false) /\
      (ca <> "" -> exists pem, ReadFile ca = Ok pem /\ usable pem = true /\ cfg = Api.Api.mkTLSConfig (Some pem) true)
  | Ok PlainHTTP => cert = "" \/ key = ""
  | Err e => cert <> "" /\ key <> "" /\ ca <> "" /\
      (forall pem, ReadFile ca = Ok pem -> usable pem = false) /\
      forall ending, ServeWith ReadFile usable cert key ca ending = Some e
  end /\
  (is_Ok (transport ReadFile usable cert key ca) = true ->
     ServeWith ReadFile usable cert key ca (CtxDone None) = None /\
     ServeWith ReadFile usable cert key ca (ListenerReturned ErrServerClosed) = None).
Proof.
  unfold ServeWith, transport, Api.Api.buildServerTLSConfig.
  destruct (decide (cert = "")) as [->|Hc]; [simpl; split; [by left|done]|].
  destruct (decide (key = "")) as [->|Hk]; [rewrite andb_false_r; split; [by right|done]|].
  rewrite !bool_decide_false by done. simpl. destruct (decide (ca = "")) as [->|Ha]; simpl; [split; [|done]; naive_solver|].
  destruct (ReadFile ca) as [pem|e] eqn:E; simpl; [destruct (usable pem) eqn:U; simpl|]; split; try done; naive_solver.
Qed.

Lemma transport_spec_witness :
  ServeWith (fun _ => Ok "pem") (fun _ => true) "c" "k" "ca" (CtxDone None) = None /\
  transport (fun _ => Ok "pem") (fun _ => true) "" "" "ca" = Ok PlainHTTP.
Proof.
  split; [|reflexivity].
  apply (proj2 (transport_spec (fun _ => Ok "pem") (fun _ => true) "c" "k" "ca")). reflexivity.
Defined.
End Serve.
