(* ===== verification/Metrics.v ===== *)
(** * metrics: the orchestrator's counters

    orchestrator/metrics/metrics.go and what its counters say of the program.
    The Prometheus client is a parameter: a counter vector has a value per
    label and [Add] adds to the value of one label (the class below; exact for
    values under 2^53, where the library's float64 is).  A nil registry is
    [None].  The API server (Api.v) and the Differ (Differ.v) record their
    calls on the sink; [replay] performs them on a registry. *)
From Stdlib Require Import Ascii.
From stdpp Require Import prelude strings gmap list.
From S2P Require Import Prelude GoTime Json Storage Sqlite SqliteSpec Proto Dispatcher Api.

Module Metrics.
Import Api.
Import (hints) SqliteSpec.SqliteSpec.

(** ** The Prometheus client *)
Class Counters (V : Type -> Type) : Type := {
  NewCounterVec : forall {L}, V L;
  Add : forall {L} `{EqDecision L}, L -> Z -> V L -> V L;
  value : forall {L}, V L -> L -> Z
}.
Class CountersLaws (V : Type -> Type) `{Counters V} : Prop := {
  value_new : forall L (l : L), value (NewCounterVec (L := L)) l = 0%Z;
  value_add : forall L `{EqDecision L} (l l' : L) n (v : V L), (0 <= n)%Z ->
    value (Add l n v) l' = (value v l' + if decide (l = l') then n else 0)%Z
}.

(** ** The registry *)
Record Registry (V : Type -> Type) : Type := mkRegistry {
  OrchestratorInfo : string;             (* the version label of the constant 1 *)
  EventsReceived : V string;             (* by event type *)
  EventsDropped : V unit;
  ScansQueued : V unit;
  DeviationsWritten : V string;          (* by severity *)
  BaselinePromoted : V string;           (* by trigger *)
  NotificationsSent : V (string * string)%type; (* by notifier and status *)
  RunnersRegistered : bool               (* the gauge exists *)
}.
Arguments mkRegistry {V}.
Arguments OrchestratorInfo {V}. Arguments EventsReceived {V}. Arguments EventsDropped {V}.
Arguments ScansQueued {V}. Arguments DeviationsWritten {V}. Arguments BaselinePromoted {V}.
Arguments NotificationsSent {V}. Arguments RunnersRegistered {V}.

Section registry.
Context {V : Type -> Type} `{Counters V}.
Implicit Types r : option (Registry V).

Definition New (version : string) (RunnersFn : bool) : Registry V :=
  mkRegistry version NewCounterVec NewCounterVec NewCounterVec NewCounterVec NewCounterVec NewCounterVec RunnersFn.

Definition ObserveScanQueued r : option (Registry V) :=
  (fun x => mkRegistry (OrchestratorInfo x) (EventsReceived x) (EventsDropped x) (Add tt 1 (ScansQueued x))
     (DeviationsWritten x) (BaselinePromoted x) (NotificationsSent x) (RunnersRegistered x)) <$> r.

Definition ObserveEvent (eventType : string) (n : Z) r : option (Registry V) :=
  (fun x => mkRegistry (OrchestratorInfo x) (Add eventType n (EventsReceived x)) (EventsDropped x) (ScansQueued x)
     (DeviationsWritten x) (BaselinePromoted x) (NotificationsSent x) (RunnersRegistered x)) <$> r.

Definition ObserveEventsDropped (n : Z) r : option (Registry V) :=
  if (n <=? 0)%Z then r else
  (fun x => mkRegistry (OrchestratorInfo x) (EventsReceived x) (Add tt n (EventsDropped x)) (ScansQueued x)
     (DeviationsWritten x) (BaselinePromoted x) (NotificationsSent x) (RunnersRegistered x)) <$> r.

Definition severity_label (d : DeviationRow) : string :=
  if decide (Dev_Severity d = "") then "unknown" else Dev_Severity d.

Definition ObserveDeviationsWritten (rows : list DeviationRow) r : option (Registry V) :=
  (fun x => mkRegistry (OrchestratorInfo x) (EventsReceived x) (EventsDropped x) (ScansQueued x)
     (foldl (fun v d => Add (severity_label d) 1 v) (DeviationsWritten x) rows)
     (BaselinePromoted x) (NotificationsSent x) (RunnersRegistered x)) <$> r.

Definition ObserveBaselinePromoted (trigger : string) r : option (Registry V) :=
  (fun x => mkRegistry (OrchestratorInfo x) (EventsReceived x) (EventsDropped x) (ScansQueued x)
     (DeviationsWritten x) (Add trigger 1 (BaselinePromoted x)) (NotificationsSent x) (RunnersRegistered x)) <$> r.

Definition ObserveNotification (notifier status : string) r : option (Registry V) :=
  (fun x => mkRegistry (OrchestratorInfo x) (EventsReceived x) (EventsDropped x) (ScansQueued x)
     (DeviationsWritten x) (BaselinePromoted x) (Add (notifier, status) 1 (NotificationsSent x))
     (RunnersRegistered x)) <$> r.

(** The calls of the API server. *)
Definition observe_one r (o : Observation) : option (Registry V) :=
  match o with
  | ScanQueued => ObserveScanQueued r
  | EventObs t n => ObserveEvent t (Z.of_nat n) r
  | EventsDroppedObs n => ObserveEventsDropped n r
  end.
Definition replay (log : list Observation) r : option (Registry V) := foldl observe_one r log.
End registry.

(** ** What a log adds to the counters *)
Definition events_of (t : string) (o : Observation) : Z :=
  match o with EventObs t' n => if decide (t' = t) then Z.of_nat n else 0 | _ => 0 end.
Definition scans_of (o : Observation) : Z := match o with ScanQueued => 1 | _ => 0 end.
Definition dropped_of (o : Observation) : Z := match o with EventsDroppedObs n => Z.max 0 n | _ => 0 end.
Definition total (f : Observation -> Z) (log : list Observation) : Z := foldr (fun o z => (f o + z)%Z) 0%Z log.

Lemma total_cons f o l : total f (o :: l) = (f o + total f l)%Z.
Proof. done. Qed.

Lemma total_app f l l' : total f (l ++ l') = (total f l + total f l')%Z.
Proof. induction l as [|o l IH]; simpl; [done|]. rewrite IH. lia. Qed.

#[export] Instance total_proper f : Proper ((≡ₚ) ==> (=)) (total f).
Proof. induction 1; simpl; try lia; congruence. Qed.

Definition count_type (t : string) (l : list EventEnvelope) : nat :=
  length (filter (fun env => EventType_String (ee_Type env) = t) l).

Lemma perType_lookup l t : default 0 (perType l !! t) = count_type t l.
Proof.
  unfold perType, count_type.
  enough (forall m, default 0 (foldl (fun m env => let t := EventType_String (ee_Type env) in
                      <[t := default 0 (m !! t) + 1]> m) m l !! t) =
          default 0 (m !! t) + length (filter (fun env => EventType_String (ee_Type env) = t) l)) as E
    by (rewrite E; by rewrite lookup_empty).
  induction l as [|env l IH]; intros m; simpl; [lia|]. rewrite IH, filter_cons.
  destruct (decide (EventType_String (ee_Type env) = t)) as [<-|Hne].
  - rewrite lookup_insert, decide_True by done. simpl. lia.
  - by rewrite lookup_insert_ne.
Qed.

Lemma total_map (m : gmap string nat) t :
  total (events_of t) ((fun kv : string * nat => EventObs kv.1 kv.2) <$> map_to_list m) = Z.of_nat (default 0 (m !! t)).
Proof.
  induction m as [|k v m Hk IH] using map_ind; [by rewrite map_to_list_empty|].
  rewrite map_to_list_insert, fmap_cons, total_cons, IH by done. simpl. case_decide as E.
  - subst. rewrite lookup_insert, decide_True, Hk by done. simpl. lia.
  - by rewrite lookup_insert_ne.
Qed.

(** ** The registry after a log *)
Section laws.
Context {V : Type -> Type} `{CountersLaws V}.
Implicit Types x y : Registry V.

(** [y] is [x] with [ev t] more events of each type, [sc] more scans and [dr]
    more drops. *)
Record grown x y (ev : string -> Z) (sc dr : Z) : Prop := mkGrown {
  gr_events : forall t, value (EventsReceived y) t = (value (EventsReceived x) t + ev t)%Z;
  gr_scans : value (ScansQueued y) tt = (value (ScansQueued x) tt + sc)%Z;
  gr_dropped : value (EventsDropped y) tt = (value (EventsDropped x) tt + dr)%Z;
  gr_rest : DeviationsWritten y = DeviationsWritten x /\ BaselinePromoted y = BaselinePromoted x /\
            NotificationsSent y = NotificationsSent x
}.

Lemma observe_one_grown o x : exists y, observe_one (Some x) o = Some y /\
  grown x y (fun t => events_of t o) (scans_of o) (dropped_of o).
Proof.
  destruct o as [|t n|n]; simpl.
  - eexists. split; [done|]. split; simpl; intros; rewrite ?value_add by lia; repeat case_decide; try lia; done.
  - eexists. split; [done|]. split; simpl; intros; rewrite ?value_add by lia; repeat case_decide; try lia; done.
  - unfold ObserveEventsDropped. destruct (Z.leb_spec n 0); simpl; (eexists; split; [done|]);
      split; simpl; intros; rewrite ?value_add by lia; repeat case_decide; try lia; done.
Qed.

Lemma replay_grown log x : exists y, replay log (Some x) = Some y /\
  grown x y (fun t => total (events_of t) log) (total scans_of log) (total dropped_of log).
Proof.
  revert x. induction log as [|o log IH]; intros x.
  { exists x. split; [done|]. split; intros; simpl; try lia; done. }
  destruct (observe_one_grown o x) as (y & E & [He Hs Hd Hr]). destruct (IH y) as (z & E' & [He' Hs' Hd' Hr']).
  exists z. split; [unfold replay in *; simpl; by rewrite E|].
  split; [intros t; rewrite He', He|rewrite Hs', Hs|rewrite Hd', Hd|by destruct Hr as (<- & <- & <-)]; rewrite ?total_cons; lia.
Qed.

(** ** The handlers *)
Section handlers.
Context {S : Type} `{Backend S}.
Implicit Types s : Server S.

(** The calls of an operation: [s'] has those of [s] and [log']. *)
Definition logged s s' (log' : list Observation) : Prop := metrics s' = (fun log => log ++ log') <$> metrics s.

Lemma logged_refl s s' : metrics s' = metrics s -> logged s s' [].
Proof. unfold logged. intros ->. destruct (metrics s); simpl; by rewrite ?app_nil_r. Qed.

Lemma logged_trans s s1 s2 l l' : logged s s1 l -> logged s1 s2 l' -> logged s s2 (l ++ l').
Proof. unfold logged. intros Hl ->. rewrite Hl. destruct (metrics s); simpl; by rewrite ?app_assoc. Qed.

Definition events_logged (log : list Observation) (l : list EventBatch) : Prop :=
  (forall t, total (events_of t) log = Z.of_nat (count_type t (l ≫= eb_Events))) /\
  total scans_of log = 0%Z /\ total dropped_of log = 0%Z.

Lemma count_type_app t l l' : count_type t (l ++ l') = count_type t l + count_type t l'.
Proof. unfold count_type. by rewrite filter_app, length_app. Qed.

Lemma total_zero f (m : list (string * nat)) :
  (forall t n, f (EventObs t n) = 0%Z) -> total f ((fun kv : string * nat => EventObs kv.1 kv.2) <$> m) = 0%Z.
Proof. intros Hf. induction m as [|kv m IH]; [done|]. by rewrite fmap_cons, total_cons, IH, Hf. Qed.

Lemma ingest_batch_logged runID clock b c s :
  exists log, logged s (ingest_batch runID clock b c s).2 log /\ events_logged log [b].
Proof.
  exists ((fun kv : string * nat => EventObs kv.1 kv.2) <$> map_to_list (perType (eb_Events b))). split.
  - unfold ingest_batch, logged. destruct (store _) as [st|]; [|done]. destruct (eb_Events b); [done|].
    by destruct (Storage.AppendEvents _ _ _) as [[|] ?].
  - split_and!; [|by apply total_zero..]. intros t. rewrite total_map, perType_lookup. by csimpl; rewrite app_nil_r.
Qed.

Lemma ingest_logged runID clock l c s : exists log, logged s (ingest runID clock l c s).2 log /\ events_logged log l.
Proof.
  revert c s. induction l as [|b l IH]; intros c s; simpl.
  { exists []. split; [by apply logged_refl|]. by repeat split. }
  destruct (ingest_batch_logged runID clock b c s) as (log & Hl & He & Hs & Hd).
  destruct (ingest_batch runID clock b c s) as [c1 s1]. destruct (IH c1 s1) as (log' & Hl' & He' & Hs' & Hd').
  exists (log ++ log'). split; [by eapply logged_trans|]. unfold events_logged.
  rewrite !total_app, Hs, Hs', Hd, Hd'. split; [|done]. intros t. rewrite total_app, He, He'. csimpl.
  rewrite app_nil_r, count_type_app. lia.
Qed.

Lemma handleEvents_logged runID l eof clock now s : runID <> "" ->
  exists log, logged s (handleEvents runID l eof clock now s).2 log /\ events_logged log l.
Proof.
  intros Hid. unfold handleEvents. rewrite decide_False by done.
  destruct (ingest_logged runID clock l (mkCounts 0 0 0) s) as (log & Hl & He).
  exists log. split; [|done]. destruct (ingest _ _ _ _ _) as [c s1]. destruct eof; simpl; [|done].
  unfold scheduleDiffer. by destruct (store _).
Qed.

Definition recorded (r : Response) : bool := match rs_body r with RecordedB b => b | _ => false end.

(** What a result adds to the drop counter. *)
Definition dropped_by (body : res PScanResult) (r : Response) : Z :=
  match body with
  | Ok p => if recorded r && (0 <? sr_EventsDropped p)%Z then Z.max 0 (wrapS 64 (sr_EventsDropped p)) else 0
  | Err _ => 0
  end.

Lemma handleScanResult_logged runID body now s :
  let '(r, s') := handleScanResult runID body now s in
  exists log, logged s s' log /\ total dropped_of log = dropped_by body r /\ total scans_of log = 0%Z /\
    forall t, total (events_of t) log = 0%Z.
Proof.
  unfold handleScanResult, dropped_by.
  destruct (decide (runID = "")); [by exists []; split; [apply logged_refl|destruct body]|].
  destruct body as [p|e]; [|by exists []; split; [apply logged_refl|]].
  case_decide; [by exists []; split; [apply logged_refl|]|].
  destruct (store s) as [st|]; [|by exists []; split; [apply logged_refl|]].
  destruct (RecordScanResult _ _ _ _) as [[u|e] st']; simpl.
  - destruct (Z.ltb_spec 0 (sr_EventsDropped p)); simpl; [|by exists []; split; [apply logged_refl|]].
    exists [EventsDroppedObs (wrapS 64 (sr_EventsDropped p))]. split; [done|]. simpl. repeat split; lia.
  - exists []. split; [by apply logged_refl|]. by destruct (errors_Is e ErrNotFound).
Qed.

Lemma SubmitScan_logged target job t0 t1 now s :
  let '(r, s') := SubmitScan target job t0 t1 now s in
  exists log, logged s s' log /\ total scans_of log = (if is_Ok r then 1%Z else 0%Z) /\ total dropped_of log = 0%Z /\
    forall t, total (events_of t) log = 0%Z.
Proof.
  unfold SubmitScan. destruct (runners s !! target); [exists [ScanQueued]|exists []]; (split; [|done]);
    [done|by apply logged_refl].
Qed.

Lemma replayed s s' log x log0 :
  metrics s = Some log0 -> logged s s' log ->
  exists y, metrics s' = Some (log0 ++ log) /\ replay log (Some x) = Some y /\
    grown x y (fun t => total (events_of t) log) (total scans_of log) (total dropped_of log).
Proof.
  intros Hm Hl. destruct (replay_grown log x) as (y & E & Hg). exists y. unfold logged in Hl. by rewrite Hl, Hm.
Qed.

Lemma grown_eq x y ev ev' sc dr : (forall t, ev t = ev' t) -> grown x y ev sc dr -> grown x y ev' sc dr.
Proof. intros He [H1' H2' H3' H4']. split; [|done..]. intros t. by rewrite <- He. Qed.
End handlers.

Lemma deviations_fold rows (v : V string) sev :
  value (foldl (fun v d => Add (severity_label d) 1 v) v rows) sev =
  (value v sev + Z.of_nat (length (filter (fun d => severity_label d = sev) rows)))%Z.
Proof.
  revert v. induction rows as [|d rows IH]; intros v; simpl; [lia|].
  rewrite IH, value_add, filter_cons by lia. case_decide; simpl; lia.
Qed.

(** The event labels are the five types and "unknown". *)
Definition event_labels : list string := ["file_access"; "exec"; "net_connect"; "dns_query"; "tls_sni"; "unknown"].

Lemma EventType_String_label t : EventType_String t ∈ event_labels.
Proof. unfold EventType_String. repeat case_match; apply (bool_decide_eq_true_1 _); reflexivity. Qed.

Lemma count_type_bounded t l : t ∉ event_labels -> count_type t l = 0.
Proof.
  intros Ht. unfold count_type. induction l as [|env l IH]; [done|]. rewrite filter_cons, decide_False; [done|].
  intros <-. by apply Ht, EventType_String_label.
Qed.

(** C25: The counters tell what the handlers did.  With a metrics sink, whatever
    the storage answers and even if the stream ends in a decode error, the
    events counter of each type grows by the number of events of that type in
    the batches that arrived, and only the six event labels ever occur; the
    scan counter grows by one exactly when a scan is queued; the drop
    counter grows by a result's drops exactly when the result is recorded; no
    other counter moves.  The deviations of an analysis are counted by
    severity. *)
Theorem counters_follow_handlers {S} `{Backend S} (s : Server S) log0 x :
  metrics s = Some log0 ->
  (forall runID l eof clock now, runID <> "" ->
     exists log y, metrics (handleEvents runID l eof clock now s).2 = Some (log0 ++ log) /\
       replay log (Some x) = Some y /\ grown x y (fun t => Z.of_nat (count_type t (l ≫= eb_Events))) 0 0) /\
  (forall target job t0 t1 now, let '(r, s') := SubmitScan target job t0 t1 now s in
     exists log y, metrics s' = Some (log0 ++ log) /\ replay log (Some x) = Some y /\
       grown x y (fun _ => 0%Z) (if is_Ok r then 1%Z else 0%Z) 0) /\
  (forall runID body now, let '(r, s') := handleScanResult runID body now s in
     exists log y, metrics s' = Some (log0 ++ log) /\ replay log (Some x) = Some y /\
       grown x y (fun _ => 0%Z) 0 (dropped_by body r)) /\
  (forall t l, t ∉ event_labels -> count_type t l = 0) /\
  (forall rows, exists y, ObserveDeviationsWritten rows (Some x) = Some y /\
     forall sev, value (DeviationsWritten y) sev =
       (value (DeviationsWritten x) sev + Z.of_nat (length (filter (fun d => severity_label d = sev) rows)))%Z).
Proof.
  intros Hm. split_and!; [| | |apply count_type_bounded|].
  - intros runID l eof clock now Hid. destruct (handleEvents_logged runID l eof clock now s Hid) as (log & Hl & He & Hs & Hd).
    destruct (replayed _ _ _ x _ Hm Hl) as (y & E & Er & Hg). rewrite Hs, Hd in Hg. exists log, y.
    split; [done|]. split; [done|]. exact (grown_eq _ _ _ _ _ _ He Hg).
  - intros target job t0 t1 now. pose proof (SubmitScan_logged target job t0 t1 now s) as Hx.
    destruct (SubmitScan _ _ _ _ _ _) as [r s']. destruct Hx as (log & Hl & Hs & Hd & He).
    destruct (replayed _ _ _ x _ Hm Hl) as (y & E & Er & Hg). rewrite Hs, Hd in Hg. exists log, y.
    split; [done|]. split; [done|]. exact (grown_eq _ _ _ _ _ _ He Hg).
  - intros runID body now. pose proof (handleScanResult_logged runID body now s) as Hx.
    destruct (handleScanResult _ _ _ _) as [r s']. destruct Hx as (log & Hl & Hd & Hs & He).
    destruct (replayed _ _ _ x _ Hm Hl) as (y & E & Er & Hg). rewrite Hs, Hd in Hg. exists log, y.
    split; [done|]. split; [done|]. exact (grown_eq _ _ _ _ _ _ He Hg).
  - intros rows. eexists. split; [done|]. intros sev. apply deviations_fold.
Qed.
End laws.

(** ** A client, for the witness: a value per label *)
Definition Fn (L : Type) : Type := L -> Z.
#[local] Instance Fn_counters : Counters Fn := {
  NewCounterVec L := fun _ => 0%Z;
  Add L _ l n v := fun l' => (v l' + if decide (l = l') then n else 0)%Z;
  value L v l := v l
}.
#[local] Instance Fn_laws : CountersLaws Fn.
Proof. split; done. Qed.

Definition wit_batch : EventBatch :=
  mkEventBatch [] 1 [mkEventEnvelope EventTypeExec JNull; mkEventEnvelope EventTypeDNSQuery JNull;
                     mkEventEnvelope EventTypeExec JNull].
Definition wit_metered : Server Sqlite.Sqlite.DB :=
  mkServer "o" "v" [] ∅ Dispatcher.New (Some Sqlite.Sqlite.empty_db) ∅ (Some []).

Lemma counters_follow_handlers_witness :
  exists log y, metrics (handleEvents "r" [wit_batch] true (fun _ => 0%Z) 1%Z wit_metered).2 = Some log /\
    replay log (Some (New "v" true : Registry Fn)) = Some y /\ value (EventsReceived y) "exec" = 2%Z.
Proof.
  destruct (counters_follow_handlers wit_metered [] (New "v" true : Registry Fn) eq_refl) as (He & _).
  destruct (He "r" [wit_batch] true (fun _ => 0%Z) 1%Z) as (log & y & E & Er & [Hg _ _ _]); [discriminate|].
  exists log, y. split; [exact E|]. split; [exact Er|]. rewrite Hg. reflexivity.
Defined.
End Metrics.
