(* ===== verification/Agent.v ===== *)
(** * agent: the runner's side of the control plane

    internal/runner/agent: client.go (registration, polling, heartbeat and
    result, as interpretations of the orchestrator's answers) and events.go
    (the event streamer: its queue, its loop and its final flush, as a step
    relation); and the forwarding goroutine of cmd/fangs-runner/main.go.
    The transport delivers a request's body to the handler and the response
    back, or fails. *)
From Stdlib Require Import Ascii.
From stdpp Require Import prelude strings gmap list relations.
From S2P Require Import Prelude GoTime Json Sql Storage Sqlite SqliteSpec Proto Dispatcher Api.

Module Agent.
Import Api.
Import (hints) SqliteSpec.SqliteSpec.

(** ** The client *)
Record Client : Type := mkClient {
  runnerID : string;
  cl_orchestratorID : string;
  jobPollInterval : duration;
  heartbeatInterval : duration
}.

(** What [http.Client.Do] yields. *)
Definition Answer : Type := res Response.

Definition new_client (id : string) : Client := mkClient id "" 0 0.

(** TLS files: all empty means plain HTTP, a client certificate needs its
    key. *)
Inductive transport : Type := PlainHTTP | TLS (rootCA : option string) (client_cert : bool).
Definition buildClientTransport (ReadFile : string -> res string) (usable : string -> bool)
    (LoadX509KeyPair : string -> string -> bool) (caFile certFile keyFile : string) : res transport :=
  if decide (caFile = "" /\ certFile = "" /\ keyFile = "") then Ok PlainHTTP else
  ca ← (if decide (caFile = "") then Ok None else
        match ReadFile caFile with
        | Err e => Err (Wrapf "read CA" e)
        | Ok pem => if usable pem then Ok (Some pem) else Err (Errorf "CA has no usable certs")
        end);
  if decide (certFile = "" /\ keyFile = "") then Ok (TLS ca false)
  else if decide (certFile = "" \/ keyFile = "") then Err (Errorf "both -tls-cert and -tls-key required for mTLS")
  else if LoadX509KeyPair certFile keyFile then Ok (TLS ca true) else Err (Errorf "load client cert").

Definition registration (c : Client) (hostname kernel : string) : RunnerRegistration :=
  mkRunnerRegistration (runnerID c) hostname ["sensor"] kernel CurrentProtoVersion.

Definition Register (a : Answer) (c : Client) : res unit * Client :=
  match a with
  | Err e => (Err (Wrapf "POST /v1/runners/register" e), c)
  | Ok r =>
      if negb (rs_code r =? 200)%Z then (Err (Errorf "register: orchestrator returned an error status"), c) else
      match rs_body r with
      | RegistrationB ack =>
          if ra_OK ack then
            (Ok tt, mkClient (runnerID c) (ra_OrchestratorID ack) (ra_JobPollInterval ack) (ra_HeartbeatInterval ack))
          else (Err (Errorf "register: orchestrator returned ok=false"), c)
      | _ => (Err (Wrapf "decode RegistrationAck" (Errorf "json")), c)
      end
  end.

Definition PollJob (a : Answer) : res (option Job) :=
  match a with
  | Err e => Err (Wrapf "GET" e)
  | Ok r =>
      if (rs_code r =? 204)%Z then Ok None
      else if (rs_code r =? 200)%Z then
        match rs_body r with JobB j => Ok (Some j) | _ => Err (Wrapf "decode Job" (Errorf "json")) end
      else if (rs_code r =? 404)%Z then Err (Errorf "runner not registered; re-register before polling")
      else Err (Errorf "orchestrator returned an error status")
  end.

Definition SendHeartbeat (a : Answer) : res bool :=
  match a with
  | Err e => Err (Wrapf "POST" e)
  | Ok r =>
      if negb (rs_code r =? 200)%Z then Err (Errorf "orchestrator returned an error status") else
      match rs_body r with
      | HeartbeatB ack => Ok (if ha_UnknownRunner ack then false else ha_OK ack)
      | _ => Err (Wrapf "decode HeartbeatAck" (Errorf "json"))
      end
  end.

Definition SendScanResult (a : Answer) : res unit :=
  match a with
  | Err e => Err (Wrapf "POST" e)
  | Ok r => if ((rs_code r <? 200) || (300 <=? rs_code r))%Z then Err (Errorf "orchestrator returned an error status")
            else Ok tt
  end.

(** One beat of the runner's heartbeat goroutine against a server: ping, and
    register again when the orchestrator does not know the runner. *)
Definition heartbeat_tick {S} `{Backend S} (c : Client) (hostname kernel activeRun : string) (now now' : time)
    (s : Server S) : Client * Server S :=
  let hb := mkHeartbeat (runnerID c) activeRun (if decide (activeRun = "") then "idle" else "running") 0 in
  let '(r, s) := handleHeartbeat (runnerID c) (Some (Ok hb)) now s in
  match SendHeartbeat (Ok r) with
  | Err _ => (c, s)
  | Ok true => (c, s)
  | Ok false =>
      let '(r, s) := handleRegister (Ok (registration c hostname kernel)) now' s in
      ((Register (Ok r) c).2, s)
  end.

(** ** The event streamer *)
Definition maxBatch : nat := 64.
Definition queueCap : nat := 1024.

Record StreamStats : Type := mkStreamStats { BatchesSent : Z; EventsSent : Z; BatchSendErrors : Z }.

Record Streamer : Type := mkStreamer {
  runID : list ascii;
  in_ : list EventEnvelope;               (* the channel, oldest first *)
  closed : bool;
  pending : list EventEnvelope;
  seq : Z;
  stats : StreamStats;
  loop_done : bool;
  ctx_done : bool;
  posted : list (EventBatch * bool);      (* every POST, and whether it succeeded *)
  accepted : list EventEnvelope           (* what [Send] put into the channel *)
}.

Definition NewEventStreamer (id : list ascii) : Streamer :=
  mkStreamer id [] false [] 0 (mkStreamStats 0 0 0) false false [] [].

(** A send on a closed channel panics ([None]); a full channel drops. *)
Definition Send (e : EventEnvelope) (s : Streamer) : option Streamer :=
  if closed s then None
  else if length (in_ s) <? queueCap then
    Some (mkStreamer (runID s) (in_ s ++ [e]) false (pending s) (seq s) (stats s) (loop_done s) (ctx_done s)
            (posted s) (accepted s ++ [e]))
  else Some s.

(** [ok] is the outcome of the POST. *)
Definition flush (ok : bool) (s : Streamer) : Streamer :=
  match pending s with
  | [] => s
  | _ =>
      let seq' := wrapU 64 (seq s + 1) in
      let batch := mkEventBatch (runID s) seq' (pending s) in
      let st := stats s in
      let st' := if ok
        then mkStreamStats (wrapU 64 (BatchesSent st + 1)) (wrapU 64 (EventsSent st + Z.of_nat (length (pending s))))
               (BatchSendErrors st)
        else mkStreamStats (BatchesSent st) (EventsSent st) (wrapU 64 (BatchSendErrors st + 1)) in
      mkStreamer (runID s) (in_ s) (closed s) [] seq' st' (loop_done s) (ctx_done s) (posted s ++ [(batch, ok)]) (accepted s)
  end.

Definition receive (e : EventEnvelope) (rest : list EventEnvelope) (ok : bool) (s : Streamer) : Streamer :=
  let s := mkStreamer (runID s) rest (closed s) (pending s ++ [e]) (seq s) (stats s) (loop_done s) (ctx_done s)
             (posted s) (accepted s) in
  if maxBatch <=? length (pending s) then flush ok s else s.

Definition finish (s : Streamer) : Streamer :=
  mkStreamer (runID s) (in_ s) (closed s) (pending s) (seq s) (stats s) true (ctx_done s) (posted s) (accepted s).
Definition close_in (s : Streamer) : Streamer :=
  mkStreamer (runID s) (in_ s) true (pending s) (seq s) (stats s) (loop_done s) (ctx_done s) (posted s) (accepted s).
Definition cancel (s : Streamer) : Streamer :=
  mkStreamer (runID s) (in_ s) (closed s) (pending s) (seq s) (stats s) (loop_done s) true (posted s) (accepted s).

(** The POST carries the streamer's context: once that is done it fails. *)
Definition post_ok (s : Streamer) (ok : bool) : Prop := ok = true -> ctx_done s = false.

Inductive stream_step : Streamer -> Streamer -> Prop :=
  | ss_send s s' e : Send e s = Some s' -> stream_step s s'
  | ss_close s : closed s = false -> stream_step s (close_in s)
  | ss_cancel s : stream_step s (cancel s)
  | ss_recv s e rest ok :
      loop_done s = false -> in_ s = e :: rest -> post_ok s ok -> stream_step s (receive e rest ok s)
  | ss_recv_closed s ok :
      loop_done s = false -> in_ s = [] -> closed s = true -> post_ok s ok -> stream_step s (finish (flush ok s))
  | ss_tick s ok : loop_done s = false -> post_ok s ok -> stream_step s (flush ok s)
  | ss_ctx_done s ok :
      loop_done s = false -> ctx_done s = true -> post_ok s ok -> stream_step s (finish (flush ok s)).

(** ** The forwarding goroutine (cmd/fangs-runner)

    The goroutine reads an event, takes the current streamer under the mutex,
    releases it, and only then sends; [runJob] clears the current streamer and
    closes it on its way out.  [fw_held] is an event whose streamer has been
    taken and which has not been sent yet. *)
Record Fwd : Type := mkFwd {
  fw_current : bool;
  fw_held : option EventEnvelope;
  fw_stream : Streamer;
  fw_panicked : bool
}.

Definition fwd_start (id : list ascii) : Fwd := mkFwd true None (NewEventStreamer id) false.

Inductive fwd_step : Fwd -> Fwd -> Prop :=
  | fs_take f e :
      fw_panicked f = false -> fw_held f = None ->
      fwd_step f (mkFwd (fw_current f) (if fw_current f then Some e else None) (fw_stream f) false)
  | fs_send f e :
      fw_panicked f = false -> fw_held f = Some e ->
      fwd_step f (match Send e (fw_stream f) with
                  | Some s => mkFwd (fw_current f) None s false
                  | None => mkFwd (fw_current f) (Some e) (fw_stream f) true
                  end)
  | fs_clear f : fw_panicked f = false -> fwd_step f (mkFwd false (fw_held f) (fw_stream f) false)
  | fs_close f :
      fw_panicked f = false -> fw_current f = false -> closed (fw_stream f) = false ->
      fwd_step f (mkFwd false (fw_held f) (close_in (fw_stream f)) false)
  | fs_loop f s :
      fw_panicked f = false -> stream_step (fw_stream f) s -> closed s = closed (fw_stream f) ->
      accepted s = accepted (fw_stream f) -> fwd_step f (mkFwd (fw_current f) (fw_held f) s false).

(** ** Lemmas: the streamer *)
Definition sent_events (l : list (EventBatch * bool)) : list EventEnvelope := l ≫= fun b => eb_Events b.1.
Definition delivered (l : list (EventBatch * bool)) : list (EventBatch * bool) := filter (fun b => b.2 = true) l.
Definition refused (l : list (EventBatch * bool)) : list (EventBatch * bool) := filter (fun b => b.2 = false) l.

Record stream_inv (s : Streamer) : Prop := {
  si_conserved : sent_events (posted s) ++ pending s ++ in_ s = accepted s;
  si_batches : Forall (fun b => 0 < length (eb_Events b.1) <= maxBatch) (posted s);
  si_seq : forall i b, posted s !! i = Some b -> eb_Seq b.1 = wrapU 64 (Z.of_nat i + 1);
  si_next : seq s = wrapU 64 (Z.of_nat (length (posted s)));
  si_sent : BatchesSent (stats s) = wrapU 64 (Z.of_nat (length (delivered (posted s)))) /\
            EventsSent (stats s) = wrapU 64 (Z.of_nat (length (sent_events (delivered (posted s))))) /\
            BatchSendErrors (stats s) = wrapU 64 (Z.of_nat (length (refused (posted s))));
  si_pending : length (pending s) < maxBatch;
  si_queue : length (in_ s) <= queueCap;
  si_done : loop_done s = true -> pending s = [] /\ (ctx_done s = false -> in_ s = [] /\ closed s = true)
}.

Lemma sent_events_app l l' : sent_events (l ++ l') = sent_events l ++ sent_events l'.
Proof. unfold sent_events. by rewrite bind_app. Qed.

Lemma sent_events_one b ok : sent_events [(b, ok)] = eb_Events b.
Proof. unfold sent_events. simpl. by rewrite app_nil_r. Qed.

Lemma delivered_snoc l b ok : delivered (l ++ [(b, ok)]) = delivered l ++ (if ok then [(b, ok)] else []).
Proof. unfold delivered. rewrite filter_app. by destruct ok. Qed.

Lemma refused_snoc l b ok : refused (l ++ [(b, ok)]) = refused l ++ (if ok then [] else [(b, ok)]).
Proof. unfold refused. rewrite filter_app. by destruct ok. Qed.

Lemma wrapU_succ z k : wrapU 64 (wrapU 64 z + k) = wrapU 64 (z + k).
Proof. unfold wrapU. apply Z.add_mod_idemp_l. done. Qed.

(** [flush] posts what is pending, in one batch. *)
Lemma flush_fields ok s :
  in_ (flush ok s) = in_ s /\ closed (flush ok s) = closed s /\ pending (flush ok s) = [] /\
  loop_done (flush ok s) = loop_done s /\ ctx_done (flush ok s) = ctx_done s /\ accepted (flush ok s) = accepted s /\
  posted (flush ok s) = posted s ++
    (match pending s with [] => [] | l => [(mkEventBatch (runID s) (wrapU 64 (seq s + 1)) l, ok)] end).
Proof. unfold flush. destruct (pending s) eqn:E; simpl; rewrite ?E, ?app_nil_r; done. Qed.

(** All of the invariant that [flush] can touch; [pending] may be full here. *)
Record core_inv (s : Streamer) : Prop := {
  ci_conserved : sent_events (posted s) ++ pending s ++ in_ s = accepted s;
  ci_batches : Forall (fun b => 0 < length (eb_Events b.1) <= maxBatch) (posted s);
  ci_seq : forall i b, posted s !! i = Some b -> eb_Seq b.1 = wrapU 64 (Z.of_nat i + 1);
  ci_next : seq s = wrapU 64 (Z.of_nat (length (posted s)));
  ci_sent : BatchesSent (stats s) = wrapU 64 (Z.of_nat (length (delivered (posted s)))) /\
            EventsSent (stats s) = wrapU 64 (Z.of_nat (length (sent_events (delivered (posted s))))) /\
            BatchSendErrors (stats s) = wrapU 64 (Z.of_nat (length (refused (posted s))));
  ci_pending : length (pending s) <= maxBatch
}.

Lemma flush_core ok s : core_inv s -> core_inv (flush ok s).
Proof.
  intros [H1 H2 H3 H4 (H5 & H6 & H8) H7]. unfold flush. destruct (pending s) as [|e l] eqn:E; [by split; rewrite ?E|].
  split; cbn [posted pending in_ accepted seq stats].
  - rewrite sent_events_app, sent_events_one, <- H1. cbn [eb_Events]. by rewrite <- (assoc app).
  - apply Forall_app. split; [done|]. constructor; [simpl in *; lia|done].
  - intros i b Hb. apply lookup_app_Some in Hb as [Hb|[Hi Hb]]; [by apply H3|].
    apply list_lookup_singleton_Some in Hb as [Hi' <-]. simpl. rewrite H4, wrapU_succ. f_equal. lia.
  - rewrite H4, wrapU_succ, length_app. simpl. f_equal. lia.
  - rewrite delivered_snoc, refused_snoc. destruct ok; cbn [stats BatchesSent EventsSent BatchSendErrors eb_Events].
    + rewrite H5, H6, H8, !wrapU_succ, sent_events_app, !length_app, sent_events_one. cbn [eb_Events length].
      split_and!; f_equal; lia.
    + rewrite app_nil_r, H5, H6, H8, wrapU_succ, !length_app. split_and!; [done|done|]. simpl. f_equal. lia.
  - unfold maxBatch. simpl. lia.
Qed.

Lemma core_of_inv s : stream_inv s -> core_inv s.
Proof. intros []. split; try done. lia. Qed.

Lemma inv_of_core s :
  core_inv s -> length (pending s) < maxBatch -> length (in_ s) <= queueCap ->
  (loop_done s = true -> pending s = [] /\ (ctx_done s = false -> in_ s = [] /\ closed s = true)) -> stream_inv s.
Proof. intros [] ? ? ?. by split. Qed.

(** [flush] from a state in which the loop runs. *)
Lemma flush_inv ok s :
  core_inv s -> length (in_ s) <= queueCap -> loop_done s = false -> stream_inv (flush ok s).
Proof.
  intros Hc Hq Hd. destruct (flush_fields ok s) as (Ei & _ & Ep & Ed & _).
  apply inv_of_core; [by apply flush_core|rewrite Ep; unfold maxBatch; simpl; lia|by rewrite Ei|by rewrite Ed, Hd].
Qed.

Lemma finish_inv s : stream_inv s -> pending s = [] -> (ctx_done s = false -> in_ s = [] /\ closed s = true) ->
  stream_inv (finish s).
Proof. intros [] Hp Hq. by split. Qed.

Lemma receive_core s e rest :
  core_inv s -> length (pending s) < maxBatch -> in_ s = e :: rest ->
  core_inv (mkStreamer (runID s) rest (closed s) (pending s ++ [e]) (seq s) (stats s) (loop_done s) (ctx_done s)
              (posted s) (accepted s)).
Proof.
  intros [] Hp Hin. split; simpl; try done.
  - rewrite <- ci_conserved0, Hin. by rewrite <- !(assoc app).
  - rewrite length_app. simpl. lia.
Qed.

Lemma send_inv s s' e : stream_inv s -> Send e s = Some s' -> stream_inv s'.
Proof.
  intros Hinv. pose proof Hinv as []. unfold Send. destruct (closed s) eqn:Ec; [done|].
  destruct (Nat.ltb_spec (length (in_ s)) queueCap); intros [= <-]; [|done]. split; simpl; try done.
  - rewrite <- si_conserved0. by rewrite <- !(assoc app).
  - rewrite length_app. simpl. lia.
  - intros Hd. destruct (si_done0 Hd) as [Hp Hq]. split; [done|]. intros Hc. destruct (Hq Hc). congruence.
Qed.

Lemma stream_step_inv s s' : stream_inv s -> stream_step s s' -> stream_inv s'.
Proof.
  intros Hinv Hs. pose proof (core_of_inv s Hinv) as Hc. pose proof Hinv as []. destruct Hs as
    [s s' e Hs|s Hcl|s|s e rest ok Hd Hin Hok|s ok Hd Hin Hcl Hok|s ok Hd Hok|s ok Hd Hctx Hok].
  - by eapply send_inv.
  - split; try done. simpl. intros Hd. destruct (si_done0 Hd) as [Hp Hq]. split; [done|]. intros Hx.
    by destruct (Hq Hx).
  - split; try done. simpl. intros Hd. by destruct (si_done0 Hd).
  - pose proof (receive_core s e rest Hc si_pending0 Hin) as Hc'. rewrite Hin in si_queue0. simpl in si_queue0.
    unfold receive. destruct (Nat.leb_spec maxBatch (length (pending s ++ [e]))) as [Hge|Hlt]; cbn [pending].
    + rewrite (proj2 (Nat.leb_le _ _) Hge). apply flush_inv; [done|simpl; lia|done].
    + rewrite (proj2 (Nat.leb_gt _ _) Hlt). apply inv_of_core; [done|done|simpl; lia|simpl; congruence].
  - destruct (flush_fields ok s) as (Ei & Ecl & Ep & Ed & Ex & _).
    apply finish_inv; [by apply flush_inv|done|]. rewrite Ei, Ecl. done.
  - by apply flush_inv.
  - destruct (flush_fields ok s) as (Ei & Ecl & Ep & Ed & Ex & _).
    apply finish_inv; [by apply flush_inv|done|]. rewrite Ex. congruence.
Qed.

Lemma stream_reachable_inv id s : rtc stream_step (NewEventStreamer id) s -> stream_inv s.
Proof.
  intros H. assert (stream_inv (NewEventStreamer id)) as H0.
  { split; simpl; unfold maxBatch, queueCap; first [done|by constructor|lia]. }
  revert H0. induction H as [|s s' s'' Hs _ IH]; [done|]. intros H0. apply IH. by eapply stream_step_inv.
Qed.

(** C19: The streamer accounts for every event it accepted.  However sends,
    ticks, POST failures, closing and cancellation interleave, the events of
    the batches posted so far, followed by the unsent batch and the queue,
    are exactly the accepted events in order; batches hold 1 to 64 events and
    are numbered 1, 2, 3, ...; [BatchesSent], [EventsSent] and
    [BatchSendErrors] count the POSTs that succeeded, their events and those that
    failed, modulo 2^64; and when the loop has ended without a cancellation, nothing is left unposted. *)
Theorem stream_conservation id s :
  rtc stream_step (NewEventStreamer id) s ->
  sent_events (posted s) ++ pending s ++ in_ s = accepted s /\
  Forall (fun b => 0 < length (eb_Events b.1) <= maxBatch) (posted s) /\
  (forall i b, posted s !! i = Some b -> eb_Seq b.1 = wrapU 64 (Z.of_nat i + 1)) /\
  BatchesSent (stats s) = wrapU 64 (Z.of_nat (length (delivered (posted s)))) /\
  EventsSent (stats s) = wrapU 64 (Z.of_nat (length (sent_events (delivered (posted s))))) /\
  BatchSendErrors (stats s) = wrapU 64 (Z.of_nat (length (refused (posted s)))) /\
  (loop_done s = true -> ctx_done s = false -> sent_events (posted s) = accepted s).
Proof.
  intros H. apply stream_reachable_inv in H as []. destruct si_sent0 as (? & ? & ?). split_and!; try done.
  intros Hd Hx. destruct (si_done0 Hd) as [Hp Hq]. destruct (Hq Hx) as [Hi _].
  by rewrite <- si_conserved0, Hp, Hi, !app_nil_r.
Qed.

(** A cancelled streamer delivers nothing more.  Once its context is done
    every further POST fails, the final flush included, so the events still
    pending or queued at that moment never reach the orchestrator. *)
Theorem cancelled_stream_delivers_nothing s s' :
  rtc stream_step s s' -> ctx_done s = true ->
  delivered (posted s') = delivered (posted s).
Proof.
  intros H Hx. enough (ctx_done s' = true /\ delivered (posted s') = delivered (posted s)) by tauto.
  assert (Hflush : forall ok s, post_ok s ok -> ctx_done s = true ->
            delivered (posted (flush ok s)) = delivered (posted s)).
  { intros ok s0 Hok Hs0. destruct ok; [by specialize (Hok eq_refl); congruence|].
    destruct (flush_fields false s0) as (_ & _ & _ & _ & _ & _ & ->).
    destruct (pending s0); [by rewrite app_nil_r|]. by rewrite delivered_snoc, app_nil_r. }
  induction H as [|s s1 s2 Hs _ IH]; [done|].
  assert (ctx_done s1 = true /\ delivered (posted s1) = delivered (posted s)) as [Hx1 Hd1].
  { destruct Hs as [s s' e Hs|s Hcl|s|s e rest ok Hd Hin Hok|s ok Hd Hin Hcl Hok|s ok Hd Hok|s ok Hd Hctx Hok]; try done.
    - unfold Send in Hs. destruct (closed s); [done|]. by case_match; simplify_eq.
    - unfold receive. case_match; [|done]. split; [by rewrite (proj1 (proj2 (proj2 (proj2 (proj2 (flush_fields ok _))))))|].
      by rewrite Hflush.
    - destruct (flush_fields ok s) as (_ & _ & _ & _ & Ex & _). simpl. rewrite Ex. split; [done|]. by apply Hflush.
    - destruct (flush_fields ok s) as (_ & _ & _ & _ & Ex & _). rewrite Ex. split; [done|]. by apply Hflush.
    - destruct (flush_fields ok s) as (_ & _ & _ & _ & Ex & _). simpl. rewrite Ex. split; [done|]. by apply Hflush. }
  destruct (IH Hx1) as [? ->]. done.
Qed.

(** ** Concrete streams *)
Definition wit_event : EventEnvelope := mkEventEnvelope EventTypeExec JNull.

(** Two events: the first goes out with a successful POST, the second with
    the final flush after the channel is closed. *)
Definition wit_stream : Streamer :=
  let s1 := default (NewEventStreamer zero_run_id) (Send wit_event (NewEventStreamer zero_run_id)) in
  let s2 := flush true (receive wit_event [] true s1) in
  let s3 := close_in (default s2 (Send wit_event s2)) in
  finish (flush true (receive wit_event [] true s3)).

Lemma wit_stream_reachable : rtc stream_step (NewEventStreamer zero_run_id) wit_stream.
Proof.
  unfold wit_stream.
  eapply rtc_l; [eapply (ss_send _ _ wit_event); reflexivity|].
  eapply rtc_l; [eapply (ss_recv _ wit_event [] true); done|].
  eapply rtc_l; [eapply (ss_tick _ true); done|].
  eapply rtc_l; [eapply (ss_send _ _ wit_event); reflexivity|].
  eapply rtc_l; [eapply ss_close; done|].
  eapply rtc_l; [eapply (ss_recv _ wit_event [] true); done|].
  eapply rtc_l; [eapply (ss_recv_closed _ true); done|].
  apply rtc_refl.
Qed.

Lemma stream_conservation_witness : sent_events (posted wit_stream) = [wit_event; wit_event].
Proof.
  destruct (stream_conservation zero_run_id wit_stream wit_stream_reachable) as (_ & _ & _ & _ & _ & _ & H).
  rewrite H; reflexivity.
Defined.

(** An event is received, the job's context ends, the final flush fails. *)
Definition wit_cancelled : Streamer :=
  cancel (receive wit_event [] true
    (default (NewEventStreamer zero_run_id) (Send wit_event (NewEventStreamer zero_run_id)))).

Lemma cancelled_stream_delivers_nothing_witness :
  loop_done (finish (flush false wit_cancelled)) = true /\ accepted wit_cancelled = [wit_event] /\
  delivered (posted (finish (flush false wit_cancelled))) = [].
Proof.
  split; [done|]. split; [done|].
  apply (cancelled_stream_delivers_nothing wit_cancelled (finish (flush false wit_cancelled))); [|done].
  apply rtc_once, ss_ctx_done; done.
Defined.

(** ** The forwarder *)
Lemma fwd_after_close f f' :
  rtc fwd_step f f' -> fw_current f = false -> closed (fw_stream f) = true -> fw_held f = None ->
  fw_panicked f = false -> fw_panicked f' = false /\ accepted (fw_stream f') = accepted (fw_stream f).
Proof.
  induction 1 as [|f f1 f2 Hs _ IH]; [done|]. intros Hc Hcl Hh Hp.
  assert (fw_current f1 = false /\ closed (fw_stream f1) = true /\ fw_held f1 = None /\ fw_panicked f1 = false /\
  accepted (fw_stream f1) = accepted (fw_stream f)) as (? & ? & ? & ? & <-).
  { destruct Hs; simpl in *; rewrite ?Hc; repeat split; congruence. }
  by apply IH.
Qed.

Lemma fwd_step_inv f f' :
  fwd_step f f' -> (closed (fw_stream f) = true -> fw_current f = false) ->
  closed (fw_stream f') = true -> fw_current f' = false.
Proof.
  intros Hs Hi. destruct Hs as [f e|f e Hp Hh|f|f|f s Hp Hs Hc Ha]; simpl in *; try done; [|by rewrite Hc].
  unfold Send. destruct (closed (fw_stream f)) eqn:E; [by auto|]. destruct (length _ <? _); simpl; rewrite ?E; done.
Qed.

Lemma fwd_reachable_inv id f :
  rtc fwd_step (fwd_start id) f -> closed (fw_stream f) = true -> fw_current f = false.
Proof.
  intros H. assert (closed (fw_stream (fwd_start id)) = true -> fw_current (fwd_start id) = false) as Hi by done.
  revert Hi. induction H as [|f f1 f2 Hs _ IH]; [done|]. intros Hi. apply IH. by eapply fwd_step_inv.
Qed.

(** Ending a job can crash the runner.  The forwarder sends outside the
    mutex under which it took the streamer, so there is a run in which
    [runJob] closes the streamer between the two and the send hits a closed
    channel, a panic.  This is the only way: when nothing is in flight at the
    close, the forwarder never panics and the closed streamer receives
    nothing more. *)
Theorem forwarder_close_race id :
  (exists f, rtc fwd_step (fwd_start id) f /\ fw_panicked f = true) /\
  (forall f f', rtc fwd_step (fwd_start id) f -> closed (fw_stream f) = true -> fw_held f = None ->
     fw_panicked f = false -> rtc fwd_step f f' ->
     fw_panicked f' = false /\ accepted (fw_stream f') = accepted (fw_stream f)).
Proof.
  split.
  - eexists. split.
    + eapply rtc_l; [by eapply (fs_take _ wit_event)|]. eapply rtc_l; [by eapply fs_clear|].
      eapply rtc_l; [by eapply fs_close|]. eapply rtc_l; [by eapply (fs_send _ wit_event)|]. apply rtc_refl.
    + done.
  - intros f f' Hf Hc Hh Hp Hs. apply fwd_after_close; [done| |done..]. by eapply fwd_reachable_inv.
Qed.

(** ** Runner and orchestrator together *)
Section protocol.
Context {S : Type} `{Backend S}.
Implicit Types s : Server S.

(** What the runner makes of the orchestrator's answer to a poll. *)
Lemma poll_answer c poll s :
  runnerID c <> "" ->
  PollJob (Ok (handlePollJob (runnerID c) poll s).1) =
  match runners s !! runnerID c with
  | None => Err (Errorf "runner not registered; re-register before polling")
  | Some _ => Ok (poll (dispatcher s)).1
  end.
Proof.
  intros Hid. unfold handlePollJob. rewrite decide_False by done. destruct (runners s !! runnerID c); [|done].
  destruct (poll (dispatcher s)) as [[j|] d]; done.
Qed.

(** A runner the orchestrator forgot reconnects by itself.  After one
    beat, whatever the registry was, the runner is on file with a fresh
    LastSeen and its poll answers what its dispatcher queue holds; if it had
    been forgotten, until then every poll was an error and took no job, and
    the client has taken over the orchestrator's identity and intervals.  No
    other runner, queue or stored row is touched. *)
Theorem heartbeat_reconnects c hostname kernel active now now' s poll :
  runnerID c <> "" ->
  let '(c', s') := heartbeat_tick c hostname kernel active now now' s in
  runnerID c' = runnerID c /\
  (exists rr, runners s' !! runnerID c = Some rr /\
  LastSeen rr = if decide (runners s !! runnerID c = None) then now' else now) /\
  PollJob (Ok (handlePollJob (runnerID c') poll s').1) = Ok (poll (dispatcher s)).1 /\
  (runners s !! runnerID c = None ->
     (exists e, PollJob (Ok (handlePollJob (runnerID c) poll s).1) = Err e) /\
  (handlePollJob (runnerID c) poll s).2 = s /\
  c' = mkClient (runnerID c) (orchestratorID s) (5 * Second) (30 * Second)) /\
  (forall id, id <> runnerID c -> runners s' !! id = runners s !! id) /\
  dispatcher s' = dispatcher s /\ store s' = store s.
Proof.
  intros Hid. destruct (heartbeat_tick c hostname kernel active now now' s) as [c' s'] eqn:E.
  unfold heartbeat_tick, handleHeartbeat in E. rewrite decide_False in E by done. cbn [default] in E.
  destruct (runners s !! runnerID c) as [rr|] eqn:Er; cbn in E.
  - injection E as <- <-. rewrite poll_answer by done. cbn. rewrite lookup_insert_eq.
    split; [done|]. split; [by eexists|]. split; [done|]. split; [done|]. split; [|done].
    intros id Hne. by rewrite lookup_insert_ne.
  - unfold handleRegister in E. cbn [registration rg_RunnerID rg_ProtoVersion] in E.
    rewrite decide_False, decide_False in E by (done || congruence). cbn in E. injection E as <- <-.
    rewrite !poll_answer by done. cbn. rewrite lookup_insert_eq, Er.
    split; [done|]. split; [by eexists|]. split; [done|].
    split; [|split; [|done]]; [|intros id Hne; by rewrite lookup_insert_ne].
    intros _. split; [by eexists|]. split; [|done]. unfold handlePollJob. by rewrite decide_False, Er.
Qed.
End protocol.

(** An orchestrator that restarted, and the runner it forgot. *)
Lemma heartbeat_reconnects_witness :
  exists rr, runners (heartbeat_tick (new_client "r1") "host" "6.1" "" 5 6
    (New "" "v1" [] (Some Sqlite.empty_db))).2 !! "r1" = Some rr /\ LastSeen rr = 6%Z.
Proof.
  pose proof (heartbeat_reconnects (new_client "r1") "host" "6.1" "" 5 6 (New "" "v1" [] (Some Sqlite.empty_db))
    (fun d => (None, d)) ltac:(done)) as Hx.
  destruct Hx as (_ & (rr & H1 & H2) & _). exists rr. split; [exact H1|exact H2].
Defined.

End Agent.
