(* ===== verification/Pipeline.v ===== *)
(** * From the sandbox to a deviation

    The parts of the development composed the way a scan composes the
    program: the runner's streamer posts the events of a run in batches
    (Agent.v), each POST is one call of the orchestrator's event handler
    (Api.v) on the SQLite backend, and the Differ analyses the run (Differ.v).
    [behaviour_reported] follows a behaviour from one end to the other. *)
From Stdlib Require Import Ascii.
From stdpp Require Import prelude strings gmap list relations.
From S2P Require Import Prelude GoTime Json Sql Storage Sqlite SqliteSpec NetIP Fingerprint Differ Proto Dispatcher Api Agent.

Module Pipeline.
Import Sqlite.Sqlite SqliteSpec.SqliteSpec Fingerprint.Fingerprint Differ.Differ Api.Api Agent.Agent.

(** ** The POSTs of a stream

    One batch per request ([EventStreamer.post]), in order; [clocks] and
    [nows] are the server's clock readings during the i-th request. *)
Fixpoint post_batches (runID : string) (clocks : nat -> nat -> time) (nows : nat -> time) (i : nat)
    (l : list EventBatch) (s : Server DB) : Server DB :=
  match l with
  | [] => s
  | b :: l' => post_batches runID clocks nows (S i) l' (handleEvents runID [b] true (clocks i) (nows i) s).2
  end.

(** The batches the orchestrator got.  A POST that succeeded arrived; one that
    failed may still have ([got i]: the answer was lost, or the context ended
    while the request was on its way). *)
Fixpoint arrivals (got : nat -> bool) (l : list (EventBatch * bool)) : list EventBatch :=
  match l with
  | [] => []
  | (b, ok) :: l' => (if ok || got 0 then [b] else []) ++ arrivals (fun i => got (S i)) l'
  end.

(** The same on the database: the events of the batch, then "done". *)
Definition post_db (runID : string) (clock : nat -> time) (now : time) (b : EventBatch) (d : DB) : DB :=
  exec (MUpdateRunState now runID RunStateDone "")
    (exec (MAppendEvents runID (event_rows runID clock 0 (eb_Events b))) d).

Lemma handleEvents_db runID clock now b (s : Server DB) d :
  store s = Some d -> runID <> "" ->
  store (handleEvents runID [b] true clock now s).2 = Some (post_db runID clock now b d).
Proof.
  intros Hst Hid. unfold handleEvents. rewrite decide_False by done.
  cbn [ingest]. unfold ingest_batch. cbn [observe store c_events]. rewrite Hst.
  destruct (eb_Events b) as [|e l] eqn:Eb.
  - cbn [negb store set_store observe]. rewrite Hst. unfold post_db. by rewrite Eb.
  - rewrite Nat.add_0_l, Nat.sub_diag. unfold post_db. rewrite Eb.
    destruct (Storage.AppendEvents runID (event_rows runID clock 0 (e :: l)) d) as [[u|err] d1] eqn:E;
      simpl in E |- *; by rewrite E.
Qed.

(** ** What the POSTs leave alone *)
Section frame.
Context (runID pkg : string).

(** The database [d0] after the events [evs] of the run arrived. *)
Record fed (d0 : DB) (evs : list EventEnvelope) (d : DB) : Prop := mkFed {
  fed_wf : wf d;
  fed_baseline : baseline d = baseline d0;
  fed_devs : deviations d = deviations d0;
  fed_allow : allowlists d = allowlists d0;
  fed_run : exists r, tbl Run_ID (runs d) !! runID = Some r /\ Run_PackageName r = pkg;
  fed_events : ev_core <$> events d = (ev_core <$> events d0) ++ (env_core runID <$> evs)
}.

Lemma fed_append d0 evs d clock l :
  fed d0 evs d -> fed d0 (evs ++ l) (exec (MAppendEvents runID (event_rows runID clock 0 l)) d).
Proof.
  intros [Hwf Hb Hv Ha (r & Hr & Hp) He]. destruct l as [|e l].
  { rewrite app_nil_r. split; eauto. }
  assert (Hin : runID ∈ Run_ID <$> runs d).
  { apply tbl_lookup in Hr as [Hr <-]; [|apply Hwf]. by apply list_elem_of_fmap_2. }
  pose proof (wf_exec (MAppendEvents runID (event_rows runID clock 0 (e :: l))) d Hwf) as Hwf'.
  destruct (append_core runID clock 0 (e :: l) d Hin ltac:(done)) as (d' & E & Hruns & Hcore).
  assert (Ed : d' = exec (MAppendEvents runID (event_rows runID clock 0 (e :: l))) d)
    by (simpl in E |- *; by rewrite E).
  simpl in E. unfold Sqlite.AppendEvents in E.
  destruct (event_rows runID clock 0 (e :: l)) as [|x xs] eqn:Ex; [done|]. rewrite decide_True in E by done.
  injection E as E. rewrite <- Ed in *. split.
  - done.
  - by rewrite <- E.
  - by rewrite <- E.
  - by rewrite <- E.
  - rewrite Hruns. eauto.
  - by rewrite Hcore, He, fmap_app, app_assoc.
Qed.

Lemma fed_done d0 evs d now : fed d0 evs d -> fed d0 evs (exec (MUpdateRunState now runID RunStateDone "") d).
Proof.
  intros [Hwf Hb Hv Ha (r & Hr & Hp) He].
  pose proof (wf_exec (MUpdateRunState now runID RunStateDone "") d Hwf) as Hwf'.
  revert Hwf'. simpl. unfold Sqlite.UpdateRunState. change (IsValid RunStateDone) with true. cbn [negb].
  case_decide as Hz; [by split; eauto|]. intros Hwf'. split; try done. simpl.
  eexists. rewrite (tbl_update_key Run_ID _ _ runID r) by (apply Hwf || done).
  split; [apply lookup_insert_eq|]. done.
Qed.

Lemma fed_posts clocks nows i l d0 evs d (s : Server DB) :
  runID <> "" -> store s = Some d -> fed d0 evs d ->
  exists d', store (post_batches runID clocks nows i l s) = Some d' /\ fed d0 (evs ++ all_events l) d'.
Proof.
  intros Hid. revert i evs d s. induction l as [|b l IH]; intros i evs d s Hst Hf; simpl.
  { exists d. unfold all_events. simpl. by rewrite app_nil_r. }
  destruct (IH (S i) (evs ++ eb_Events b) (post_db runID (clocks i) (nows i) b d)
              (handleEvents runID [b] true (clocks i) (nows i) s).2) as (d' & Hd' & Hf').
  - by apply handleEvents_db.
  - by apply fed_done, fed_append.
  - exists d'. split; [done|]. unfold all_events in *. simpl. by rewrite app_assoc.
Qed.
End frame.

(** ** What an event shows *)

(** The filter of a package, from the allowlist table. *)
Definition package_filter (entries : list AllowEntry) (pkg : string) : Filter :=
  NewFilter (EntriesForPackage entries pkg).

(** The (category, value) an event of the stream shows under a filter. *)
Definition shows (f : Filter) (env : EventEnvelope) (c : Category) (v : string) : Prop :=
  contributes (Some f) c v (mkEventRow 0 "" 0 (EventType_String (ee_Type env)) (Some (ee_Payload env))).

Lemma extract_core f e e' : Ev_Type e = Ev_Type e' -> Ev_Data e = Ev_Data e' -> extract f e = extract f e'.
Proof. destruct e, e'. simpl. by intros -> ->. Qed.

Lemma contributes_core f runID env c v e :
  ev_core e = env_core runID env -> contributes (Some f) c v e <-> shows f env c v.
Proof.
  intros [= _ Et Ed]. unfold shows, contributes. by rewrite (extract_core _ e (mkEventRow 0 "" 0 _ _) Et Ed).
Qed.

Lemma contributes_filter es es' pkg c v e :
  es ≡ₚ es' -> contributes (Some (package_filter es pkg)) c v e -> contributes (Some (package_filter es' pkg)) c v e.
Proof.
  intros Hp [He Hv]. split; [|done]. revert He. apply extract_mono, NewFilter_perm.
  unfold EntriesForPackage. by rewrite Hp.
Qed.

Section reported.
Context (runID pkg : string) (d0 : DB) (evs : list EventEnvelope) (d : DB).
Context (Hfed : fed runID pkg d0 evs d) (Hnew : Forall (fun e => Ev_RunID e <> runID) (events d0)).

(** The rows of the run are the events that arrived. *)
Lemma run_rows : ev_core <$> filter (fun e => Ev_RunID e = runID) (events d) = env_core runID <$> evs.
Proof.
  assert (Hcomm : forall l : list EventRow, ev_core <$> filter (fun e => Ev_RunID e = runID) l =
    filter (fun x : string * string * jdata => x.1.1 = runID) (ev_core <$> l)).
  { induction l as [|e l IH]; [done|]. csimpl. rewrite !filter_cons. simpl. case_decide; csimpl; by rewrite IH. }
  rewrite Hcomm, (fed_events _ _ _ _ _ Hfed), filter_app, <- Hcomm.
  rewrite (filter_none _ (events d0)) by done. simpl. apply filter_all, Forall_fmap, Forall_forall. done.
Qed.

Lemma events_of_rows e : e ∈ events_of (view d) runID <-> e ∈ filter (fun e => Ev_RunID e = runID) (events d).
Proof.
  unfold events_of. rewrite order_by_perm. simpl. by rewrite (tbl_values Ev_ID) by apply Hfed.
Qed.

Lemma events_of_length : length (events_of (view d) runID) = length evs.
Proof.
  unfold events_of. rewrite order_by_perm. simpl. rewrite (tbl_values Ev_ID) by apply Hfed.
  by rewrite <- (length_fmap ev_core), run_rows, length_fmap.
Qed.

Lemma shown_rows f c v :
  (exists e, e ∈ events_of (view d) runID /\ contributes (Some f) c v e) <->
  (exists env, env ∈ evs /\ shows f env c v).
Proof.
  pose proof run_rows as Hrows. split.
  - intros (e & He & Hc). apply events_of_rows in He.
    assert (Hin : ev_core e ∈ env_core runID <$> evs) by (rewrite <- Hrows; by apply list_elem_of_fmap_2).
    apply list_elem_of_fmap in Hin as (env & Ec & Henv). exists env. split; [done|].
    by apply (contributes_core f runID env) in Hc.
  - intros (env & Henv & Hs).
    assert (Hin : env_core runID env ∈ ev_core <$> filter (fun e => Ev_RunID e = runID) (events d))
      by (rewrite Hrows; by apply list_elem_of_fmap_2).
    apply list_elem_of_fmap in Hin as (e & Ec & He). exists e. split; [by apply events_of_rows|].
    by apply (contributes_core f runID env).
Qed.

(** With at most 10000 events the fingerprints of the run are what its events show, each
    with one of them as evidence. *)
Lemma shown_fingerprints fps :
  (Z.of_nat (length evs) <= 10000)%Z -> run_fingerprints (view d) runID pkg fps ->
  let f := package_filter (allowlists d0) pkg in
  (forall c v, (c, v) ∈ fp_key <$> fps <-> exists env, env ∈ evs /\ shows f env c v) /\
  (forall fp, fp ∈ fps -> exists e, e ∈ events d /\ Ev_ID e = FirstEvtID fp /\ Ev_RunID e = runID /\
     contributes (Some f) (Category_ fp) (Value fp) e).
Proof.
  intros Hlen (l & all & entries & iter & Hall & _ & -> & Hent & Hit & ->) f.
  assert (Hlim : limit_to 10000 all = all).
  { unfold limit_to. apply take_ge. rewrite Hall, events_of_length. lia. }
  rewrite Hlim. simpl in Hent. rewrite (tbl_values Al_ID), (fed_allow _ _ _ _ _ Hfed) in Hent by apply Hfed.
  fold (package_filter entries pkg). split.
  - intros c v. rewrite <- shown_rows, list_elem_of_fmap. transitivity (exists e, e ∈ all /\
      contributes (Some (package_filter entries pkg)) c v e).
    + rewrite <- (fingerprint_iff iter) by done. split.
      * intros (fp & [= -> ->] & Hfp). by exists fp.
      * intros (fp & Hfp & <- & <-). by exists fp.
    + split; intros (e & He & Hc); exists e; (split; [by rewrite Hall in * || by rewrite Hall|]);
        eapply contributes_filter; [|exact Hc| |exact Hc]; done.
  - intros fp Hfp. destruct (ExtractFingerprintsWith_ok iter (Some (package_filter entries pkg)) all Hit) as [_ He _].
    destruct (He fp Hfp) as (_ & _ & e & Hh & Hid).
    assert (Hin : e ∈ filter (contributes (Some (package_filter entries pkg)) (Category_ fp) (Value fp)) all)
      by (destruct (filter _ all); [done|]; injection Hh as ->; by left).
    apply list_elem_of_filter in Hin as [Hc Hin]. rewrite Hall in Hin.
    apply events_of_rows, list_elem_of_filter in Hin as [Hr Hin]. exists e.
    split; [done|]. split; [done|]. split; [done|]. by eapply contributes_filter.
Qed.
End reported.

Lemma start_fed runID pkg d0 : wf d0 -> (exists r, r ∈ runs d0 /\ Run_ID r = runID /\ Run_PackageName r = pkg) ->
  fed runID pkg d0 [] d0.
Proof.
  intros Hwf (r & Hr & Hid & Hp). split; try done.
  - exists r. split; [|done]. apply tbl_lookup; [apply Hwf|done].
  - by rewrite fmap_nil, app_nil_r.
Qed.

Lemma known_pairs_baseline st st' pkg : st_baseline st' = st_baseline st -> known_pairs st' pkg = known_pairs st pkg.
Proof. unfold known_pairs, package_baseline. by intros ->. Qed.

(** Deviations made from the fresh fingerprints of a run. *)
Lemma fresh_reported runID pkg d0 evs d (Hfed : fed runID pkg d0 evs d) fps (known : list (string * string))
    (reported : list DeviationRow) :
  Forall (fun e => Ev_RunID e <> runID) (events d0) -> (Z.of_nat (length evs) <= 10000)%Z ->
  run_fingerprints (view d) runID pkg fps ->
  (fun dv => (Dev_Category dv, Dev_Value dv, Dev_EvidenceEventID dv, Dev_Severity dv)) <$> reported ≡ₚ
  (fun fp => (Category_ fp, Value fp, FirstEvtID fp, defaultSeverity (Category_ fp))) <$>
    filter (fun fp => fp_key fp ∉ known) fps ->
  let f := package_filter (allowlists d0) pkg in
  (forall c v, (c, v) ∈ dev_key <$> reported <->
     (exists e, e ∈ evs /\ shows f e c v) /\ (c, v) ∉ known) /\
  (forall dv, dv ∈ reported -> exists e, e ∈ events d /\ Ev_ID e = Dev_EvidenceEventID dv /\
     Ev_RunID e = runID /\ contributes (Some f) (Dev_Category dv) (Dev_Value dv) e).
Proof.
  intros Hnew Hlen Hfps Hperm f. destruct (shown_fingerprints runID pkg d0 evs d Hfed Hnew fps Hlen Hfps) as [Hshow Hev].
  fold f in Hshow, Hev. split.
  - intros c v. rewrite <- Hshow.
    assert (Hkeys : dev_key <$> reported ≡ₚ fp_key <$> filter (fun fp => fp_key fp ∉ known) fps).
    { apply (fmap_Permutation (fun x => (x.1.1.1, x.1.1.2))) in Hperm. by rewrite <- !list_fmap_compose in Hperm. }
    rewrite Hkeys, !list_elem_of_fmap. split.
    + intros (fp & -> & [Hn Hfp]%list_elem_of_filter). eauto.
    + intros [(fp & E & Hfp) Hn]. exists fp. split; [done|]. apply list_elem_of_filter. by rewrite <- E.
  - intros dv Hdv. apply (list_elem_of_fmap_2 (fun dv => (Dev_Category dv, Dev_Value dv, Dev_EvidenceEventID dv,
      Dev_Severity dv))) in Hdv. rewrite Hperm in Hdv.
    apply list_elem_of_fmap in Hdv as (fp & [= -> -> -> _] & [_ Hfp]%list_elem_of_filter). by apply Hev.
Qed.

(** ** End to end *)

Lemma all_events_cons b l : all_events (b :: l) = eb_Events b ++ all_events l.
Proof. done. Qed.

(** What arrived lies between what was acknowledged and what was posted. *)
Lemma arrivals_between got l :
  sent_events (delivered l) `sublist_of` all_events (arrivals got l) /\
  all_events (arrivals got l) `sublist_of` sent_events l.
Proof.
  revert got. induction l as [|[b ok] l IH]; intros got; [done|]. destruct (IH (fun i => got (S i))) as [H1 H2].
  change (sent_events ((b, ok) :: l)) with (eb_Events b ++ sent_events l). simpl arrivals.
  destruct ok; [|destruct (got 0)]; simpl app; rewrite ?all_events_cons.
  - change (delivered ((b, true) :: l)) with ((b, true) :: delivered l). split; by apply sublist_app.
  - change (delivered ((b, false) :: l)) with (delivered l). split; [by apply sublist_inserts_l|by apply sublist_app].
  - change (delivered ((b, false) :: l)) with (delivered l). split; [done|by apply sublist_inserts_l].
Qed.

Lemma arrivals_all got l : Forall (fun b => b.2 = true) l -> all_events (arrivals got l) = sent_events l.
Proof.
  intros Hl. revert got. induction Hl as [|[b ok] l Hb _ IH]; intros got; [done|]. simpl in Hb. subst. simpl.
  by rewrite all_events_cons, IH.
Qed.


(** ** A concrete scan

    A package whose baseline knows the registry; its new version also asks for
    another host, in a second batch.  Then the job's duration runs out with a
    third event in hand: the flush fails, and what is still sent on before
    the streamer is closed stays in the queue. *)
Definition dns (name : string) : EventEnvelope :=
  mkEventEnvelope EventTypeDNSQuery (JObj [("QName", JStr name)]).

Definition send (e : EventEnvelope) (s : Streamer) : Streamer := default s (Send e s).

Lemma send_step e s : closed s = false -> stream_step s (send e s).
Proof. intros Hc. apply (ss_send _ _ e). unfold send, Send. rewrite Hc. by destruct (_ <? _). Qed.

Definition scan1 : Streamer :=
  flush true (receive (dns "registry.npmjs.org") [] true (send (dns "registry.npmjs.org") (NewEventStreamer zero_run_id))).
Definition scan2 : Streamer := flush true (receive (dns "evil.example") [] true (send (dns "evil.example") scan1)).
Definition scan3 : Streamer := receive (dns "late.example") [] true (send (dns "late.example") scan2).
Definition scan : Streamer := close_in (send (dns "later.example") (finish (flush false (cancel scan3)))).

Lemma take_in e s :
  closed s = false -> loop_done s = false -> ctx_done s = false -> in_ s = [] ->
  rtc stream_step s (receive e [] true (send e s)).
Proof.
  intros Hc Hl Hx Hi. eapply rtc_l; [by apply (send_step e)|]. apply rtc_once.
  unfold send, Send. rewrite Hc, Hi. simpl. apply ss_recv; [exact Hl|done|intros _; exact Hx].
Qed.

Lemma scan_reachable : rtc stream_step (NewEventStreamer zero_run_id) scan.
Proof.
  transitivity scan1.
  { eapply rtc_r; [apply take_in; reflexivity|]. by apply ss_tick. }
  transitivity scan2.
  { eapply rtc_r; [apply (take_in (dns "evil.example") scan1); reflexivity|]. by apply ss_tick. }
  transitivity scan3; [apply (take_in (dns "late.example") scan2); reflexivity|].
  eapply rtc_l; [apply ss_cancel|]. eapply rtc_l; [by apply (ss_ctx_done _ false)|].
  eapply rtc_l; [by apply send_step|]. by apply rtc_once, ss_close.
Qed.

Definition before : DB :=
  exec (MCreateRun 2 (new_run (hex zero_run_id) "axios" "1.1" RunStatePending 1))
    (exec (MMergeBaseline "r1" [mkBaselineRow "axios" CatNetDNS "registry.npmjs.org" "" "" 1])
      (exec (MCreateRun 1 (new_run "r1" "axios" "1.0" RunStateDone 1)) empty_db)).

Lemma before_wf : wf before.
Proof. repeat apply wf_exec. apply wf_empty. Qed.

Lemma before_baseline : baseline_ok (view before).
Proof.
  intros k r Hk. apply tbl_lookup in Hk as [Hr Hk]; [|apply before_wf]. split; [done|].
  apply list_elem_of_singleton in Hr as ->. simpl. unfold AllCategories. set_solver.
Qed.

Definition after : Server DB :=
  post_batches (hex zero_run_id) (fun _ j => Z.of_nat j) (fun j => Z.of_nat j) 0 (arrivals (fun _ => false) (posted scan))
    (New "" "" [] (Some before)).


End Pipeline.
