(* ===== verification/Sandbox.v ===== *)
(** * sandbox: containers and their cgroups

    internal/runner/sandbox: sandbox.go (defaults), cgroup.go (finding the v2
    hierarchy, the parent cgroup of a run) and docker.go (the driver).  The
    Docker daemon is an argument: it answers a call given the exchange so
    far.  What /proc and stat say at each poll, the clock and the context are
    arguments too.  Endpoints are values instead of URL strings. *)
From Stdlib Require Import Ascii.
From stdpp Require Import prelude strings gmap list.
From S2P Require Import Prelude GoTime Json Proto.

Module Sandbox.

(** ** Text *)

(** [strings.Cut]: around the first occurrence of [sep]. *)
Fixpoint cut (sep l : list ascii) : option (list ascii * list ascii) :=
  if bool_decide (take (length sep) l = sep) then Some ([], drop (length sep) l)
  else match l with
       | [] => None
       | c :: l' => (fun p => (c :: p.1, p.2)) <$> cut sep l'
       end.

(** [strings.Fields]. *)
Fixpoint fields_from (l word : list ascii) : list (list ascii) :=
  match l with
  | [] => match word with [] => [] | _ => [word] end
  | c :: l' =>
      if is_space c then match word with [] => fields_from l' [] | _ => word :: fields_from l' [] end
      else fields_from l' (word ++ [c])
  end.
Definition Fields (s : string) : list string := string_of_list <$> fields_from (list_of_string s) [].

Fixpoint split_on (c : ascii) (l word : list ascii) : list (list ascii) :=
  match l with
  | [] => [word]
  | x :: l' => if Ascii.eqb x c then word :: split_on c l' [] else split_on c l' (word ++ [x])
  end.

(** [filepath.Clean] and [Join]. *)
Fixpoint clean_elems (rooted : bool) (parts stack : list (list ascii)) : list (list ascii) :=
  match parts with
  | [] => reverse stack
  | p :: ps =>
      if decide (p = [] \/ p = list_of_string ".") then clean_elems rooted ps stack
      else if decide (p = list_of_string "..") then
        match stack with
        | [] => clean_elems rooted ps (if rooted then [] else [p])
        | q :: st => if decide (q = list_of_string "..") then clean_elems rooted ps (p :: stack)
                     else clean_elems rooted ps st
        end
      else clean_elems rooted ps (p :: stack)
  end.
Definition Clean (s : string) : string :=
  let l := list_of_string s in
  let rooted := match l with "/"%char :: _ => true | _ => false end in
  let body := foldr (fun p acc => match acc with [] => p | _ => p ++ "/"%char :: acc end) []
                (clean_elems rooted (split_on "/"%char l []) []) in
  if rooted then string_of_list ("/"%char :: body)
  else if decide (body = []) then "." else string_of_list body.
Definition Join (elems : list string) : string :=
  match filter (fun e => e <> "") elems with
  | [] => ""
  | e :: es => Clean (foldl (fun acc x => acc +:+ "/" +:+ x) e es)
  end.

(** ** Defaults (sandbox.go) *)
Definition ErrImageRequired : error := Sentinel "sandbox: SandboxSpec.Image is required".
Definition ErrDaemonUnreachable : error := Sentinel "sandbox: docker daemon unreachable".
Definition ErrLaunchTimeout : error := Sentinel "sandbox: container did not enter Running state before deadline".
Definition ErrCgroupV2Required : error := Sentinel "sandbox: cgroup v2 with systemd driver required".

Definition DefaultMemoryBytes : Z := 512 * 1024 * 1024.
Definition DefaultNanoCPUs : Z := 1000000000.
Definition DefaultPidsLimit : Z := 256.
Definition DefaultNetworkMode : string := "bridge".
Definition DefaultPullPolicy : string := "missing".
Definition DefaultUser : string := "1000:1000".
Definition DefaultStopTimeout : duration := (5 * Second)%Z.

Definition FilledSpec (s : SandboxSpec) : SandboxSpec :=
  mkSandboxSpec (sb_Image s) (sb_Command s) (sb_Env s) (sb_WorkingDir s)
    (if decide (sb_User s = "") then DefaultUser else sb_User s)
    (if decide (sb_NetworkMode s = "") then DefaultNetworkMode else sb_NetworkMode s)
    (if decide (sb_MemoryBytes s = 0%Z) then DefaultMemoryBytes else sb_MemoryBytes s)
    (if decide (sb_NanoCPUs s = 0%Z) then DefaultNanoCPUs else sb_NanoCPUs s)
    (if decide (sb_PidsLimit s = 0%Z) then DefaultPidsLimit else sb_PidsLimit s)
    (if decide (sb_PullPolicy s = "") then DefaultPullPolicy else sb_PullPolicy s)
    (sb_GracePeriod s) (sb_CgroupParent s).

(** ** cgroup.go *)

(** A scanned file: its lines, and the error the scan ended with. *)
Definition Scan : Type := list string * option error.

Definition scan_end {A} (s : Scan) : res A := match s.2 with Some e => Err e | None => Err ErrCgroupV2Required end.

(** The mount point a mountinfo line names, when it is of type cgroup2. *)
Definition cgroup2_mount (line : string) : option string :=
  match cut (list_of_string " - ") (list_of_string line) with
  | None => None
  | Some (head, tail) =>
      if HasPrefix (string_of_list tail) "cgroup2 " then Fields (string_of_list head) !! 4 else None
  end.

Fixpoint first_mount (lines : list string) : option string :=
  match lines with
  | [] => None
  | l :: ls => match cgroup2_mount l with Some p => Some p | None => first_mount ls end
  end.

Definition cgroupV2Root (mountinfo : res Scan) : res string :=
  match mountinfo with
  | Err e => Err (Wrapf "open mountinfo" e)
  | Ok s => match first_mount s.1 with Some p => Ok p | None => scan_end s end
  end.

(** [strings.SplitN(line, ":", 3)] with three parts, the first two ["0"] and
    empty. *)
Definition unified_path (line : string) : option string :=
  match cut [":"%char] (list_of_string line) with
  | None => None
  | Some (a, rest) =>
      match cut [":"%char] rest with
      | None => None
      | Some (b, c) => if decide (a = list_of_string "0" /\ b = []) then Some (TrimSpace (string_of_list c)) else None
      end
  end.
Fixpoint first_unified (lines : list string) : option string :=
  match lines with
  | [] => None
  | l :: ls => match unified_path l with Some p => Some p | None => first_unified ls end
  end.
Definition parseCgroupReader (s : Scan) : res string :=
  match first_unified s.1 with Some p => Ok p | None => scan_end s end.

Definition cgroupPathForPID (mountinfo proc_cgroup : res Scan) : res string :=
  match proc_cgroup with
  | Err e => Err (Wrapf "open /proc/<pid>/cgroup" e)
  | Ok s => match parseCgroupReader s with
            | Err e => Err e
            | Ok rel => match cgroupV2Root mountinfo with
                        | Err e => Err e
                        | Ok root => Ok (Join [root; rel])
                        end
            end
  end.

Inductive stat_result : Type := Ino (n : Z) | NotExist | StatError (e : error).

Definition cgroupIDForPath (stat : string -> stat_result) (path : string) : res Z :=
  match stat path with
  | Ino n => Ok n
  | NotExist => Err (Wrapf "resolved path does not exist" ErrCgroupV2Required)
  | StatError e => Err (Wrapf "stat" e)
  end.

(** The cgroup directories that exist, with their inodes. *)
Notation Tree := (gmap string Z).
Definition tree_stat (t : Tree) (p : string) : stat_result := match t !! p with Some n => Ino n | None => NotExist end.

(** [MkdirAll] below an existing root, and [Mkdir] with [ErrExist] accepted.
    [mkdir] says whether creating a directory succeeds, and its inode. *)
Definition make_dir (mkdir : string -> res Z) (p : string) : M Tree unit := fun t =>
  match t !! p with
  | Some _ => (Ok tt, t)
  | None => match mkdir p with Ok n => (Ok tt, <[p := n]> t) | Err e => (Err (Wrapf "mkdir" e), t) end
  end.

Definition CreateParentCgroup (mountinfo : res Scan) (mkdir : string -> res Z) (runIDHex : string) :
    M Tree (string * string * Z) := fun t =>
  match cgroupV2Root mountinfo with
  | Err e => (Err e, t)
  | Ok root =>
      match make_dir mkdir (Join [root; "fangs"]) t with
      | (Err e, t) => (Err e, t)
      | (Ok _, t) =>
          let abs := Join [root; "fangs"; runIDHex] in
          match make_dir mkdir abs t with
          | (Err e, t) => (Err e, t)
          | (Ok _, t) =>
              match cgroupIDForPath (tree_stat t) abs with
              | Ok id => (Ok ("/fangs/" +:+ runIDHex, abs, id), t)
              | Err e => (Err e, delete abs t)
              end
          end
      end
  end.

(** [busy] is the kernel's refusal while children exist. *)
Definition RemoveParentCgroup (busy : bool) (absPath : string) : M Tree unit := fun t =>
  if busy then (Err (Errorf "device or resource busy"), t)
  else match t !! absPath with
       | Some _ => (Ok tt, delete absPath t)
       | None => (Err (Errorf "no such file or directory"), t)
       end.

(** ** Paths

    A cleaned absolute path is a list of elements, each a name. *)
Definition is_name (e : string) : Prop := free_of "/"%char e /\ e <> "" /\ e <> "." /\ e <> "..".
Fixpoint path_of (es : list string) : string := match es with [] => "" | e :: es => "/" +:+ e +:+ path_of es end.

Lemma path_of_app es fs : path_of (es ++ fs) = path_of es +:+ path_of fs.
Proof. induction es as [|e es IH]; [done|]. simpl. by rewrite IH, !string_app_assoc. Qed.

Lemma split_on_word c l w : Forall (fun x => x <> c) l -> split_on c l w = [w ++ l].
Proof.
  revert w. induction l as [|x l IH]; intros w H; simpl; [by rewrite app_nil_r|].
  apply Forall_cons in H as [Hx H]. destruct (Ascii.eqb_spec x c); [done|]. by rewrite IH, <- app_assoc.
Qed.
Lemma split_on_app c l k w : Forall (fun x => x <> c) l -> split_on c (l ++ c :: k) w = (w ++ l) :: split_on c k [].
Proof.
  revert w. induction l as [|x l IH]; intros w H; simpl; [by rewrite Ascii.eqb_refl, app_nil_r|].
  apply Forall_cons in H as [Hx H]. destruct (Ascii.eqb_spec x c); [done|]. by rewrite IH, <- app_assoc.
Qed.

Lemma split_path es e :
  Forall is_name (e :: es) -> split_on "/"%char (list_of_string (e +:+ path_of es)) [] = list_of_string <$> e :: es.
Proof.
  revert e. induction es as [|f es IH]; intros e [[Hf _] H]%Forall_cons; simpl.
  - rewrite string_app_nil_r. by apply split_on_word.
  - rewrite list_of_string_app. simpl. rewrite split_on_app by done. f_equal. by apply IH.
Qed.

Lemma clean_elems_names es stack :
  Forall is_name es -> clean_elems true (list_of_string <$> es) stack = reverse stack ++ (list_of_string <$> es).
Proof.
  revert stack. induction es as [|e es IH]; intros stack H; simpl; [by rewrite app_nil_r|].
  apply Forall_cons in H as [(_ & H1 & H2 & H3) H].
  assert (forall k, list_of_string e = list_of_string k -> e = k) as Hinj by (intros k; apply list_of_string_inj).
  rewrite decide_False by (intros [?|?]; [by apply (Hinj "") in H0 || (apply H1, (Hinj ""); assumption)|by apply H2, Hinj]).
  rewrite decide_False by (intros ?; by apply H3, Hinj).
  rewrite IH by done. by rewrite reverse_cons, <- app_assoc.
Qed.

(** The join of [Clean]. *)
Lemma join_names es e :
  Forall is_name (e :: es) ->
  foldr (fun p acc => match acc with [] => p | _ => p ++ "/"%char :: acc end) [] (list_of_string <$> e :: es) =
  list_of_string (e +:+ path_of es).
Proof.
  revert e. induction es as [|f es IH]; intros e [_ H]%Forall_cons.
  - simpl. by rewrite string_app_nil_r.
  - specialize (IH f H). cbn [foldr fmap list_fmap path_of] in IH |- *. rewrite IH.
    rewrite !list_of_string_app. apply Forall_cons in H as [(_ & Hf & _) _].
    destruct f as [|c f]; [done|]. done.
Qed.

Lemma Clean_path e es : Forall is_name (e :: es) -> Clean (path_of (e :: es)) = path_of (e :: es).
Proof.
  intros H. unfold Clean.
  assert (list_of_string (path_of (e :: es)) = "/"%char :: list_of_string (e +:+ path_of es)) as -> by done.
  cbv beta iota zeta. cbn [split_on Ascii.eqb Bool.eqb].
  rewrite split_path by done. cbn [clean_elems].
  rewrite decide_True by (by left). rewrite clean_elems_names by done.
  rewrite reverse_nil, app_nil_l, (join_names es e H).
  transitivity (String "/"%char (string_of_list (list_of_string (e +:+ path_of es)))); [done|].
  by rewrite string_of_list_of_string.
Qed.

Lemma Join_parent r es e :
  Forall is_name (r :: es ++ [e]) -> Join [path_of (r :: es); e] = path_of (r :: es) +:+ "/" +:+ e.
Proof.
  intros H. pose proof (Clean_path r (es ++ [e]) H) as E.
  change (r :: es ++ [e]) with ((r :: es) ++ [e]) in E, H. rewrite path_of_app in E.
  change (path_of [e]) with ("/" +:+ e +:+ "") in E. rewrite string_app_nil_r in E.
  apply Forall_app in H as [_ [(_ & He & _) _]%Forall_cons].
  unfold Join. rewrite filter_all; [exact E|]. repeat constructor; [done|done].
Qed.

(** ** The cgroup of a process *)

(** A line of /proc/<pid>/cgroup: "hierarchy-id:controllers:path". *)
Definition render_cgroup (l : string * string * string) : string :=
  l.1.1 +:+ ":" +:+ l.1.2 +:+ ":" +:+ l.2.

Lemma cut_char c l k : Forall (fun x => x <> c) l -> cut [c] (l ++ c :: k) = Some (l, k).
Proof.
  induction l as [|x l IH]; intros H; simpl.
  - rewrite bool_decide_true; [by rewrite drop_0|done].
  - apply Forall_cons in H as [Hx H]. rewrite bool_decide_false by (intros [=]; done). by rewrite IH.
Qed.

Lemma unified_path_render l :
  free_of ":"%char l.1.1 -> free_of ":"%char l.1.2 ->
  unified_path (render_cgroup l) = if decide (l.1 = ("0", "")) then Some (TrimSpace l.2) else None.
Proof.
  destruct l as [[a b] p]. intros Ha Hb. cbn [fst snd] in *. unfold unified_path, render_cgroup.
  assert (list_of_string (a +:+ ":" +:+ b +:+ ":" +:+ p) =
          list_of_string a ++ ":"%char :: list_of_string b ++ ":"%char :: list_of_string p) as E.
  { rewrite list_of_string_app. f_equal. apply (f_equal (cons _)).
    change (list_of_string (b +:+ ":" +:+ p) = list_of_string b ++ ":"%char :: list_of_string p).
    by rewrite list_of_string_app. }
  cbn [fst snd]. rewrite E, cut_char, cut_char by done. rewrite string_of_list_of_string.
  case_decide as H; case_decide as H0; try done; exfalso.
  - destruct H as [H1 H2]. apply H0. f_equal; by apply list_of_string_inj.
  - apply H. by simplify_eq.
Qed.

(** The cgroup a process is placed in is read back from the kernel's file exactly: the
    path of the first line of hierarchy 0 without controllers, white space trimmed; without
    one, the error the scan ended with, or [ErrCgroupV2Required]. *)
Theorem parseCgroupReader_render (ls : list (string * string * string)) err :
  Forall (fun l => free_of ":"%char l.1.1 /\ free_of ":"%char l.1.2) ls ->
  parseCgroupReader (render_cgroup <$> ls, err) =
    match filter (fun l => l.1 = ("0", "")) ls with
    | l :: _ => Ok (TrimSpace l.2)
    | [] => match err with Some e => Err e | None => Err ErrCgroupV2Required end
    end.
Proof.
  intros H. unfold parseCgroupReader. cbn [fst].
  enough (first_unified (render_cgroup <$> ls) = (fun l => TrimSpace l.2) <$> head (filter (fun l => l.1 = ("0", "")) ls)) as ->.
  { by destruct (filter _ ls). }
  induction H as [|l ls [Ha Hb] _ IH]; [done|]. cbn [fmap list_fmap first_unified].
  rewrite unified_path_render, filter_cons by done. by repeat case_decide.
Qed.

Lemma parseCgroupReader_render_witness :
  parseCgroupReader (["12:pids:/user.slice"; "1:name=systemd:/init"; "0::/system.slice/docker-01.scope "], None) =
  Ok "/system.slice/docker-01.scope".
Proof.
  apply (parseCgroupReader_render [("12", "pids", "/user.slice"); ("1", "name=systemd", "/init");
    ("0", "", "/system.slice/docker-01.scope ")]). repeat constructor; discriminate.
Defined.

(** ** The parent cgroup of a run *)
Section parent.
Context (mkdir : string -> res Z) (r : string) (es : list string) (hex : string) (mountinfo : res Scan).
Context (Hroot : cgroupV2Root mountinfo = Ok (path_of (r :: es))) (Hnames : Forall is_name (r :: es)) (Hhex : is_name hex).
Let root : string := path_of (r :: es).
Let fangs : string := root +:+ "/fangs".
Let abs : string := root +:+ "/fangs/" +:+ hex.

Lemma Join_fangs : Join [root; "fangs"] = fangs.
Proof.
  apply Join_parent. apply Forall_cons in Hnames as [? ?]. apply Forall_cons. split; [done|].
  apply Forall_app. split; [done|]. repeat constructor; discriminate.
Qed.
Lemma Join_abs : Join [root; "fangs"; hex] = abs.
Proof.
  transitivity (Join [path_of (r :: es ++ ["fangs"]); hex]).
  - unfold Join. rewrite !filter_all; [|repeat constructor; try discriminate..].
    + cbn [foldl]. f_equal. change (r :: es ++ ["fangs"]) with ((r :: es) ++ ["fangs"]). rewrite path_of_app. done.
    + by destruct Hhex as (_ & ? & _).
    + by destruct Hhex as (_ & ? & _).
  - rewrite Join_parent.
    + change (r :: es ++ ["fangs"]) with ((r :: es) ++ ["fangs"]). rewrite path_of_app, string_app_assoc. done.
    + apply Forall_cons in Hnames as [? ?]. apply Forall_cons. split; [done|].
      repeat (apply Forall_app; split); [done|repeat constructor; discriminate|by constructor].
Qed.

Lemma make_dir_spec p t : exists res t',
  make_dir mkdir p t = (res, t') /\ (forall q, q <> p -> t' !! q = t !! q) /\
  match res with
  | Ok _ => exists n, t' !! p = Some n /\ (is_Some (t !! p) -> t' !! p = t !! p)
  | Err _ => t' = t
  end.
Proof.
  unfold make_dir. destruct (t !! p) as [n|] eqn:E; [by exists (Ok tt), t; eauto|].
  destruct (mkdir p) as [n|e]; [|by eauto 6]. exists (Ok tt), (<[p:=n]> t). split_and_all; [done| |].
  - intros q Hq. by rewrite lookup_insert_ne.
  - exists n. rewrite lookup_insert_eq. split; [done|]. by intros [].
Qed.

Lemma CreateParentCgroup_outcome t res t' :
  CreateParentCgroup mountinfo mkdir hex t = (res, t') ->
  (forall p, p <> fangs -> p <> abs -> t' !! p = t !! p) /\
  match res with
  | Ok (rel, path, id) =>
      path = abs /\ rel = "/fangs/" +:+ hex /\ t' !! abs = Some id /\ (forall n, t !! abs = Some n -> id = n)
  | Err _ => t' !! abs = t !! abs
  end.
Proof.
  unfold CreateParentCgroup. rewrite Hroot. fold root. rewrite Join_fangs, Join_abs.
  assert (abs <> fangs) as Hne.
  { unfold abs, fangs. intros E. apply (f_equal String.length) in E. rewrite !length_string_app in E. simpl in E. lia. }
  destruct (make_dir_spec fangs t) as (r1 & t1 & -> & Ho1 & _).
  destruct r1 as [[]|e]; [|intros [= <- <-]; auto].
  destruct (make_dir_spec abs t1) as (r2 & t2 & -> & Ho2 & Hr2).
  rewrite (Ho1 abs Hne) in Hr2. assert (forall p, p <> fangs -> p <> abs -> t2 !! p = t !! p) as Ho.
  { intros p H1 H2. by rewrite Ho2, Ho1. }
  destruct r2 as [[]|e]; [|intros [= <- <-]; split; [done|rewrite Hr2; by apply Ho1]].
  destruct Hr2 as (n & Hn & Hold). unfold cgroupIDForPath, tree_stat. rewrite Hn. intros [= <- <-].
  split; [done|]. split_and_all; [done..|].
  intros m Hm. rewrite Hold in Hn by eauto. congruence.
Qed.

(** A run's parent cgroup: [CreateParentCgroup] hands Docker a path that, under the
    mounted hierarchy, is the directory whose inode it returns for the sensor; an existing
    directory is reused with its own inode; nothing else of the tree changes but the shared
    fangs directory; on an error no directory of the run exists that did not before; and
    [RemoveParentCgroup], once the kernel lets go, leaves no directory of the run. *)
Theorem CreateParentCgroup_lifecycle t res t' :
  CreateParentCgroup mountinfo mkdir hex t = (res, t') ->
  (forall p, p <> fangs -> p <> abs -> t' !! p = t !! p) /\
  match res with
  | Ok (rel, path, id) =>
      path = abs /\ rel = "/fangs/" +:+ hex /\ path = root +:+ rel /\ t' !! path = Some id /\
      (forall n, t !! abs = Some n -> id = n) /\
      RemoveParentCgroup false path t' = (Ok tt, delete abs t')
  | Err _ => t' !! abs = t !! abs
  end.
Proof.
  intros H. destruct (CreateParentCgroup_outcome _ _ _ H) as [Ho Hr]. split; [done|].
  destruct res as [[[rel path] id]|e]; [|done]. destruct Hr as (-> & -> & Hid & Hold).
  split_and_all; [done..|]. unfold RemoveParentCgroup. by rewrite Hid.
Qed.
End parent.

Definition wit_mountinfo : res Scan :=
  Ok (["24 1 0:21 / /proc rw - proc proc rw"; "25 1 0:22 / /sys/fs/cgroup rw - cgroup2 cgroup2 rw"], None).

Lemma CreateParentCgroup_lifecycle_witness : exists t',
  CreateParentCgroup wit_mountinfo (fun _ => Ok 7%Z) "ab12" ∅ =
    (Ok ("/fangs/ab12", "/sys/fs/cgroup/fangs/ab12", 7%Z), t') /\
  RemoveParentCgroup false "/sys/fs/cgroup/fangs/ab12" t' = (Ok tt, delete "/sys/fs/cgroup/fangs/ab12" t').
Proof.
  exists (CreateParentCgroup wit_mountinfo (fun _ => Ok 7%Z) "ab12" ∅).2.
  assert (E : CreateParentCgroup wit_mountinfo (fun _ => Ok 7%Z) "ab12" ∅ =
    (Ok ("/fangs/ab12", "/sys/fs/cgroup/fangs/ab12", 7%Z), (CreateParentCgroup wit_mountinfo (fun _ => Ok 7%Z) "ab12" ∅).2))
    by (vm_compute; reflexivity).
  split; [exact E|].
  destruct (CreateParentCgroup_lifecycle (fun _ => Ok 7%Z) "sys" ["fs"; "cgroup"] "ab12" wit_mountinfo
    eq_refl ltac:(repeat constructor; discriminate) ltac:(repeat split; try discriminate; repeat constructor; discriminate)
    ∅ _ _ E) as [_ (_ & _ & _ & _ & _ & H)]. exact H.
Defined.

End Sandbox.
