(* ===== verification/Docker.v ===== *)
(** * sandbox: the Docker driver

    internal/runner/sandbox/docker.go.  Each method of the driver is a
    computation over the exchange with the daemon so far; the daemon, the
    per-poll view of /proc and stat and the timelines of the two polling loops
    are arguments.  An empty command and a nil one are not told apart.  [Launch] is the whole method, the removals on its
    error paths included. *)
From Stdlib Require Import Ascii.
From stdpp Require Import prelude strings gmap list.
From S2P Require Import Prelude GoTime Json Proto Sandbox.

Module Docker.
Import Sandbox.Sandbox.

(** ** The Engine API *)
Inductive Endpoint : Type :=
  | ImagesCreate (fromImage tag : string)
  | ImageInspect (image : string)
  | ContainersCreate
  | ContainerStart (id : string)
  | ContainerInspect (id : string)
  | ContainerWait (id : string)
  | ContainerStop (id : string) (seconds : Z)
  | ContainerDelete (id : string) (force : bool).

Record Call : Type := mkCall { c_endpoint : Endpoint; c_body : option json }.
Record Reply : Type := mkReply { r_status : Z; r_body : jdata }.
Definition Exchange : Type := list (Call * res Reply).

(** ** Payloads *)
Definition envSlice (env : list (string * string)) : json :=
  match env with [] => JNull | _ => JArr ((fun kv => JStr (kv.1 +:+ "=" +:+ kv.2)) <$> env) end.

Definition ulimit (name : string) (soft hard : Z) : json :=
  JObj [("Name", JStr name); ("Soft", JNum soft); ("Hard", JNum hard)].

Definition strings (l : list string) : json := match l with [] => JNull | _ => JArr (JStr <$> l) end.

Definition buildCreatePayload (spec : SandboxSpec) (digestRef : string) : json :=
  JObj [("Image", JStr (if decide (digestRef = "") then sb_Image spec else digestRef));
        ("User", JStr (sb_User spec)); ("WorkingDir", JStr (sb_WorkingDir spec));
        ("Env", envSlice (sb_Env spec)); ("Cmd", strings (sb_Command spec));
        ("Labels", JObj [("io.fangs.role", JStr "sandbox")]);
        ("HostConfig", JObj
          [("CapDrop", JArr [JStr "ALL"]); ("SecurityOpt", JArr [JStr "no-new-privileges:true"]);
           ("NetworkMode", JStr (sb_NetworkMode spec));
           ("PidMode", JStr ""); ("IpcMode", JStr ""); ("UTSMode", JStr "");
           ("Memory", JNum (sb_MemoryBytes spec)); ("NanoCpus", JNum (sb_NanoCPUs spec));
           ("PidsLimit", JNum (sb_PidsLimit spec)); ("CgroupParent", JStr (sb_CgroupParent spec));
           ("Ulimits", JArr [ulimit "nofile" 1024 2048; ulimit "nproc" 256 256; ulimit "fsize" 268435456 268435456]);
           ("Tmpfs", JObj [("/tmp", JStr "rw,nosuid,nodev,noexec,size=256m"); ("/run", JStr "rw,nosuid,nodev,size=16m")]);
           ("LogConfig", JObj [("Type", JStr "json-file");
                               ("Config", JObj [("max-size", JStr "10m"); ("max-file", JStr "3")])]);
           ("RestartPolicy", JObj [("Name", JStr "no")])])].

Definition splitImageTag (image : string) : string * string :=
  match LastIndexByte image "@"%char with
  | Some i => (slice_to image i, "")
  | None =>
      let slash := LastIndexByte image "/"%char in
      match LastIndexByte image ":"%char with
      | Some colon =>
          if match slash with Some s => s <? colon | None => true end
          then (slice_to image colon, slice_from image (colon + 1)) else (image, "latest")
      | None => (image, "latest")
      end
  end.

(** ** Decoding replies *)
Definition conv_strings (j : json) (old : list string) : option (list string) :=
  match j with
  | JArr l => mapM (fun x => conv_string x "") l
  | JNull => Some []
  | _ => None
  end.
Definition decode_error : error := Errorf "json: cannot decode".

Definition decode_image (d : jdata) : res (string * list string) :=
  match unmarshal_object d with
  | None => Err decode_error
  | Some o => match unmarshal_field "Id" conv_string "" o, unmarshal_field "RepoDigests" conv_strings [] o with
              | Some id, Some ds => Ok (id, ds)
              | _, _ => Err decode_error
              end
  end.
Definition decode_created (d : jdata) : res string :=
  match unmarshal_object d with
  | None => Err decode_error
  | Some o => match unmarshal_field "Id" conv_string "" o, unmarshal_field "Warnings" conv_strings [] o with
              | Some id, Some _ => Ok id
              | _, _ => Err decode_error
              end
  end.
Definition conv_state (j : json) (old : Z * string) : option (Z * string) :=
  match j with
  | JObj o => match unmarshal_field "Pid" (conv_int (- 2 ^ 63) (2 ^ 63 - 1)) old.1 o,
                    unmarshal_field "Status" conv_string old.2 o with
              | Some p, Some s => Some (p, s)
              | _, _ => None
              end
  | JNull => Some old
  | _ => None
  end.
Definition decode_state (d : jdata) : res (Z * string) :=
  match unmarshal_object d with
  | None => Err decode_error
  | Some o => match unmarshal_field "State" conv_state (0%Z, "") o with Some s => Ok s | None => Err decode_error end
  end.

(** ** The driver *)
Section driver.
Context (daemon : Exchange -> Call -> res Reply).       (* third party *)
Context (unreachable : error -> bool).                  (* the text of a dial error *)

Definition perform (e : Endpoint) (body : option json) (accepted : list Z) : M Exchange jdata := fun x =>
  let c := mkCall e body in
  let r := daemon x c in
  let x' := x ++ [(c, r)] in
  match r with
  | Err err => (Err (if unreachable err then Wrapf "dial" ErrDaemonUnreachable else err), x')
  | Ok rep =>
      if decide (r_status rep ∈ match accepted with [] => [200%Z] | _ => accepted end) then (Ok (r_body rep), x')
      else (Err (Errorf "docker API returned an error status"), x')
  end.

Definition imageExists (image : string) : M Exchange bool := fun x =>
  let '(r, x') := perform (ImageInspect image) None [] x in (Ok (is_Ok r), x').

Definition pullIfNeeded (image policy : string) : M Exchange unit :=
  let pull := let '(fromImage, tag) := splitImageTag image in
              _ ← perform (ImagesCreate fromImage tag) None []; mret tt in
  if decide (policy = "never") then mret tt
  else if decide (policy = "missing") then
    there ← imageExists image; if there : bool then mret tt else pull
  else if decide (policy = "always") then pull
  else fail (Errorf "unknown PullPolicy").

Definition pick_digest (repo : string) (id : string) (digests : list string) : string :=
  match digests with
  | [] => id
  | d :: _ => match filter (fun rd => HasPrefix rd (repo +:+ "@") = true) digests with rd :: _ => rd | [] => d end
  end.

Definition resolveDigest (image : string) : M Exchange string := fun x =>
  match perform (ImageInspect image) None [] x with
  | (Err e, x') => (Err e, x')
  | (Ok d, x') => (match decode_image d with
                   | Ok (id, ds) => Ok (pick_digest (splitImageTag image).1 id ds)
                   | Err e => Err e
                   end, x')
  end.

Definition createContainer (body : json) : M Exchange string := fun x =>
  match perform ContainersCreate (Some body) [201%Z] x with
  | (Err e, x') => (Err e, x')
  | (Ok d, x') => (decode_created d, x')
  end.

Definition startContainer (id : string) : M Exchange unit :=
  _ ← perform (ContainerStart id) None [204%Z; 304%Z]; mret tt.
Definition stopContainer (id : string) (timeout : duration) : M Exchange unit :=
  _ ← perform (ContainerStop id (timeout / Second)%Z) None [204%Z; 304%Z]; mret tt.
Definition removeContainer (id : string) (force : bool) : M Exchange unit :=
  _ ← perform (ContainerDelete id force) None [204%Z; 404%Z]; mret tt.

Definition inspectPID (id : string) : M Exchange (Z * string) := fun x =>
  match perform (ContainerInspect id) None [] x with
  | (Err e, x') => (Err e, x')
  | (Ok d, x') => (decode_state d, x')
  end.

(** ** Polling *)

(** What a polling loop sees of time: the clock when it starts ([now 0]) and at
    poll [i] ([now (S i)]), and the context's error when poll [i] ends with the
    context done instead of after 5 ms. *)
Record Timeline : Type := mkTimeline { now : nat -> time; done : nat -> option error }.

(** [None]: the fuel ran out. *)
Fixpoint waitForRunning_from (tl : Timeline) (fuel i : nat) (id : string) (deadline : time) (x : Exchange) :
    option (res Z * Exchange) :=
  match fuel with
  | O => None
  | S f =>
      match inspectPID id x with
      | (Err e, x') => Some (Err e, x')
      | (Ok (pid, status), x') =>
          if decide ((0 < pid)%Z /\ status = "running") then Some (Ok pid, x')
          else if decide (status ∈ ["exited"; "dead"]) then Some (Err (Errorf "container exited before running"), x')
          else if (deadline <? now tl (S i))%Z then Some (Err (Wrapf "status" ErrLaunchTimeout), x')
          else match done tl i with
               | Some e => Some (Err e, x')
               | None => waitForRunning_from tl f (S i) id deadline x'
               end
      end
  end.
Definition waitForRunning (tl : Timeline) (fuel : nat) (id : string) (timeout : duration) (x : Exchange) :
    option (res Z * Exchange) :=
  waitForRunning_from tl fuel 0 id (now tl 0 + timeout)%Z x.

Context (mountinfo : res Scan) (proc_cgroup : Z -> nat -> res Scan) (stat : nat -> string -> stat_result).

(** One look at where the process is. *)
Definition placed (pid : Z) (i : nat) : option (string * Z) :=
  match cgroupPathForPID mountinfo (proc_cgroup pid i) with
  | Ok path =>
      if bool_decide (path <> "") && negb (HasSuffix path "/sys/fs/cgroup") then
        match cgroupIDForPath (stat i) path with Ok id => Some (path, id) | Err _ => None end
      else None
  | Err _ => None
  end.

Fixpoint stableCgroup_from (tl : Timeline) (fuel i : nat) (pid : Z) (deadline : time) : option (res (string * Z)) :=
  match fuel with
  | O => None
  | S f =>
      match placed pid i with
      | Some p => Some (Ok p)
      | None =>
          if (deadline <? now tl (S i))%Z then Some (Err (Errorf "cgroup placement did not stabilize"))
          else match done tl i with Some e => Some (Err e) | None => stableCgroup_from tl f (S i) pid deadline end
      end
  end.
Definition stableCgroup (tl : Timeline) (fuel : nat) (pid : Z) (timeout : duration) : option (res (string * Z)) :=
  stableCgroup_from tl fuel 0 pid (now tl 0 + timeout)%Z.

Record Handle : Type := mkHandle {
  h_containerID : string; h_cgroupID : Z; h_cgroupPath : string; h_imageDigest : string; h_spec : SandboxSpec
}.

(** Logging slices the container id to 12 characters, a panic for less. *)
Inductive outcome : Type := Returned (r : res Handle) | Panicked.

Definition forbidden_network (mode : string) : bool := EqualFold mode "host".

(** Give up on a created container: remove it, whatever comes of it. *)
Definition abandon (id : string) (e : error) (x : Exchange) : outcome * Exchange :=
  (Returned (Err e), (removeContainer id true x).2).

(** The timelines of [Launch]'s two polling loops. *)
Context (running_tl placed_tl : Timeline).

(** From the created container on. *)
Definition launch_created (fuel : nat) (filled : SandboxSpec) (digest id : string) (x : Exchange) :
    option (outcome * Exchange) :=
  match startContainer id x with
  | (Err e, x) => Some (abandon id (Wrapf "start container" e) x)
  | (Ok _, x) =>
      match waitForRunning running_tl fuel id (10 * Second)%Z x with
      | None => None
      | Some (Err e, x) => Some (abandon id (Wrapf "resolve container PID" e) x)
      | Some (Ok pid, x) =>
          match stableCgroup placed_tl fuel pid (5 * Second)%Z with
          | None => None
          | Some (Err e) => Some (abandon id (Wrapf "resolve cgroup" e) x)
          | Some (Ok (path, cg)) =>
              Some (if String.length id <? 12 then Panicked else Returned (Ok (mkHandle id cg path digest filled)), x)
          end
      end
  end.

Definition Launch (fuel : nat) (spec : SandboxSpec) (x : Exchange) : option (outcome * Exchange) :=
  if decide (sb_Image spec = "") then Some (Returned (Err ErrImageRequired), x)
  else if forbidden_network (sb_NetworkMode spec) then Some (Returned (Err (Errorf "sandbox: NetworkMode forbidden")), x)
  else
    let filled := FilledSpec spec in
    match pullIfNeeded (sb_Image filled) (sb_PullPolicy filled) x with
    | (Err e, x) => Some (Returned (Err (Wrapf "pull image" e)), x)
    | (Ok _, x) =>
        let '(d, x) := resolveDigest (sb_Image filled) x in
        let digest := match d with Ok s => s | Err _ => "" end in
        match createContainer (buildCreatePayload filled digest) x with
        | (Err e, x) => Some (Returned (Err (Wrapf "create container" e)), x)
        | (Ok id, x) => launch_created fuel filled digest id x
        end
    end.

(** [runWait]'s result, delivered once on the handle's channel. *)
Record WaitResult : Type := mkWaitResult { w_ExitCode : Z; w_Err : option error }.

Definition conv_wait_error (j : json) (old : option string) : option (option string) :=
  match j with
  | JNull => Some None
  | JObj o => Some <$> unmarshal_field "Message" conv_string (default "" old) o
  | _ => None
  end.
Definition decode_wait (d : jdata) : res WaitResult :=
  match unmarshal_object d with
  | None => Err decode_error
  | Some o => match unmarshal_field "StatusCode" (conv_int (- 2 ^ 63) (2 ^ 63 - 1)) 0%Z o,
                    unmarshal_field "Error" conv_wait_error None o with
              | Some code, Some msg => Ok (mkWaitResult code ((fun m => Errorf ("container error: " +:+ m)) <$> msg))
              | _, _ => Err decode_error
              end
  end.

Definition waitContainer (id : string) : M Exchange WaitResult := fun x =>
  match perform (ContainerWait id) None [] x with
  | (Err e, x) => (Err e, x)
  | (Ok d, x) => match decode_wait d with
                 | Err e => (Err e, x)
                 | Ok w => (Ok w, (inspectPID id x).2)
                 end
  end.
Definition runWait (h : Handle) (x : Exchange) : WaitResult * Exchange :=
  match waitContainer (h_containerID h) x with
  | (Err e, x) => (mkWaitResult 0 (Some e), x)
  | (Ok w, x) => (w, x)
  end.

(** [Stop] after a failed stop logs twelve characters of the id. *)
Definition Stop (h : Handle) : M Exchange unit := fun x =>
  let '(_, x) := stopContainer (h_containerID h) DefaultStopTimeout x in
  removeContainer (h_containerID h) true x.
End driver.

(** ** Image references *)
Lemma splitImageTag_tag repo tag :
  free_of "@"%char repo -> free_of "@"%char tag -> free_of ":"%char tag -> free_of "/"%char tag ->
  splitImageTag (repo +:+ String ":"%char tag) = (repo, tag).
Proof.
  intros Ha Ht Hc Hs. unfold splitImageTag.
  rewrite LastIndexByte_None by (apply free_of_app; split; [done|by constructor]).
  rewrite LastIndexByte_last, LastIndexByte_app_free by (done || by constructor).
  assert ((if LastIndexByte repo "/"%char is Some s then s <? String.length repo else true) = true) as ->.
  { case_match eqn:E; [|done]. apply Nat.ltb_lt. by eapply LastIndexByte_lt. }
  rewrite slice_to_app. f_equal.
  replace (String.length repo + 1) with (String.length (repo +:+ ":")) by (rewrite length_string_app; done).
  replace (repo +:+ String ":"%char tag) with ((repo +:+ ":") +:+ tag) by (by rewrite string_app_assoc).
  apply slice_from_app.
Qed.

(** An image reference is split the way the daemon's API needs it: a tag is what follows
    the last colon of the last path component, the colon of a registry's port is not one, a
    reference without a tag gets "latest", and a digest strips to the repository with an empty
    tag. *)
Theorem splitImageTag_spec registry name tag digest :
  free_of "@"%char registry -> Forall (fun c => c <> "@"%char /\ c <> ":"%char /\ c <> "/"%char) (list_of_string name) ->
  Forall (fun c => c <> "@"%char /\ c <> ":"%char /\ c <> "/"%char) (list_of_string tag) ->
  free_of "@"%char digest ->
  let repo := registry +:+ String "/"%char name in
  splitImageTag (repo +:+ String ":"%char tag) = (repo, tag) /\
  splitImageTag repo = (repo, "latest") /\
  splitImageTag name = (name, "latest") /\
  splitImageTag (repo +:+ String "@"%char digest) = (repo, "").
Proof.
  intros Hr Hn Ht Hd repo.
  assert (forall c (s : string) (P : ascii -> Prop), Forall P (list_of_string s) -> (forall x, P x -> x <> c) -> free_of c s)
    as Hfree by (intros; by eapply Forall_impl).
  assert (free_of "@"%char name) by (by apply (Hfree _ _ _ Hn); intros ? (?&?&?)).
  assert (free_of ":"%char name) by (by apply (Hfree _ _ _ Hn); intros ? (?&?&?)).
  assert (free_of "/"%char name) by (by apply (Hfree _ _ _ Hn); intros ? (?&?&?)).
  assert (Ha : free_of "@"%char repo) by (apply free_of_app; split; [done|by constructor]).
  split_and_all.
  - apply splitImageTag_tag; [done|by apply (Hfree _ _ _ Ht); intros ? (?&?&?)..].
  - unfold splitImageTag. rewrite LastIndexByte_None by done. unfold repo.
    rewrite LastIndexByte_last, LastIndexByte_app_free by (done || by constructor).
    case_match eqn:E; [|done]. apply LastIndexByte_lt in E.
    destruct (Nat.ltb_spec (String.length registry) n); [lia|done].
  - unfold splitImageTag. by rewrite !LastIndexByte_None.
  - unfold splitImageTag. rewrite LastIndexByte_last by done. by rewrite slice_to_app.
Qed.

Lemma splitImageTag_spec_witness :
  splitImageTag "registry.local:5000/img:1.2" = ("registry.local:5000/img", "1.2") /\
  splitImageTag "registry.local:5000/img" = ("registry.local:5000/img", "latest") /\
  splitImageTag "img" = ("img", "latest") /\
  splitImageTag "registry.local:5000/img@sha256:00" = ("registry.local:5000/img", "").
Proof.
  apply (splitImageTag_spec "registry.local:5000" "img" "1.2" "sha256:00");
    repeat constructor; discriminate.
Defined.

(** ** Traces

    The calls that change which containers exist, in order. *)
Inductive Action : Type :=
  | Create (body : option json) (id : option string)     (* [None]: not created, or no id in the reply *)
  | Start (id : string)
  | StopC (id : string)
  | Remove (id : string) (force : bool).

Definition action_of (p : Call * res Reply) : option Action :=
  match c_endpoint p.1 with
  | ContainersCreate =>
      Some (Create (c_body p.1)
        match p.2 with
        | Ok rep => if decide (r_status rep = 201%Z)
                    then match decode_created (r_body rep) with Ok id => Some id | Err _ => None end else None
        | Err _ => None
        end)
  | ContainerStart id => Some (Start id)
  | ContainerStop id _ => Some (StopC id)
  | ContainerDelete id force => Some (Remove id force)
  | _ => None
  end.
Definition actions (t : Exchange) : list Action := omap action_of t.

Lemma actions_app t u : actions (t ++ u) = actions t ++ actions u.
Proof. apply omap_app. Qed.

(** A computation over the exchange appends calls satisfying [Q]. *)
Definition emits {A} (m : M Exchange A) (Q : res A -> list Action -> Prop) : Prop :=
  forall x, exists t, (m x).2 = x ++ t /\ Q (m x).1 (actions t).

Section rules.
Context (daemon : Exchange -> Call -> res Reply) (unreachable : error -> bool).

Lemma emits_weaken {A} (m : M Exchange A) (P Q : res A -> list Action -> Prop) :
  emits m P -> (forall r t, P r t -> Q r t) -> emits m Q.
Proof. intros HP H x. destruct (HP x) as (t & E & ?). eauto. Qed.

Lemma emits_ret {A} (r : res A) : emits (fun x => (r, x)) (fun r' t => r' = r /\ t = []).
Proof. intros x. exists []. by rewrite app_nil_r. Qed.

Lemma emits_bind {A B} (m : M Exchange A) (f : A -> M Exchange B) P Q :
  emits m P -> (forall a t, P (Ok a) t -> emits (f a) (fun r u => Q r (t ++ u))) ->
  (forall e t, P (Err e) t -> Q (Err e) t) -> emits (m ≫= f) Q.
Proof.
  intros HP HQ HE x. destruct (HP x) as (t & E & H).
  unfold mbind, M_bind. destruct (m x) as [[a|e] x'] eqn:Em; simpl in *; subst.
  - destruct (HQ a (actions t) H (x ++ t)) as (u & Eu & Hu). exists (t ++ u).
    rewrite Eu, app_assoc, actions_app. auto.
  - eauto.
Qed.

(** One call: at most one action, that of its endpoint. *)
Lemma perform_emits e body accepted :
  emits (perform daemon unreachable e body accepted) (fun _ t => exists r, t = actions [(mkCall e body, r)]).
Proof.
  intros x. exists [(mkCall e body, daemon x (mkCall e body))]. unfold perform. split; [by cases|eauto].
Qed.

Definition silent (e : Endpoint) : bool :=
  match e with ImagesCreate _ _ | ImageInspect _ | ContainerInspect _ | ContainerWait _ => true | _ => false end.
Lemma perform_silent e body accepted :
  silent e = true -> emits (perform daemon unreachable e body accepted) (fun _ t => t = []).
Proof.
  intros He. eapply emits_weaken; [apply perform_emits|]. intros _ t [r ->]. by destruct e.
Qed.

Lemma imageExists_emits image : emits (imageExists daemon unreachable image) (fun _ t => t = []).
Proof.
  intros x. destruct (perform_silent (ImageInspect image) None [] eq_refl x) as (t & E & H).
  exists t. unfold imageExists. by destruct (perform _ _ _ _ _ x).
Qed.

Lemma pullIfNeeded_emits image policy :
  emits (pullIfNeeded daemon unreachable image policy) (fun _ t => t = []).
Proof.
  assert (Hret : forall r : res unit, emits (fun x => (r, x)) (fun _ t => t = [])).
  { intros r. eapply emits_weaken; [apply emits_ret|]. by intros ?? [_ ->]. }
  assert (Hp : emits (let '(fromImage, tag) := splitImageTag image in
                      _ ← perform daemon unreachable (ImagesCreate fromImage tag) None []; mret tt)
                 (fun _ t => t = [])).
  { destruct (splitImageTag image) as [from tag].
    eapply emits_bind; [by apply perform_silent| |done]. intros _ ? ->. apply Hret. }
  unfold pullIfNeeded. repeat (case_decide; [apply Hret || apply Hp || idtac|]); [|apply Hret].
  eapply emits_bind; [apply imageExists_emits| |done]. intros [] ? ->; [apply Hret|apply Hp].
Qed.

Lemma resolveDigest_emits image : emits (resolveDigest daemon unreachable image) (fun _ t => t = []).
Proof.
  intros x. destruct (perform_silent (ImageInspect image) None [] eq_refl x) as (t & E & H).
  exists t. unfold resolveDigest. by destruct (perform _ _ _ _ _ x) as [[]].
Qed.

Lemma inspectPID_emits id : emits (inspectPID daemon unreachable id) (fun _ t => t = []).
Proof.
  intros x. destruct (perform_silent (ContainerInspect id) None [] eq_refl x) as (t & E & H).
  exists t. unfold inspectPID. by destruct (perform _ _ _ _ _ x) as [[]].
Qed.

Lemma startContainer_emits id :
  emits (startContainer daemon unreachable id) (fun _ t => t = [Start id]).
Proof.
  eapply emits_bind; [apply perform_emits| |by intros ? ? [r ->]]. intros d t [r ->].
  eapply emits_weaken; [apply emits_ret|]. by intros ?? [_ ->].
Qed.
Lemma stopContainer_emits id d :
  emits (stopContainer daemon unreachable id d) (fun _ t => t = [StopC id]).
Proof.
  eapply emits_bind; [apply perform_emits| |by intros ? ? [r ->]]. intros ? t [r ->].
  eapply emits_weaken; [apply emits_ret|]. by intros ?? [_ ->].
Qed.
Lemma removeContainer_emits id force :
  emits (removeContainer daemon unreachable id force) (fun _ t => t = [Remove id force]).
Proof.
  eapply emits_bind; [apply perform_emits| |by intros ? ? [r ->]]. intros ? t [r ->].
  eapply emits_weaken; [apply emits_ret|]. by intros ?? [_ ->].
Qed.

Lemma createContainer_emits body :
  emits (createContainer daemon unreachable body) (fun r t =>
    t = [Create (Some body) (match r with Ok id => Some id | Err _ => None end)]).
Proof.
  intros x. exists [(mkCall ContainersCreate (Some body), daemon x (mkCall ContainersCreate (Some body)))].
  unfold createContainer, perform, actions. simpl.
  destruct (daemon x _) as [rep|e]; simpl; [|done].
  destruct (decide (r_status rep = 201%Z)) as [E|E];
    [rewrite decide_True by (rewrite E; set_solver)|rewrite decide_False by set_solver]; simpl; [|done].
  by destruct (decode_created _).
Qed.

Lemma waitForRunning_from_emits tl fuel i id deadline x r x' :
  waitForRunning_from daemon unreachable tl fuel i id deadline x = Some (r, x') ->
  exists t, x' = x ++ t /\ actions t = [].
Proof.
  revert i x. induction fuel as [|f IH]; intros i x H; [done|]. simpl in H.
  destruct (inspectPID_emits id x) as (t & Et & Ha).
  destruct (inspectPID _ _ id x) as [[[pid st]|e] x1]; simpl in *; subst; [|simplify_eq; eauto].
  repeat (case_decide; [simplify_eq; by eauto|]). case_match; [simplify_eq; by eauto|].
  case_match; [simplify_eq; by eauto|]. destruct (IH _ _ H) as (u & -> & Hu).
  exists (t ++ u). by rewrite app_assoc, actions_app, Ha, Hu.
Qed.
End rules.

(** ** Confinement *)
Fixpoint at_path (ks : list string) (j : json) : option json :=
  match ks with
  | [] => Some j
  | k :: ks' => match j with
                | JObj o => match filter (fun kv => kv.1 = k) o with kv :: _ => at_path ks' kv.2 | [] => None end
                | _ => None
                end
  end.

(** A create payload that gives the container no capability, no host
    namespace, no mount of the host, and bounded resources (0 is "unlimited"
    to the daemon). *)
Definition confined (body : json) : Prop :=
  at_path ["HostConfig"; "CapDrop"] body = Some (JArr [JStr "ALL"]) /\
  at_path ["HostConfig"; "SecurityOpt"] body = Some (JArr [JStr "no-new-privileges:true"]) /\
  (forall k, k ∈ ["PidMode"; "IpcMode"; "UTSMode"] -> at_path ["HostConfig"; k] body = Some (JStr "")) /\
  (forall k, k ∈ ["Privileged"; "CapAdd"; "Binds"; "Mounts"; "Devices"; "VolumesFrom"] ->
     at_path ["HostConfig"; k] body = None) /\
  (forall k, k ∈ ["Memory"; "NanoCpus"; "PidsLimit"] ->
     exists n, at_path ["HostConfig"; k] body = Some (JNum n) /\ n <> 0%Z) /\
  (exists net, at_path ["HostConfig"; "NetworkMode"] body = Some (JStr net) /\ net <> "" /\ EqualFold net "host" = false) /\
  (exists image, at_path ["Image"] body = Some (JStr image) /\ image <> "") /\
  (exists user, at_path ["User"] body = Some (JStr user) /\ user <> "").

Lemma payload_confined spec digest :
  sb_Image spec <> "" -> forbidden_network (sb_NetworkMode spec) = false ->
  confined (buildCreatePayload (FilledSpec spec) digest).
Proof.
  intros Himg Hnet. unfold confined, buildCreatePayload. repeat split.
  - intros k Hk. repeat (apply elem_of_cons in Hk as [->|Hk]; [reflexivity|]). set_solver.
  - intros k Hk. repeat (apply elem_of_cons in Hk as [->|Hk]; [reflexivity|]). set_solver.
  - intros k Hk.
    repeat (apply elem_of_cons in Hk as [->|Hk]; [eexists; split; [reflexivity|]; simpl; by case_decide|]).
    set_solver.
  - eexists. split; [reflexivity|]. simpl. by case_decide.
  - eexists. split; [reflexivity|]. by repeat case_decide.
  - eexists. split; [reflexivity|]. simpl. by case_decide.
Qed.

Section launch.
Context (daemon : Exchange -> Call -> res Reply) (unreachable : error -> bool).
Context (mountinfo : res Scan) (proc_cgroup : Z -> nat -> res Scan) (stat : nat -> string -> stat_result).
Context (running_tl placed_tl : Timeline).
Notation Launch := (Launch daemon unreachable mountinfo proc_cgroup stat running_tl placed_tl).
Notation launch_created := (launch_created daemon unreachable mountinfo proc_cgroup stat running_tl placed_tl).

(** What [Launch] may leave behind, given how it came out. *)
Definition leaves (spec : SandboxSpec) (digest : string) (o : outcome) (acts : list Action) : Prop :=
  let body := Some (buildCreatePayload (FilledSpec spec) digest) in
  match o with
  | Returned (Ok h) =>
      acts = [Create body (Some (h_containerID h)); Start (h_containerID h)] /\
      h_spec h = FilledSpec spec /\ h_imageDigest h = digest
  | Returned (Err _) =>
      acts = [] \/ acts = [Create body None] \/
      exists id, acts = [Create body (Some id); Start id; Remove id true]
  | Panicked => exists id, String.length id < 12 /\ acts = [Create body (Some id); Start id]
  end.

Lemma abandon_leaves id e x :
  exists t e', abandon daemon unreachable id e x = (Returned (Err e'), x ++ t) /\ actions t = [Remove id true].
Proof.
  destruct (removeContainer_emits daemon unreachable id true x) as (t & E & H).
  exists t, e. unfold abandon. by rewrite E.
Qed.

Lemma launch_created_leaves fuel spec digest id x o x' :
  launch_created fuel (FilledSpec spec) digest id x = Some (o, x') ->
  exists t, x' = x ++ t /\
    leaves spec digest o (Create (Some (buildCreatePayload (FilledSpec spec) digest)) (Some id) :: actions t).
Proof.
  unfold launch_created. intros H.
  destruct (startContainer_emits daemon unreachable id x) as (t1 & E1 & A1).
  destruct (startContainer _ _ id x) as [[[]|e] x1]; simpl in *; subst.
  2: { destruct (abandon_leaves id (Wrapf "start container" e) (x ++ t1)) as (t & e' & E & A).
       rewrite E in H. simplify_eq. exists (t1 ++ t).
       rewrite app_assoc, actions_app, A1, A. split; [done|]. right. right. by exists id. }
  destruct (waitForRunning _ _ _ _ _ _ _) as [[[pid|e] x2]|] eqn:Hw; [| |done];
    apply waitForRunning_from_emits in Hw as (t2 & -> & A2).
  2: { destruct (abandon_leaves id (Wrapf "resolve container PID" e) ((x ++ t1) ++ t2)) as (t & e' & E & A).
       rewrite E in H. simplify_eq. exists (t1 ++ t2 ++ t).
       rewrite !app_assoc, !actions_app, A1, A2, A. split; [done|]. right. right. by exists id. }
  destruct (stableCgroup _ _ _ _ _ _ _) as [[[path cg]|e]|]; [| |done].
  2: { destruct (abandon_leaves id (Wrapf "resolve cgroup" e) ((x ++ t1) ++ t2)) as (t & e' & E & A).
       rewrite E in H. simplify_eq. exists (t1 ++ t2 ++ t).
       rewrite !app_assoc, !actions_app, A1, A2, A. split; [done|]. right. right. by exists id. }
  simplify_eq. exists (t1 ++ t2). rewrite app_assoc, actions_app, A1, A2. split; [done|].
  destruct (Nat.ltb_spec (String.length id) 12); simpl; [by exists id|done].
Qed.

(** Refused before any call. *)
Lemma Launch_refused fuel spec x :
  sb_Image spec = "" \/ EqualFold (sb_NetworkMode spec) "host" = true ->
  exists e, Launch fuel spec x = Some (Returned (Err e), x).
Proof.
  intros H. unfold Launch. case_decide; [eauto|]. destruct H as [H|H]; [done|].
  unfold forbidden_network. rewrite H. eauto.
Qed.

Lemma Launch_leaves fuel spec x o x' :
  Launch fuel spec x = Some (o, x') ->
  exists t digest, x' = x ++ t /\ leaves spec digest o (actions t).
Proof.
  unfold Launch. intros H. case_decide.
  { simplify_eq. exists [], "". rewrite app_nil_r. split; [done|by left]. }
  destruct (forbidden_network _).
  { simplify_eq. exists [], "". rewrite app_nil_r. split; [done|by left]. }
  destruct (pullIfNeeded_emits daemon unreachable (sb_Image (FilledSpec spec)) (sb_PullPolicy (FilledSpec spec)) x)
    as (t1 & E1 & A1).
  destruct (pullIfNeeded _ _ _ _ x) as [[[]|e] x1]; simpl in E1; subst.
  2: { simplify_eq. exists t1, "". rewrite A1. split; [done|by left]. }
  destruct (resolveDigest_emits daemon unreachable (sb_Image (FilledSpec spec)) (x ++ t1)) as (t2 & E2 & A2).
  destruct (resolveDigest _ _ _ _) as [d x2]; simpl in E2; subst.
  set (digest := match d with Ok s => s | Err _ => "" end) in *.
  destruct (createContainer_emits daemon unreachable (buildCreatePayload (FilledSpec spec) digest) ((x ++ t1) ++ t2))
    as (t3 & E3 & A3).
  destruct (createContainer _ _ _ _) as [[id|e] x3]; simpl in *; subst.
  - apply launch_created_leaves in H as (t4 & -> & Hl). exists (t1 ++ t2 ++ t3 ++ t4), digest.
    by rewrite !actions_app, A1, A2, A3, <- !app_assoc.
  - simplify_eq. exists (t1 ++ t2 ++ t3), digest.
    rewrite !actions_app, A1, A2, A3, <- !app_assoc. split; [done|right; by left].
Qed.

(** Whatever came out, the only bodies are the payload. *)
Lemma leaves_bodies spec digest o acts body id :
  leaves spec digest o acts -> Create (Some body) id ∈ acts -> body = buildCreatePayload (FilledSpec spec) digest.
Proof.
  destruct o as [[h|e]|]; simpl.
  - intros [-> _] H. set_solver.
  - intros [->|[->|[? ->]]] H; set_solver.
  - intros (? & _ & ->) H. set_solver.
Qed.

(** C14: [Launch] never leaks a container it can name.  Whatever the daemon answers and
    whenever it fails, an empty image or the host network is refused before any call is made;
    otherwise at most one container is created, always from a confined payload; a returned
    handle is that of the one container created and started; and on an error every container
    whose id the daemon gave was force-removed as the last action.  (A panic is possible only
    for an id shorter than twelve characters.) *)
Theorem Launch_contained fuel spec x o x' :
  Launch fuel spec x = Some (o, x') ->
  exists t digest, x' = x ++ t /\ leaves spec digest o (actions t) /\
    (forall body id, Create (Some body) id ∈ actions t -> confined body) /\
    (sb_Image spec = "" \/ EqualFold (sb_NetworkMode spec) "host" = true ->
       t = [] /\ exists e, o = Returned (Err e)).
Proof.
  intros H. pose proof (Launch_leaves _ _ _ _ _ H) as (t & digest & -> & Hl). exists t, digest.
  assert (Hr : sb_Image spec = "" \/ EqualFold (sb_NetworkMode spec) "host" = true ->
               t = [] /\ exists e, o = Returned (Err e)).
  { intros Hc. destruct (Launch_refused fuel spec x Hc) as [e E]. rewrite E in H.
    injection H as <- Ht. rewrite <- (app_nil_r x) in Ht at 1. apply app_inv_head in Ht. eauto. }
  split_and_all; [done|done| |exact Hr]. intros body id Hin.
  rewrite (leaves_bodies _ _ _ _ _ _ Hl Hin). apply payload_confined.
  - intros Hi. destruct Hr as [-> _]; [by left|]. by apply not_elem_of_nil in Hin.
  - unfold forbidden_network. destruct (EqualFold _ _) eqn:En; [|done].
    destruct Hr as [-> _]; [by right|]. by apply not_elem_of_nil in Hin.
Qed.

(** ** Polling *)

(** Consecutive polls are at least 5 ms apart: [time.After(5ms)] on the
    monotonic clock. *)
Definition paced (tl : Timeline) : Prop := forall i, (now tl i + 5 * Millisecond <= now tl (S i))%Z.

Lemma paced_from tl i : paced tl -> (now tl 0 + Z.of_nat i * (5 * Millisecond) <= now tl i)%Z.
Proof. intros H. induction i as [|i IH]; [unfold Millisecond; lia|]. specialize (H i). unfold Millisecond in *. lia. Qed.

Lemma waitForRunning_from_returns fuel i id timeout x :
  paced running_tl -> (timeout < Z.of_nat (fuel + i) * (5 * Millisecond))%Z -> fuel <> 0 ->
  is_Some (waitForRunning_from daemon unreachable running_tl fuel i id (now running_tl 0 + timeout)%Z x).
Proof.
  intros Hp. revert i x. induction fuel as [|f IH]; intros i x Hf Hn; [done|]. simpl.
  destruct (inspectPID _ _ id x) as [[[pid st]|e] x1]; [|eauto]. repeat (case_decide; [eauto|]).
  destruct (Z.ltb_spec (now running_tl 0 + timeout)%Z (now running_tl (S i))) as [|Hle]; [eauto|].
  destruct (done running_tl i); [eauto|]. pose proof (paced_from running_tl (S i) Hp).
  apply IH; [by rewrite Nat.add_succ_r|]. intros ->. simpl in Hf. unfold Millisecond in *. lia.
Qed.

Lemma stableCgroup_from_returns fuel i pid timeout :
  paced placed_tl -> (timeout < Z.of_nat (fuel + i) * (5 * Millisecond))%Z -> fuel <> 0 ->
  is_Some (stableCgroup_from mountinfo proc_cgroup stat placed_tl fuel i pid (now placed_tl 0 + timeout)%Z).
Proof.
  intros Hp. revert i. induction fuel as [|f IH]; intros i Hf Hn; [done|]. simpl.
  destruct (placed _ _ _ pid i); [eauto|].
  destruct (Z.ltb_spec (now placed_tl 0 + timeout)%Z (now placed_tl (S i))) as [|Hle]; [eauto|].
  destruct (done placed_tl i); [eauto|]. pose proof (paced_from placed_tl (S i) Hp).
  apply IH; [by rewrite Nat.add_succ_r|]. intros ->. simpl in Hf. unfold Millisecond in *. lia.
Qed.

(** [Launch] always returns: with polls at least 5 ms apart, whatever the daemon and /proc
    say and even if the context never ends, its two polling loops give up after at most 2001
    and 1001 polls, so a fuel of 2001 is enough for a result. *)
Theorem Launch_returns fuel spec x :
  paced running_tl -> paced placed_tl -> 2001 <= fuel -> is_Some (Launch fuel spec x).
Proof.
  intros Hr Hp Hf. unfold Launch. case_decide; [eauto|]. destruct (forbidden_network _); [eauto|].
  destruct (pullIfNeeded _ _ _ _ x) as [[[]|e] x1]; [|eauto].
  destruct (resolveDigest _ _ _ _) as [d x2]. destruct (createContainer _ _ _ _) as [[id|e] x3]; [|eauto].
  unfold launch_created. destruct (startContainer _ _ _ _) as [[[]|e] x4]; [|eauto].
  destruct (waitForRunning_from_returns fuel 0 id (10 * Second) x4 Hr) as [[[pid|e] x5] E];
    [unfold Second, Millisecond; lia|lia| |]; unfold waitForRunning; rewrite E; [|eauto].
  destruct (stableCgroup_from_returns fuel 0 pid (5 * Second) Hp) as [[[path cg]|e] E'];
    [unfold Second, Millisecond; lia|lia| |]; unfold stableCgroup; rewrite E'; eauto.
Qed.

Lemma waitForRunning_from_ok tl fuel i id deadline x pid x' :
  waitForRunning_from daemon unreachable tl fuel i id deadline x = Some (Ok pid, x') -> (0 < pid)%Z.
Proof.
  revert i x. induction fuel as [|f IH]; intros i x H; [done|]. simpl in H.
  destruct (inspectPID _ _ id x) as [[[p st]|e] x1]; [|done]. case_decide as Hd; [by simplify_eq; destruct Hd|].
  repeat (case_decide || case_match; try done). eauto.
Qed.

Lemma stableCgroup_from_ok tl fuel i pid deadline p :
  stableCgroup_from mountinfo proc_cgroup stat tl fuel i pid deadline = Some (Ok p) ->
  exists j, placed mountinfo proc_cgroup stat pid j = Some p.
Proof.
  revert i. induction fuel as [|f IH]; intros i H; [done|]. simpl in H.
  destruct (placed _ _ _ pid i) eqn:E; [simplify_eq; eauto|]. repeat (case_match; try done). eauto.
Qed.

(** The cgroup a handle carries is the container's: at some poll the process the daemon
    named was in the unified cgroup [rel], the path is [rel] under the mounted v2 hierarchy
    and not the root /sys/fs/cgroup, and the id is the inode stat gave for that path. *)
Theorem Launch_cgroup fuel spec x h x' :
  Launch fuel spec x = Some (Returned (Ok h), x') ->
  exists pid i s root rel, (0 < pid)%Z /\ proc_cgroup pid i = Ok s /\ parseCgroupReader s = Ok rel /\
    cgroupV2Root mountinfo = Ok root /\ h_cgroupPath h = Join [root; rel] /\
    HasSuffix (h_cgroupPath h) "/sys/fs/cgroup" = false /\ stat i (h_cgroupPath h) = Ino (h_cgroupID h).
Proof.
  unfold Launch. intros H. case_decide; [done|]. destruct (forbidden_network _); [done|].
  destruct (pullIfNeeded _ _ _ _ x) as [[[]|e] x1]; [|done].
  destruct (resolveDigest _ _ _ _) as [d x2]. destruct (createContainer _ _ _ _) as [[id|e] x3]; [|done].
  unfold launch_created in H. destruct (startContainer _ _ _ _) as [[[]|e] x4]; [|done].
  destruct (waitForRunning _ _ _ _ _ _ _) as [[[pid|e] x5]|] eqn:Hw; [|done..].
  destruct (stableCgroup _ _ _ _ _ _ _) as [[[path cg]|e]|] eqn:Hs; [|done..].
  apply waitForRunning_from_ok in Hw. apply stableCgroup_from_ok in Hs as [i Hs].
  destruct (String.length id <? 12); simplify_eq. simpl. unfold placed, cgroupPathForPID in Hs.
  destruct (proc_cgroup pid i) as [s|] eqn:Hpc; [|done].
  destruct (parseCgroupReader s) as [rel|] eqn:Hrel; [|done].
  destruct (cgroupV2Root mountinfo) as [root|] eqn:Hroot; [|done].
  destruct (bool_decide _ && _) eqn:Hb; [|done]. apply andb_true_iff in Hb as [_ Hb].
  unfold cgroupIDForPath in Hs. destruct (stat i _) eqn:Hst; simplify_eq.
  exists pid, i, s, root, rel. rewrite Hst. by rewrite negb_true_iff in Hb.
Qed.
End launch.

(** ** A concrete daemon *)
Definition wit_daemon (status : string) (x : Exchange) (c : Call) : res Reply :=
  match c_endpoint c with
  | ContainersCreate => Ok (mkReply 201 (Some (JObj [("Id", JStr "0123456789abcdef")])))
  | ContainerStart _ | ContainerDelete _ _ | ContainerStop _ _ => Ok (mkReply 204 None)
  | ContainerInspect _ =>
      Ok (mkReply 200 (Some (JObj [("State", JObj [("Pid", JNum 42); ("Status", JStr status)])])))
  | ImageInspect _ => Ok (mkReply 200 (Some (JObj [("Id", JStr "sha256:00"); ("RepoDigests", JArr [JStr "img@sha256:01"])])))
  | _ => Ok (mkReply 200 None)
  end.
Definition wit_timeline : Timeline := mkTimeline (fun i => Z.of_nat i * (5 * Millisecond))%Z (fun _ => None).
Definition wit_mounts : res Scan := Ok (["25 1 0:22 / /sys/fs/cgroup rw - cgroup2 cgroup2 rw"], None).
Definition wit_proc (pid : Z) (i : nat) : res Scan :=
  Ok ([if i <? 2 then "0::/" else "0::/fangs/ab/docker-01.scope"], None).
Definition wit_stat (i : nat) (p : string) : stat_result :=
  if decide (p = "/sys/fs/cgroup/fangs/ab/docker-01.scope") then Ino 77 else NotExist.
Definition wit_spec : SandboxSpec := mkSandboxSpec "img:1" ["sh"] [] "" "" "" 0 0 0 "" 0 "/fangs/ab".
Definition wit_launch (status : string) : option (outcome * Exchange) :=
  Launch (wit_daemon status) (fun _ => false) wit_mounts wit_proc wit_stat wit_timeline wit_timeline 10 wit_spec [].

(** A container that exits before it runs is removed. *)
Lemma Launch_contained_witness : exists e x t digest,
  wit_launch "exited" = Some (Returned (Err e), x) /\ x = t /\ leaves wit_spec digest (Returned (Err e)) (actions t) /\
  Remove "0123456789abcdef" true ∈ actions t.
Proof.
  destruct (wit_launch "exited") as [[o x]|] eqn:E; [|vm_compute in E; discriminate].
  destruct (Launch_contained _ _ _ _ _ _ _ _ _ _ _ _ E) as (t & digest & Hx & Hl & _).
  simpl in Hx. subst t.
  assert (exists e, o = Returned (Err e)) as [e ->].
  { vm_compute in E. injection E as <- <-. by eexists. }
  exists e, x, x, digest. split_and_all; [done..|]. vm_compute in E. injection E as <- <-.
  vm_compute. right. right. left.
Defined.

Lemma Launch_cgroup_witness : exists h x,
  wit_launch "running" = Some (Returned (Ok h), x) /\ h_cgroupID h = 77%Z /\
  exists root rel, h_cgroupPath h = Join [root; rel].
Proof.
  destruct (wit_launch "running") as [[o x]|] eqn:E; [|vm_compute in E; discriminate].
  assert (exists h, o = Returned (Ok h) /\ h_cgroupID h = 77%Z) as (h & -> & Hid).
  { vm_compute in E. injection E as <- <-. eexists. split; [reflexivity|done]. }
  destruct (Launch_cgroup _ _ _ _ _ _ _ _ _ _ _ _ E) as (pid & i & s & root & rel & _ & _ & _ & _ & Hp & _).
  exists h, x. split_and_all; [done..|]. eauto.
Defined.

Lemma Launch_returns_witness :
  is_Some (Launch (wit_daemon "created") (fun _ => false) wit_mounts wit_proc wit_stat wit_timeline wit_timeline
             (Z.to_nat 2001) wit_spec []).
Proof. apply Launch_returns; [intros i; simpl; unfold Millisecond; lia..|lia]. Defined.

End Docker.
