(* ===== verification/Runner.v ===== *)
(** * fangs-runner: one job at a time

    cmd/fangs-runner/main.go: [runJob] with its deferred clean-ups over the
    sensor's registration, the parent cgroup, the Docker driver and the event
    streamer, and the poll loop that calls it.  A deferred function runs after
    the rest of the body on every path out of it, a panic included.  What a
    job meets (daemon, kernel, clock, the streamer at its close) is its
    [JobEnv].  The wait for the end of the job, where the container watcher
    runs beside the main goroutine, is a step relation. *)
From Stdlib Require Import Ascii.
From stdpp Require Import prelude strings gmap list relations.
From S2P Require Import Prelude GoTime Json Sql Storage Sqlite SqliteSpec Proto Wire Sensor Api Agent Sandbox Docker.

Module Runner.
Import Sandbox.Sandbox Docker.Docker.
Import (hints) SqliteSpec.SqliteSpec.

(** ** The state a job changes *)
Inductive Effect : Type :=
  | StreamInstalled (runHex : string)
  | CgroupAdded (id : Z)
  | Launched (container : string)
  | Stopped (container : string)
  | CgroupRemoved (id : Z)
  | StreamClosed
  | ResultPosted (runHex : string) (r : PScanResult).

Record World : Type := mkWorld {
  sensor : Sensor.Sensor;
  tree : Tree;                      (* cgroup directories *)
  docker : Exchange;
  curRunHex : option string;        (* the run whose streamer is installed *)
  trace : list Effect
}.

Definition set_sensor (s : Sensor.Sensor) (w : World) : World := mkWorld s (tree w) (docker w) (curRunHex w) (trace w).
Definition set_tree (t : Tree) (w : World) : World := mkWorld (sensor w) t (docker w) (curRunHex w) (trace w).
Definition set_docker (x : Exchange) (w : World) : World := mkWorld (sensor w) (tree w) x (curRunHex w) (trace w).
Definition log (e : Effect) (w : World) : World :=
  mkWorld (sensor w) (tree w) (docker w) (curRunHex w) (trace w ++ [e]).
Definition setStreamer (run : option string) (w : World) : World :=
  mkWorld (sensor w) (tree w) (docker w) run (trace w).

Record JobEnv : Type := mkJobEnv {
  je_daemon : Exchange -> Call -> res Reply;
  je_unreachable : error -> bool;
  je_mountinfo : res Scan;
  je_proc : Z -> nat -> res Scan;
  je_stat : nat -> string -> stat_result;
  je_running : Timeline;
  je_placed : Timeline;
  je_mkdir : string -> res Z;
  je_busy : nat -> bool;                  (* the kernel's answer to each rmdir *)
  je_add : Sensor.MapCalls;               (* the map updates of the registration *)
  je_remove : Sensor.MapCalls;            (* and of the removal *)
  je_inode : string -> res Z;             (* stat of a job's own cgroup path *)
  je_ending : string * string;            (* status and reason when the result is read *)
  je_stream : Agent.Streamer;             (* the streamer when [Close] has returned *)
  je_drops : list Z;                      (* the drop counters of the CPUs *)
  je_elapsed : duration
}.

(** How the body of [runJob] ends; the error of [Failed] is wrapped in the
    step's name, as the reason is. *)
Inductive verdict : Type := Failed (e : error) | Completed | Panic.
#[export] Instance verdict_eq_dec : EqDecision verdict.
Proof. solve_decision. Defined.

Section job.
Context (Error : error -> string).        (* the text of an error *)
Context (env : JobEnv) (fuel : nat) (job : Job).

Definition runIDHex : string := hex (jb_RunID job).

(** [defer cleanup; body]. *)
Definition defer (cleanup : World -> World) (body : World -> option (verdict * World)) (w : World) :
    option (verdict * World) :=
  (fun p => (p.1, cleanup p.2)) <$> body w.

Definition add_cgroup (id : Z) (w : World) : res unit * World :=
  let '(r, s) := Sensor.AddCgroup (je_add env)
                   (Sensor.mkAddCgroupOptions id (jb_RunID job) (jb_WatchedPaths job)) (sensor w) in
  (r, match r with Ok _ => log (CgroupAdded id) (set_sensor s w) | Err _ => set_sensor s w end).

Definition remove_cgroup (id : Z) (w : World) : World :=
  log (CgroupRemoved id) (set_sensor (Sensor.RemoveCgroup (je_remove env) id (sensor w)).2 w).

(** Up to twenty attempts, 100 ms apart. *)
Fixpoint rmdir_retry (n i : nat) (abs : string) (t : Tree) : Tree :=
  match n with
  | O => t
  | S n' => match RemoveParentCgroup (je_busy env i) abs t with
            | (Ok _, t') => t'
            | (Err _, t') => rmdir_retry n' (S i) abs t'
            end
  end.

(** The error paths of a stop only log. *)
Definition stop_container (h : Handle) (w : World) : World :=
  log (Stopped (h_containerID h)) (set_docker (Stop (je_daemon env) (je_unreachable env) h (docker w)).2 w).

Definition run_sandbox (sandbox : SandboxSpec) (w : World) : option (verdict * World) :=
  match CreateParentCgroup (je_mountinfo env) (je_mkdir env) runIDHex (tree w) with
  | (Err e, t) => Some (Failed (Wrapf "create cgroup parent" e), set_tree t w)
  | (Ok (rel, abs, id), t) =>
      match add_cgroup id (set_tree t w) with
      | (Err e, w) =>
          Some (Failed (Wrapf "AddCgroup" e), set_tree (RemoveParentCgroup (je_busy env 0) abs (tree w)).2 w)
      | (Ok _, w) =>
          defer (fun w => let w := remove_cgroup id w in set_tree (rmdir_retry 20 0 abs (tree w)) w) (fun w =>
            let spec := mkSandboxSpec (sb_Image sandbox) (sb_Command sandbox) (sb_Env sandbox) (sb_WorkingDir sandbox)
                          (sb_User sandbox) (sb_NetworkMode sandbox) (sb_MemoryBytes sandbox) (sb_NanoCPUs sandbox)
                          (sb_PidsLimit sandbox) (sb_PullPolicy sandbox) (sb_GracePeriod sandbox) rel in
            match Launch (je_daemon env) (je_unreachable env) (je_mountinfo env) (je_proc env) (je_stat env)
                    (je_running env) (je_placed env) fuel spec (docker w) with
            | None => None
            | Some (Returned (Err e), x) => Some (Failed (Wrapf "sandbox launch" e), set_docker x w)
            | Some (Panicked, x) => Some (Panic, set_docker x w)
            | Some (Returned (Ok h), x) =>
                defer (stop_container h) (fun w => Some (Completed, w))
                  (log (Launched (h_containerID h)) (set_docker x w))
            end) w
      end
  end.

Definition run_cgroup (w : World) : option (verdict * World) :=
  match je_inode env (jb_CgroupPath job) with
  | Err e => Some (Failed (Wrapf "resolve cgroup id" e), w)
  | Ok id =>
      match add_cgroup id w with
      | (Err e, w) => Some (Failed (Wrapf "AddCgroup" e), w)
      | (Ok _, w) => defer (remove_cgroup id) (fun w => Some (Completed, w)) w
      end
  end.

Definition job_status (v : verdict) : string * string :=
  match v with
  | Failed e => ("failed", Error e)
  | Completed => je_ending env
  | Panic => ("ok", "")
  end.

Definition scan_result (v : verdict) : PScanResult :=
  mkPScanResult (jb_RunID job) (job_status v).1 (job_status v).2
    (wrapS 64 (Agent.EventsSent (Agent.stats (je_stream env)))) (Sensor.Drops (je_drops env)) (je_elapsed env).

(** The result is deferred first, so it is posted last. *)
Definition runJob (w : World) : option (verdict * World) :=
  (fun p => (p.1, log (ResultPosted runIDHex (scan_result p.1)) p.2)) <$>
  defer (fun w => log StreamClosed (setStreamer None w))
    (match jb_Sandbox job with Some sb => run_sandbox sb | None => run_cgroup end)
    (log (StreamInstalled runIDHex) (setStreamer (Some runIDHex) w)).
End job.

(** ** The poll loop

    Each iteration takes the orchestrator's answer; a failed poll and an empty
    one only sleep.  A panic ends the process. *)
Fixpoint poll_loop (Error : error -> string) (fuel : nat) (polls : list (Agent.Answer * JobEnv)) (w : World) :
    option (bool * World) :=              (* whether the process crashed *)
  match polls with
  | [] => Some (false, w)
  | (a, env) :: rest =>
      match Agent.PollJob a with
      | Ok (Some job) =>
          match runJob Error env fuel job w with
          | None => None
          | Some (Panic, w) => Some (true, w)
          | Some (_, w) => poll_loop Error fuel rest w
          end
      | _ => poll_loop Error fuel rest w
      end
  end.

(** ** The end of a job

    Why the job's context is done: its duration, the runner's shutdown, or
    the watcher's cancel. *)
Inductive cause : Type := Deadline | Shutdown | ContainerExit.
Inductive watcher : Type := Watching | Exited | WatcherDone.
Inductive mainstate : Type := Waiting | Checked (timed_out : bool) | MainDone.

Record Phase : Type := mkPhase {
  ph_status : string * string;
  ph_exit : option WaitResult;      (* what is in the handle's channel *)
  ph_ctx : option cause;
  ph_watch : watcher;
  ph_main : mainstate
}.

Definition phase_start (sandboxed : bool) : Phase :=
  mkPhase ("ok", "") None None (if sandboxed then Watching else WatcherDone) Waiting.

Definition bad_exit (r : WaitResult) : bool :=
  negb (w_ExitCode r =? 0)%Z || (match w_Err r with Some _ => true | None => false end).

Definition exit_reason (Error : error -> string) (r : WaitResult) : string :=
  "container exit_code=" +:+ decimal (w_ExitCode r) +:+ " err=" +:+
  match w_Err r with Some e => Error e | None => "<nil>" end.

Inductive phase_step (Error : error -> string) (sandboxed : bool) : Phase -> Phase -> Prop :=
  | ps_exit p r :
      sandboxed = true -> ph_exit p = None ->
      phase_step Error sandboxed p (mkPhase (ph_status p) (Some r) (ph_ctx p) (ph_watch p) (ph_main p))
  | ps_deadline p :
      ph_ctx p = None ->
      phase_step Error sandboxed p (mkPhase (ph_status p) (ph_exit p) (Some Deadline) (ph_watch p) (ph_main p))
  | ps_shutdown p :
      ph_ctx p = None ->
      phase_step Error sandboxed p (mkPhase (ph_status p) (ph_exit p) (Some Shutdown) (ph_watch p) (ph_main p))
  | ps_watch_exit p r :
      ph_watch p = Watching -> ph_exit p = Some r ->
      phase_step Error sandboxed p
        (mkPhase (if bad_exit r then ("failed", exit_reason Error r) else ph_status p) (ph_exit p) (ph_ctx p) Exited
           (ph_main p))
  | ps_watch_cancel p :
      ph_watch p = Exited ->
      phase_step Error sandboxed p
        (mkPhase (ph_status p) (ph_exit p) (match ph_ctx p with None => Some ContainerExit | c => c end) WatcherDone
           (ph_main p))
  | ps_watch_ctx p c :
      ph_watch p = Watching -> ph_ctx p = Some c ->
      phase_step Error sandboxed p (mkPhase (ph_status p) (ph_exit p) (ph_ctx p) WatcherDone (ph_main p))
  | ps_check p c :
      ph_main p = Waiting -> ph_ctx p = Some c ->
      phase_step Error sandboxed p
        (mkPhase (ph_status p) (ph_exit p) (ph_ctx p) (ph_watch p)
           (Checked (bool_decide ((ph_status p).1 = "ok") && (match c with Deadline => true | _ => false end))))
  | ps_set p b :
      ph_main p = Checked b ->
      phase_step Error sandboxed p
        (mkPhase (if b then ("timeout", "job duration exceeded before container exit") else ph_status p) (ph_exit p)
           (ph_ctx p) (ph_watch p) MainDone).

(** ** Lemmas *)
Lemma hex_is_name l : l <> [] -> is_name (hex l).
Proof.
  assert (Hc : forall b c, c ∈ hex_byte b -> c <> "/"%char /\ c <> "."%char).
  { intros [[] [] [] [] [] [] [] []] c Hin; vm_compute in Hin;
      repeat (apply elem_of_cons in Hin as [->|Hin]; [by split|]); by apply not_elem_of_nil in Hin. }
  intros Hl. unfold is_name, free_of, hex. rewrite list_of_string_of_list.
  assert (Hf : Forall (fun c => c <> "/"%char /\ c <> "."%char) (l ≫= hex_byte)).
  { apply Forall_forall. intros c Hin. apply list_elem_of_bind in Hin as (b & Hin & _). eauto. }
  split; [eapply Forall_impl; [exact Hf|by intros ? []]|].
  destruct l as [|b l]; [done|]. cbn [mbind list_bind] in *. unfold hex_byte in *.
  apply Forall_cons in Hf as [[_ H1] _].
  split_and_all; intros E; apply (f_equal list_of_string) in E; rewrite list_of_string_of_list in E;
    cbn [app] in *; [discriminate E|discriminate E|]. injection E as E _. by apply H1.
Qed.

Section job_lemmas.
Context (Error : error -> string) (env : JobEnv) (fuel : nat) (job : Job).
Let hexid : string := runIDHex job.

Lemma defer_Some c body w v w' :
  defer c body w = Some (v, w') -> exists w0, body w = Some (v, w0) /\ w' = c w0.
Proof. unfold defer. intros H. apply fmap_Some in H as ([v0 w0] & E & [= -> ->]). eauto. Qed.

Lemma rmdir_retry_lookup n i abs t p : p <> abs -> rmdir_retry env n i abs t !! p = t !! p.
Proof.
  intros Hp. revert i. induction n as [|n IH]; intros i; [done|]. simpl. unfold RemoveParentCgroup.
  destruct (je_busy env i); [apply IH|]. destruct (t !! abs) eqn:E; [by rewrite lookup_delete_ne|]. apply IH.
Qed.
Lemma rmdir_retry_gone n i abs t :
  (exists j, i <= j < i + n /\ je_busy env j = false) -> rmdir_retry env n i abs t !! abs = None.
Proof.
  revert i. induction n as [|n IH]; intros i (j & Hj & Hb); [lia|]. simpl. unfold RemoveParentCgroup.
  destruct (t !! abs) as [v|] eqn:E.
  - destruct (je_busy env i) eqn:Eb; [|by rewrite lookup_delete_eq]. apply IH. exists j. split; [|done].
    assert (i <> j) by congruence. lia.
  - clear IH Hj Hb j. assert (forall k, rmdir_retry env n k abs t !! abs = None) as Hn.
    { induction n as [|n IH]; intros k; [done|]. simpl. unfold RemoveParentCgroup.
      destruct (je_busy env k); [apply IH|]. rewrite E. apply IH. }
    by destruct (je_busy env i).
Qed.

(** What the body of a job adds to the trace, and how it ends. *)
Inductive body_trace : verdict -> list Effect -> Prop :=
  | bt_early e : body_trace (Failed e) []
  | bt_launch_failed v id : v <> Completed -> body_trace v [CgroupAdded id; CgroupRemoved id]
  | bt_cgroup id : jb_Sandbox job = None -> body_trace Completed [CgroupAdded id; CgroupRemoved id]
  | bt_sandbox id c :
      jb_Sandbox job <> None -> body_trace Completed [CgroupAdded id; Launched c; Stopped c; CgroupRemoved id].

(** From [s] to [s'] the registrations are undone: the table of owners is the
    same, and the kernel maps differ at most in what a failed deletion left. *)
Definition sensor_undone (s s' : Sensor.Sensor) : Prop :=
  Sensor.registered s' = Sensor.registered s /\
  (Sensor.sensor_inv s -> Sensor.fresh_paths (jb_WatchedPaths job) s ->
   exists c id, (c = je_add env \/ c = je_remove env) /\ Sensor.restored c id (jb_WatchedPaths job) s s').

Lemma sensor_undone_refl s : sensor_undone s s.
Proof. split; [done|]. intros _ _. exists (je_add env), 0%Z. split; [by left|apply Sensor.restored_refl]. Qed.

(** The shape of [add_cgroup]. *)
Lemma add_cgroup_spec id w r w' :
  add_cgroup env job id w = (r, w') ->
  tree w' = tree w /\ docker w' = docker w /\ curRunHex w' = curRunHex w /\
  match r with
  | Ok _ => trace w' = trace w ++ [CgroupAdded id] /\
            sensor_undone (sensor w) (Sensor.RemoveCgroup (je_remove env) id (sensor w')).2
  | Err _ => trace w' = trace w /\ sensor_undone (sensor w) (sensor w')
  end.
Proof.
  unfold add_cgroup. destruct (Sensor.AddCgroup _ _ _) as [r0 s0] eqn:E. intros [= <- <-].
  pose proof (Sensor.AddCgroup_registered _ (je_remove env) _ _ _ _ E) as Hr.
  unfold sensor_undone. destruct r0 as [[]|e]; simpl; split_and!; try done; intros Hinv Hf.
  - exists (je_remove env), id. split; [by right|].
    eapply (Sensor.AddCgroup_removed _ _ (Sensor.mkAddCgroupOptions id _ _)); [|exact Hf|exact E].
    by apply Sensor.unregistered_cgmap.
  - exists (je_add env), id. split; [by left|].
    eapply (Sensor.AddCgroup_failed _ (Sensor.mkAddCgroupOptions id _ _)); [|exact Hf|exact E].
    by apply Sensor.unregistered_cgmap.
Qed.

(** Every container created was then removed. *)
Definition removed_all (acts : list Action) : Prop :=
  forall b id, Create b (Some id) ∈ acts -> last acts = Some (Remove id true).

(** What the body of a job leaves behind. *)
Record body_spec (v : verdict) (w w' : World) : Prop := {
  bs_sensor : sensor_undone (sensor w) (sensor w');
  bs_stream : curRunHex w' = curRunHex w;
  bs_trace : exists t, trace w' = trace w ++ t /\ body_trace v t;
  bs_docker : exists x, docker w' = docker w ++ x /\ (v <> Panic -> removed_all (actions x))
}.

Lemma run_cgroup_spec w v w' :
  jb_Sandbox job = None ->
  run_cgroup env job w = Some (v, w') -> body_spec v w w'.
Proof.
  intros Hsb. pose proof (sensor_undone_refl (sensor w)) as Hu. unfold run_cgroup. destruct (je_inode env _) as [id|e].
  2: { intros [= <- <-]. split; [done|done|exists []; rewrite app_nil_r; split; [done|constructor]|].
       exists []. rewrite app_nil_r. split; [done|]. intros _ b i Hin. by apply not_elem_of_nil in Hin. }
  destruct (add_cgroup env job id w) as [[[]|e] w1] eqn:E;
    apply add_cgroup_spec in E as (_ & Hd & Hs & E); try done; destruct E as [Et Es].
  - intros (w0 & [= <- <-] & ->)%defer_Some. unfold remove_cgroup. split; simpl; [done|done| |].
    + exists [CgroupAdded id; CgroupRemoved id]. rewrite Et, <- app_assoc. split; [done|by constructor].
    + exists []. rewrite app_nil_r, Hd. split; [done|]. intros _ b i Hin. by apply not_elem_of_nil in Hin.
  - intros [= <- <-]. split; [done|done|exists []; rewrite app_nil_r, Et; split; [done|constructor]|].
    exists []. rewrite app_nil_r, Hd. split; [done|]. intros _ b i Hin. by apply not_elem_of_nil in Hin.
Qed.

Lemma Stop_emits h : emits (Stop (je_daemon env) (je_unreachable env) h)
  (fun _ t => t = [StopC (h_containerID h); Remove (h_containerID h) true]).
Proof.
  intros x. unfold Stop.
  destruct (stopContainer_emits (je_daemon env) (je_unreachable env) (h_containerID h) DefaultStopTimeout x) as (t & E & A).
  destruct (stopContainer _ _ _ _ x) as [r x1]. simpl in E. subst.
  destruct (removeContainer_emits (je_daemon env) (je_unreachable env) (h_containerID h) true (x ++ t)) as (u & E & B).
  exists (t ++ u). by rewrite E, app_assoc, actions_app, A, B.
Qed.

(** An outcome without a handle has removed what it created. *)
Lemma leaves_removed spec digest e acts : leaves spec digest (Returned (Err e)) acts -> removed_all acts.
Proof.
  simpl. intros [->|[->|[id ->]]] b i Hin.
  - by apply not_elem_of_nil in Hin.
  - by apply list_elem_of_singleton in Hin.
  - simpl. repeat (apply elem_of_cons in Hin as [Hin|Hin]; [by simplify_eq|]). by apply not_elem_of_nil in Hin.
Qed.

Lemma run_sandbox_spec sb w v w' :
  jb_Sandbox job = Some sb ->
  run_sandbox env fuel job sb w = Some (v, w') -> body_spec v w w'.
Proof.
  intros Hsb. pose proof (sensor_undone_refl (sensor w)) as Hu. unfold run_sandbox.
  assert (Hnil : removed_all []) by (intros b i Hin; by apply not_elem_of_nil in Hin).
  destruct (CreateParentCgroup _ _ _ _) as [[[[rel abs] id]|e] t].
  2: { intros [= <- <-]. split; [done|done|exists []; rewrite app_nil_r; split; [done|constructor]|].
       exists []. by rewrite app_nil_r. }
  destruct (add_cgroup env job id (set_tree t w)) as [[[]|e] w1] eqn:E;
    apply add_cgroup_spec in E as (_ & Hd & Hs & E); try done; destruct E as [Et Es].
  2: { intros [= <- <-]. split; [done|done|exists []; rewrite app_nil_r; split; [done|constructor]|].
       exists []. by rewrite app_nil_r. }
  intros (w0 & H & ->)%defer_Some.
  destruct (Launch _ _ _ _ _ _ _ _ _ _) as [[o x]|] eqn:HL; [|done].
  apply Launch_leaves in HL as (u & digest & -> & Hl). destruct o as [[h|e]|].
  - apply defer_Some in H as (w2 & [= <- <-] & ->). simpl in Hl. destruct Hl as (Ha & _).
    destruct (Stop_emits h (docker w1 ++ u)) as (y & Ey & Ay).
    split; cbn; [exact Es|exact Hs| |].
    + exists [CgroupAdded id; Launched (h_containerID h); Stopped (h_containerID h); CgroupRemoved id].
      rewrite Et. cbn. rewrite <- !app_assoc. split; [done|]. constructor. by rewrite Hsb.
    + exists (u ++ y). rewrite Ey, Hd, <- app_assoc. split; [done|]. intros _. rewrite actions_app, Ha, Ay.
      intros b i Hin. simpl. repeat (apply elem_of_cons in Hin as [Hin|Hin]; [by simplify_eq|]).
      by apply not_elem_of_nil in Hin.
  - injection H as <- <-. split; cbn; [exact Es|exact Hs| |].
    + exists [CgroupAdded id; CgroupRemoved id]. rewrite Et. cbn. rewrite <- app_assoc. split; [done|by constructor].
    + exists u. rewrite Hd. split; [done|]. intros _. by eapply leaves_removed.
  - injection H as <- <-. split; cbn; [exact Es|exact Hs| |].
    + exists [CgroupAdded id; CgroupRemoved id]. rewrite Et. cbn. rewrite <- app_assoc. split; [done|by constructor].
    + exists u. rewrite Hd. by split.
Qed.

Lemma runJob_spec w v w' :
  runJob Error env fuel job w = Some (v, w') ->
  sensor_undone (sensor w) (sensor w') /\ curRunHex w' = None /\
  (exists x, docker w' = docker w ++ x /\ (v <> Panic -> removed_all (actions x))) /\
  exists t, trace w' = trace w ++ StreamInstalled hexid :: t ++
                         [StreamClosed; ResultPosted hexid (scan_result Error env job v)] /\ body_trace v t.
Proof.
  intros H. unfold runJob in H. apply fmap_Some in H as ([v0 w0] & H & [= -> ->]).
  apply defer_Some in H as (w1 & H & ->).
  assert (body_spec v0 (log (StreamInstalled hexid) (setStreamer (Some hexid) w)) w1) as [Hs _ (t & Ht & Hb) Hd].
  { destruct (jb_Sandbox job) as [sb|] eqn:E; [by eapply run_sandbox_spec|by eapply run_cgroup_spec]. }
  cbn in *. split_and_all; [done|done|done|]. exists t. rewrite Ht, <- !app_assoc. done.
Qed.
End job_lemmas.

(** When every deletion succeeds nothing is left behind. *)
Lemma sensor_undone_exact env job s s' :
  sensor_undone env job s s' -> Sensor.sensor_inv s -> Sensor.fresh_paths (jb_WatchedPaths job) s ->
  Sensor.deletes_ok (je_add env) -> Sensor.deletes_ok (je_remove env) -> s' = s.
Proof.
  intros [_ H] Hinv Hf Ha Hr. destruct (H Hinv Hf) as (c & id & Hc & Hres).
  eapply Sensor.restored_exact; [exact Hres|]. by destruct Hc as [->| ->].
Qed.

(** C12: However a job ends, it is undone and reported exactly once.  On every path of
    [runJob] — a failing parent cgroup, a refused registration, a failed launch, a normal end,
    even a panic — the sensor's table of registered cgroups is as it was, no streamer is left installed,
    every container created was force-removed afterwards (a panic apart), and the effects are
    in the one safe order: the streamer is installed first; the cgroup is registered before
    the container is launched and deregistered after it is stopped; the streamer is closed
    after that; and the single result is posted last.  The kernel maps too are as they were,
    when nothing had been left in them and the watched prefixes were not in the filter,
    except for entries whose deletion failed; exactly as they were if none did. *)
Theorem runJob_undone Error env fuel job w v w' :
  runJob Error env fuel job w = Some (v, w') ->
  Sensor.registered (sensor w') = Sensor.registered (sensor w) /\ curRunHex w' = None /\
  (Sensor.sensor_inv (sensor w) -> Sensor.fresh_paths (jb_WatchedPaths job) (sensor w) ->
   (exists c id, (c = je_add env \/ c = je_remove env) /\
      Sensor.restored c id (jb_WatchedPaths job) (sensor w) (sensor w')) /\
   (Sensor.deletes_ok (je_add env) -> Sensor.deletes_ok (je_remove env) -> sensor w' = sensor w)) /\
  (exists x, docker w' = docker w ++ x /\ (v <> Panic -> removed_all (actions x))) /\
  exists t, trace w' = trace w ++ StreamInstalled (runIDHex job) :: t ++
              [StreamClosed; ResultPosted (runIDHex job) (scan_result Error env job v)] /\
    match v with
    | Completed => exists id, match jb_Sandbox job with
                     | None => t = [CgroupAdded id; CgroupRemoved id]
                     | Some _ => exists c, t = [CgroupAdded id; Launched c; Stopped c; CgroupRemoved id]
                     end
    | _ => t = [] \/ exists id, t = [CgroupAdded id; CgroupRemoved id]
    end.
Proof.
  intros H. destruct (runJob_spec _ _ _ _ _ _ _ H) as (Hs & Hc & Hd & t & Ht & Hb).
  split_and!; [apply Hs|done| |done|].
  { intros Hinv Hf. split; [by apply Hs|]. intros. by eapply sensor_undone_exact. }
  exists t. split; [done|].
  destruct Hb as [e|v id Hv|id Hn|id c Hn]; [by left|destruct v; try done; right; by exists id| |].
  - exists id. by rewrite Hn.
  - exists id. destruct (jb_Sandbox job); [by exists c|done].
Qed.

(** ** The poll loop *)
Definition posts (t : list Effect) : list string :=
  omap (fun e => match e with ResultPosted h _ => Some h | _ => None end) t.
Definition jobs (polls : list (Agent.Answer * JobEnv)) : list Job :=
  omap (fun p => match Agent.PollJob p.1 with Ok (Some j) => Some j | _ => None end) polls.

(** Every deletion of the job goes through. *)
Definition undoes (env : JobEnv) : Prop := Sensor.deletes_ok (je_add env) /\ Sensor.deletes_ok (je_remove env).

Lemma posts_app t u : posts (t ++ u) = posts t ++ posts u.
Proof. apply omap_app. Qed.

Lemma posts_body job v t : body_trace job v t -> posts t = [].
Proof. by destruct 1. Qed.

Lemma empty_sensor_fresh ws : Sensor.fresh_paths ws (Sensor.mkSensor ∅ ∅ ∅).
Proof. intros ws' k _ _. apply lookup_empty. Qed.

(** A runner that takes any number of jobs, one after the other, starts every one of them
    clean and reports every one of them once: from the empty sensor it starts with, after any
    sequence of polls no cgroup is registered and no streamer is installed, the kernel maps
    are empty if no deletion of any job failed, and the results posted are those of the jobs
    received, in order, one each (a panic ends the sequence after its own job's result). *)
Theorem poll_loop_clean Error fuel polls w crashed w' :
  Sensor.registered (sensor w) = ∅ -> curRunHex w = None ->
  poll_loop Error fuel polls w = Some (crashed, w') ->
  Sensor.registered (sensor w') = ∅ /\ curRunHex w' = None /\
  (sensor w = Sensor.mkSensor ∅ ∅ ∅ -> Forall (fun p => undoes p.2) polls -> sensor w' = Sensor.mkSensor ∅ ∅ ∅) /\
  exists n, posts (trace w') = posts (trace w) ++ take n (runIDHex <$> jobs polls) /\
    (crashed = false -> length (jobs polls) <= n).
Proof.
  revert w. induction polls as [|[a env] polls IH]; intros w Hs Hc H; simpl in H.
  { simplify_eq. split_and_all; [done..|]. exists 0. rewrite app_nil_r. split; [done|]. simpl. lia. }
  unfold jobs. simpl.
  destruct (Agent.PollJob a) as [[job|]|e].
  2,3: destruct (IH w Hs Hc H) as (? & ? & Hm & ?); split_and!; try done; intros He [_ Hf]%Forall_cons; by apply Hm.
  destruct (runJob _ _ _ _ _) as [[v w1]|] eqn:E; [|done].
  apply runJob_spec in E as (Hs1 & Hc1 & _ & t & Ht & Hb).
  assert (Hp : posts (trace w1) = posts (trace w) ++ [runIDHex job]).
  { rewrite Ht. change (?x :: t ++ ?l) with ([x] ++ t ++ l). by rewrite !posts_app, (posts_body _ _ _ Hb). }
  assert (Hm1 : sensor w = Sensor.mkSensor ∅ ∅ ∅ -> undoes env -> sensor w1 = Sensor.mkSensor ∅ ∅ ∅).
  { intros He [Ha Hr]. rewrite He in Hs1.
    eapply (sensor_undone_exact env job); [exact Hs1|apply Sensor.sensor_inv_empty|apply empty_sensor_fresh|done|done]. }
  destruct Hs1 as [Hr1 _]. rewrite Hs in Hr1.
  assert (Hgo : v <> Panic -> poll_loop Error fuel polls w1 = Some (crashed, w')) by (by destruct v).
  destruct (decide (v = Panic)) as [->|Hv].
  - simplify_eq. split_and!; [done|done|intros He [Hu _]%Forall_cons; by apply Hm1|]. exists 1. by rewrite Hp.
  - destruct (IH w1 Hr1 Hc1 (Hgo Hv)) as (H1 & H2 & Hm & n & Hn & Hlen).
    split_and!; [done..| |]. { intros He [Hu Hf]%Forall_cons. apply Hm; [by apply Hm1|done]. }
    exists (S n). rewrite Hn, Hp, <- app_assoc. split; [done|]. intros Hcr. apply le_n_S, Hlen, Hcr.
Qed.

(** ** The end of a job: lemmas *)
Record phase_inv (Error : error -> string) (sandboxed : bool) (p : Phase) : Prop := {
  pi_status : (ph_status p = ("ok", "") \/
     (exists r, ph_exit p = Some r /\ bad_exit r = true /\ ph_status p = ("failed", exit_reason Error r) /\
        ph_watch p <> Watching) \/
     (ph_status p).1 = "timeout" /\ ph_ctx p = Some Deadline);
  pi_checked : ph_main p = Checked true -> ph_ctx p = Some Deadline;
  pi_passed : ph_main p = Checked false \/ ph_main p = MainDone ->
     is_Some (ph_ctx p) /\ ((ph_status p).1 = "ok" -> ph_ctx p <> Some Deadline);
  pi_exited : ph_watch p = Exited \/ ph_ctx p = Some ContainerExit ->
     exists r, ph_exit p = Some r /\ (bad_exit r = true -> (ph_status p).1 <> "ok");
  pi_plain : sandboxed = false -> ph_exit p = None /\ ph_watch p = WatcherDone
}.

Lemma phase_start_inv Error sandboxed : phase_inv Error sandboxed (phase_start sandboxed).
Proof. split; try (by left); try done; simpl; [by intros [?|?]| |by intros ->]. destruct sandboxed; by intros [?|?]. Qed.

Lemma phase_step_inv Error sandboxed p p' :
  phase_inv Error sandboxed p -> phase_step Error sandboxed p p' -> phase_inv Error sandboxed p'.
Proof.
  intros [I1 I2 I3 I4 I5] H.
  destruct H as [p r Hsb Hx|p Hc|p Hc|p r Hw Hx|p Hw|p c Hw Hc|p c Hm Hc|p b Hm]; split; simpl; try done.
  - destruct I1 as [?|[(r' & ? & _)|?]]; [by left|congruence|by right; right].
  - intros Hor. destruct (I4 Hor) as (r' & ? & _). congruence.
  - by rewrite Hsb.
  - destruct I1 as [?|[?|[_ ?]]]; [by left|by right; left|congruence].
  - intros Hm. destruct (I3 Hm) as [[? ?] _]. congruence.
  - intros [?|?]; [apply I4; by left|done].
  - destruct I1 as [?|[?|[_ ?]]]; [by left|by right; left|congruence].
  - intros Hm. specialize (I2 Hm). congruence.
  - intros [?|?]; [apply I4; by left|done].
  - destruct (bad_exit r) eqn:Eb; [right; left; by exists r|].
    destruct I1 as [?|[(r' & ? & ? & _)|?]]; [by left|congruence|by right; right].
  - intros Hm. destruct (I3 Hm) as [? Hn]. split; [done|]. by destruct (bad_exit r).
  - intros _. exists r. split; [done|]. by intros ->.
  - intros ->. destruct (I5 eq_refl). congruence.
  - destruct I1 as [?|[(r' & ? & ? & ? & _)|[? E]]]; [by left|right; left; by exists r'|right; right; by rewrite E].
  - intros Hm. by rewrite (I2 Hm).
  - intros Hm. destruct (I3 Hm) as [[c E] Hn]. rewrite E in *. split; [done|exact Hn].
  - intros _. apply I4. by left.
  - intros Hs. split; [by apply I5|done].
  - destruct I1 as [?|[(r' & ? & ? & ? & _)|?]]; [by left|right; left; by exists r'|by right; right].
  - intros [?|?]; [done|apply I4; by right].
  - intros Hs. split; [by apply I5|done].
  - intros [=E]. apply andb_true_iff in E as [_ E]. by destruct c.
  - intros [[=E]|?]; [|done]. split; [by eexists|]. intros Hok Hd. rewrite Hc in Hd. injection Hd as ->.
    by rewrite bool_decide_true in E.
  - destruct b; [right; right; auto|done].
  - intros _. destruct b; [rewrite (I2 Hm); split; [by eexists|done]|auto].
  - intros Hor. destruct (I4 Hor) as (r & Hr & Hb). exists r. split; [done|]. by destruct b.
Qed.

Lemma phase_reachable_inv Error sandboxed p :
  rtc (phase_step Error sandboxed) (phase_start sandboxed) p -> phase_inv Error sandboxed p.
Proof.
  intros H. apply (rtc_ind_r (phase_inv Error sandboxed)) in H; [done|apply phase_start_inv|].
  intros ? ? _ ? ?. by eapply phase_step_inv.
Qed.

(** C27: The verdict on a job, whatever the interleaving of the container's exit, the watcher,
    the job's deadline and the runner's shutdown: "ok" is reported only when the container
    exited cleanly or the runner was shut down; "failed" only for a container that exited with
    a non-zero code or an error, with that exit's reason; "timeout" only when the job's
    duration ran out.  So a job without a sandbox, which by design runs for its duration, is
    "timeout" whenever the runner was not shut down. *)
Theorem job_verdict_sound Error sandboxed p :
  rtc (phase_step Error sandboxed) (phase_start sandboxed) p -> ph_main p = MainDone ->
  (ph_status p = ("ok", "") /\
     (ph_ctx p = Some Shutdown \/ exists r, ph_exit p = Some r /\ bad_exit r = false /\ ph_ctx p = Some ContainerExit) \/
   (exists r, ph_exit p = Some r /\ bad_exit r = true /\ ph_status p = ("failed", exit_reason Error r)) \/
   (ph_status p).1 = "timeout" /\ ph_ctx p = Some Deadline) /\
  (sandboxed = false -> ph_ctx p <> Some Shutdown -> (ph_status p).1 = "timeout").
Proof.
  intros Hr Hm. destruct (phase_reachable_inv Error sandboxed p Hr) as [I1 I2 I3 I4 I5].
  destruct (I3 (or_intror Hm)) as [[c Hc] Hn]. assert (Hp : sandboxed = false -> c <> ContainerExit).
  { intros Hs ->. destruct (I4 (or_intror Hc)) as (r & Hx & _). destruct (I5 Hs). congruence. }
  split.
  - destruct I1 as [E|[(r & Hx & Hb & E & _)|Ht]]; [left|right; left; by exists r|by right; right].
    split; [done|]. destruct c; [|by left|].
    + exfalso. apply Hn; [by rewrite E|done].
    + right. destruct (I4 (or_intror Hc)) as (r & Hx & Hb). exists r. split; [done|]. split; [|done].
      destruct (bad_exit r); [|done]. exfalso. apply Hb; [done|by rewrite E].
  - intros Hs Hsd. destruct I1 as [E|[(r & Hx & _)|[Ht _]]]; [| |done].
    + exfalso. destruct c; [apply Hn; [by rewrite E|done]|by apply Hsd|by apply (Hp Hs)].
    + destruct (I5 Hs). congruence.
Qed.

(** A container that exits with code 3 before the deadline. *)
Definition wit_exit : WaitResult := mkWaitResult 3 None.
Definition wit_text (e : error) : string := "error".
Definition wit_phase : Phase :=
  mkPhase ("failed", exit_reason wit_text wit_exit) (Some wit_exit) (Some ContainerExit) WatcherDone MainDone.

Lemma wit_phase_reachable : rtc (phase_step wit_text true) (phase_start true) wit_phase.
Proof.
  eapply rtc_l; [apply (ps_exit _ _ _ wit_exit); done|]. eapply rtc_l; [by apply (ps_watch_exit _ _ _ wit_exit)|].
  eapply rtc_l; [by apply ps_watch_cancel|]. eapply rtc_l; [by apply (ps_check _ _ _ ContainerExit)|].
  eapply rtc_l; [by apply (ps_set _ _ _ false)|]. reflexivity.
Qed.

Lemma job_verdict_sound_witness : exists r, ph_exit wit_phase = Some r /\ bad_exit r = true.
Proof.
  destruct (job_verdict_sound wit_text true wit_phase wit_phase_reachable eq_refl) as [[[E _]|[(r & H1 & H2 & _)|[E _]]] _].
  - discriminate E.
  - by exists r.
  - discriminate E.
Defined.

(** ** What the orchestrator records *)

Definition sandboxed (job : Job) : bool := match jb_Sandbox job with Some _ => true | None => false end.

(** The status of a result whose ending is a reachable one. *)
Lemma scan_result_status Error env job p v :
  rtc (phase_step Error (sandboxed job)) (phase_start (sandboxed job)) p ->
  je_ending env = ph_status p -> sr_Status (scan_result Error env job v) ∈ ["ok"; "failed"; "timeout"].
Proof.
  intros Hr He. apply phase_reachable_inv in Hr as [I1 _ _ _ _]. unfold scan_result. simpl.
  destruct v; simpl; [set_solver| |set_solver]. rewrite He.
  destruct I1 as [->|[(r & _ & _ & -> & _)|[-> _]]]; set_solver.
Qed.

(** C17: The runner's report is always one the orchestrator takes, and its verdict is the run's
    final state: for a known run, posting the result of any job — however it ended — is
    answered 200 and moves exactly that run to done for "ok" and to failed otherwise, with the
    result's reason (a blank one keeps the reason the run had) and the number of events the
    streamer sent. *)
Theorem job_result_recorded Error env fuel job w v w' p now (s : Api.Server Sqlite.Sqlite.DB) d run :
  rtc (phase_step Error (sandboxed job)) (phase_start (sandboxed job)) p ->
  je_ending env = ph_status p ->
  runJob Error env fuel job w = Some (v, w') ->
  SqliteSpec.SqliteSpec.wf d -> Api.store s = Some d ->
  Sql.tbl Storage.Run_ID (Sqlite.Sqlite.runs d) !! runIDHex job = Some run -> jb_RunID job <> [] ->
  let r := scan_result Error env job v in
  last (trace w') = Some (ResultPosted (runIDHex job) r) /\
  sr_Reason r = (match v with Failed e => Error e | Completed => (ph_status p).2 | Panic => "" end) /\
  let '(resp, s') := Api.handleScanResult (runIDHex job) (Ok r) now s in
  resp = Api.mkResponse 200 (Api.RecordedB true) /\
  exists d' run', Api.store s' = Some d' /\
    d' = Sqlite.Sqlite.set_runs (Sqlite.Sqlite.runs d') d /\
    Sql.tbl Storage.Run_ID (Sqlite.Sqlite.runs d') =
      <[runIDHex job := run']> (Sql.tbl Storage.Run_ID (Sqlite.Sqlite.runs d)) /\
    Storage.Run_State run' = (if decide (sr_Status r = "ok") then Storage.RunStateDone else Storage.RunStateFailed) /\
    Storage.Run_FailureReason run' =
      (if decide (sr_Reason r = "") then Storage.Run_FailureReason run else sr_Reason r) /\
    Storage.Run_FinishedAt run' = Some now /\
    Storage.Run_EventsEmitted run' = wrapS 64 (Agent.EventsSent (Agent.stats (je_stream env))).
Proof.
  intros Hr He H Hwf Hst Hrun Hid. cbv zeta. split.
  { unfold runJob in H. apply fmap_Some in H as ([v0 w0] & _ & [= -> ->]). simpl. apply last_snoc. }
  split; [by destruct v; simpl; rewrite ?He|].
  pose proof (Api.handleScanResult_spec (runIDHex job) (Ok (scan_result Error env job v)) now s d Hwf Hst) as Hs.
  destruct (Api.handleScanResult _ _ _ _) as [resp s'].
  rewrite decide_True, Hrun in Hs.
  2: { split; [|by eapply scan_result_status]. by destruct (hex_is_name (jb_RunID job) Hid) as (_ & ? & _). }
  destruct Hs as (-> & d' & run' & H1 & H0 & H2 & H3 & Hf & H4 & H5). split; [done|]. by exists d', run'.
Qed.

(** ** The parent cgroup of a job *)
Section cgroups.
Context (Error : error -> string) (env : JobEnv) (fuel : nat) (job : Job) (r : string) (es : list string).
Context (Hroot : cgroupV2Root (je_mountinfo env) = Ok (path_of (r :: es))) (Hnames : Forall is_name (r :: es)).
Context (Hid : jb_RunID job <> []).
Let fangs : string := path_of (r :: es) +:+ "/fangs".
Let abs : string := path_of (r :: es) +:+ "/fangs/" +:+ runIDHex job.

(** From [t] the tree [t'] keeps no directory of the run. *)
Definition tree_undone (t t' : Tree) : Prop :=
  (forall p, p <> fangs -> p <> abs -> t' !! p = t !! p) /\ t' !! abs = None.

Lemma add_cgroup_tree id w : tree (add_cgroup env job id w).2 = tree w.
Proof. unfold add_cgroup. by destruct (Sensor.AddCgroup _ _ _) as [[]]. Qed.

Lemma run_sandbox_tree sb w v w' :
  tree w !! abs = None -> (exists i, i < 20 /\ je_busy env i = false) ->
  run_sandbox env fuel job sb w = Some (v, w') ->
  tree_undone (tree w) (tree w') \/ ((exists e, v = Failed (Wrapf "AddCgroup" e)) /\ je_busy env 0 = true).
Proof.
  intros Ht (i & Hi & Hb). unfold run_sandbox.
  destruct (CreateParentCgroup _ _ _ _) as [res t] eqn:E.
  apply (CreateParentCgroup_outcome _ r es _ _ Hroot Hnames) in E as [Ho Hr]; [|by apply hex_is_name].
  fold fangs abs in Ho, Hr. destruct res as [[[rel path] id]|e].
  2: { intros [= <- <-]. left. split; [done|]. simpl. congruence. }
  destruct Hr as (-> & -> & Hin & _). pose proof (add_cgroup_tree id (set_tree t w)) as Ha.
  destruct (add_cgroup env job id (set_tree t w)) as [[[]|e] w1]; simpl in Ha.
  - intros (w0 & H & ->)%defer_Some. left. assert (tree w0 = t) as Hw0.
    { destruct (Launch _ _ _ _ _ _ _ _ _ _) as [[[[h|e]|] x]|]; [|by simplify_eq..|done].
      by apply defer_Some in H as (w2 & [= _ <-] & ->). }
    cbn [set_tree tree remove_cgroup log set_sensor]. rewrite Hw0. split.
    + intros p H1 H2. rewrite rmdir_retry_lookup by done. auto.
    + apply rmdir_retry_gone. exists i. split; [lia|done].
  - intros [= <- <-]. cbn [set_tree tree]. rewrite Ha. unfold RemoveParentCgroup. fold abs.
    destruct (je_busy env 0) eqn:E0; [right; eauto|left]. rewrite Hin. split; simpl.
    + intros p H1 H2. rewrite lookup_delete_ne by done. auto.
    + apply lookup_delete_eq.
Qed.

(** A job leaves no cgroup directory behind: when the kernel lets one of the twenty rmdir
    attempts through, every path of [runJob] leaves the hierarchy as it was — the shared fangs
    directory apart — with no directory of the run; the one exception is a refused
    registration, which tries to remove the directory only once. *)
Theorem runJob_rmdir w v w' :
  tree w !! abs = None -> (exists i, i < 20 /\ je_busy env i = false) ->
  runJob Error env fuel job w = Some (v, w') ->
  tree_undone (tree w) (tree w') \/ ((exists e, v = Failed (Wrapf "AddCgroup" e)) /\ je_busy env 0 = true).
Proof.
  intros Ht Hb H. unfold runJob in H. apply fmap_Some in H as ([v0 w0] & H & [= -> ->]).
  apply defer_Some in H as (w1 & H & ->). cbn [tree log setStreamer].
  destruct (jb_Sandbox job) as [sb|]; [by apply run_sandbox_tree in H|].
  left. assert (tree w1 = tree w) as ->; [|by split].
  unfold run_cgroup in H. destruct (je_inode env _) as [id|]; [|by simplify_eq].
  pose proof (add_cgroup_tree id (log (StreamInstalled (runIDHex job)) (setStreamer (Some (runIDHex job)) w))) as Ha.
  destruct (add_cgroup _ _ _ _) as [[[]|e] w2]; [|by simplify_eq].
  by apply defer_Some in H as (w3 & [= _ <-] & ->).
Qed.
End cgroups.

(** ** A concrete job *)
Definition wit_env : JobEnv :=
  mkJobEnv (wit_daemon "running") (fun _ => false) wit_mounts wit_proc wit_stat wit_timeline wit_timeline
    (fun _ => Ok 7%Z) (fun i => i <? 3) Sensor.all_ok Sensor.all_ok (fun _ => Ok 9%Z)
    (ph_status wit_phase) (Agent.NewEventStreamer ["171"%char]) [2; 3]%Z 5.
Definition wit_job : Job :=
  mkJob ["171"%char] "scan" "p" "1" "" [mkWatchedPath "/proj" false] 5 0 (Some wit_spec).
Definition wit_world : World := mkWorld (Sensor.mkSensor ∅ ∅ ∅) ∅ [] None [].
Definition wit_run_job : option (verdict * World) := runJob wit_text wit_env 10 wit_job wit_world.

Lemma wit_completes : exists w', wit_run_job = Some (Completed, w').
Proof. eexists. vm_compute. reflexivity. Qed.

Lemma runJob_undone_witness : exists w',
  wit_run_job = Some (Completed, w') /\ sensor w' = Sensor.mkSensor ∅ ∅ ∅ /\
  exists t, trace w' = StreamInstalled "ab" :: t ++ [StreamClosed; ResultPosted "ab" (scan_result wit_text wit_env wit_job Completed)].
Proof.
  destruct wit_completes as [w' E]. exists w'. split; [done|].
  destruct (runJob_undone wit_text wit_env 10 wit_job wit_world Completed w' E) as (_ & _ & Hs & _ & t & Ht & _).
  split; [|by exists t]. destruct (Hs Sensor.sensor_inv_empty (empty_sensor_fresh _)) as [_ He]. by apply He.
Defined.

Lemma runJob_rmdir_witness : exists w', wit_run_job = Some (Completed, w') /\
  tree_undone wit_job "sys" ["fs"; "cgroup"] ∅ (tree w').
Proof.
  destruct wit_completes as [w' E]. exists w'. split; [done|].
  assert (Hb : exists i, i < 20 /\ je_busy wit_env i = false) by (exists 3; split; [lia|done]).
  destruct (runJob_rmdir wit_text wit_env 10 wit_job "sys" ["fs"; "cgroup"] eq_refl
    ltac:(repeat constructor; discriminate) ltac:(discriminate) wit_world Completed w' eq_refl
    Hb E) as [H|[[e H] _]]; [exact H|discriminate H].
Defined.

Lemma poll_loop_clean_witness : exists w',
  poll_loop wit_text 10 [(Ok (Api.mkResponse 204 Api.NoBody), wit_env); (Ok (Api.mkResponse 200 (Api.JobB wit_job)), wit_env)]
    wit_world = Some (false, w') /\ sensor w' = Sensor.mkSensor ∅ ∅ ∅.
Proof.
  destruct wit_completes as [w' E]. exists w'. assert (H : poll_loop wit_text 10
    [(Ok (Api.mkResponse 204 Api.NoBody), wit_env); (Ok (Api.mkResponse 200 (Api.JobB wit_job)), wit_env)]
    wit_world = Some (false, w')).
  { transitivity (match wit_run_job with
                  | None => None | Some (Panic, w) => Some (true, w) | Some (_, w) => Some (false, w)
                  end); [reflexivity|]. by rewrite E. }
  split; [done|]. destruct (poll_loop_clean _ _ _ wit_world _ _ eq_refl eq_refl H) as (_ & _ & Hm & _).
  apply Hm; [done|]. by repeat constructor.
Defined.

Definition wit_db : Sqlite.Sqlite.DB :=
  Sqlite.Sqlite.set_runs [Storage.new_run "ab" "p" "1" Storage.RunStatePending 1] Sqlite.Sqlite.empty_db.
Lemma wit_runner_db_wf : SqliteSpec.SqliteSpec.wf wit_db.
Proof.
  split; try apply NoDup_nil_2; try apply Forall_nil_2; try done; simpl.
  - apply NoDup_singleton.
  - by repeat constructor.
Qed.

Lemma job_result_recorded_witness : exists w' r resp s' d' run',
  wit_run_job = Some (Completed, w') /\ last (trace w') = Some (ResultPosted "ab" r) /\
  Api.handleScanResult "ab" (Ok r) 9 (Api.New "" "" [] (Some wit_db)) = (resp, s') /\
  Api.store s' = Some d' /\ Sql.tbl Storage.Run_ID (Sqlite.Sqlite.runs d') !! "ab" = Some run' /\
  Storage.Run_State run' = Storage.RunStateFailed /\
  Storage.Run_FailureReason run' = "container exit_code=3 err=<nil>".
Proof.
  destruct wit_completes as [w' E]. exists w'.
  destruct (job_result_recorded wit_text wit_env 10 wit_job wit_world Completed w' wit_phase 9
    (Api.New "" "" [] (Some wit_db)) wit_db _ wit_phase_reachable eq_refl E wit_runner_db_wf eq_refl eq_refl
    ltac:(discriminate)) as (Hr & _ & H).
  exists (scan_result wit_text wit_env wit_job Completed). change (runIDHex wit_job) with "ab" in *.
  destruct (Api.handleScanResult _ _ _ _) as [resp s'] eqn:Es.
  destruct H as (_ & d' & run' & Hd & _ & Ht & Hstate & Hreason & _). exists resp, s', d', run'.
  split_and!; [exact E|exact Hr|reflexivity|exact Hd| |rewrite Hstate; reflexivity|rewrite Hreason; reflexivity].
  rewrite Ht. apply lookup_insert_eq.
Defined.

End Runner.
