(* ===== verification/Watcher.v ===== *)
(** * watcher: release polling

    internal/orchestrator/watcher: npm.go (the registry client, over the HTTP
    exchange and the JSON decoder) and watcher.go (one poll cycle).  The
    registry, the clock and the submit callback are arguments; the log of the
    submissions made is kept beside the state. *)
From stdpp Require Import prelude strings gmap list sorting.
From S2P Require Import Prelude GoTime Json Sql Storage Sqlite SqliteSpec Proto.

Module Watcher.
Import (hints) SqliteSpec.SqliteSpec.

(** ** The registry client *)
Record PackageVersion : Type := mkPackageVersion {
  pv_Name : string; pv_Version : string; pv_TarballSHA : string; pv_Integrity : string;
  pv_PublishedAt : time
}.

Definition ErrPackageNotFound : error := Sentinel "watcher: package not found on registry".
Definition ErrVersionNotFound : error := Sentinel "watcher: version not found for package".

Record npmDist : Type := mkNpmDist { di_Tarball : string; di_SHASum : string; di_Integrity : string }.
Record npmMetadata : Type := mkNpmMetadata {
  md_Latest : string; md_Versions : gmap string npmDist; md_Time : gmap string string
}.

Section registry.
Context (get : string -> res (Z * string))              (* the HTTP exchange: status and body *)
        (decode : string -> option npmMetadata)
        (parse_time : string -> option time).           (* time.Parse(RFC3339) *)

Definition baseURL : string := "https://registry.npmjs.org".

Definition fetchMetadata (packageName : string) : res npmMetadata :=
  match get (baseURL +:+ "/" +:+ packageName) with
  | Err e => Err (Wrapf "GET" e)
  | Ok (code, body) =>
      if (code =? 404)%Z then Err ErrPackageNotFound
      else if negb (code =? 200)%Z then Err (Errorf "registry returned an error status")
      else match decode body with
           | Some m => Ok m
           | None => Err (Wrapf "decode metadata" (Errorf "json"))
           end
  end.

Definition Resolve (packageName version : string) : res PackageVersion :=
  meta ← fetchMetadata packageName;
  let target := if decide (version = "") then md_Latest meta else version in
  if decide (target = "") then Err (Errorf "registry returned no dist-tags.latest") else
  match md_Versions meta !! target with
  | None => Err (Wrapf "version" ErrVersionNotFound)
  | Some vd => Ok (mkPackageVersion packageName target (di_SHASum vd) (di_Integrity vd)
                     (default zero_time (md_Time meta !! target ≫= parse_time)))
  end.

Definition LatestVersion (packageName : string) : res PackageVersion := Resolve packageName "".
End registry.

(** ** One poll cycle *)
Record World (S X : Type) : Type := mkWorld {
  w_store : S;
  w_server : X;                            (* what else [Submit] acts on *)
  w_log : list (string * string)           (* the submissions made *)
}.
Arguments mkWorld {S X}. Arguments w_store {S X}. Arguments w_server {S X}. Arguments w_log {S X}.

Definition default_interval (d : duration) : duration := if (d <=? 0)%Z then (5 * Minute)%Z else d.

Section poll.
Context {S X : Type} `{Backend S}.
Context (latest : string -> res PackageVersion)
        (submit : string -> string -> M (S * X) string) (now : time).

Definition pollPackage (p : WatchedPackage) (w : World S X) : World S X :=
  match latest (Wp_Name p) with
  | Err _ => w
  | Ok v =>
      let st := (UpdatePackageCheck now (Wp_Name p) (pv_Version v) (w_store w)).2 in
      if decide (pv_Version v = Wp_LastSeenVersion p) then mkWorld st (w_server w) (w_log w) else
      let st := (RecordRelease (mkReleaseRow (Wp_Name p) (pv_Version v) (pv_TarballSHA v) (pv_Integrity v)
                                  (pv_PublishedAt v) now) st).2 in
      let '(_, (st, x)) := submit (Wp_Name p) (pv_Version v) (st, w_server w) in
      mkWorld st x (w_log w ++ [(Wp_Name p, pv_Version v)])
  end.

(** [alive i] tells whether the context is still live before the [i]-th
    package. *)
Fixpoint poll_all (alive : nat -> bool) (i : nat) (pkgs : list WatchedPackage) (w : World S X) : World S X :=
  match pkgs with
  | [] => w
  | p :: pkgs' => if alive i then poll_all alive (Datatypes.S i) pkgs' (pollPackage p w) else w
  end.

Definition PollOnce (alive : nat -> bool) (w : World S X) : World S X :=
  match ListWatchedPackages (w_store w) with
  | (Err _, st) => mkWorld st (w_server w) (w_log w)
  | (Ok pkgs, st) => poll_all alive 0 pkgs (mkWorld st (w_server w) (w_log w))
  end.
End poll.

(** ** Scan parameters *)
Definition wp (prefix : string) : WatchedPath := mkWatchedPath prefix false.
Definition cred (prefix : string) : WatchedPath := mkWatchedPath prefix true.
Definition DefaultWatchedPaths : list WatchedPath :=
  [wp "/etc/"; cred "/etc/shadow"; cred "/etc/passwd"; wp "/root/"; cred "/root/.ssh/"; cred "/root/.aws/";
   cred "/root/.npmrc"; cred "/root/.docker/"; cred "/root/.kube/"; cred "/root/.gnupg/";
   cred "/proc/self/environ"; wp "/tmp/"; wp "/usr/"; wp "/dev/"].

Definition BuildSandboxScan (packageName version : string) : SandboxSpec :=
  mkSandboxSpec "node:20-slim"
    ["sh"; "-c";
     "cd /tmp && mkdir -p test && cd test && " +:+ "npm init -y >/dev/null 2>&1 && " +:+
     "npm install " +:+ packageName +:+ "@" +:+ version +:+ " 2>&1 | tail -3; " +:+ "sleep 2"]
    [] "" "0:0" "bridge" 0 0 0 "missing" (2 * Second)%Z "".

(** ** What a cycle does on the SQLite backend *)
Section spec.
Context {X : Type} (latest : string -> res PackageVersion)
        (submit : string -> string -> M (Sqlite.DB * X) string).
(** A submission does not touch the watch list. *)
Context (submit_packages : forall n v d x,
           Sqlite.packages (submit n v (d, x)).2.1 = Sqlite.packages d).
Context (latest_nonempty : forall n v, latest n = Ok v -> pv_Version v <> "").

(** The packages with a version not seen before, and that version. *)
Definition new_release (p : WatchedPackage) : option (string * string) :=
  match latest (Wp_Name p) with
  | Ok v => if decide (pv_Version v = Wp_LastSeenVersion p) then None else Some (Wp_Name p, pv_Version v)
  | Err _ => None
  end.

Definition seen (now : time) (p : WatchedPackage) : WatchedPackage :=
  match latest (Wp_Name p) with Ok v => Sqlite.checked now (pv_Version v) p | Err _ => p end.

Lemma pollPackage_log now p (w : World Sqlite.DB X) :
  w_log (pollPackage latest submit now p w) = w_log w ++ from_option (fun x => [x]) [] (new_release p).
Proof.
  unfold pollPackage, new_release. destruct (latest (Wp_Name p)) as [v|]; [|by rewrite app_nil_r].
  case_decide; [by rewrite app_nil_r|]. by destruct (submit _ _ _) as [r [st x]].
Qed.

Lemma record_release_packages r (d : Sqlite.DB) : Sqlite.packages (RecordRelease r d).2 = Sqlite.packages d.
Proof. simpl. unfold Sqlite.RecordRelease. case_decide; [|done]. by destruct (insert_unique _ _ _). Qed.

Lemma pollPackage_packages now p (w : World Sqlite.DB X) :
  Sqlite.packages (w_store (pollPackage latest submit now p w)) =
  (fun q => if decide (Wp_Name q = Wp_Name p) then seen now q else q) <$> Sqlite.packages (w_store w).
Proof.
  unfold pollPackage, seen. destruct (latest (Wp_Name p)) as [v|e] eqn:E.
  2:{ rewrite <- (list_fmap_id (Sqlite.packages (w_store w))) at 1. apply list_fmap_ext.
      intros i q _. simpl. case_decide as Hq; [by rewrite Hq, E|done]. }
  assert (Hu : Sqlite.packages (UpdatePackageCheck now (Wp_Name p) (pv_Version v) (w_store w)).2 =
    (fun q => if decide (Wp_Name q = Wp_Name p) then
       match latest (Wp_Name q) with Ok v => Sqlite.checked now (pv_Version v) q | Err _ => q end else q) <$>
    Sqlite.packages (w_store w)).
  { simpl. unfold update. apply list_fmap_ext. intros i q _. case_decide as Hq; [by rewrite Hq, E|done]. }
  case_decide; [exact Hu|].
  pose proof (submit_packages (Wp_Name p) (pv_Version v)
    (RecordRelease (mkReleaseRow (Wp_Name p) (pv_Version v) (pv_TarballSHA v) (pv_Integrity v) (pv_PublishedAt v) now)
      (UpdatePackageCheck now (Wp_Name p) (pv_Version v) (w_store w)).2).2 (w_server w)) as Hs.
  destruct (submit _ _ _) as [r [st x]]. simpl in Hs. cbn [w_store].
  by rewrite Hs, record_release_packages.
Qed.

Lemma poll_all_log now pkgs i (w : World Sqlite.DB X) :
  w_log (poll_all latest submit now (fun _ => true) i pkgs w) = w_log w ++ omap new_release pkgs.
Proof.
  revert i w. induction pkgs as [|p pkgs IH]; intros i w; simpl; [by rewrite app_nil_r|].
  rewrite IH, pollPackage_log, <- (assoc app). by destruct (new_release p).
Qed.

Lemma poll_all_packages now pkgs i (w : World Sqlite.DB X) :
  NoDup (Wp_Name <$> pkgs) ->
  Sqlite.packages (w_store (poll_all latest submit now (fun _ => true) i pkgs w)) =
  (fun q => if decide (Wp_Name q ∈ Wp_Name <$> pkgs) then seen now q else q) <$> Sqlite.packages (w_store w).
Proof.
  revert i w. induction pkgs as [|p pkgs IH]; intros i w Hnd; simpl.
  { by rewrite <- (list_fmap_id (Sqlite.packages (w_store w))) at 1. }
  rewrite fmap_cons, NoDup_cons in Hnd. destruct Hnd as [Hp Hnd].
  rewrite IH, pollPackage_packages, <- list_fmap_compose by done. apply list_fmap_ext. intros j q _. simpl.
  assert (Hseen : Wp_Name (seen now q) = Wp_Name q) by (unfold seen; by destruct (latest _)).
  destruct (decide (Wp_Name q = Wp_Name p)) as [Eq|Hne].
  - rewrite Hseen, Eq. rewrite decide_False by done. rewrite decide_True; [done|]. by left.
  - destruct (decide (Wp_Name q ∈ Wp_Name <$> pkgs)).
    + rewrite decide_True; [done|by right].
    + rewrite decide_False; [done|]. rewrite elem_of_cons. tauto.
Qed.

Lemma seen_no_release now p : new_release (seen now p) = None.
Proof.
  unfold new_release, seen. destruct (latest (Wp_Name p)) as [v|e] eqn:E; simpl; rewrite E; [|done].
  rewrite decide_True; [done|]. rewrite decide_False; [done|]. by eapply latest_nonempty.
Qed.

Lemma omap_none {A B} (f : A -> option B) (l : list A) : (forall x, x ∈ l -> f x = None) -> omap f l = [].
Proof.
  induction l as [|x l IH]; intros Hf; [done|]. simpl. rewrite Hf by (by left). apply IH. intros y Hy. apply Hf. by right.
Qed.

(** A release is submitted once — and only once, whatever comes of it.  A
    complete cycle submits exactly the watched packages whose latest version
    differs from the last one seen, each with that version, in name order;
    the next cycle against the same registry submits nothing.  The second
    half does not depend on the submissions' results: a release whose
    submission failed is not tried again. *)
Theorem PollOnce_submits_once now now' (w : World Sqlite.DB X) :
  SqliteSpec.wf (w_store w) ->
  let w1 := PollOnce latest submit now (fun _ => true) w in
  let w2 := PollOnce latest submit now' (fun _ => true) w1 in
  w_log w1 = w_log w ++ omap new_release (order_by (key_le Wp_Name) (Sqlite.packages (w_store w))) /\
  w_log w2 = w_log w1.
Proof.
  intros Hwf. unfold PollOnce. cbn [ListWatchedPackages SqliteSpec.sqlite_backend Sqlite.ListWatchedPackages].
  set (pkgs := order_by (key_le Wp_Name) (Sqlite.packages (w_store w))).
  set (w0 := mkWorld (w_store w) (w_server w) (w_log w)).
  assert (Hperm : pkgs ≡ₚ Sqlite.packages (w_store w)) by apply order_by_perm.
  assert (Hnd : NoDup (Wp_Name <$> pkgs)) by (rewrite Hperm; apply Hwf).
  cbv zeta. split; [apply (poll_all_log now pkgs 0 w0)|].
  rewrite (poll_all_log now' (order_by (key_le Wp_Name) (Sqlite.packages (w_store (poll_all latest submit now
    (fun _ => true) 0 pkgs w0))))). rewrite omap_none, app_nil_r; [done|].
  intros p Hp. rewrite order_by_perm, poll_all_packages in Hp by done. simpl w_store in Hp.
  apply list_elem_of_fmap in Hp as (q & -> & Hq). rewrite decide_True; [apply seen_no_release|].
  rewrite Hperm. by apply list_elem_of_fmap_2.
Qed.
End spec.

(** ** The loop *)

(** A poll: what the registry says, the clock, and whether the context is
    still live before each package. *)
Record Poll : Type := mkPoll {
  po_latest : string -> res PackageVersion;
  po_now : time;
  po_alive : nat -> bool
}.

(** One poll at once, then one per tick until the context ends. *)
Definition Run {S X : Type} `{Backend S} (submit : string -> string -> M (S * X) string) (polls : list Poll) (w : World S X) :
    World S X :=
  foldl (fun w po => PollOnce (po_latest po) submit (po_now po) (po_alive po) w) w polls.

(** What there is to submit of a package: the answers that differ from the
    version seen before them. *)
Fixpoint changes (last : string) (answers : list (res PackageVersion)) : list string :=
  match answers with
  | [] => []
  | Err _ :: l => changes last l
  | Ok v :: l => (if decide (pv_Version v = last) then [] else [pv_Version v]) ++ changes (pv_Version v) l
  end.

Definition submitted {S X} (name : string) (w : World S X) : list string :=
  snd <$> filter (fun s => s.1 = name) (w_log w).

Section run.
Context {X : Type} (submit : string -> string -> M (Sqlite.DB * X) string).
Context (submit_packages : forall n v d x, Sqlite.packages (submit n v (d, x)).2.1 = Sqlite.packages d).

Lemma releases_of latest p (l : list WatchedPackage) :
  NoDup (Wp_Name <$> l) -> p ∈ l ->
  snd <$> filter (fun s => s.1 = Wp_Name p) (omap (new_release latest) l) = snd <$> from_option (fun x => [x]) [] (new_release latest p).
Proof.
  assert (forall q x, new_release latest q = Some x -> x.1 = Wp_Name q) as Hname.
  { intros q x. unfold new_release. destruct (latest (Wp_Name q)); [|done]. case_decide; [done|]. by intros [= <-]. }
  assert (forall l, Wp_Name p ∉ Wp_Name <$> l -> filter (fun s => s.1 = Wp_Name p) (omap (new_release latest) l) = []) as Hout.
  { intros l' Hn. apply filter_none, Forall_forall. intros x Hx E. apply list_elem_of_omap in Hx as (q & Hq & Eq).
    apply Hn. rewrite <- E, (Hname _ _ Eq). by apply list_elem_of_fmap_2. }
  intros Hnd Hp. induction l as [|q l IH]; [by apply not_elem_of_nil in Hp|].
  rewrite fmap_cons, NoDup_cons in Hnd. destruct Hnd as [Hq Hnd].
  apply elem_of_cons in Hp as [<-|Hp]; cbn [omap list_omap].
  - destruct (new_release latest p) as [x|] eqn:E; [|by rewrite Hout].
    rewrite filter_cons_True by (by apply (Hname p)). by rewrite Hout.
  - destruct (new_release latest q) as [x|] eqn:E; [|by apply IH]. rewrite filter_cons_False; [by apply IH|].
    rewrite (Hname q x E). intros En. apply Hq. rewrite En. by apply list_elem_of_fmap_2.
Qed.

(** One complete poll. *)
Lemma PollOnce_complete latest now (w : World Sqlite.DB X) :
  NoDup (Wp_Name <$> Sqlite.packages (w_store w)) ->
  let w' := PollOnce latest submit now (fun _ => true) w in
  Sqlite.packages (w_store w') = seen latest now <$> Sqlite.packages (w_store w) /\
  w_log w' = w_log w ++ omap (new_release latest) (order_by (key_le Wp_Name) (Sqlite.packages (w_store w))).
Proof.
  intros Hnd. cbv zeta. unfold PollOnce. cbn [ListWatchedPackages SqliteSpec.sqlite_backend Sqlite.ListWatchedPackages].
  set (pkgs := order_by (key_le Wp_Name) (Sqlite.packages (w_store w))).
  set (w0 := mkWorld (w_store w) (w_server w) (w_log w)).
  assert (Hperm : pkgs ≡ₚ Sqlite.packages (w_store w)) by apply order_by_perm. split.
  - etrans; [apply (poll_all_packages latest submit submit_packages now pkgs 0 w0); by rewrite Hperm|].
    apply list_fmap_ext. intros i q Hq. rewrite decide_True; [done|]. rewrite Hperm. eapply list_elem_of_fmap_2, list_elem_of_lookup_2, Hq.
  - apply (poll_all_log latest submit now pkgs 0 w0).
Qed.

(** C13: the watcher's loop follows the registry.  However often it polls and
    however the registry's answers change between the polls, what a complete
    loop submits of a watched package is, in order, each version that differs
    from the version seen just before it: nothing twice in a row, nothing for
    a failed lookup, and nothing missed. *)
Theorem Run_follows_registry polls (w : World Sqlite.DB X) p :
  (forall po n v, po ∈ polls -> po_latest po n = Ok v -> pv_Version v <> "") ->
  (forall po, po ∈ polls -> po_alive po = (fun _ => true)) ->
  SqliteSpec.wf (w_store w) -> p ∈ Sqlite.packages (w_store w) ->
  submitted (Wp_Name p) (Run submit polls w) =
    submitted (Wp_Name p) w ++ changes (Wp_LastSeenVersion p) ((fun po => po_latest po (Wp_Name p)) <$> polls).
Proof.
  intros Hne Hal Hwf. assert (NoDup (Wp_Name <$> Sqlite.packages (w_store w))) as Hnd by apply Hwf. clear Hwf. revert w p Hnd.
  induction polls as [|po polls IH]; intros w p Hnd Hp; [by rewrite app_nil_r|].
  cbn [Run foldl fmap list_fmap]. rewrite (Hal po) by left.
  destruct (PollOnce_complete (po_latest po) (po_now po) w Hnd) as [Hpk Hlog].
  set (w1 := PollOnce (po_latest po) submit (po_now po) (fun _ => true) w) in *.
  assert (forall q, Wp_Name (seen (po_latest po) (po_now po) q) = Wp_Name q) as Hname
    by (intros q; unfold seen; by destruct (po_latest po (Wp_Name q))).
  specialize (IH (fun po' n v Hin => Hne po' n v (list_elem_of_further _ _ _ Hin))
    (fun po' Hin => Hal po' (list_elem_of_further _ _ _ Hin)) w1 (seen (po_latest po) (po_now po) p)).
  rewrite Hname in IH. change (foldl _ w1 polls) with (Run submit polls w1). rewrite IH; clear IH.
  2:{ rewrite Hpk, <- list_fmap_compose. by rewrite (list_fmap_ext _ Wp_Name) by (intros; apply Hname). }
  2:{ rewrite Hpk. by apply list_elem_of_fmap_2. }
  unfold submitted at 1. rewrite Hlog, filter_app, fmap_app, releases_of; [|by rewrite order_by_perm|by rewrite order_by_perm].
  rewrite <- (assoc app). fold (submitted (Wp_Name p) w). f_equal.
  unfold new_release, seen. destruct (po_latest po (Wp_Name p)) as [v|e] eqn:E; [|done]. cbn [changes].
  assert (Wp_LastSeenVersion (Sqlite.checked (po_now po) (pv_Version v) p) = pv_Version v) as ->.
  { simpl. rewrite decide_False; [done|]. by eapply Hne; [left|]. }
  by case_decide.
Qed.
End run.

Definition wit_latest (n : string) : res PackageVersion := Ok (mkPackageVersion n "1.1" "" "" 0).
Definition wit_submit (_ _ : string) : M (Sqlite.DB * unit) string := fail (Errorf "no runners registered").
Definition wit_world : World Sqlite.DB unit :=
  mkWorld (Sqlite.AddWatchedPackage 0 "left-pad" Sqlite.empty_db).2 () [].

Lemma wit_world_wf : SqliteSpec.wf (w_store wit_world).
Proof. apply (SqliteSpec.wf_exec (SqliteSpec.MAddWatchedPackage 0 "left-pad")), SqliteSpec.wf_empty. Qed.

Lemma PollOnce_submits_once_witness :
  w_log (PollOnce wit_latest wit_submit 1 (fun _ => true) wit_world) = [("left-pad", "1.1")] /\
  w_log (PollOnce wit_latest wit_submit 2 (fun _ => true)
           (PollOnce wit_latest wit_submit 1 (fun _ => true) wit_world)) = [("left-pad", "1.1")].
Proof.
  destruct (PollOnce_submits_once wit_latest wit_submit (fun n v d x => eq_refl)
    (fun n v E => match E in _ = r return match r with Ok v => pv_Version v <> "" | Err _ => True end with
                  | eq_refl => fun H : "1.1" = "" => ltac:(discriminate) end) 1 2 wit_world wit_world_wf) as [H1 H2].
  split; [by rewrite H1|]. rewrite H2, H1. reflexivity.
Defined.


(** A release, a failed lookup, no news, a release, and a release withdrawn. *)
Definition wit_polls : list Poll :=
  (fun r : res string => mkPoll (fun n => (fun v => mkPackageVersion n v "" "" 0) <$> r) 3 (fun _ => true)) <$>
    [Ok "1.1"; Err (Errorf "offline"); Ok "1.1"; Ok "1.2"; Ok "1.1"].

Lemma Run_follows_registry_witness :
  submitted "left-pad" (Run wit_submit wit_polls wit_world) = ["1.1"; "1.2"; "1.1"].
Proof.
  set (p := mkWatchedPackage "left-pad" 0 None "").
  assert (p ∈ Sqlite.packages (w_store wit_world)) as Hp by (vm_compute; left).
  refine (eq_trans (Run_follows_registry wit_submit (fun n v d x => eq_refl) wit_polls wit_world p _ _ wit_world_wf Hp) _);
    [| |reflexivity].
  - intros po n v Hpo. apply list_elem_of_fmap in Hpo as (r & -> & Hr). cbn.
    repeat (apply elem_of_cons in Hr as [->|Hr]; [by intros [= <-]|]). by apply not_elem_of_nil in Hr.
  - intros po Hpo. by apply list_elem_of_fmap in Hpo as (r & -> & Hr).
Defined.
End Watcher.
