(* ===== verification/Config.v ===== *)
(** * config: the orchestrator's configuration file

    internal/orchestrator/config/config.go: loading, the watched paths and
    the application of the global allowlist to the store.  The YAML decoder,
    the file system and SHA-256 are arguments. *)
From Stdlib Require Import Ascii.
From stdpp Require Import prelude strings list.
From S2P Require Import Prelude GoTime Json Sql Storage Sqlite SqliteSpec Proto.

Module Config.
Import (hints) SqliteSpec.SqliteSpec.

Record ConfigEntry : Type := mkConfigEntry { ce_Value : string; ce_Note : string }.
Record AllowConfig : Type := mkAllowConfig {
  CIDRs : list ConfigEntry; SNIs : list ConfigEntry; Paths : list ConfigEntry
}.
Record WatchedPathEntry : Type := mkWatchedPathEntry { wpe_Prefix : string; wpe_Cred : bool }.
Record Config : Type := mkConfig { WatchedPaths : list WatchedPathEntry; Allow : AllowConfig }.
Definition zero_config : Config := mkConfig [] (mkAllowConfig [] [] []).

Definition AsProto (e : WatchedPathEntry) : WatchedPath := mkWatchedPath (wpe_Prefix e) (wpe_Cred e).

(** [None] is the nil slice. *)
Definition WatchedPathsAsProto (c : option Config) : option (list WatchedPath) :=
  match c with
  | None => None
  | Some c => match WatchedPaths c with [] => None | l => Some (AsProto <$> l) end
  end.

(** What reading a file yields. *)
Inductive file_read : Type := Contents (raw : string) | NotExist | ReadError (e : error).

Definition Load (ReadFile : string -> file_read) (yaml : string -> res Config) (path : string) : res Config :=
  if decide (path = "") then Ok zero_config else
  match ReadFile path with
  | NotExist => Ok zero_config
  | ReadError e => Err (Wrapf "read config" e)
  | Contents raw => match yaml raw with Ok c => Ok c | Err e => Err (Wrapf "parse config" e) end
  end.

Section apply.
Context (sha256 : list ascii -> list ascii).

Definition configEntryID (kind : AllowKind) (value : string) : string :=
  "cfg" +:+ hex (take 6 (sha256 (list_of_string (kind +:+ "|" +:+ value)))).

Definition config_row (kind : AllowKind) (now : time) (e : ConfigEntry) : AllowEntry :=
  mkAllowEntry (configEntryID kind (ce_Value e)) AllowScopeGlobal "" kind (ce_Value e) (ce_Note e) now.

Section store.
Context {S : Type} `{Backend S}.

(** The inner [apply]: the number of non-empty entries; an insertion error is
    logged. *)
Fixpoint apply_kind (kind : AllowKind) (now : time) (l : list ConfigEntry) (st : S) : nat * S :=
  match l with
  | [] => (0, st)
  | e :: l' =>
      if decide (ce_Value e = "") then apply_kind kind now l' st else
      let '(n, st') := apply_kind kind now l' (AddAllowEntry now (config_row kind now e) st).2 in
      (Datatypes.S n, st')
  end.

Definition ApplyAllowlist (c : option Config) (now : time) : M S unit := fun st =>
  match c with
  | None => (Ok tt, st)
  | Some c =>
      let st := (apply_kind AllowKindCIDR now (CIDRs (Allow c)) st).2 in
      let st := (apply_kind AllowKindSNI now (SNIs (Allow c)) st).2 in
      (Ok tt, (apply_kind AllowKindPath now (Paths (Allow c)) st).2)
  end.
End store.

(** ** On the SQLite backend *)
Definition kinds : list AllowKind := [AllowKindCIDR; AllowKindPath; AllowKindSNI].
Definition has_id (id : string) (d : Sqlite.DB) : Prop := id ∈ Al_ID <$> Sqlite.allowlists d.
#[export] Instance has_id_dec id d : Decision (has_id id d).
Proof. unfold has_id. apply _. Defined.

(** The allowlist grew from [d] to [d'] and nothing else changed. *)
Definition extends (d d' : Sqlite.DB) : Prop :=
  exists new, d' = Sqlite.set_allowlists (Sqlite.allowlists d ++ new) d.

Lemma extends_refl d : extends d d.
Proof. exists []. rewrite app_nil_r. by destruct d. Qed.
Lemma extends_trans d d' d'' : extends d d' -> extends d' d'' -> extends d d''.
Proof. intros [n ->] [n' ->]. exists (n ++ n'). by rewrite (assoc app). Qed.
Lemma extends_id d d' id : extends d d' -> has_id id d -> has_id id d'.
Proof. intros [n ->]. unfold has_id. simpl. rewrite fmap_app, elem_of_app. by left. Qed.

Lemma add_entry kind now e (d : Sqlite.DB) :
  kind ∈ kinds ->
  (AddAllowEntry now (config_row kind now e) d).2 =
    (if decide (has_id (configEntryID kind (ce_Value e)) d) then d
     else Sqlite.set_allowlists (Sqlite.allowlists d ++ [config_row kind now e]) d).
Proof.
  intros Hk. simpl. unfold Sqlite.AddAllowEntry. rewrite decide_True.
  2:{ unfold Sqlite.allow_check. simpl. split; [left|]. split; [exact Hk|by left]. }
  unfold insert_unique, has_id. simpl.
  assert (Sqlite.stamp_created now (config_row kind now e) = config_row kind now e) as ->
    by (unfold Sqlite.stamp_created; simpl; by destruct (IsZero now)).
  simpl. by repeat case_decide.
Qed.

(** One kind: the list extends, and every non-empty entry's id is present. *)
Lemma apply_kind_spec kind now l (d : Sqlite.DB) :
  kind ∈ kinds ->
  extends d (apply_kind kind now l d).2 /\
  (forall e, e ∈ l -> ce_Value e <> "" -> has_id (configEntryID kind (ce_Value e)) (apply_kind kind now l d).2).
Proof.
  intros Hk. revert d. induction l as [|e l IH]; intros d; simpl.
  { split; [apply extends_refl|]. intros e He. by apply not_elem_of_nil in He. }
  case_decide as Hv.
  { destruct (IH d) as [Hx Hin]. split; [done|]. intros e' [->|He']%elem_of_cons; [done|by apply Hin]. }
  rewrite add_entry by done. set (d1 := if decide _ then _ else _).
  assert (Hd1 : extends d d1 /\ has_id (configEntryID kind (ce_Value e)) d1).
  { unfold d1. case_decide; [split; [apply extends_refl|done]|]. split; [by eexists|].
    unfold has_id. simpl. rewrite fmap_app, elem_of_app. right. by left. }
  destruct (IH d1) as [Hx Hin]. destruct (apply_kind kind now l d1) as [n d2]. simpl in *.
  split; [eapply extends_trans; [apply Hd1|exact Hx]|]. intros e' [->|He']%elem_of_cons Hv'; [|by apply Hin].
  eapply extends_id; [exact Hx|apply Hd1].
Qed.

Lemma apply_kind_noop kind now l (d : Sqlite.DB) :
  kind ∈ kinds -> (forall e, e ∈ l -> ce_Value e <> "" -> has_id (configEntryID kind (ce_Value e)) d) ->
  (apply_kind kind now l d).2 = d.
Proof.
  intros Hk. revert d. induction l as [|e l IH]; intros d Hin; simpl; [done|].
  case_decide; [apply IH; intros; apply Hin; [by right|done]|].
  rewrite add_entry, decide_True by (done || (apply Hin; [by left|done])).
  specialize (IH d). destruct (apply_kind kind now l d). simpl in *. apply IH. intros; apply Hin; [by right|done].
Qed.

(** The row of a config entry is found under its id with its own kind and
    value, provided no id is shared by different values. *)
Definition entries (c : Config) : list (AllowKind * string) :=
  ((fun e => (AllowKindCIDR, ce_Value e)) <$> CIDRs (Allow c)) ++
  ((fun e => (AllowKindSNI, ce_Value e)) <$> SNIs (Allow c)) ++
  ((fun e => (AllowKindPath, ce_Value e)) <$> Paths (Allow c)).

Lemma in_kinds : AllowKindCIDR ∈ kinds /\ AllowKindSNI ∈ kinds /\ AllowKindPath ∈ kinds.
Proof. unfold kinds. set_solver. Qed.

Lemma apply_entries c now (d : Sqlite.DB) :
  let d' := (ApplyAllowlist (Some c) now d).2 in
  extends d d' /\ forall k v, (k, v) ∈ entries c -> v <> "" -> has_id (configEntryID k v) d'.
Proof.
  destruct in_kinds as (K1 & K2 & K3). simpl.
  destruct (apply_kind_spec AllowKindCIDR now (CIDRs (Allow c)) d K1) as [X1 I1].
  set (d1 := (apply_kind AllowKindCIDR now (CIDRs (Allow c)) d).2) in *.
  destruct (apply_kind_spec AllowKindSNI now (SNIs (Allow c)) d1 K2) as [X2 I2].
  set (d2 := (apply_kind AllowKindSNI now (SNIs (Allow c)) d1).2) in *.
  destruct (apply_kind_spec AllowKindPath now (Paths (Allow c)) d2 K3) as [X3 I3].
  split; [by eapply extends_trans; [|eapply extends_trans]|].
  intros k v Hkv Hv. unfold entries in Hkv. rewrite !elem_of_app, !list_elem_of_fmap in Hkv.
  destruct Hkv as [(e & [= -> ->] & He)|[(e & [= -> ->] & He)|(e & [= -> ->] & He)]].
  - eapply extends_id; [exact X3|]. eapply extends_id; [exact X2|]. by apply I1.
  - eapply extends_id; [exact X3|]. by apply I2.
  - by apply I3.
Qed.

(** Applying the configured allowlist is idempotent and additive.  On the
    SQLite backend it only appends allowlist rows, leaves a row under the
    deterministic id of every non-empty entry of the file, and applying the
    same file again — after a restart, at any later time — changes nothing. *)
Theorem ApplyAllowlist_idempotent c now now' (d : Sqlite.DB) :
  let d' := (ApplyAllowlist (Some c) now d).2 in
  extends d d' /\
  (forall k v, (k, v) ∈ entries c -> v <> "" -> has_id (configEntryID k v) d') /\
  ApplyAllowlist (Some c) now' d' = (Ok tt, d').
Proof.
  intros d'. destruct (apply_entries c now d) as [Hx Hin]. split; [done|]. split; [done|].
  destruct in_kinds as (K1 & K2 & K3). unfold ApplyAllowlist at 1. f_equal. fold d' in Hin.
  rewrite (apply_kind_noop AllowKindCIDR), (apply_kind_noop AllowKindSNI), (apply_kind_noop AllowKindPath); [done|..];
    try done; intros e He Hv; apply Hin; try done; unfold entries; rewrite !elem_of_app, !list_elem_of_fmap; eauto 6.
Qed.
End apply.

End Config.
