(* ===== verification/Migrate.v ===== *)
(** * storage: schema migrations

    internal/orchestrator/storage/migrate.go.  The database is the table of
    applied versions and the rest of the schema, an arbitrary type on which
    running a script is an argument.  A transaction that fails leaves both
    unchanged. *)
From stdpp Require Import prelude strings list sorting.
From S2P Require Import Prelude Sql.

Module Migrate.

Record DB (T : Type) : Type := mkDB { schema_migrations : list string; schema : T }.
Arguments mkDB {T}. Arguments schema_migrations {T}. Arguments schema {T}.

(** A directory entry: its name and whether it is a directory. *)
Definition entry : Type := string * bool.

Definition name_le (a b : string) : Prop := string_le a b = true.
#[export] Instance name_le_dec a b : Decision (name_le a b).
Proof. unfold name_le. apply _. Defined.

Definition is_up (e : entry) : Prop := e.2 = false /\ HasSuffix e.1 ".up.sql" = true.
#[export] Instance is_up_dec e : Decision (is_up e).
Proof. unfold is_up. apply _. Defined.

(** The migrations, in lexicographic order. *)
Definition ups (entries : list entry) : list string := order_by name_le (filter is_up entries).*1.
Definition version_of (name : string) : string := TrimSuffix name ".up.sql".

Section migrate.
Context {T : Type} (ReadFile : string -> res string) (exec : string -> T -> res T).

(** One migration and its record, in one transaction. *)
Definition apply_one (name : string) : M (DB T) unit := fun db =>
  match ReadFile name with
  | Err e => (Err (Wrapf "read" e), db)
  | Ok body =>
      match exec body (schema db) with
      | Err e => (Err (Wrapf "exec" e), db)
      | Ok t =>
          if decide (version_of name ∈ schema_migrations db)
          then (Err (Wrapf "record" (Errorf "constraint failed")), db)
          else (Ok tt, mkDB (schema_migrations db ++ [version_of name]) t)
      end
  end.

(** [applied] is read once, before the loop. *)
Fixpoint apply_all (applied : list string) (names : list string) : M (DB T) unit :=
  match names with
  | [] => mret tt
  | name :: names' =>
      if decide (version_of name ∈ applied) then apply_all applied names'
      else _ ← apply_one name; apply_all applied names'
  end.

Definition ApplyMigrations (entries : list entry) : M (DB T) unit := fun db =>
  apply_all (schema_migrations db) (ups entries) db.

(** ** Specification *)
Definition pending (entries : list entry) (db : DB T) : list string :=
  filter (fun n => version_of n ∉ schema_migrations db) (ups entries).

(** Running the scripts of [names] in order. *)
Fixpoint run_scripts (names : list string) (t : T) : option T :=
  match names with
  | [] => Some t
  | n :: names' =>
      match ReadFile n with
      | Ok body => match exec body t with Ok t' => run_scripts names' t' | Err _ => None end
      | Err _ => None
      end
  end.

Lemma apply_all_spec names applied (db : DB T) :
  NoDup (version_of <$> names) ->
  (forall n, n ∈ names -> version_of n ∉ applied -> version_of n ∉ schema_migrations db) ->
  let todo := filter (fun n => version_of n ∉ applied) names in
  let '(r, db') := apply_all applied names db in
  exists done rest, todo = done ++ rest /\
    schema_migrations db' = schema_migrations db ++ (version_of <$> done) /\
    run_scripts done (schema db) = Some (schema db') /\
    match r with Ok _ => rest = [] | Err _ => exists n l, rest = n :: l /\ run_scripts [n] (schema db') = None end.
Proof.
  revert db. induction names as [|n names IH]; intros db Hnd Hfresh; simpl.
  { exists [], []. simpl. by rewrite app_nil_r. }
  rewrite fmap_cons, NoDup_cons in Hnd. destruct Hnd as [Hn Hnd]. rewrite filter_cons.
  destruct (decide (version_of n ∈ applied)) as [Ha|Ha].
  { rewrite decide_False by tauto. apply IH; [done|]. intros n' Hn'. apply Hfresh. by right. }
  rewrite decide_True by done. unfold mbind, M_bind, apply_one.
  destruct (ReadFile n) as [body|e] eqn:Er.
  2:{ exists [], (n :: filter (fun n => version_of n ∉ applied) names). simpl. rewrite app_nil_r.
      repeat split. eexists _, _. split; [done|]. by rewrite Er. }
  destruct (exec body (schema db)) as [t|e] eqn:Ee.
  2:{ exists [], (n :: filter (fun n => version_of n ∉ applied) names). simpl. rewrite app_nil_r.
      repeat split. eexists _, _. split; [done|]. by rewrite Er, Ee. }
  assert (version_of n ∉ schema_migrations db) as Hnew by (apply Hfresh; [by left|done]).
  rewrite decide_False by done.
  specialize (IH (mkDB (schema_migrations db ++ [version_of n]) t) Hnd).
  destruct (apply_all applied names _) as [r db'].
  destruct IH as (dn & rest & Htodo & Hver & Hrun & Hr).
  { intros n' Hn' Hna. simpl. rewrite not_elem_of_app, list_elem_of_singleton. split; [apply Hfresh; [by right|done]|].
    intros E. apply Hn. rewrite <- E. by apply list_elem_of_fmap_2. }
  exists (n :: dn), rest. rewrite Htodo. split; [done|]. split; [rewrite Hver; simpl; by rewrite <- (assoc app)|].
  split; [|done]. simpl. by rewrite Er, Ee.
Qed.

Lemma apply_all_none applied names (db : DB T) :
  filter (fun n => version_of n ∉ applied) names = [] -> apply_all applied names db = (Ok tt, db).
Proof.
  induction names as [|n names IH]; [done|]. rewrite filter_cons. simpl.
  destruct (decide (version_of n ∈ applied)); [rewrite decide_False by tauto; apply IH|by rewrite decide_True].
Qed.

(** Once [done] is recorded, the rest of the pending migrations is pending. *)
Lemma pending_after entries (db db' : DB T) dn rest :
  NoDup (version_of <$> ups entries) -> pending entries db = dn ++ rest ->
  schema_migrations db' = schema_migrations db ++ (version_of <$> dn) -> pending entries db' = rest.
Proof.
  intros Hnd Hp Hver. unfold pending in *. apply (NoDup_fmap_filter _ (fun n => version_of n ∉ schema_migrations db)) in Hnd.
  rewrite Hp, fmap_app in Hnd. apply NoDup_app in Hnd as (_ & Hdis & _).
  rewrite (filter_ext_elem _ (fun n => version_of n ∉ version_of <$> dn /\ version_of n ∉ schema_migrations db))
    by (intros n _; rewrite Hver, elem_of_app; tauto).
  rewrite <- list_filter_filter, Hp, filter_app, filter_none, filter_all; [done|..]; apply Forall_forall; intros n Hn.
  - intros Hin. by apply (Hdis _ Hin), list_elem_of_fmap_2.
  - intros Hnot. by apply Hnot, list_elem_of_fmap_2.
Qed.

(** Every migration runs exactly once, in order.  For distinct migrations
    the loop applies an initial part of the pending ones, in lexicographic
    order, and records exactly those; it stops early only at a migration that
    cannot be read or executed, which leaves no trace.  What is left is what
    the next call finds pending, so after a success another call changes
    nothing. *)
Theorem migrations_exactly_once entries (db : DB T) :
  NoDup (version_of <$> ups entries) ->
  let '(r, db') := ApplyMigrations entries db in
  exists done, pending entries db = done ++ pending entries db' /\
    schema_migrations db' = schema_migrations db ++ (version_of <$> done) /\
    run_scripts done (schema db) = Some (schema db') /\
    match r with
    | Ok _ => pending entries db' = [] /\ ApplyMigrations entries db' = (Ok tt, db')
    | Err _ => exists n l, pending entries db' = n :: l /\ run_scripts [n] (schema db') = None
    end.
Proof.
  intros Hnd. unfold ApplyMigrations at 1.
  pose proof (apply_all_spec (ups entries) (schema_migrations db) db Hnd (fun n _ H => H)) as Hspec.
  destruct (apply_all _ _ db) as [r db']. simpl in Hspec.
  destruct Hspec as (dn & rest & Htodo & Hver & Hrun & Hr).
  pose proof (pending_after entries db db' dn rest Hnd Htodo Hver) as Hrest.
  exists dn. rewrite Hrest. split; [exact Htodo|]. split; [done|]. split; [done|].
  destruct r as [[]|e]; [|done]. split; [done|]. subst rest. by apply apply_all_none.
Qed.
End migrate.

Definition wit_entries : list entry := [("0002_b.up.sql", false); ("0001_a.up.sql", false); ("0001_a.down.sql", false)].
Lemma migrations_exactly_once_witness :
  ApplyMigrations (fun n => Ok n) (fun body t => Ok (t ++ [body])) wit_entries (mkDB [] []) =
    (Ok tt, mkDB ["0001_a"; "0002_b"] ["0001_a.up.sql"; "0002_b.up.sql"]) /\
  exists done, pending wit_entries (mkDB [] ([] : list string)) = done ++ [].
Proof.
  split; [vm_compute; reflexivity|].
  pose proof (migrations_exactly_once (fun n => Ok n) (fun body t => Ok (t ++ [body])) wit_entries
    (mkDB [] []) ltac:(apply (bool_decide_unpack _); vm_compute; done)) as H.
  destruct (ApplyMigrations _ _ _ _) as [[u|e] db'] eqn:E; vm_compute in E; [|done].
  destruct H as (dn & Hd & _ & _ & Hp & _). exists dn. by rewrite Hp in Hd.
Defined.

End Migrate.
