(* ===== verification/Lineage.v ===== *)
(** * ui: the process lineage of a run

    internal/orchestrator/ui/lineage.go: the process table built from a run's
    events, the forest derived from it, its depth-first rows, the emphasis of
    the path to the target event, and the totals of the page.  Go iterates
    over the process map in an arbitrary order: that order is an argument
    [order].  The pointer structure is flat: a node is named by its PID and
    its children are a list of PIDs.

    A JSON number becomes a float64 and is converted to an integer; within
    the integer's range that is exact, outside it (or for a fraction) the
    conversion is an argument, as Go leaves it to the implementation. *)
From Stdlib Require Import Ascii Sorted.
From stdpp Require Import prelude strings gmap list sorting relations.
From S2P Require Import Prelude Json Storage.

Module Lineage.

(** ** Data *)
Record eventMarker : Type := mkEventMarker {
  em_ID : Z; em_Type : string; em_Summary : string; em_Tags : Z; em_IsTarget : bool
}.

Record procNode : Type := mkProcNode {
  PPID : Z;
  Comm : string;
  Binary : string;
  Events : list eventMarker;
  IsTarget : bool;
  EventCounts : gmap string nat
}.

Abbreviation table := (gmap Z procNode).

(** ** Reading a decoded event *)
Section json_fields.
Context (conv_u32 conv_int : json -> Z).

(** [m[k]] of a decoded object: the last occurrence of a key counts. *)
Definition field (o : list (string * json)) (k : string) : option json :=
  foldl (fun acc kv => if decide (kv.1 = k) then Some kv.2 else acc) None o.

Definition asUint32 (v : option json) : Z :=
  match v with
  | Some (JNum n) => if decide (0 <= n < 2 ^ 32)%Z then n else conv_u32 (JNum n)
  | Some (JFrac l) => conv_u32 (JFrac l)
  | _ => 0
  end.
Definition asInt (v : option json) : Z :=
  match v with
  | Some (JNum n) => if decide (- 2 ^ 53 <= n <= 2 ^ 53)%Z then n else conv_int (JNum n)
  | Some (JFrac l) => conv_int (JFrac l)
  | _ => 0
  end.

Fixpoint comm_bytes (l : list json) : list ascii :=
  match l with
  | [] => []
  | b :: l' => let bn := asInt (Some b) in
               if decide (bn = 0%Z) then [] else ascii_of_N (Z.to_N (wrapU 8 bn)) :: comm_bytes l'
  end.
Definition readCommBytes (v : option json) : string :=
  match v with Some (JArr l) => string_of_list (comm_bytes l) | _ => "" end.

Definition bodyString (m : list (string * json)) (k : string) : string :=
  match field m k with Some (JStr s) => s | _ => "" end.

Record lineageHeader : Type := mkLineageHeader { lh_PID : Z; lh_PPID : Z; lh_Tags : Z; lh_Comm : string }.

Definition headerFromBody (m : list (string * json)) : lineageHeader :=
  match field m "Header" with
  | Some (JObj h) =>
      mkLineageHeader (asUint32 (field h "PID")) (asUint32 (field h "PPID")) (asInt (field h "Tags"))
        (if decide (bodyString m "CommStr" = "") then readCommBytes (field h "Comm") else bodyString m "CommStr")
  | _ => mkLineageHeader 0 0 0 ""
  end.

Definition summarizeFromBody (eventType : string) (m : list (string * json)) : string :=
  if decide (eventType = "file_access") then bodyString m "PathName"
  else if decide (eventType = "exec") then bodyString m "BinaryPathStr"
  else if decide (eventType = "net_connect") then
    let ip := bodyString m "DestIP" in
    match field m "DestPort" with
    | Some (JNum n) => ip +:+ ":" +:+ decimal (asInt (Some (JNum n)))
    | Some (JFrac l) => ip +:+ ":" +:+ decimal (asInt (Some (JFrac l)))
    | _ => ip
    end
  else if decide (eventType = "dns_query") then bodyString m "QName"
  else if decide (eventType = "tls_sni") then bodyString m "SNI"
  else "".

Record lineageAncestor : Type := mkLineageAncestor { la_PID : Z; la_PPID : Z; la_Comm : string }.

Definition ancestorsFromBody (m : list (string * json)) : list lineageAncestor :=
  match field m "Ancestors" with
  | Some (JArr raw) =>
      omap (fun a => match a with
                     | JObj am => Some (mkLineageAncestor (asUint32 (field am "PID")) (asUint32 (field am "PPID"))
                                          (readCommBytes (field am "Comm")))
                     | _ => None
                     end) raw
  | _ =>
      match field m "AncestorComms" with
      | Some (JArr raw) =>
          omap (fun c => match c with JStr s => Some (mkLineageAncestor 0 0 s) | _ => None end) raw
      | _ => []
      end
  end.

(** ** The process table *)
Definition upsert (pid ppid : Z) (comm : string) (m : table) : table :=
  match m !! pid with
  | None => <[pid := mkProcNode ppid comm "" [] false ∅]> m
  | Some n =>
      let comm' := if decide (Comm n = "" /\ comm <> "") then comm else Comm n in
      let ppid' := if decide (PPID n = 0%Z /\ ppid <> 0%Z) then ppid else PPID n in
      <[pid := mkProcNode ppid' comm' (Binary n) (Events n) (IsTarget n) (EventCounts n)]> m
  end.

(** What an event adds to the node of its own process. *)
Definition add_event (ev : EventRow) (body : list (string * json)) (hdr : lineageHeader) (targetID : Z)
    (typeFilter : string) (n : procNode) : procNode :=
  let counts := <[Ev_Type ev := default 0 (EventCounts n !! Ev_Type ev) + 1]> (EventCounts n) in
  let isTarget := bool_decide (Ev_ID ev = targetID /\ targetID <> 0%Z) in
  let attach := bool_decide (typeFilter = "" \/ Ev_Type ev = typeFilter) || isTarget in
  let evs := if attach
    then Events n ++ [mkEventMarker (Ev_ID ev) (Ev_Type ev) (summarizeFromBody (Ev_Type ev) body) (lh_Tags hdr) isTarget]
    else Events n in
  let bin := bodyString body "BinaryPathStr" in
  mkProcNode (PPID n) (Comm n) (if decide (Ev_Type ev = "exec" /\ bin <> "") then bin else Binary n)
    evs (IsTarget n || isTarget) counts.

Definition upsert_ancestors (l : list lineageAncestor) (m : table) : table :=
  foldl (fun m a => if decide (la_PID a = 0%Z) then m else upsert (la_PID a) (la_PPID a) (la_Comm a) m) m l.

Definition step_event (targetID : Z) (typeFilter : string) (m : table) (ev : EventRow) : table :=
  match unmarshal_object (Ev_Data ev) with
  | None => m
  | Some body =>
      let hdr := headerFromBody body in
      if decide (lh_PID hdr = 0%Z) then m else
      let m := upsert (lh_PID hdr) (lh_PPID hdr) (lh_Comm hdr) m in
      let m := alter (add_event ev body hdr targetID typeFilter) (lh_PID hdr) m in
      if decide (Ev_Type ev = "exec") then upsert_ancestors (ancestorsFromBody body) m else m
  end.

Definition processes (events : list EventRow) (targetID : Z) (typeFilter : string) : table :=
  foldl (step_event targetID typeFilter) ∅ events.
End json_fields.

(** ** The forest *)
Section forest.
Context (m : table) (order : list Z).

(** [n] hangs under [p]: [p] is in the table, and is not [n] itself. *)
Definition is_child (p n : Z) : Prop := exists nd, m !! n = Some nd /\ PPID nd = p /\ is_Some (m !! p) /\ p <> n.
#[global] Instance is_child_dec p n : Decision (is_child p n).
Proof.
  destruct (m !! n) as [nd|] eqn:E; [|right; intros (? & ? & _); congruence].
  destruct (decide (PPID nd = p /\ is_Some (m !! p) /\ p <> n)) as [H|H].
  - left. exists nd. tauto.
  - right. intros (nd' & ? & Hr). simplify_eq. tauto.
Defined.

Definition is_root (n : Z) : Prop := exists nd, m !! n = Some nd /\ (m !! PPID nd = None \/ PPID nd = 0%Z).
#[global] Instance is_root_dec n : Decision (is_root n).
Proof.
  destruct (m !! n) as [nd|] eqn:E; [|right; intros (? & ? & _); congruence].
  destruct (decide (m !! PPID nd = None \/ PPID nd = 0%Z)) as [H|H].
  - left. exists nd. tauto.
  - right. intros (nd' & ? & Hr). simplify_eq. tauto.
Defined.

(** The links are made, and the roots found, in iteration order; both lists
    are then sorted by PID. *)
Definition by_pid (l : list Z) : list Z := merge_sort Z.le l.
Definition Children (p : Z) : list Z := by_pid (filter (is_child p) order).
Definition roots : list Z := by_pid (filter is_root order).

(** [visit], with the set of visited PIDs and the rows so far. *)
Fixpoint visit (fuel : nat) (d : nat) (n : Z) (st : gset Z * list (Z * nat)) : gset Z * list (Z * nat) :=
  match fuel with
  | O => st
  | S f =>
      if decide (n ∈ st.1) then st else
      foldl (fun st c => visit f (S d) c st) ({[n]} ∪ st.1, st.2 ++ [(n, d)]) (Children n)
  end.
Definition flat : list (Z * nat) := (foldl (fun st r => visit (size m) 0 r st) (∅, []) roots).2.

(** [dive]: whether the target is below [n], and the PIDs marked so far. *)
Definition is_target (n : Z) : bool := match m !! n with Some nd => IsTarget nd | None => false end.
Fixpoint dive (fuel : nat) (visiting : gset Z) (n : Z) (marked : gset Z) : bool * gset Z :=
  match fuel with
  | O => (false, marked)
  | S f =>
      if decide (n ∈ visiting) then (false, marked) else
      let '(found, marked) :=
        foldl (fun st c => let '(b, mk) := dive f ({[n]} ∪ visiting) c st.2 in (if b then true else st.1, mk))
          (is_target n, marked) (Children n) in
      (found, if found then {[n]} ∪ marked else marked)
  end.
Definition HasTargetIn : gset Z := foldl (fun mk r => (dive (size m) ∅ r mk).2) ∅ roots.
End forest.

(** The target's marker moves to the front; the sort is stable. *)
Definition float_target (l : list eventMarker) : list eventMarker :=
  filter (fun e => em_IsTarget e = true) l ++ filter (fun e => em_IsTarget e = false) l.

(** One row of the page. *)
Record Row : Type := mkRow { row_PID : Z; row_node : procNode; row_Depth : nat; row_HasTargetIn : bool }.

Definition buildLineage (conv_u32 conv_int : json -> Z) (order : table -> list Z) (events : list EventRow)
    (targetID : Z) (typeFilter : string) : list Z * list Row :=
  let m := processes conv_u32 conv_int events targetID typeFilter in
  let o := order m in
  let node n := if decide (targetID = 0%Z) then n
    else mkProcNode (PPID n) (Comm n) (Binary n) (float_target (Events n)) (IsTarget n) (EventCounts n) in
  let hti := if decide (targetID = 0%Z) then ∅ else HasTargetIn m o in
  (roots m o,
   omap (fun nd => (fun n => mkRow nd.1 (node n) nd.2 (bool_decide (nd.1 ∈ hti))) <$> m !! nd.1) (flat m o)).

(** ** The page's totals *)
Definition count_sum (c : gmap string nat) : nat := map_fold (fun _ n s => n + s) 0 c.
Definition totalEvents (rows : list Row) : nat := foldl (fun s r => s + count_sum (EventCounts (row_node r))) 0 rows.
Definition filteredEvents (rows : list Row) : nat := foldl (fun s r => s + length (Events (row_node r))) 0 rows.

(** ** The page *)
Record lineageView : Type := mkLineageView {
  lv_RunID : string; lv_Roots : list Z; lv_TargetID : Z; lv_Flat : list Row; lv_TypeFilter : string;
  lv_TotalEvents : nat; lv_FilteredEvents : nat
}.
Definition NodeCount (v : lineageView) : nat := length (lv_Flat v).

(** The answer is a page or the status of an error page. *)
Inductive page : Type := Status (code : Z) | View (v : lineageView).

Definition lineagePageLimit : Z := 5000.

Section handler.
Context {S : Type} `{Backend S} (conv_u32 conv_int : json -> Z) (order : table -> list Z).

Definition view_run (run : Run) (event typeFilter : string) (s : S) : page * S :=
  let targetID := default 0%Z (ParseInt event) in
  let '(r, s) := ListEventsByRun (Run_ID run) lineagePageLimit s in
  let events := match r with Ok l => l | Err _ => [] end in
  let '(rs, rows) := buildLineage conv_u32 conv_int order events targetID typeFilter in
  (View (mkLineageView (Run_ID run) rs targetID rows typeFilter (totalEvents rows) (filteredEvents rows)), s).

Definition handleLineage (id event typeFilter : string) (s : S) : page * S :=
  if decide (id = "") then (Status 404, s) else
  match GetRun id s with
  | (Ok run, s) => view_run run event typeFilter s
  | (Err e, s) =>
      if errors_Is e ErrNotFound then
        match ResolveRunPrefix id s with
        | (Ok run, s) => view_run run event typeFilter s
        | (Err e, s) =>
            (Status (if errors_Is e ErrAmbiguous then 400 else if errors_Is e ErrNotFound then 404 else 500), s)
        end
      else (Status 500, s)
  end.
End handler.

(** ** Lemmas: the forest *)
Lemma by_pid_perm l : by_pid l ≡ₚ l.
Proof. apply merge_sort_Permutation. Qed.

Lemma by_pid_unique l l' : l ≡ₚ l' -> by_pid l = by_pid l'.
Proof.
  intros H. apply (Sorted_unique Z.le).
  - apply (Sorted_merge_sort _). 
  - apply (Sorted_merge_sort _).
  - by rewrite !by_pid_perm.
Qed.

Section forest_facts.
Context (m : table) (order : list Z).
Hypothesis order_perm : order ≡ₚ (map_to_list m).*1.

Lemma order_elem n : n ∈ order <-> is_Some (m !! n).
Proof.
  rewrite order_perm, list_elem_of_fmap. split.
  - intros ([k nd] & -> & H%elem_of_map_to_list). by eexists.
  - intros [nd H]. exists (n, nd). split; [done|]. by apply elem_of_map_to_list.
Qed.

Lemma order_NoDup : NoDup order.
Proof. rewrite order_perm. apply NoDup_fst_map_to_list. Qed.

Lemma Children_elem p n : n ∈ Children m order p <-> is_child m p n.
Proof.
  unfold Children. rewrite by_pid_perm, list_elem_of_filter, order_elem.
  split; [tauto|]. intros H. split; [done|]. destruct H as (nd & ? & _). by eexists.
Qed.

Lemma Children_NoDup p : NoDup (Children m order p).
Proof. unfold Children. rewrite by_pid_perm. apply NoDup_filter, order_NoDup. Qed.

Lemma roots_elem n : n ∈ roots m order <-> is_root m n.
Proof.
  unfold roots. rewrite by_pid_perm, list_elem_of_filter, order_elem.
  split; [tauto|]. intros H. split; [done|]. destruct H as (nd & ? & _). by eexists.
Qed.

Lemma roots_NoDup : NoDup (roots m order).
Proof. unfold roots. rewrite by_pid_perm. apply NoDup_filter, order_NoDup. Qed.

(** *** Depth *)
Lemma parent_unique p q n : is_child m p n -> is_child m q n -> p = q.
Proof. intros (nd & H & <- & _) (nd' & H' & <- & _). congruence. Qed.

(** 0 is never a key: events and ancestors without a PID are skipped. *)
Hypothesis no_zero : m !! 0%Z = None.

Lemma root_no_parent p n : is_root m n -> is_child m p n -> False.
Proof.
  intros (nd & H & Hr) (nd' & H' & <- & [x Hp] & _). simplify_eq. destruct Hr as [Hr|Hr]; [congruence|].
  rewrite Hr in Hp. congruence.
Qed.

Definition below (d : nat) (p n : Z) : Prop := nsteps (is_child m) d p n.
Definition rooted (d : nat) (n : Z) : Prop := exists r, is_root m r /\ below d r n.

Lemma below_unique d p q n : below d p n -> below d q n -> p = q.
Proof.
  revert n. induction d as [|d IH]; intros n Hp Hq.
  - inversion Hp; inversion Hq; congruence.
  - apply nsteps_inv_r in Hp as (x & Hp & Hx), Hq as (y & Hq & Hy).
    assert (x = y) as -> by (by eapply parent_unique). by eapply IH.
Qed.

Lemma rooted_below d k p n : rooted d p -> below k p n -> rooted (d + k) n.
Proof. intros (r & Hr & H) Hk. exists r. split; [done|]. by eapply nsteps_trans. Qed.

Lemma rooted_S d p n : rooted d p -> is_child m p n -> rooted (S d) n.
Proof. intros H Hc. rewrite <- Nat.add_1_r. eapply rooted_below; [done|]. by apply nsteps_once. Qed.

Lemma rooted_unique d e n : rooted d n -> rooted e n -> d = e.
Proof.
  revert e n. induction d as [|d IH]; intros e n (r & Hr & H) (r' & Hr' & H').
  - inversion H; subst. destruct e as [|e]; [done|]. apply nsteps_inv_r in H' as (x & _ & Hx).
    by destruct (root_no_parent _ _ Hr Hx).
  - apply nsteps_inv_r in H as (x & H & Hx). destruct e as [|e].
    + inversion H'; subst. by destruct (root_no_parent _ _ Hr' Hx).
    + apply nsteps_inv_r in H' as (y & H' & Hy). assert (y = x) as -> by (by eapply parent_unique).
      f_equal. eapply IH; [by exists r|by exists r'].
Qed.

Lemma rooted_in d n : rooted d n -> is_Some (m !! n).
Proof.
  intros (r & (nd & Hr & _) & H). destruct d as [|d].
  - inversion H; subst. by eexists.
  - apply nsteps_inv_r in H as (x & _ & (nd' & Hn & _)). by eexists.
Qed.

(** The chain to a root has no repetition, so it is shorter than the table. *)
Lemma rooted_chain d n :
  rooted d n -> exists l, length l = S d /\ NoDup l /\ Forall (fun x => exists e, e <= d /\ rooted e x) l.
Proof.
  revert n. induction d as [|d IH]; intros n Hn.
  - exists [n]. split; [done|]. split; [apply NoDup_singleton|]. constructor; [|done]. by exists 0.
  - pose proof Hn as (r & Hr & H). apply nsteps_inv_r in H as (x & H & Hx).
    destruct (IH x) as (l & Hl & Hnd & Hall); [by exists r|].
    exists (n :: l). split; [simpl; lia|]. split.
    + constructor; [|done]. intros Hin. rewrite Forall_forall in Hall. destruct (Hall n Hin) as (e & He & Hen).
      pose proof (rooted_unique _ _ _ Hn Hen). lia.
    + constructor; [by exists (S d)|]. eapply Forall_impl; [exact Hall|]. intros y (e & ? & ?). exists e. split; [lia|done].
Qed.

Lemma rooted_bound d n : rooted d n -> d < size m.
Proof.
  intros H. destruct (rooted_chain d n H) as (l & Hl & Hnd & Hall).
  assert (S d <= size (dom m)) as Hle; [|rewrite size_dom in Hle; lia].
  rewrite <- Hl, <- (size_list_to_set (C := gset Z)) by done. apply subseteq_size.
  intros x Hx%elem_of_list_to_set. rewrite Forall_forall in Hall. destruct (Hall x Hx) as (e & _ & He).
  apply elem_of_dom. by eapply rooted_in.
Qed.

(** *** The walk *)

(** The subtree of [n] as rows. *)
Fixpoint tree (fuel d : nat) (n : Z) : list (Z * nat) :=
  match fuel with
  | O => []
  | S f => (n, d) :: (Children m order n ≫= tree f (S d))
  end.

Lemma tree_elem f d n x e :
  rooted d n -> size m <= f + d -> (x, e) ∈ tree f d n <-> exists k, below k n x /\ e = d + k.
Proof.
  revert d n e. induction f as [|f IH]; intros d n e Hn Hf.
  { pose proof (rooted_bound _ _ Hn). lia. }
  simpl. rewrite elem_of_cons, list_elem_of_bind. split.
  - intros [[= -> ->]|(c & Hx & Hc)]; [exists 0; split; [constructor|lia]|].
    apply Children_elem in Hc. apply IH in Hx as (k & Hk & ->); [|by eapply rooted_S|lia].
    exists (S k). split; [|lia]. by econstructor.
  - intros (k & Hk & ->). destruct k as [|k].
    + inversion Hk; subst. left. by rewrite Nat.add_0_r.
    + right. inversion Hk as [|? ? c ? Hc Hk']; subst. exists c. split; [|by apply Children_elem].
      apply IH; [by eapply rooted_S|lia|]. exists k. split; [done|lia].
Qed.

Definition pids (l : list (Z * nat)) : gset Z := list_to_set l.*1.

Lemma pids_app l l' : pids (l ++ l') = pids l ∪ pids l'.
Proof. unfold pids. by rewrite fmap_app, list_to_set_app_L. Qed.

Lemma pids_tree_elem f d n x :
  rooted d n -> size m <= f + d -> x ∈ pids (tree f d n) <-> exists k, below k n x.
Proof.
  intros Hn Hf. unfold pids. rewrite elem_of_list_to_set, list_elem_of_fmap. split.
  - intros ([y e] & -> & H). apply tree_elem in H as (k & Hk & _); [by exists k|done|done].
  - intros (k & Hk). exists (x, d + k). split; [done|]. apply tree_elem; [done|done|]. by exists k.
Qed.

(** Two nodes of the same depth share no descendant. *)
Lemma below_disjoint e k k' c c' x : rooted e c -> rooted e c' -> below k c x -> below k' c' x -> c = c'.
Proof.
  intros Hc Hc' H H'. assert (e + k = e + k') as E.
  { apply (rooted_unique _ _ x); [by apply (rooted_below e k c)|by apply (rooted_below e k' c')]. }
  replace k' with k in * by lia. by eapply below_unique.
Qed.

Definition fresh (V : gset Z) (n : Z) : Prop := forall x k, below k n x -> x ∉ V.

Lemma visit_list f e cs V out :
  (forall c V out, rooted e c -> fresh V c ->
     visit m order f e c (V, out) = (V ∪ pids (tree f e c), out ++ tree f e c)) ->
  size m <= f + e -> NoDup cs -> Forall (rooted e) cs -> Forall (fresh V) cs ->
  foldl (fun st c => visit m order f e c st) (V, out) cs =
    (V ∪ pids (cs ≫= tree f e), out ++ (cs ≫= tree f e)).
Proof.
  intros Hv Hf. revert V out. induction cs as [|c cs IH]; intros V out Hnd Hr Hd; simpl.
  { unfold pids. simpl. by rewrite (right_id_L ∅ (∪)), app_nil_r. }
  apply NoDup_cons in Hnd as [Hc Hnd]. apply Forall_cons in Hr as [Hrc Hr]. apply Forall_cons in Hd as [Hdc Hd].
  rewrite Hv by done. rewrite IH; [|done..|].
  - by rewrite pids_app, (assoc_L (∪)), (assoc app).
  - rewrite Forall_forall in *. intros c' Hc' x k Hx [HV|Ht]%elem_of_union; [by eapply Hd|].
    apply pids_tree_elem in Ht as (k' & Hk'); [|by auto|done]. apply Hc.
    by rewrite (below_disjoint e k' k c c' x) by auto.
Qed.

Lemma children_rooted d n : rooted d n -> Forall (rooted (S d)) (Children m order n).
Proof. intros Hn. apply Forall_forall. intros c Hc%Children_elem. by eapply rooted_S. Qed.

Lemma visit_spec f d n V out :
  rooted d n -> size m <= f + d -> fresh V n ->
  visit m order f d n (V, out) = (V ∪ pids (tree f d n), out ++ tree f d n).
Proof.
  revert d n V out. induction f as [|f IH]; intros d n V out Hn Hf HV.
  { pose proof (rooted_bound _ _ Hn). lia. }
  simpl. rewrite decide_False by (apply (HV n 0); constructor).
  rewrite visit_list.
  - f_equal; [unfold pids; simpl; set_solver|]. by rewrite <- (assoc app).
  - intros c V' out' Hc HV'. apply IH; [done|lia|done].
  - lia.
  - apply Children_NoDup.
  - by apply children_rooted.
  - apply Forall_forall. intros c Hc%Children_elem x k Hx [->%elem_of_singleton|HxV]%elem_of_union.
    + pose proof (rooted_below _ _ _ _ (rooted_S _ _ _ Hn Hc) Hx) as Hd. pose proof (rooted_unique _ _ _ Hn Hd). lia.
    + revert HxV. apply (HV x (S k)). by econstructor.
Qed.

Lemma roots_rooted : Forall (rooted 0) (roots m order).
Proof. apply Forall_forall. intros r Hr%roots_elem. exists r. split; [done|]. constructor. Qed.

(** The rows are the trees of the roots, one after the other. *)
Lemma flat_trees : flat m order = roots m order ≫= tree (size m) 0.
Proof.
  unfold flat. rewrite visit_list; [done| |lia|apply roots_NoDup|apply roots_rooted|].
  - intros c V out Hc HV. apply visit_spec; [done|lia|done].
  - apply Forall_forall. intros c _ x k _. set_solver.
Qed.

Lemma flat_elem x d : (x, d) ∈ flat m order <-> rooted d x.
Proof.
  rewrite flat_trees, list_elem_of_bind. split.
  - intros (r & Hx & Hr). pose proof roots_rooted as Hrr. rewrite Forall_forall in Hrr.
    apply tree_elem in Hx as (k & Hk & ->); [|by apply Hrr|lia]. exists r. split; [by apply roots_elem|done].
  - intros (r & Hr & Hk). exists r. split; [|by apply roots_elem]. apply tree_elem; [|lia|by exists d].
    exists r. split; [done|]. constructor.
Qed.

Lemma trees_NoDup f e cs :
  (forall c, c ∈ cs -> NoDup (tree f e c).*1) -> size m <= f + e -> NoDup cs -> Forall (rooted e) cs ->
  NoDup (cs ≫= tree f e).*1.
Proof.
  intros Ht Hf. induction cs as [|c cs IH]; intros Hnd Hr; [constructor|]. simpl. rewrite fmap_app.
  apply NoDup_cons in Hnd as [Hc Hnd]. apply Forall_cons in Hr as [Hrc Hr]. apply NoDup_app. split; [|split].
  - apply Ht. by left.
  - intros x Hx Hx'. apply list_elem_of_fmap in Hx as ([y d] & -> & Hx), Hx' as ([y' d'] & Hy & Hx').
    simpl in Hy. subst y'. apply list_elem_of_bind in Hx' as (c' & Hx' & Hc'). rewrite Forall_forall in Hr.
    apply tree_elem in Hx as (k & Hk & _); [|done|done]. apply tree_elem in Hx' as (k' & Hk' & _); [|by apply Hr|done].
    apply Hc. by rewrite (below_disjoint e k k' c c' y) by auto.
  - apply IH; [|done|done]. intros c' Hc'. apply Ht. by right.
Qed.

Lemma tree_NoDup f d n : rooted d n -> size m <= f + d -> NoDup (tree f d n).*1.
Proof.
  revert d n. induction f as [|f IH]; intros d n Hn Hf; [constructor|]. simpl. constructor.
  - intros Hin. apply list_elem_of_fmap in Hin as ([y e] & -> & Hin).
    apply list_elem_of_bind in Hin as (c & Hin & Hc%Children_elem). simpl in *.
    pose proof (rooted_S _ _ _ Hn Hc) as Hrc. apply tree_elem in Hin as (k & Hk & _); [|done|lia].
    pose proof (rooted_unique _ _ _ Hn (rooted_below _ _ _ _ Hrc Hk)). lia.
  - apply trees_NoDup; [|lia|apply Children_NoDup|by apply children_rooted].
    intros c Hc%Children_elem. apply IH; [by eapply rooted_S|lia].
Qed.

Lemma flat_NoDup : NoDup (flat m order).*1.
Proof.
  rewrite flat_trees. apply trees_NoDup; [|lia|apply roots_NoDup|apply roots_rooted].
  intros r Hr. pose proof roots_rooted as Hrr. rewrite Forall_forall in Hrr. apply tree_NoDup; [by apply Hrr|lia].
Qed.

(** *** The path to the target *)
Definition target_below (n : Z) : Prop := exists x k, below k n x /\ is_target m x = true.

Lemma below_cases n x : (exists k, below k n x) <-> x = n \/ exists c, is_child m n c /\ exists k, below k c x.
Proof.
  split.
  - intros ([|k] & H); inversion H; subst; [by left|]. right. eexists. split; [done|]. by eexists.
  - intros [->|(c & Hc & k & Hk)]; [exists 0; constructor|]. exists (S k). by econstructor.
Qed.

Lemma target_below_cases n : target_below n <-> is_target m n = true \/ exists c, is_child m n c /\ target_below c.
Proof.
  unfold target_below. split.
  - intros (x & k & Hk & Hx). destruct (proj1 (below_cases n x)) as [->|(c & Hc & k' & Hk')]; [by exists k|by left|].
    right. exists c. split; [done|]. by exists x, k'.
  - intros [H|(c & Hc & x & k & Hk & Hx)]; [exists n, 0; split; [constructor|done]|].
    exists x, (S k). split; [by econstructor|done].
Qed.

(** What [dive] at [n] adds to the marks: everything below [n] with the
    target below it. *)
Definition dive_ok (n : Z) (mk : gset Z) (r : bool * gset Z) : Prop :=
  (r.1 = true <-> target_below n) /\
  forall y, y ∈ r.2 <-> y ∈ mk \/ (exists k, below k n y) /\ target_below y.

Lemma exists_cons {A} (P : A -> Prop) x l : (exists c, c ∈ x :: l /\ P c) <-> P x \/ exists c, c ∈ l /\ P c.
Proof. setoid_rewrite elem_of_cons. naive_solver. Qed.

Lemma dive_list f V cs b0 mk :
  (forall c mk, c ∈ cs -> dive_ok c mk (dive m order f V c mk)) ->
  let r := foldl (fun st c => let '(b, mk) := dive m order f V c st.2 in (if b then true else st.1, mk)) (b0, mk) cs in
  (r.1 = true <-> b0 = true \/ exists c, c ∈ cs /\ target_below c) /\
  forall y, y ∈ r.2 <-> y ∈ mk \/ exists c, c ∈ cs /\ (exists k, below k c y) /\ target_below y.
Proof.
  revert b0 mk. induction cs as [|c cs IH]; intros b0 mk Hd; simpl.
  { split; [|intros y]; (split; [by left|intros [H|(c & Hc & _)]; [done|by apply not_elem_of_nil in Hc]]). }
  pose proof (Hd c mk ltac:(by left)) as [Hb Hy]. destruct (dive m order f V c mk) as [b mk'] eqn:E. simpl in *.
  destruct (IH (if b then true else b0) mk') as [IHb IHy]; [intros c' ? ?; apply Hd; by right|]. split.
  - rewrite IHb, exists_cons, <- Hb. destruct b; naive_solver.
  - intros y. rewrite IHy, Hy, exists_cons. tauto.
Qed.

Lemma dive_spec f d n V mk :
  rooted d n -> size m <= f + d -> (forall x, x ∈ V -> exists e, e < d /\ rooted e x) ->
  dive_ok n mk (dive m order f V n mk).
Proof.
  revert d n V mk. induction f as [|f IH]; intros d n V mk Hn Hf HV.
  { pose proof (rooted_bound _ _ Hn). lia. }
  simpl. rewrite decide_False.
  2:{ intros Hin. destruct (HV n Hin) as (e & He & Hen). pose proof (rooted_unique _ _ _ Hn Hen). lia. }
  destruct (dive_list f ({[n]} ∪ V) (Children m order n) (is_target m n) mk) as [Hb Hy].
  { intros c mk' Hc%Children_elem. apply (IH (S d)); [by eapply rooted_S|lia|].
    intros x [->%elem_of_singleton|Hx]%elem_of_union; [exists d; split; [lia|done]|].
    destruct (HV x Hx) as (e & ? & ?). exists e. split; [lia|done]. }
  destruct (foldl _ _ _) as [b mk'] eqn:E. simpl in Hb, Hy. setoid_rewrite Children_elem in Hb.
  setoid_rewrite Children_elem in Hy. assert (b = true <-> target_below n) as Hbn by by rewrite target_below_cases.
  split; [done|]. intros y. simpl. rewrite (below_cases n y). destruct b.
  - rewrite elem_of_union, elem_of_singleton, Hy. destruct Hbn as [Hbn _]. specialize (Hbn eq_refl). naive_solver.
  - rewrite Hy. split; [intros [?|(c & ? & ? & ?)]; [by left|right; split; [right; by exists c|done]]|].
    intros [H|[[->|(c & Hc & Hk)] Ht]]; [by left|by apply Hbn in Ht|]. right. by exists c.
Qed.

Lemma HasTargetIn_elem y : y ∈ HasTargetIn m order <-> (exists d, rooted d y) /\ target_below y.
Proof.
  unfold HasTargetIn.
  assert (forall cs mk, Forall (rooted 0) cs ->
    y ∈ foldl (fun mk r => (dive m order (size m) ∅ r mk).2) mk cs <->
    y ∈ mk \/ exists c, c ∈ cs /\ (exists k, below k c y) /\ target_below y) as H.
  { intros cs. induction cs as [|c cs IH]; intros mk Hr; simpl.
    { split; [by left|]. intros [H|(c & Hc & _)]; [done|by apply not_elem_of_nil in Hc]. }
    apply Forall_cons in Hr as [Hc Hr]. rewrite IH by done.
    destruct (dive_spec (size m) 0 c ∅ mk Hc ltac:(lia)) as [_ Hy]; [set_solver|]. rewrite Hy.
    rewrite exists_cons. tauto. }
  rewrite H by apply roots_rooted. setoid_rewrite roots_elem. unfold rooted. set_solver.
Qed.
End forest_facts.

(** ** Lemmas: the process table *)
Lemma count_sum_insert c t : count_sum (<[t := default 0 (c !! t) + 1]> c) = count_sum c + 1.
Proof.
  unfold count_sum. destruct (c !! t) as [k|] eqn:E; simpl.
  - rewrite <- (insert_delete_id c t k) at 2 by done. rewrite <- insert_delete_eq.
    rewrite !map_fold_insert_L by (first [apply lookup_delete_eq|intros; lia]). lia.
  - rewrite map_fold_insert_L by (first [done|intros; lia]). lia.
Qed.

Section table_facts.
Context (conv_u32 conv_int : json -> Z) (targetID : Z) (typeFilter : string).
Let step := step_event conv_u32 conv_int targetID typeFilter.

(** The process an event is filed under. *)
Definition pid_of (ev : EventRow) : option Z :=
  match unmarshal_object (Ev_Data ev) with
  | None => None
  | Some body => let p := lh_PID (headerFromBody conv_u32 conv_int body) in
                 if decide (p = 0%Z) then None else Some p
  end.

Definition attached (ev : EventRow) : Prop :=
  typeFilter = "" \/ Ev_Type ev = typeFilter \/ (Ev_ID ev = targetID /\ targetID <> 0%Z).
#[global] Instance attached_dec ev : Decision (attached ev).
Proof. unfold attached. apply _. Defined.

Lemma attach_decide ev :
  bool_decide (typeFilter = "" \/ Ev_Type ev = typeFilter) || bool_decide (Ev_ID ev = targetID /\ targetID <> 0%Z) =
  bool_decide (attached ev).
Proof.
  unfold attached. apply eq_true_iff_eq. rewrite orb_true_iff, !bool_decide_eq_true. tauto.
Qed.

Definition own (n : Z) (events : list EventRow) : list EventRow := filter (fun ev => pid_of ev = Some n) events.

(** What the node of process [n] has collected from [events]. *)
Record node_spec (n : Z) (events : list EventRow) (nd : procNode) : Prop := {
  ns_counts : count_sum (EventCounts nd) = length (own n events);
  ns_type t : default 0 (EventCounts nd !! t) = length (filter (fun ev => Ev_Type ev = t) (own n events));
  ns_events : em_ID <$> Events nd = Ev_ID <$> filter attached (own n events);
  ns_flags : Forall (fun e => em_IsTarget e = bool_decide (em_ID e = targetID /\ targetID <> 0%Z)) (Events nd);
  ns_target : IsTarget nd = true <-> targetID <> 0%Z /\ exists ev, ev ∈ own n events /\ Ev_ID ev = targetID
}.

(** Collected data apart from the links. *)
Definition same_data (nd nd' : procNode) : Prop :=
  Events nd = Events nd' /\ IsTarget nd = IsTarget nd' /\ EventCounts nd = EventCounts nd'.

Lemma node_spec_same n evs nd nd' : same_data nd nd' -> node_spec n evs nd -> node_spec n evs nd'.
Proof. intros (E1 & E2 & E3) []. split; by rewrite <- ?E1, <- ?E2, <- ?E3. Qed.

Record table_inv (events : list EventRow) (m : table) : Prop := {
  ti_zero : m !! 0%Z = None;
  ti_node n nd : m !! n = Some nd -> node_spec n events nd;
  ti_own n : own n events <> [] -> is_Some (m !! n)
}.

Lemma node_spec_new n events ppid comm : own n events = [] -> node_spec n events (mkProcNode ppid comm "" [] false ∅).
Proof.
  intros E. split; rewrite ?E; [done| |done|by constructor|].
  - intros t. simpl. by rewrite lookup_empty.
  - split; [done|]. intros (_ & ev & H & _). by apply not_elem_of_nil in H.
Qed.

Lemma upsert_inv pid ppid comm events m : pid <> 0%Z -> table_inv events m -> table_inv events (upsert pid ppid comm m).
Proof.
  intros Hp [H0 Hn Ho]. unfold upsert. destruct (m !! pid) as [nd|] eqn:E.
  all: split; [by rewrite lookup_insert_ne| |intros n Hne; rewrite lookup_insert; case_decide; [by eexists|by apply Ho]].
  all: intros n nd' Hl; apply lookup_insert_Some in Hl as [[<- <-]|[_ Hl]]; [|by apply Hn].
  - eapply node_spec_same; [|by apply Hn]. done.
  - apply node_spec_new. destruct (own pid events) eqn:Eo; [done|].
    destruct (Ho pid) as [? Hs]; [by rewrite Eo|congruence].
Qed.

Lemma own_snoc n events ev :
  own n (events ++ [ev]) = own n events ++ (if decide (pid_of ev = Some n) then [ev] else []).
Proof. unfold own. rewrite filter_app, filter_cons. by case_decide. Qed.

Lemma node_spec_skip n events ev nd : pid_of ev <> Some n -> node_spec n events nd -> node_spec n (events ++ [ev]) nd.
Proof. intros Hne []. split; try rewrite own_snoc, decide_False, app_nil_r by done; done. Qed.

(** An event of the node's own process. *)
Lemma add_event_spec n events ev body nd :
  pid_of ev = Some n -> node_spec n events nd ->
  node_spec n (events ++ [ev]) (add_event conv_int ev body (headerFromBody conv_u32 conv_int body) targetID typeFilter nd).
Proof.
  intros Hp [Hc Ht He Hf Hi]. split; try rewrite own_snoc, decide_True by done; unfold add_event; simpl.
  - rewrite count_sum_insert, Hc, length_app. done.
  - intros t. rewrite filter_app, length_app, filter_cons, <- Ht. destruct (decide (Ev_Type ev = t)) as [<-|Hne].
    + by rewrite lookup_insert_eq.
    + rewrite lookup_insert_ne by done. simpl. lia.
  - rewrite filter_app, fmap_app, <- He, filter_cons, attach_decide. destruct (decide (attached ev)).
    + by rewrite bool_decide_true, fmap_app by done.
    + by rewrite bool_decide_false, app_nil_r by done.
  - destruct (_ || _); [|done]. apply Forall_app. split; [done|]. by repeat constructor.
  - rewrite orb_true_iff, Hi, bool_decide_eq_true. setoid_rewrite elem_of_app. setoid_rewrite list_elem_of_singleton.
    naive_solver.
Qed.

Lemma upsert_ancestors_inv l events m : table_inv events m -> table_inv events (upsert_ancestors l m).
Proof.
  revert m. induction l as [|a l IH]; intros m Hm; [done|]. apply IH. case_decide; [done|]. by apply upsert_inv.
Qed.

Lemma pid_of_None_snoc events ev m : pid_of ev = None -> table_inv events m -> table_inv (events ++ [ev]) m.
Proof.
  intros Hp [H0 Hn Ho]. split; [done| |].
  - intros n nd Hl. apply node_spec_skip; [congruence|by apply Hn].
  - intros n. rewrite own_snoc, decide_False, app_nil_r by congruence. apply Ho.
Qed.

Lemma step_inv events ev m : table_inv events m -> table_inv (events ++ [ev]) (step m ev).
Proof.
  intros Hm. unfold step, step_event. destruct (unmarshal_object (Ev_Data ev)) as [body|] eqn:E.
  2:{ apply pid_of_None_snoc; [unfold pid_of; by rewrite E|done]. }
  set (hdr := headerFromBody conv_u32 conv_int body). case_decide as Hp.
  { apply pid_of_None_snoc; [unfold pid_of; rewrite E; by rewrite decide_True|done]. }
  assert (pid_of ev = Some (lh_PID hdr)) as Hpid by (unfold pid_of; rewrite E; by rewrite decide_False).
  assert (table_inv (events ++ [ev]) (alter (add_event conv_int ev body hdr targetID typeFilter) (lh_PID hdr)
            (upsert (lh_PID hdr) (lh_PPID hdr) (lh_Comm hdr) m))) as Hm'; [|case_decide; [by apply upsert_ancestors_inv|done]].
  pose proof (upsert_inv (lh_PID hdr) (lh_PPID hdr) (lh_Comm hdr) events m Hp Hm) as [H0 Hn Ho].
  split; [by rewrite lookup_alter_ne| |].
  - intros n nd. rewrite lookup_alter. case_decide as Hne.
    + subst n. intros (nd0 & Hl & ->)%fmap_Some. apply add_event_spec; [done|by apply Hn].
    + intros Hl. apply node_spec_skip; [congruence|by apply Hn].
  - intros n. rewrite own_snoc, lookup_alter, Hpid. destruct (decide (lh_PID hdr = n)) as [<-|Hne].
    + intros _. apply fmap_is_Some. unfold upsert. destruct (m !! lh_PID hdr); rewrite lookup_insert_eq; by eexists.
    + rewrite decide_False, app_nil_r by congruence. apply Ho.
Qed.

Lemma processes_inv events : table_inv events (processes conv_u32 conv_int events targetID typeFilter).
Proof.
  unfold processes. induction events as [|ev events IH] using rev_ind.
  - split; [done|by intros n nd H|done].
  - rewrite foldl_app. simpl. by apply step_inv.
Qed.
End table_facts.

(** ** Lemmas: the rows *)
Lemma foldl_sum {A} (f : A -> nat) (l : list A) k : foldl (fun s x => s + f x) k l = k + sum_list (f <$> l).
Proof.
  revert k. induction l as [|x l IH]; intros k; cbn [foldl].
  - rewrite fmap_nil. simpl. lia.
  - rewrite IH, fmap_cons. simpl. lia.
Qed.

Lemma float_target_perm l : float_target l ≡ₚ l.
Proof.
  unfold float_target. induction l as [|e l IH]; [done|]. rewrite !filter_cons.
  destruct (em_IsTarget e); simpl.
  - by rewrite IH.
  - by rewrite <- Permutation_middle, IH.
Qed.

Lemma float_target_head l : Exists (fun e => em_IsTarget e = true) l ->
  exists e l', float_target l = e :: l' /\ em_IsTarget e = true.
Proof.
  intros [e [He Ht]]%Exists_exists. unfold float_target.
  destruct (filter (fun e => em_IsTarget e = true) l) as [|x k] eqn:E.
  - assert (e ∈ filter (fun e => em_IsTarget e = true) l) as H by (by apply list_elem_of_filter).
    rewrite E in H. by apply not_elem_of_nil in H.
  - exists x, (k ++ filter (fun e => em_IsTarget e = false) l). split; [done|].
    assert (x ∈ filter (fun e => em_IsTarget e = true) l) as H by (rewrite E; by left).
    by apply list_elem_of_filter in H as [? _].
Qed.

(** The iteration order leaves no trace. *)
Section any_order.
Context (m : table) (o o' : list Z).
Hypothesis perm : o ≡ₚ o'.

Lemma Children_order n : Children m o n = Children m o' n.
Proof. unfold Children. apply by_pid_unique. by rewrite perm. Qed.

Lemma roots_order : roots m o = roots m o'.
Proof. unfold roots. apply by_pid_unique. by rewrite perm. Qed.

Lemma visit_order f d n st : visit m o f d n st = visit m o' f d n st.
Proof.
  revert d n st. induction f as [|f IH]; intros d n st; [done|]. simpl. case_decide; [done|].
  rewrite Children_order. generalize ({[n]} ∪ st.1, st.2 ++ [(n, d)]). induction (Children m o' n) as [|c cs IHc]; [done|].
  intros st'. simpl. by rewrite IH, IHc.
Qed.

Lemma flat_order : flat m o = flat m o'.
Proof.
  unfold flat. rewrite roots_order. f_equal. generalize (∅ : gset Z, [] : list (Z * nat)).
  induction (roots m o') as [|c cs IHc]; [done|]. intros st. simpl. by rewrite visit_order, IHc.
Qed.

Lemma dive_order f V n mk : dive m o f V n mk = dive m o' f V n mk.
Proof.
  revert V n mk. induction f as [|f IH]; intros V n mk; [done|]. simpl. case_decide; [done|].
  rewrite Children_order. enough (forall st cs,
    foldl (fun st c => let '(b, mk) := dive m o f ({[n]} ∪ V) c st.2 in (if b then true else st.1, mk)) st cs =
    foldl (fun st c => let '(b, mk) := dive m o' f ({[n]} ∪ V) c st.2 in (if b then true else st.1, mk)) st cs) as ->
    by done.
  intros st cs. revert st. induction cs as [|c cs IHc]; [done|]. intros st. simpl. by rewrite IH, IHc.
Qed.

Lemma HasTargetIn_order : HasTargetIn m o = HasTargetIn m o'.
Proof.
  unfold HasTargetIn. rewrite roots_order. enough (forall cs mk,
    foldl (fun mk r => (dive m o (size m) ∅ r mk).2) mk cs = foldl (fun mk r => (dive m o' (size m) ∅ r mk).2) mk cs) as ->
    by done.
  intros cs. induction cs as [|c cs IHc]; [done|]. intros mk. simpl. by rewrite dive_order, IHc.
Qed.
End any_order.

Lemma filter_comm {A} (P Q : A -> Prop) `{!forall x, Decision (P x)} `{!forall x, Decision (Q x)} (l : list A) :
  filter P (filter Q l) = filter Q (filter P l).
Proof.
  induction l as [|x l IH]; [done|]. rewrite !(filter_cons _ x).
  destruct (decide (Q x)), (decide (P x)); rewrite ?filter_cons_True, ?filter_cons_False by done; by rewrite ?IH.
Qed.

Section build_facts.
Context (conv_u32 conv_int : json -> Z) (order : table -> list Z) (events : list EventRow).
Context (targetID : Z) (typeFilter : string).
Hypothesis order_perm : forall m, order m ≡ₚ (map_to_list m).*1.
Let m := processes conv_u32 conv_int events targetID typeFilter.
Let rows := (buildLineage conv_u32 conv_int order events targetID typeFilter).2.

Lemma table_ok : table_inv conv_u32 conv_int targetID typeFilter events m.
Proof. apply processes_inv. Qed.

(** The row of a walked PID. *)
Definition shown_node (n : procNode) : procNode :=
  if decide (targetID = 0%Z) then n
  else mkProcNode (PPID n) (Comm n) (Binary n) (float_target (Events n)) (IsTarget n) (EventCounts n).

Lemma rows_flat : (fun r => (row_PID r, row_Depth r)) <$> rows = flat m (order m).
Proof.
  assert (Forall (fun nd => is_Some (m !! nd.1)) (flat m (order m))) as H.
  { apply Forall_forall. intros [n d] Hn. eapply rooted_in.
    by apply (flat_elem m (order m) (order_perm m) (ti_zero _ _ _ _ _ _ table_ok)) in Hn. }
  subst rows. unfold buildLineage. fold m. simpl. revert H. generalize (flat m (order m)) as l. induction l as [|[n d] l IH]; [done|].
  intros [[nd Hn] H]%Forall_cons. simpl in *. rewrite Hn. simpl. f_equal. by apply IH.
Qed.

Lemma row_elem r :
  r ∈ rows -> exists nd, m !! row_PID r = Some nd /\ row_node r = shown_node nd /\ rooted m (row_Depth r) (row_PID r) /\
    row_HasTargetIn r = bool_decide (row_PID r ∈ (if decide (targetID = 0%Z) then ∅ else HasTargetIn m (order m))).
Proof.
  intros Hr. subst rows. unfold buildLineage in Hr. fold m in Hr. simpl in Hr.
  apply list_elem_of_omap in Hr as ([n d] & Hn & (nd & Hl & ->)%fmap_Some). simpl in *. exists nd.
  split; [done|]. split; [done|]. split; [|done].
  by apply (flat_elem m (order m) (order_perm m) (ti_zero _ _ _ _ _ _ table_ok)) in Hn.
Qed.

Lemma row_pid_elem n : n ∈ row_PID <$> rows <-> exists d, rooted m d n.
Proof.
  assert (row_PID <$> rows = (flat m (order m)).*1) as ->.
  { rewrite <- rows_flat, <- list_fmap_compose. done. }
  rewrite list_elem_of_fmap. setoid_rewrite <- (flat_elem m (order m) (order_perm m) (ti_zero _ _ _ _ _ _ table_ok)).
  split; [intros ([x d] & -> & H); by exists d|intros [d H]; by exists (n, d)].
Qed.

Lemma row_pids_NoDup : NoDup (row_PID <$> rows).
Proof.
  assert (row_PID <$> rows = (flat m (order m)).*1) as ->.
  { rewrite <- rows_flat, <- list_fmap_compose. done. }
  apply flat_NoDup; [apply order_perm|apply (ti_zero _ _ _ _ _ _ table_ok)].
Qed.

(** Whether an event is filed under one of the processes [l]. *)
Definition shown (l : list Z) (ev : EventRow) : Prop :=
  match pid_of conv_u32 conv_int ev with Some n => n ∈ l | None => False end.
#[global] Instance shown_dec l ev : Decision (shown l ev).
Proof. unfold shown. destruct (pid_of conv_u32 conv_int ev); apply _. Defined.

Lemma sum_own l evs :
  NoDup l -> sum_list ((fun n => length (own conv_u32 conv_int n evs)) <$> l) = length (filter (shown l) evs).
Proof.
  induction l as [|n l IH]; intros Hnd.
  - rewrite filter_none; [done|]. apply Forall_forall. intros ev _. unfold shown.
    destruct (pid_of conv_u32 conv_int ev); [apply not_elem_of_nil|tauto].
  - apply NoDup_cons in Hnd as [Hn Hnd]. rewrite fmap_cons.
    transitivity (length (own conv_u32 conv_int n evs) + length (filter (shown l) evs)); [by rewrite <- IH|].
    clear IH. unfold own. induction evs as [|ev evs IHe]; [done|]. rewrite !filter_cons.
    assert (shown (n :: l) ev <-> pid_of conv_u32 conv_int ev = Some n \/ shown l ev) as Hs.
    { unfold shown. destruct (pid_of conv_u32 conv_int ev) as [p|]; [|naive_solver]. rewrite elem_of_cons. naive_solver. }
    assert (pid_of conv_u32 conv_int ev = Some n -> shown l ev -> False) as Hx.
    { unfold shown. intros ->. done. }
    repeat case_decide; simpl; try lia; tauto.
Qed.

(** C20: The lineage page is a well-formed forest, whatever order Go iterates
    the process map in.  No process has two rows; a row exists for exactly
    the processes whose chain of parents ends in a root, at the depth of that
    chain; the rows are the preorder of the roots' trees (so the visited set
    and the fuel never cut anything); and another iteration order gives the
    same page. *)
Theorem lineage_forest order' :
  (forall m, order' m ≡ₚ (map_to_list m).*1) ->
  NoDup (row_PID <$> rows) /\
  (forall n d, (exists r, r ∈ rows /\ row_PID r = n /\ row_Depth r = d) <-> rooted m d n) /\
  (fun r => (row_PID r, row_Depth r)) <$> rows = roots m (order m) ≫= tree m (order m) (size m) 0 /\
  buildLineage conv_u32 conv_int order' events targetID typeFilter =
  buildLineage conv_u32 conv_int order events targetID typeFilter.
Proof.
  intros Ho'. split; [apply row_pids_NoDup|]. split; [|split].
  - intros n d. rewrite <- (flat_elem m (order m) (order_perm m) (ti_zero _ _ _ _ _ _ table_ok)), <- rows_flat.
    rewrite list_elem_of_fmap. split; [intros (r & Hr & <- & <-); by exists r|intros (r & [= -> ->] & Hr); by exists r].
  - rewrite rows_flat. apply flat_trees; [apply order_perm|apply (ti_zero _ _ _ _ _ _ table_ok)].
  - unfold buildLineage. fold m. assert (order' m ≡ₚ order m) as Hp by (by rewrite Ho', order_perm).
    by rewrite (roots_order m _ _ Hp), (flat_order m _ _ Hp), (HasTargetIn_order m _ _ Hp).
Qed.

(** The page's totals count every event of every process it shows, and no
    other.  The total is the number of events filed under a process with a
    row, the filtered total is the number of those attached by the type
    filter (or being the target), and an event is missing from the total
    only when it carries no process or its process hangs on a cycle of
    parents. *)
Theorem lineage_totals :
  totalEvents rows = length (filter (shown (row_PID <$> rows)) events) /\
  filteredEvents rows =
    length (filter (attached targetID typeFilter) (filter (shown (row_PID <$> rows)) events)) /\
  (forall ev, shown (row_PID <$> rows) ev <->
     exists n d, pid_of conv_u32 conv_int ev = Some n /\ rooted m d n).
Proof.
  assert (forall r, r ∈ rows -> exists nd, m !! row_PID r = Some nd /\ row_node r = shown_node nd /\
            node_spec conv_u32 conv_int targetID typeFilter (row_PID r) events nd) as Hrow.
  { intros r Hr. destruct (row_elem r Hr) as (nd & Hl & Hn & _). exists nd. split; [done|]. split; [done|].
    by apply (ti_node _ _ _ _ _ _ table_ok). }
  split; [|split].
  - unfold totalEvents. rewrite foldl_sum, <- sum_own by apply row_pids_NoDup. simpl. f_equal.
    rewrite <- list_fmap_compose. apply list_fmap_ext. intros i r Hr%list_elem_of_lookup_2. simpl.
    destruct (Hrow r Hr) as (nd & _ & -> & []). unfold shown_node. by case_decide.
  - unfold filteredEvents. rewrite foldl_sum. simpl.
    rewrite filter_comm, <- sum_own by apply row_pids_NoDup. f_equal.
    rewrite <- list_fmap_compose. apply list_fmap_ext. intros i r Hr%list_elem_of_lookup_2. simpl.
    destruct (Hrow r Hr) as (nd & _ & -> & []).
    transitivity (length (Events nd)); [unfold shown_node; case_decide; [done|]; simpl; by rewrite float_target_perm|].
    rewrite <- (length_fmap em_ID), ns_events0, length_fmap. unfold own. by rewrite filter_comm.
  - intros ev. unfold shown. destruct (pid_of conv_u32 conv_int ev) as [n|].
    + rewrite row_pid_elem. naive_solver.
    + naive_solver.
Qed.

(** The operator's target event is on the page with its path open.  With
    a target selected, a row is emphasised exactly when the target's process
    is the row's own or one below it, and the row of the process that emitted
    the target shows its marker first. *)
Theorem lineage_target r :
  r ∈ rows -> targetID <> 0%Z ->
  let emitted n := exists ev, ev ∈ events /\ Ev_ID ev = targetID /\ pid_of conv_u32 conv_int ev = Some n in
  (row_HasTargetIn r = true <-> exists n k, below m k (row_PID r) n /\ emitted n) /\
  (emitted (row_PID r) -> exists mk l, Events (row_node r) = mk :: l /\ em_ID mk = targetID).
Proof.
  intros Hr Ht emitted. destruct (row_elem r Hr) as (nd & Hl & Hn & Hd & Hm). rewrite decide_False in Hm by done.
  assert (forall n x, m !! n = Some x -> IsTarget x = true <-> emitted n) as Htgt.
  { intros n x Hx. destruct (ti_node _ _ _ _ _ _ table_ok n x Hx). rewrite ns_target0. unfold emitted, own.
    setoid_rewrite list_elem_of_filter. naive_solver. }
  split.
  - rewrite Hm, bool_decide_eq_true, HasTargetIn_elem by
      (first [apply order_perm|apply (ti_zero _ _ _ _ _ _ table_ok)]).
    unfold target_below, is_target. split.
    + intros (_ & x & k & Hk & Hx). exists x, k. split; [done|]. destruct (m !! x) eqn:E; [|done].
      by apply (Htgt x _ E).
    + intros (n & k & Hk & He). split; [by exists (row_Depth r)|]. exists n, k. split; [done|].
      destruct He as (ev & Hev & Hid & Hp). destruct (ti_own _ _ _ _ _ _ table_ok n) as [x Hx].
      { intros E. assert (ev ∈ own conv_u32 conv_int n events) as Hin by (by apply list_elem_of_filter).
        rewrite E in Hin. by apply not_elem_of_nil in Hin. }
      fold m in Hx. rewrite Hx. apply (Htgt n x Hx). by exists ev.
  - intros He. rewrite Hn. unfold shown_node. rewrite decide_False by done. simpl.
    destruct (ti_node _ _ _ _ _ _ table_ok _ _ Hl) as [_ _ Hev Hf _].
    destruct He as (ev & Hin & Hid & Hp). rewrite Forall_forall in Hf.
    assert (targetID ∈ em_ID <$> Events nd) as (e & He & Hein)%list_elem_of_fmap.
    { rewrite Hev. apply list_elem_of_fmap. exists ev. split; [done|]. unfold own. rewrite !list_elem_of_filter.
      split; [|done]. right. by right. }
    destruct (float_target_head (Events nd)) as (mk & l & Hfl & Hmk).
    + apply Exists_exists. exists e. split; [done|]. rewrite Hf by done. by apply bool_decide_eq_true.
    + rewrite Hfl. exists mk, l. split; [done|]. assert (mk ∈ Events nd) as Hmn.
      { rewrite <- float_target_perm, Hfl. by left. }
      rewrite Hf in Hmk by done. by apply bool_decide_eq_true in Hmk as [? _].
Qed.
End build_facts.

(** ** Concrete runs *)
Definition keys (m : table) : list Z := (map_to_list m).*1.
Definition no_conv (j : json) : Z := 0.

Definition wit_ev (id pid ppid : Z) (type : string) : EventRow :=
  mkEventRow id "r" 0 type (Some (JObj [("Header", JObj [("PID", JNum pid); ("PPID", JNum ppid); ("Tags", JNum 0)])])).

(** A shell with two children; the second one emits the target. *)
Definition wit_events : list EventRow :=
  [wit_ev 1 10 1 "exec"; wit_ev 2 12 10 "dns_query"; wit_ev 3 11 10 "file_access"; wit_ev 4 12 10 "net_connect"].

Lemma keys_perm m : keys m ≡ₚ (map_to_list m).*1.
Proof. done. Qed.

Lemma lineage_forest_witness :
  (fun r => (row_PID r, row_Depth r)) <$> (buildLineage no_conv no_conv keys wit_events 4 "").2 =
  [(10%Z, 0); (11%Z, 1); (12%Z, 1)].
Proof.
  destruct (lineage_forest no_conv no_conv keys wit_events 4 "" keys_perm keys keys_perm) as (_ & _ & H & _).
  rewrite H. vm_compute. reflexivity.
Defined.

Lemma lineage_totals_witness : totalEvents (buildLineage no_conv no_conv keys wit_events 0 "exec").2 = 4.
Proof.
  destruct (lineage_totals no_conv no_conv keys wit_events 0 "exec" keys_perm) as (H & _ & _).
  rewrite H. vm_compute. reflexivity.
Defined.

Lemma lineage_target_witness :
  exists r, r ∈ (buildLineage no_conv no_conv keys wit_events 4 "").2 /\
    exists mk l, Events (row_node r) = mk :: l /\ em_ID mk = 4%Z.
Proof.
  set (rows := (buildLineage no_conv no_conv keys wit_events 4 "").2).
  exists (default (mkRow 0 (mkProcNode 0 "" "" [] false ∅) 0 false) (rows !! 2)).
  assert (Hr : default (mkRow 0 (mkProcNode 0 "" "" [] false ∅) 0 false) (rows !! 2) ∈ rows).
  { vm_compute. apply list_elem_of_further, list_elem_of_further, list_elem_of_here. }
  split; [exact Hr|].
  apply (proj2 (lineage_target no_conv no_conv keys wit_events 4 "" keys_perm _ Hr ltac:(done))).
  exists (wit_ev 4 12 10 "net_connect"). split; [apply (list_elem_of_lookup_2 _ 3); reflexivity|].
  split; vm_compute; reflexivity.
Defined.

(** Processes on a cycle of parents vanish from the page.  When a process
    was seen below another and the other, its PID reused, is later seen below
    it, neither is a root: their rows, everything under them, and their
    events in the page's totals are gone. *)
Theorem lineage_cycle_hidden :
  let events := [wit_ev 1 10 11 "exec"; wit_ev 2 11 10 "net_connect"; wit_ev 3 12 11 "dns_query"] in
  let '(rs, rows) := buildLineage no_conv no_conv keys events 2 "" in
  rs = [] /\ rows = [] /\ totalEvents rows = 0 /\ length (filter (fun ev => pid_of no_conv no_conv ev <> None) events) = 3.
Proof. vm_compute. done. Qed.

End Lineage.
