(* ===== verification/Orchestrator.v ===== *)
(** * fangs-orchestrator: the control-plane program

    cmd/fangs-orchestrator/main.go: the choice of the storage backend, the
    start-up sequence, the watcher's submit callback on the API server, and
    the retention loop with its 64-bit cutoff.  The instants at which the
    retention loop runs, and the passes the database refuses, are an
    argument; OrchestratorMain.v has the flags and
    the process around these parts. *)
From Stdlib Require Import Ascii.
From stdpp Require Import prelude strings gmap list.
From S2P Require Import Prelude GoTime Json Sql Storage Sqlite SqliteSpec Proto Dispatcher Notifier Api Watcher Config.

Module Orchestrator.
Import (hints) SqliteSpec.SqliteSpec.
Import (hints) Sqlite.Sqlite.

(** ** Storage *)
Inductive BackendKind : Type := NoStorage | OpenSqlite (path : string) | OpenPostgres (dsn : string).

(** The backend to open.  [env_DSN] is $FANGS_PG_DSN. *)
Definition choose_storage (kind sqlitePath pgDSN env_DSN : string) : res BackendKind :=
  if decide (kind = "none") then Ok NoStorage
  else if decide (kind = "sqlite") then Ok (OpenSqlite sqlitePath)
  else if decide (kind = "postgres") then
    let dsn := if decide (pgDSN = "") then env_DSN else pgDSN in
    if decide (dsn = "") then Err (Errorf "postgres backend requires -postgres-dsn or $FANGS_PG_DSN")
    else Ok (OpenPostgres dsn)
  else Err (Errorf "unknown -storage backend").

Section open.
Context {S : Type} (mkdir_all : string -> res unit) (dir : string -> string)
        (sqlite_open postgres_open : string -> res S) (migrate : S -> res S).

Definition openStorage (kind sqlitePath pgDSN env_DSN : string) : res (option S) :=
  match choose_storage kind sqlitePath pgDSN env_DSN with
  | Err e => Err e
  | Ok NoStorage => Ok None
  | Ok (OpenSqlite path) =>
      match mkdir_all (dir path) with
      | Err e => Err (Wrapf "create sqlite dir" e)
      | Ok _ => b ← sqlite_open path;
                match migrate b with Ok b => Ok (Some b) | Err e => Err (Wrapf "sqlite migrate" e) end
      end
  | Ok (OpenPostgres dsn) =>
      b ← postgres_open dsn;
      match migrate b with Ok b => Ok (Some b) | Err e => Err (Wrapf "postgres migrate" e) end
  end.
End open.

(** ** Retention *)
Definition Hour : duration := 60 * Minute.

(** [time.Now().Add(-time.Duration(days) * 24 * time.Hour).UnixNano()]. *)
Definition retention (days : Z) : duration := wrapS 64 (wrapS 64 (wrapS 64 (- days) * 24) * Hour).
Definition cutoff (now : time) (days : Z) : Z := wrapS 64 (now + retention days).

Section main.
Context {S : Type} `{Backend S}.

(** One pass.  [fault] is the driver's error when the statement does not run (a
    busy database, the pass's five minutes, the end of the context). *)
Definition prune_pass (retainDays : Z) (now : time) (fault : option error) : M S (res Z) :=
  match fault with
  | Some e => mret (Err e)
  | None => attempt (PruneEvents (cutoff now retainDays))
  end.

(** One pass per tick; a failed pass is logged. *)
Fixpoint prune_ticks (retainDays : Z) (ticks : list (time * option error)) : M S unit :=
  match ticks with
  | [] => mret tt
  | (now, fault) :: ticks' => _ ← prune_pass retainDays now fault; prune_ticks retainDays ticks'
  end.

(** The first pass 30 s after the start, then one per period;
    [time.NewTicker] panics for a period that is not positive. *)
Definition pruneLoop (every : duration) (retainDays : Z) (ticks : list (time * option error)) : M S unit :=
  match ticks with
  | [] => mret tt
  | (now, fault) :: ticks' =>
      _ ← prune_pass retainDays now fault;
      if (every <=? 0)%Z then fail Notifier.runtime_panic else prune_ticks retainDays ticks'
  end.

(** ** The watcher's submissions

    [pick] is the position the iteration over the registered runners starts
    at, [clk] the clock, for each release. *)
Definition scan_job (pkg version : string) : Job :=
  mkJob Api.zero_run_id "sandbox_scan" pkg version "" [] (60 * Second) zero_time
    (Some (Watcher.BuildSandboxScan pkg version)).

Definition submit (pick : string -> string -> nat) (clk : string -> string -> time) (pkg version : string) :
    M (S * Api.Server S) string := fun w =>
  let srv := Api.set_store w.2 (Some w.1) in
  let runner := Api.FirstRegisteredRunner (pick pkg version) srv in
  if decide (runner = "") then (Err (Errorf "no runners registered"), (w.1, srv)) else
  let t := clk pkg version in
  let '(r, srv) := Api.SubmitScan runner (scan_job pkg version) t t t srv in
  (r, (default w.1 (Api.store srv), srv)).

(** ** Start-up *)
Record Flags : Type := mkFlags {
  fl_id : string; fl_version : string; fl_watch : bool; fl_ui : bool; fl_metrics : bool;
  fl_notifiers_file : string; fl_retention_days : Z
}.

(** What runs once the program is up. *)
Record Running : Type := mkRunning {
  rn_server : Api.Server S; rn_notifier : bool; rn_watcher : bool; rn_pruner : bool; rn_ui : bool
}.

(** The error with which the program exits, or [runtime_panic].  [ui_new] is
    the outcome of parsing the dashboard's templates. *)
Definition start (sha256 : list ascii -> list ascii) (load_notifiers : string -> M S nat) (ui_new : res unit)
    (now : time) (fl : Flags) (cfg : res Config.Config) (opened : res (option S)) : res Running :=
  match cfg, opened with
  | Err e, _ | _, Err e => Err e
  | Ok cfg, Ok store =>
      let paths := default Watcher.DefaultWatchedPaths (Config.WatchedPathsAsProto (Some cfg)) in
      (* an error of ApplyAllowlist is logged *)
      let store := (fun st => (Config.ApplyAllowlist sha256 (Some cfg) now st).2) <$> store in
      let loaded :=
        match store with
        | Some st => if decide (fl_notifiers_file fl = "") then Ok (Some st)
                     else match load_notifiers (fl_notifiers_file fl) st with
                          | (Ok _, st) => Ok (Some st)
                          | (Err e, _) => Err e
                          end
        | None => Ok None
        end in
      match loaded with Err e => Err e | Ok store =>
         let srv := Api.New (fl_id fl) (fl_version fl) paths store in
         let srv := if fl_metrics fl then
                      Api.mkServer (Api.orchestratorID srv) (Api.version srv) (Api.defaultWatchedPaths srv)
                        (Api.runners srv) (Api.dispatcher srv) (Api.store srv) (Api.differTimers srv) (Some [])
                    else srv in
         let has_store := bool_decide (is_Some store) in
         if fl_ui fl && has_store && negb (is_Ok ui_new) then Err (Errorf "ui init") else
         Ok (mkRunning srv has_store (fl_watch fl && has_store)
                 (has_store && (0 <? fl_retention_days fl)%Z) (fl_ui fl && has_store))
      end
  end.
End main.

(** ** Retention: lemmas *)
Definition Day : duration := 24 * Hour.

Lemma retention_exact days : (0 <= days <= 106751)%Z -> retention days = (- (days * Day))%Z.
Proof.
  intros Hd. unfold retention. rewrite (wrapS_small 64 (- days)) by (simpl; lia).
  rewrite (wrapS_small 64 (- days * 24)) by (simpl; lia).
  assert (Hh : Hour = 3600000000000%Z) by reflexivity. unfold Day. rewrite wrapS_small by (rewrite ?Hh; simpl; lia). lia.
Qed.

Lemma cutoff_exact now days :
  (0 <= now < 2 ^ 63)%Z -> (0 <= days <= 106751)%Z -> cutoff now days = (now - days * Day)%Z.
Proof.
  intros Hn Hd. unfold cutoff. rewrite retention_exact by done.
  assert (Hh : Day = 86400000000000%Z) by reflexivity. rewrite Hh. rewrite wrapS_small by (simpl; lia). lia.
Qed.

Section retaining.
Implicit Types (d : Sqlite.Sqlite.DB).

Lemma prune_ticks_events days ticks d :
  exists d', prune_ticks days ticks d = (Ok tt, d') /\
    Sqlite.Sqlite.deviations d' = Sqlite.Sqlite.deviations d /\ Sqlite.Sqlite.runs d' = Sqlite.Sqlite.runs d /\
    (forall e, e ∈ Sqlite.Sqlite.events d' <->
       e ∈ Sqlite.Sqlite.events d /\
       ((forall t, (t, None) ∈ ticks -> (cutoff t days <= Ev_TsNS e)%Z) \/
        Ev_ID e ∈ Dev_EvidenceEventID <$> Sqlite.Sqlite.deviations d)).
Proof.
  revert d. induction ticks as [|[t [x|]] ticks IH]; intros d.
  - exists d. split_and!; try done. intros e. split; [intros He|by intros [? _]].
    split; [done|]. left. intros t Ht. by apply not_elem_of_nil in Ht.
  - destruct (IH d) as (d' & E & Hd & Hr & He). exists d'. split_and!; [exact E|done|done|]. intros e. rewrite He.
    split; intros [? [Hk|?]]; (split; [done|]); [left|by right|left|by right].
    + intros t' [[= _]|?]%elem_of_cons; auto.
    + intros t' ?. apply Hk. by right.
  - destruct (IH (Sqlite.Sqlite.PruneEvents (cutoff t days) d).2) as (d' & E & Hd & Hr & He).
    exists d'. split_and!; [exact E|done|done|]. intros e. rewrite He, SqliteSpec.SqliteSpec.prune_keeps.
    change (Sqlite.Sqlite.deviations (Sqlite.Sqlite.PruneEvents (cutoff t days) d).2) with (Sqlite.Sqlite.deviations d).
    unfold Sqlite.Sqlite.prunable. setoid_rewrite elem_of_cons.
    destruct (decide (Ev_ID e ∈ Dev_EvidenceEventID <$> Sqlite.Sqlite.deviations d)) as [Hin|Hin].
    + split; [intros [[? _] _]|intros [? _]]; split_and!; auto. by intros [_ ?].
    + split.
      * intros [[? Hn] [Ht|?]]; [|done]. split; [done|]. left. intros t' [[= ->]|Ht']; [|auto].
        destruct (decide (Ev_TsNS e < cutoff t days)%Z); [|lia]. by destruct Hn.
      * intros [? [Ht|?]]; [|done]. split_and!; [done| |left; auto].
        intros [Hlt _]. specialize (Ht t (or_introl eq_refl)). lia.
Qed.

(** The loop is its passes, as many as it lives to make. *)
Definition passes (every : duration) (ticks : list (time * option error)) : list (time * option error) :=
  if (every <=? 0)%Z then take 1 ticks else ticks.
Definition dies (every : duration) (ticks : list (time * option error)) : bool :=
  (every <=? 0)%Z && match ticks with [] => false | _ => true end.

Lemma pruneLoop_passes every days ticks d :
  pruneLoop every days ticks d =
  (if dies every ticks then Err Notifier.runtime_panic else Ok tt, (prune_ticks days (passes every ticks) d).2).
Proof.
  unfold pruneLoop, dies, passes. destruct ticks as [|[t x] ticks]; [by destruct (every <=? 0)%Z|].
  destruct (every <=? 0)%Z; simpl.
  - unfold prune_pass. by destruct x.
  - destruct (prune_ticks_events days ((t, x) :: ticks) d) as (d' & E & _). simpl in E. by rewrite E.
Qed.

(** C33: The retention loop deletes exactly what is past retention, whichever passes the
    database refuses.  With -retention-days between 1 and 106751 no product or
    difference leaves 64 bits, and however often the loop runs, an event is
    gone if and only if at one of the passes that did not fail it was older than that many
    days and no deviation cites it as evidence; deviations and runs are
    untouched, and a failed pass neither changes anything nor ends the
    loop.  A -retention-interval that is not positive does end it, and
    the process: after the first pass [time.NewTicker] panics. *)
Theorem pruneLoop_retains every days ticks d :
  (0 < days <= 106751)%Z -> (forall t x, (t, x) ∈ ticks -> (0 <= t < 2 ^ 63)%Z) ->
  exists d', pruneLoop every days ticks d =
      (if dies every ticks then Err Notifier.runtime_panic else Ok tt, d') /\
    Sqlite.Sqlite.deviations d' = Sqlite.Sqlite.deviations d /\ Sqlite.Sqlite.runs d' = Sqlite.Sqlite.runs d /\
    (forall e, e ∈ Sqlite.Sqlite.events d' <->
       e ∈ Sqlite.Sqlite.events d /\
       ((forall t, (t, None) ∈ passes every ticks -> (t - days * Day <= Ev_TsNS e)%Z) \/
        exists v, v ∈ Sqlite.Sqlite.deviations d /\ Dev_EvidenceEventID v = Ev_ID e)).
Proof.
  intros Hd Ht. destruct (prune_ticks_events days (passes every ticks) d) as (d' & E & Hdv & Hr & He).
  exists d'. rewrite pruneLoop_passes, E. split_and!; try done.
  assert (Hc : forall t, (t, None) ∈ passes every ticks -> cutoff t days = (t - days * Day)%Z).
  { intros t Hti. apply cutoff_exact; [|lia]. apply (Ht t None). revert Hti. unfold passes.
    destruct (every <=? 0)%Z; [|done]. destruct ticks as [|y ticks]; [done|]. simpl. set_solver. }
  intros e. rewrite He, list_elem_of_fmap. split; intros [Hin Hk]; (split; [done|]).
  - destruct Hk as [Hk|(v & Hv & Hin')]; [left|right; by exists v].
    intros t Hti. rewrite <- Hc by done. by apply Hk.
  - destruct Hk as [Hk|(v & Hin' & Hv)]; [left|right; by exists v].
    intros t Hti. rewrite Hc by done. by apply Hk.
Qed.
End retaining.

Definition wit_day : time := (20000 * Day)%Z.
Definition wit_events : Sqlite.Sqlite.DB :=
  foldl (fun d m => SqliteSpec.SqliteSpec.exec m d) Sqlite.Sqlite.empty_db
    [SqliteSpec.SqliteSpec.MCreateRun 1 (new_run "r1" "axios" "1.0" RunStatePending 1);
     SqliteSpec.SqliteSpec.MAppendEvents "r1"
       [mkEventRow 0 "" (wit_day - 100 * Day) "exec" None; mkEventRow 0 "" (wit_day - 10 * Day) "exec" None]].
Definition busy : option error := Some (Errorf "database is locked").
Definition wit_ticks : list (time * option error) := [(wit_day, busy); (wit_day + Day, None)%Z].

(** The first pass is refused, the second deletes what both should have. *)
Lemma pruneLoop_retains_witness :
  Ev_ID <$> Sqlite.Sqlite.events (pruneLoop Hour 90 (take 1 wit_ticks) wit_events).2 = [1%Z; 2%Z] /\
  Ev_ID <$> Sqlite.Sqlite.events (pruneLoop Hour 90 wit_ticks wit_events).2 = [2%Z] /\
  exists d', pruneLoop Hour 90 wit_ticks wit_events = (Ok tt, d') /\
    Sqlite.Sqlite.runs d' = Sqlite.Sqlite.runs wit_events.
Proof.
  split; [vm_compute; reflexivity|]. split; [vm_compute; reflexivity|].
  destruct (pruneLoop_retains Hour 90 wit_ticks wit_events) as (d' & E & _ & Hr & _); [lia| |by exists d'].
  assert (Ht : wit_day = 1728000000000000000%Z) by reflexivity. assert (Hh : Day = 86400000000000%Z) by reflexivity.
  intros t x. unfold wit_ticks. rewrite !elem_of_cons, Ht, Hh.
  intros [[= -> _]|[[= -> _]|H%not_elem_of_nil]]; [simpl; lia..|done].
Defined.

(** One day more and the product wraps; at 213503 days the cutoff lies in the
    future, and a pass deletes today's events too. *)
Theorem retention_overflow :
  (0 < retention 106752)%Z /\ cutoff wit_day 213503 = (wit_day + 84873709551616)%Z /\
  Sqlite.Sqlite.events (pruneLoop Hour 213503 [(wit_day, None)] wit_events).2 = [].
Proof. split_and!; vm_compute; reflexivity. Qed.

(** A period of zero takes the process down after the first pass. *)
Example zero_interval_dies : (pruneLoop 0 90 wit_ticks wit_events).1 = Err Notifier.runtime_panic.
Proof. vm_compute. reflexivity. Qed.

(** ** From the registry to a runner's queue *)
Section watching.
Import Dispatcher.Dispatcher Api.Api Watcher.Watcher.
Context (latest : string -> res PackageVersion) (pick : string -> string -> nat) (clk : string -> string -> time).
Implicit Types (srv : Server Sqlite.Sqlite.DB) (w : World Sqlite.Sqlite.DB (Server Sqlite.Sqlite.DB)).

Definition target srv (nv : string * string) : string := FirstRegisteredRunner (pick nv.1 nv.2) srv.
Definition queued_job srv (nv : string * string) : Job :=
  fill_job (defaultWatchedPaths srv) (clk nv.1 nv.2) (clk nv.1 nv.2) (scan_job nv.1 nv.2).
Definition release_run (nv : string * string) : string := hex (SyntheticRunID (clk nv.1 nv.2)).

(** Registered ids are not empty ([handleRegister] refuses them). *)
Definition named srv : Prop := runners srv !! "" = None.

Lemma first_runner i srv :
  named srv ->
  FirstRegisteredRunner i srv = "" /\ runners srv = ∅ \/
  FirstRegisteredRunner i srv <> "" /\ is_Some (runners srv !! FirstRegisteredRunner i srv).
Proof.
  intros Hn. unfold FirstRegisteredRunner, RegisteredRunners.
  assert (Hall : forall id, id ∈ (map_to_list (runners srv)).*1 -> id <> "" /\ is_Some (runners srv !! id)).
  { intros id Hin. apply list_elem_of_fmap in Hin as ((k & v) & -> & Hin%elem_of_map_to_list). simpl.
    split; [|by eexists]. intros ->. unfold named in Hn. congruence. }
  destruct (map_to_list (runners srv)).*1 as [|id l] eqn:E.
  - left. split; [done|]. apply fmap_nil_inv in E. by apply map_to_list_empty_iff.
  - right. apply Hall. destruct ((id :: l) !! i) as [x|] eqn:Ei; simpl; [by eapply list_elem_of_lookup_2|by left].
Qed.

Lemma submit_packages n v (d : Sqlite.Sqlite.DB) srv :
  Sqlite.Sqlite.packages (submit pick clk n v (d, srv)).2.1 = Sqlite.Sqlite.packages d.
Proof.
  unfold submit. cbn [fst snd]. case_decide; [done|]. unfold SubmitScan.
  destruct (_ !! _); [|done]. simpl. unfold Sqlite.Sqlite.CreateRun. case_match; [done|]. by destruct (insert_unique _ _ _).
Qed.

Lemma submit_outcome nv (d : Sqlite.Sqlite.DB) srv :
  named srv ->
  let '(_, (d', srv')) := submit pick clk nv.1 nv.2 (d, srv) in
  runners srv' = runners srv /\ defaultWatchedPaths srv' = defaultWatchedPaths srv /\
  Sqlite.Sqlite.packages d' = Sqlite.Sqlite.packages d /\
  Run_ID <$> Sqlite.Sqlite.runs d ⊆ Run_ID <$> Sqlite.Sqlite.runs d' /\
  (runners srv <> ∅ -> release_run nv ∈ Run_ID <$> Sqlite.Sqlite.runs d') /\
  (forall r, jobs_of r (dispatcher srv') = jobs_of r (dispatcher srv) ++
     (if decide (runners srv <> ∅ /\ target srv nv = r) then [queued_job srv nv] else [])).
Proof.
  intros Hn. unfold submit, target. cbn [fst snd].
  destruct (first_runner (pick nv.1 nv.2) srv Hn) as [[E Hr]|[Hne [rr Hr]]];
    change (FirstRegisteredRunner (pick nv.1 nv.2) (set_store srv (Some d))) with (FirstRegisteredRunner (pick nv.1 nv.2) srv).
  - rewrite E, decide_True by done. split_and!; try done. intros r. rewrite decide_False by (by intros [? _]). by rewrite app_nil_r.
  - set (r0 := FirstRegisteredRunner (pick nv.1 nv.2) srv) in *. rewrite decide_False by done.
    assert (Hne' : runners srv <> ∅) by (intros E; by rewrite E in Hr).
    unfold SubmitScan. change (runners (set_store srv (Some d))) with (runners srv). rewrite Hr.
    set (job := fill_job _ _ _ _). cbn [store set_store fmap option_fmap option_map default dispatcher set_dispatcher observe].
    split_and!; try done.
    + simpl. unfold Sqlite.Sqlite.CreateRun. case_match; [done|]. by destruct (insert_unique _ _ _).
    + simpl. unfold Sqlite.Sqlite.CreateRun. case_match; [done|]. unfold insert_unique. case_decide; [done|]. simpl.
      rewrite fmap_app. set_solver.
    + intros _. simpl. unfold Sqlite.Sqlite.CreateRun. change (negb (IsValid _)) with false. unfold insert_unique.
      case_decide as Hin; [exact Hin|]. simpl. rewrite fmap_app, elem_of_app. right. by left.
    + intros r. etransitivity; [apply (jobs_enqueue r r0 job)|]. destruct (decide (r0 = r)) as [->|Hx].
      * by rewrite decide_True.
      * rewrite decide_False by (by intros [_ ?]). done.
Qed.

Lemma pollPackage_outcome now p w :
  named (w_server w) ->
  let w' := pollPackage latest (submit pick clk) now p w in
  let rel := new_release latest p in
  runners (w_server w') = runners (w_server w) /\
  defaultWatchedPaths (w_server w') = defaultWatchedPaths (w_server w) /\
  Run_ID <$> Sqlite.Sqlite.runs (w_store w) ⊆ Run_ID <$> Sqlite.Sqlite.runs (w_store w') /\
  (forall nv, rel = Some nv -> runners (w_server w) <> ∅ -> release_run nv ∈ Run_ID <$> Sqlite.Sqlite.runs (w_store w')) /\
  (forall r, jobs_of r (dispatcher (w_server w')) = jobs_of r (dispatcher (w_server w)) ++
     (queued_job (w_server w) <$> filter (fun nv => runners (w_server w) <> ∅ /\ target (w_server w) nv = r)
        (from_option (fun x => [x]) [] rel))).
Proof.
  intros Hn. cbv zeta. unfold pollPackage, new_release.
  destruct (latest (Wp_Name p)) as [v|e]; [|simpl; split_and!; try done; intros r; by rewrite app_nil_r].
  case_decide; [simpl; split_and!; try done; intros r; by rewrite app_nil_r|].
  set (d2 := (RecordRelease _ _).2).
  assert (Hruns : Sqlite.Sqlite.runs d2 = Sqlite.Sqlite.runs (w_store w)).
  { unfold d2. simpl. unfold Sqlite.Sqlite.RecordRelease. case_decide; [|done]. by destruct (insert_unique _ _ _). }
  pose proof (submit_outcome (Wp_Name p, pv_Version v) d2 (w_server w) Hn) as Hs. cbn [fst snd] in Hs.
  destruct (submit pick clk (Wp_Name p) (pv_Version v) (d2, w_server w)) as [r0 [d' srv']].
  destruct Hs as (H1 & H2 & _ & H3 & H4 & H5). cbn [w_store w_server from_option]. rewrite Hruns in H3.
  split_and!; try done.
  - intros nv [= <-]. exact H4.
  - intros r. rewrite H5. f_equal. rewrite filter_cons. by case_decide.
Qed.

Lemma poll_all_outcome now pkgs i w :
  named (w_server w) ->
  let w' := poll_all latest (submit pick clk) now (fun _ => true) i pkgs w in
  let rels := omap (new_release latest) pkgs in
  runners (w_server w') = runners (w_server w) /\
  Run_ID <$> Sqlite.Sqlite.runs (w_store w) ⊆ Run_ID <$> Sqlite.Sqlite.runs (w_store w') /\
  (forall nv, nv ∈ rels -> runners (w_server w) <> ∅ -> release_run nv ∈ Run_ID <$> Sqlite.Sqlite.runs (w_store w')) /\
  (forall r, jobs_of r (dispatcher (w_server w')) = jobs_of r (dispatcher (w_server w)) ++
     (queued_job (w_server w) <$> filter (fun nv => runners (w_server w) <> ∅ /\ target (w_server w) nv = r) rels)).
Proof.
  revert i w. induction pkgs as [|p pkgs IH]; intros i w Hn; cbv zeta.
  { simpl. split_and!; try done; [intros nv Hx; by apply not_elem_of_nil in Hx|]. intros r. by rewrite app_nil_r. }
  destruct (pollPackage_outcome now p w Hn) as (P1 & P2 & P3 & P4 & P5). cbn [poll_all].
  set (w1 := pollPackage latest (submit pick clk) now p w) in *.
  assert (Hn1 : named (w_server w1)) by (unfold named; by rewrite P1).
  destruct (IH (Datatypes.S i) w1 Hn1) as (I1 & I2 & I3 & I4). cbv zeta in *.
  assert (Erel : omap (new_release latest) (p :: pkgs) =
    from_option (fun x => [x]) [] (new_release latest p) ++ omap (new_release latest) pkgs).
  { simpl. by destruct (new_release latest p). }
  assert (Et : forall nv, target (w_server w1) nv = target (w_server w) nv).
  { intros nv. unfold target, FirstRegisteredRunner, RegisteredRunners. by rewrite P1. }
  rewrite Erel. split_and!.
  - by rewrite I1.
  - by etransitivity.
  - intros nv Hin Hne. apply elem_of_app in Hin as [Hin|Hin].
    + apply I2. destruct (new_release latest p) as [x|]; [|by apply not_elem_of_nil in Hin].
      apply list_elem_of_singleton in Hin as ->. by apply P4.
    + apply I3; [done|]. by rewrite P1.
  - intros r. rewrite I4, P5, filter_app, fmap_app, (assoc app). f_equal.
    unfold queued_job at 1. rewrite P2, P1. fold (queued_job (w_server w)). f_equal.
    apply list_filter_iff. intros nv. by rewrite Et.
Qed.

(** C15: A new release reaches a runner's queue.  On the SQLite backend, one
    complete poll cycle of the running program appends to each runner's queue
    one sandbox job per watched package whose latest version is new and for which
    that runner was picked, in name order and with the configured watched paths,
    and stores a run row for each of them; no other queue changes.  With no
    runner registered nothing is queued, though every release is marked as seen:
    the next cycle against the same registry submits nothing more. *)
Theorem watcher_queues now w :
  (forall n v, latest n = Ok v -> pv_Version v <> "") ->
  SqliteSpec.SqliteSpec.wf (w_store w) -> named (w_server w) ->
  let w1 := PollOnce latest (submit pick clk) now (fun _ => true) w in
  let rels := omap (new_release latest) (order_by (key_le Wp_Name) (Sqlite.Sqlite.packages (w_store w))) in
  (forall r, jobs_of r (dispatcher (w_server w1)) = jobs_of r (dispatcher (w_server w)) ++
     (queued_job (w_server w) <$>
        filter (fun nv => runners (w_server w) <> ∅ /\ target (w_server w) nv = r) rels)) /\
  (forall nv, nv ∈ rels -> runners (w_server w) <> ∅ ->
     release_run nv ∈ Run_ID <$> Sqlite.Sqlite.runs (w_store w1) /\
     is_Some (runners (w_server w1) !! target (w_server w) nv)) /\
  (forall p, p ∈ Sqlite.Sqlite.packages (w_store w1) -> new_release latest p = None).
Proof.
  intros Hne Hwf Hn. cbv zeta. unfold PollOnce. cbn [ListWatchedPackages SqliteSpec.SqliteSpec.sqlite_backend Sqlite.Sqlite.ListWatchedPackages].
  set (pkgs := order_by (key_le Wp_Name) (Sqlite.Sqlite.packages (w_store w))).
  set (w0 := mkWorld (w_store w) (w_server w) (w_log w)).
  destruct (poll_all_outcome now pkgs 0 w0 Hn) as (H1 & _ & H3 & H4). cbv zeta in *. split_and!; [exact H4| |].
  - intros nv Hin Hr. split; [by apply H3|]. rewrite H1. cbn [w_server w0].
    destruct (first_runner (pick nv.1 nv.2) (w_server w) Hn) as [[_ E]|[_ Hs]]; [done|exact Hs].
  - assert (Hperm : pkgs ≡ₚ Sqlite.Sqlite.packages (w_store w)) by apply order_by_perm.
    assert (Hnd : NoDup (Wp_Name <$> pkgs)) by (rewrite Hperm; apply Hwf).
    intros p. rewrite poll_all_packages; [|apply submit_packages|exact Hnd]. intros (q & -> & Hq)%list_elem_of_fmap.
    rewrite decide_True; [by apply seen_no_release|]. rewrite Hperm. by apply list_elem_of_fmap_2.
Qed.
End watching.

Definition wit_release (n : string) : res Watcher.PackageVersion := Ok (Watcher.mkPackageVersion n "1.1" "" "" 0).
Definition wit_watch : Watcher.World Sqlite.Sqlite.DB (Api.Server Sqlite.Sqlite.DB) :=
  Watcher.mkWorld (Sqlite.Sqlite.AddWatchedPackage 0 "left-pad" Sqlite.Sqlite.empty_db).2 Api.wit_server [].

Lemma watcher_queues_witness :
  let w1 := Watcher.PollOnce wit_release (submit (fun _ _ => 0) (fun _ _ => 7%Z)) 1%Z (fun _ => true) wit_watch in
  length (Dispatcher.jobs_of "r1" (Api.dispatcher (Watcher.w_server w1))) = 1.
Proof.
  cbv zeta.
  destruct (watcher_queues wit_release (fun _ _ => 0) (fun _ _ => 7%Z) 1%Z wit_watch) as (H & _).
  - by intros n v [= <-].
  - apply Watcher.wit_world_wf.
  - vm_compute. reflexivity.
  - rewrite H. vm_compute. reflexivity.
Defined.

End Orchestrator.
