(* ===== verification/Pending.v ===== *)
(** * pending: the triage queue

    The two copies of the same grouping: [fangs pending]
    (cmd/fangs-cli/internal/cli/pending.go) and /ui/pending
    (orchestrator/ui/pending.go).  Recent deviations are grouped by run, runs
    already promoted are left out, and the rows are sorted.  The order of map
    iteration (and of equal rows under the unstable sort) is an argument. *)
From stdpp Require Import prelude strings gmap list sorting.
From S2P Require Import Prelude GoTime Json Sql Storage Sqlite SqliteSpec Fingerprint.

Module Pending.
Import (hints) SqliteSpec.SqliteSpec.
Import (hints) Sqlite.Sqlite.

Record pendingRow : Type := mkPendingRow {
  Pn_Run : Run;
  Pn_DevCount : nat;
  Pn_MaxSeverity : string;
  Pn_FirstDetected : time;
  Pn_LastDetected : time
}.

Definition pendingSeverityRank (s : string) : nat :=
  if decide (s = "critical") then 4
  else if decide (s = "high") then 3
  else if decide (s = "medium") then 2
  else if decide (s = "low") then 1
  else 0.

(** ui/pending.go keeps a copy of the CLI's ranking, and it is the same one. *)
Definition severityRank (s : string) : nat :=
  match s with
  | "critical" => 4
  | "high" => 3
  | "medium" => 2
  | "low" => 1
  | _ => 0
  end.
Lemma severityRank_copy s : severityRank s = pendingSeverityRank s.
Proof.
  unfold pendingSeverityRank. repeat case_decide; subst; [reflexivity..|].
  unfold severityRank. repeat case_match; congruence.
Qed.

Definition bump (row : pendingRow) (d : DeviationRow) : pendingRow :=
  mkPendingRow (Pn_Run row) (Pn_DevCount row + 1)
    (if pendingSeverityRank (Pn_MaxSeverity row) <? pendingSeverityRank (Dev_Severity d)
     then Dev_Severity d else Pn_MaxSeverity row)
    (if (Dev_DetectedAt d <? Pn_FirstDetected row)%Z then Dev_DetectedAt d else Pn_FirstDetected row)
    (if (Pn_LastDetected row <? Dev_DetectedAt d)%Z then Dev_DetectedAt d else Pn_LastDetected row).

(** Severity descending, then the most recently detected first. *)
Definition row_le (x y : pendingRow) : Prop :=
  pendingSeverityRank (Pn_MaxSeverity y) < pendingSeverityRank (Pn_MaxSeverity x) \/
  (pendingSeverityRank (Pn_MaxSeverity y) = pendingSeverityRank (Pn_MaxSeverity x) /\
   (Pn_LastDetected y <= Pn_LastDetected x)%Z).
#[export] Instance row_le_dec x y : Decision (row_le x y).
Proof. unfold row_le. apply _. Defined.

Section pending.
Context {S : Type} `{Backend S}.

(** One deviation of the walk. *)
Definition group_dev (acc : gmap string pendingRow * S) (d : DeviationRow) : gmap string pendingRow * S :=
  let '(rows, s) := acc in
  match rows !! Dev_RunID d with
  | Some row => (<[Dev_RunID d := bump row d]> rows, s)
  | None =>
      match GetRun (Dev_RunID d) s with
      | (Err _, s) => (rows, s)
      | (Ok run, s) =>
          if Run_IsBaseline run then (rows, s) else
          (<[Dev_RunID d := bump (mkPendingRow run 0 "" (Dev_DetectedAt d) (Dev_DetectedAt d)) d]> rows, s)
      end
  end.
Definition group (devs : list DeviationRow) (s : S) : gmap string pendingRow * S :=
  foldl group_dev (∅, s) devs.

Context (iter : list pendingRow -> list pendingRow).

Definition sorted_rows (rows : list pendingRow) : list pendingRow := order_by row_le (iter rows).

Definition pendingCmd (pkg minSev : string) (limit : Z) : M S (list pendingRow) := fun s =>
  match ListDeviationsFiltered (mkDeviationFilter pkg "" "" 5000) s with
  | (Err e, s) => (Err (Wrapf "list deviations" e), s)
  | (Ok devs, s) =>
      let '(byRun, s) := group devs s in
      let rows := filter (fun r => pendingSeverityRank minSev <= pendingSeverityRank (Pn_MaxSeverity r))
                    (map_to_list byRun).*2 in
      let rows := sorted_rows rows in
      (Ok (if (0 <? limit)%Z && (limit <? Z.of_nat (length rows))%Z then limit_to limit rows else rows), s)
  end.

(** The rows the page shows. *)
Definition handlePending (s : S) : list pendingRow * S :=
  let '(r, s) := ListDeviationsFiltered (mkDeviationFilter "" "" "" 1000) s in
  let '(rowsByRun, s) := group (match r with Ok devs => devs | Err _ => [] end) s in
  (sorted_rows (map_to_list rowsByRun).*2, s).
End pending.

(** ** The row of a run *)
Definition of_run (id : string) (devs : list DeviationRow) : list DeviationRow :=
  filter (fun d => Dev_RunID d = id) devs.

Definition start_row (run : Run) (d : DeviationRow) : pendingRow :=
  mkPendingRow run 0 "" (Dev_DetectedAt d) (Dev_DetectedAt d).

(** What a row says of the deviations [ds] it was made from. *)
Record row_of (run : Run) (ds : list DeviationRow) (row : pendingRow) : Prop := {
  ro_run : Pn_Run row = run;
  ro_count : Pn_DevCount row = length ds;
  ro_window : forall d, d ∈ ds -> (Pn_FirstDetected row <= Dev_DetectedAt d <= Pn_LastDetected row)%Z;
  ro_first : Pn_FirstDetected row ∈ Dev_DetectedAt <$> ds;
  ro_last : Pn_LastDetected row ∈ Dev_DetectedAt <$> ds;
  ro_max : forall d, d ∈ ds -> pendingSeverityRank (Dev_Severity d) <= pendingSeverityRank (Pn_MaxSeverity row);
  ro_severity : Pn_MaxSeverity row = "" \/
                (0 < pendingSeverityRank (Pn_MaxSeverity row) /\ Pn_MaxSeverity row ∈ Dev_Severity <$> ds)
}.

Lemma row_of_start run d : row_of run [d] (bump (start_row run d) d).
Proof.
  unfold bump, start_row. simpl. rewrite !Z.ltb_irrefl. split; simpl; try done.
  - intros x Hx. apply list_elem_of_singleton in Hx as ->. lia.
  - by left.
  - by left.
  - intros x Hx. apply list_elem_of_singleton in Hx as ->. change (pendingSeverityRank "") with 0.
    destruct (Nat.ltb_spec 0 (pendingSeverityRank (Dev_Severity d))); [done|]. simpl. lia.
  - change (pendingSeverityRank "") with 0.
    destruct (Nat.ltb_spec 0 (pendingSeverityRank (Dev_Severity d))); [right; split; [done|by left]|by left].
Qed.

Lemma row_of_bump run ds row d : row_of run ds row -> row_of run (ds ++ [d]) (bump row d).
Proof.
  intros [H1 H2 H3 H4 H5 H6 H7]. unfold bump. split; simpl.
  - done.
  - rewrite length_app. simpl. lia.
  - intros x [Hx|Hx]%elem_of_app.
    + specialize (H3 x Hx). repeat case_match; lia.
    + apply list_elem_of_singleton in Hx as ->. destruct (Z.ltb_spec (Dev_DetectedAt d) (Pn_FirstDetected row)),
        (Z.ltb_spec (Pn_LastDetected row) (Dev_DetectedAt d)); lia.
  - rewrite fmap_app, elem_of_app. destruct (_ <? _)%Z; [right; by left|by left].
  - rewrite fmap_app, elem_of_app. destruct (_ <? _)%Z; [right; by left|by left].
  - intros x [Hx|Hx]%elem_of_app.
    + specialize (H6 x Hx). destruct (Nat.ltb_spec (pendingSeverityRank (Pn_MaxSeverity row)) (pendingSeverityRank (Dev_Severity d))); lia.
    + apply list_elem_of_singleton in Hx as ->.
      destruct (Nat.ltb_spec (pendingSeverityRank (Pn_MaxSeverity row)) (pendingSeverityRank (Dev_Severity d))); lia.
  - rewrite fmap_app, elem_of_app.
    destruct (Nat.ltb_spec (pendingSeverityRank (Pn_MaxSeverity row)) (pendingSeverityRank (Dev_Severity d))).
    + right. split; [lia|]. right. by left.
    + destruct H7 as [?|[? ?]]; [by left|right; split; [done|by left]].
Qed.

(** ** Grouping *)
Section group.
Context {S : Type} `{Backend S} `{!BackendLaws S}.
Implicit Types (s : S).

(** A run awaits review: it exists and was not promoted. *)
Definition awaiting (st : Store) (id : string) (run : Run) : Prop :=
  st_runs st !! id = Some run /\ Run_IsBaseline run = false.

Definition grouped (st : Store) (devs : list DeviationRow) (rows : gmap string pendingRow) : Prop :=
  forall id, match rows !! id with
             | Some row => exists run, awaiting st id run /\ row_of run (of_run id devs) row
             | None => of_run id devs = [] \/ forall run, ~ awaiting st id run
             end.

Lemma of_run_snoc id devs d : of_run id (devs ++ [d]) = of_run id devs ++ (if decide (Dev_RunID d = id) then [d] else []).
Proof. unfold of_run. by rewrite filter_app, filter_cons. Qed.

Lemma grouped_other st devs rows d row :
  grouped st devs rows ->
  (match rows !! Dev_RunID d with Some r => row = bump r d | None => False end \/
   exists run, rows !! Dev_RunID d = None /\ awaiting st (Dev_RunID d) run /\ row = bump (start_row run d) d) ->
  grouped st (devs ++ [d]) (<[Dev_RunID d := row]> rows).
Proof.
  intros Hg Hrow id. specialize (Hg id). rewrite of_run_snoc.
  destruct (decide (Dev_RunID d = id)) as [<-|Hne].
  - rewrite lookup_insert_eq. destruct Hrow as [Hr|(run & En & Ha & ->)].
    + destruct (rows !! Dev_RunID d) as [r|]; [|done]. subst row. destruct Hg as (run & Ha & Hr).
      exists run. split; [done|]. by apply row_of_bump.
    + rewrite En in Hg. exists run. split; [done|]. destruct Hg as [->|Hg]; [|by destruct (Hg run)].
      apply row_of_start.
  - by rewrite lookup_insert_ne, app_nil_r.
Qed.

Lemma group_grouped devs s :
  inv s -> healthy s ->
  let '(rows, s') := group devs s in
  inv s' /\ healthy s' /\ view s' = view s /\ grouped (view s) devs rows.
Proof.
  intros Hi Hh. unfold group. induction devs as [|d devs IH] using rev_ind.
  { simpl. split_and_all; [done..|]. intros id. rewrite lookup_empty. by left. }
  rewrite foldl_app. simpl. destruct (foldl group_dev (∅, s) devs) as [rows s1].
  destruct IH as (Hi1 & Hh1 & Hv & Hg). unfold group_dev.
  destruct (rows !! Dev_RunID d) as [row|] eqn:E.
  { split_and_all; [done..|]. apply grouped_other; [done|]. left. by rewrite E. }
  pose proof (GetRun_refines (Dev_RunID d) s1 Hi1) as Hr. destruct (GetRun (Dev_RunID d) s1) as [r s2].
  destruct Hr as (Hi2 & Hh2 & [[Hv2 Hr]|[Hn _]]); [|done]. rewrite Hv in Hv2, Hr.
  assert (Hskip : (forall run, ~ awaiting (view s) (Dev_RunID d) run) -> grouped (view s) (devs ++ [d]) rows).
  { intros Hno id. specialize (Hg id). rewrite of_run_snoc.
    destruct (decide (Dev_RunID d = id)) as [<-|]; [|by rewrite app_nil_r].
    rewrite E in *. right. exact Hno. }
  destruct (st_runs (view s) !! Dev_RunID d) as [run|] eqn:Erun; subst r.
  - destruct (Run_IsBaseline run) eqn:Eb.
    + split_and_all; [done|auto|done|]. apply Hskip. intros run' [? ?]. congruence.
    + split_and_all; [done|auto|done|]. apply grouped_other; [done|]. right. by exists run.
  - split_and_all; [done|auto|done|]. apply Hskip. intros run' [? ?]. congruence.
Qed.
End group.

#[export] Instance row_le_total : Total row_le.
Proof. intros x y. unfold row_le. lia. Qed.

Lemma sorted_rows_sorted iter l : Sorted row_le (sorted_rows iter l).
Proof. apply (Sorted_merge_sort row_le). Qed.
Lemma sorted_rows_perm iter l : (forall l, iter l ≡ₚ l) -> sorted_rows iter l ≡ₚ l.
Proof. intros Hi. unfold sorted_rows. rewrite order_by_perm. apply Hi. Qed.

(** The rows of a grouping, one per run that awaits review. *)
Lemma grouped_rows (st : Store) devs m row :
  grouped st devs m -> row ∈ (map_to_list m).*2 ->
  exists id run, awaiting st id run /\ row_of run (of_run id devs) row /\ m !! id = Some row.
Proof.
  intros Hg Hin. apply list_elem_of_fmap in Hin as ([id r] & -> & Hin%elem_of_map_to_list).
  specialize (Hg id). rewrite Hin in Hg. destruct Hg as (run & Ha & Hr). by exists id, run.
Qed.

Lemma grouped_complete (st : Store) devs m id run :
  grouped st devs m -> awaiting st id run -> of_run id devs <> [] ->
  exists row, row ∈ (map_to_list m).*2 /\ row_of run (of_run id devs) row.
Proof.
  intros Hg Ha Hd. specialize (Hg id). destruct (m !! id) as [row|] eqn:E.
  - destruct Hg as (run' & Ha' & Hr). exists row. split.
    + apply list_elem_of_fmap. exists (id, row). split; [done|]. by apply elem_of_map_to_list.
    + destruct Ha, Ha'. by simplify_eq.
  - destruct Hg as [?|Hg]; [done|]. by destruct (Hg run).
Qed.

Lemma grouped_nodup (st : Store) devs m :
  (forall id run, st_runs st !! id = Some run -> Run_ID run = id) -> grouped st devs m ->
  NoDup (Run_ID ∘ Pn_Run <$> (map_to_list m).*2).
Proof.
  intros Hk Hg. rewrite <- list_fmap_compose. apply (NoDup_fmap_2_strong _ _).
  - intros [i r] [j q] Hi%elem_of_map_to_list Hj%elem_of_map_to_list. unfold compose. simpl. intros E.
    pose proof (Hg i) as Gi. pose proof (Hg j) as Gj. rewrite Hi in Gi. rewrite Hj in Gj.
    destruct Gi as (ri & [Ai _] & Ri), Gj as (rj & [Aj _] & Rj).
    rewrite (ro_run _ _ _ Ri), (ro_run _ _ _ Rj), (Hk _ _ Ai), (Hk _ _ Aj) in E. subst j. congruence.
  - apply NoDup_map_to_list.
Qed.

(** ** The queue on the SQLite backend *)
Section queue.
Context (iter : list pendingRow -> list pendingRow) (Hiter : forall l, iter l ≡ₚ l).

(** The deviations the command looks at. *)
Definition window (pkg : string) (limit : Z) (d : Sqlite.DB) : list DeviationRow :=
  limit_to limit (order_by Sqlite.dev_key_ge
    (filter (fun dv => Sqlite.dev_selected (mkDeviationFilter pkg "" "" limit) (Sqlite.runs d) dv = true)
       (Sqlite.deviations d))).

Lemma pendingCmd_eq pkg minSev limit (d : Sqlite.DB) :
  pendingCmd iter pkg minSev limit d =
  (Ok (let rows := sorted_rows iter (filter (fun r => pendingSeverityRank minSev <= pendingSeverityRank (Pn_MaxSeverity r))
                     (map_to_list (group (window pkg 5000 d) d).1).*2) in
       if (0 <? limit)%Z then limit_to limit rows else rows), (group (window pkg 5000 d) d).2).
Proof.
  unfold pendingCmd. cbn [ListDeviationsFiltered SqliteSpec.sqlite_backend]. unfold Sqlite.ListDeviationsFiltered.
  cbn [DF_Limit]. change (0 <? 5000)%Z with true. cbv iota. fold (window pkg 5000 d).
  destruct (group (window pkg 5000 d) d) as [byRun d']. cbn [fst snd]. f_equal. f_equal. cbv zeta.
  destruct (Z.ltb_spec 0 limit); [|done]. cbn [andb]. destruct (Z.ltb_spec limit (Z.of_nat (length
    (sorted_rows iter (filter (fun r => pendingSeverityRank minSev <= pendingSeverityRank (Pn_MaxSeverity r))
       (map_to_list byRun).*2))))); [done|]. symmetry. apply firstn_all2. lia.
Qed.

(** The triage queue is the runs that await review.  Over the most recent deviations, the
    rows are sorted by severity and then recency, there is one row for each run that exists
    and was not promoted, with the number, the span and the highest severity of its
    deviations, and a run is left out only when it is promoted or when none of its deviations
    reaches the minimum severity; the command changes nothing. *)
Theorem pending_queue pkg minSev limit (d : Sqlite.DB) :
  SqliteSpec.wf d ->
  exists rows d', pendingCmd iter pkg minSev limit d = (Ok (if (0 <? limit)%Z then limit_to limit rows else rows), d') /\
    view d' = view d /\ Sorted row_le rows /\ NoDup (Run_ID ∘ Pn_Run <$> rows) /\
    (forall row, row ∈ rows -> exists id run, awaiting (view d) id run /\
       row_of run (of_run id (window pkg 5000 d)) row /\
       pendingSeverityRank minSev <= pendingSeverityRank (Pn_MaxSeverity row)) /\
    (forall id run dv, awaiting (view d) id run -> dv ∈ of_run id (window pkg 5000 d) ->
       pendingSeverityRank minSev <= pendingSeverityRank (Dev_Severity dv) ->
       exists row, row ∈ rows /\ row_of run (of_run id (window pkg 5000 d)) row).
Proof.
  intros Hwf. pose proof (group_grouped (window pkg 5000 d) d Hwf I) as Hg.
  rewrite pendingCmd_eq. destruct (group (window pkg 5000 d) d) as [m d']. cbn [fst snd].
  destruct Hg as (_ & _ & Hv & Hg).
  set (sel := filter (fun r => pendingSeverityRank minSev <= pendingSeverityRank (Pn_MaxSeverity r)) (map_to_list m).*2).
  assert (Hin : forall row, row ∈ sorted_rows iter sel <-> row ∈ sel) by (intros row; by rewrite sorted_rows_perm).
  exists (sorted_rows iter sel), d'. split_and_all; [done|done|apply sorted_rows_sorted| | |].
  - rewrite (sorted_rows_perm iter sel Hiter). eapply sublist_NoDup; [|apply fmap_sublist, sublist_filter].
    eapply grouped_nodup; [|exact Hg]. intros id run. by apply view_runs_keyed.
  - intros row Hr. apply Hin, list_elem_of_filter in Hr as [Hm Hr].
    destruct (grouped_rows _ _ _ _ Hg Hr) as (id & run & Ha & Ho & _). by exists id, run.
  - intros id run dv Ha Hdv Hm. destruct (grouped_complete _ _ _ id run Hg Ha) as (row & Hr & Ho).
    { intros E. rewrite E in Hdv. by apply not_elem_of_nil in Hdv. }
    exists row. split; [|done]. apply Hin, list_elem_of_filter. split; [|done].
    pose proof (ro_max _ _ _ Ho dv Hdv). lia.
Qed.

(** On what the Differ writes, the queue has no severity.  The Differ's severities (info,
    warn, crit) all rank below the lowest the two queues know, so every row of the command and
    of the page has an empty severity, the order is by time alone, and asking for any minimum
    severity the help names lists nothing. *)
Theorem pending_severity_blank pkg minSev limit (d : Sqlite.DB) :
  SqliteSpec.wf d ->
  (forall dv, dv ∈ Sqlite.deviations d -> exists c, Dev_Severity dv = Fingerprint.defaultSeverity c) ->
  (forall row, row ∈ (handlePending iter d).1 -> Pn_MaxSeverity row = "") /\
  (exists rows d', pendingCmd iter pkg minSev limit d = (Ok rows, d') /\
     (forall row, row ∈ rows -> Pn_MaxSeverity row = "") /\
     (minSev ∈ ["low"; "medium"; "high"; "critical"] -> rows = [])).
Proof.
  intros Hwf Hsev.
  assert (Hblank : forall pkg limit id run row, row_of run (of_run id (window pkg limit d)) row -> Pn_MaxSeverity row = "").
  { intros p l id run row Ho. destruct (ro_severity _ _ _ Ho) as [?|[Hpos Hin]]; [done|exfalso].
    apply list_elem_of_fmap in Hin as (dv & E & Hin). apply list_elem_of_filter in Hin as [_ Hin].
    unfold window, limit_to in Hin. apply elem_of_take in Hin as (i & Hin & _). apply list_elem_of_lookup_2 in Hin.
    rewrite order_by_perm in Hin. apply list_elem_of_filter in Hin as [_ Hin].
    destruct (Hsev dv Hin) as [c Hc]. rewrite E, Hc in Hpos. unfold Fingerprint.defaultSeverity in Hpos.
    repeat case_decide; vm_compute in Hpos; lia. }
  split.
  - intros row. unfold handlePending. cbn [ListDeviationsFiltered SqliteSpec.sqlite_backend].
    unfold Sqlite.ListDeviationsFiltered. cbn [DF_Limit]. change (0 <? 1000)%Z with true. cbv iota.
    fold (window "" 1000 d). pose proof (group_grouped (window "" 1000 d) d Hwf I) as Hg.
    destruct (group (window "" 1000 d) d) as [m d']. destruct Hg as (_ & _ & _ & Hg). cbn [fst].
    rewrite (sorted_rows_perm iter _ Hiter). intros Hr.
    destruct (grouped_rows _ _ _ _ Hg Hr) as (id & run & _ & Ho & _). by eapply Hblank.
  - rewrite pendingCmd_eq. pose proof (group_grouped (window pkg 5000 d) d Hwf I) as Hg.
    destruct (group (window pkg 5000 d) d) as [m d']. destruct Hg as (_ & _ & _ & Hg). cbn [fst snd].
    set (sel := filter (fun r => pendingSeverityRank minSev <= pendingSeverityRank (Pn_MaxSeverity r)) (map_to_list m).*2).
    assert (Hb : forall row, row ∈ sorted_rows iter sel ->
              pendingSeverityRank minSev <= pendingSeverityRank (Pn_MaxSeverity row) /\ Pn_MaxSeverity row = "").
    { intros row. rewrite (sorted_rows_perm iter sel Hiter). intros [Hle Hr]%list_elem_of_filter.
      split; [done|]. destruct (grouped_rows _ _ _ _ Hg Hr) as (id & run & _ & Ho & _). by eapply Hblank. }
    eexists _, d'. split; [reflexivity|]. cbv zeta. split.
    + intros row Hr. destruct (0 <? limit)%Z; [|by apply Hb].
      apply elem_of_take in Hr as (i & Hr & _). apply list_elem_of_lookup_2 in Hr. by apply Hb.
    + intros Hmin. destruct (sorted_rows iter sel) as [|row l] eqn:E; [unfold limit_to; by destruct (0 <? limit)%Z; rewrite ?take_nil|].
      exfalso. destruct (Hb row ltac:(by left)) as [Hle Hr]. rewrite Hr in Hle.
      assert (0 < pendingSeverityRank minSev); [|change (pendingSeverityRank "") with 0 in Hle; lia].
      clear - Hmin. repeat (apply elem_of_cons in Hmin as [->|Hmin]; [by apply Nat.ltb_lt|]).
      by apply not_elem_of_nil in Hmin.
Qed.
End queue.

(** Two runs of a package, one with a deviation. *)
Definition wit_dev : DeviationRow := mkDeviationRow "d1" "r1" "proc_new_exec" "/bin/nc" 1 "warn" 5 None false.
Definition wit_db : Sqlite.DB :=
  SqliteSpec.exec (SqliteSpec.MWriteDeviations [wit_dev])
    (SqliteSpec.exec (SqliteSpec.MAppendEvents "r1" [SqliteSpec.wit_event 5%Z])
      (SqliteSpec.exec (SqliteSpec.MCreateRun 0%Z SqliteSpec.wit_run) Sqlite.empty_db)).
Lemma wit_pending_wf : SqliteSpec.wf wit_db.
Proof. unfold wit_db. repeat apply SqliteSpec.wf_exec. apply SqliteSpec.wf_empty. Qed.

Lemma pending_queue_witness : exists rows d' row, pendingCmd id "" "" 0 wit_db = (Ok rows, d') /\
  row ∈ rows /\ Pn_DevCount row = 1.
Proof.
  destruct (pending_queue id (fun l => reflexivity l) "" "" 0 wit_db wit_pending_wf)
    as (rows & d' & E & _ & _ & _ & _ & Hc).
  destruct (Hc "r1" (Sqlite.stored_run 0 SqliteSpec.wit_run) wit_dev) as (row & Hr & Ho).
  - split; [|reflexivity]. vm_compute. reflexivity.
  - vm_compute. left.
  - vm_compute. lia.
  - exists rows, d', row. split_and_all; [exact E|exact Hr|]. rewrite (ro_count _ _ _ Ho). vm_compute. reflexivity.
Defined.

Lemma pending_severity_blank_witness :
  exists d', pendingCmd id "" "high" 0 wit_db = (Ok [], d').
Proof.
  destruct (pending_severity_blank id (fun l => reflexivity l) "" "high" 0 wit_db wit_pending_wf)
    as (_ & rows & d' & E & _ & Hm).
  - intros dv Hdv. exists Fingerprint.CatProcExec. vm_compute in Hdv. apply list_elem_of_singleton in Hdv as ->.
    reflexivity.
  - exists d'. rewrite Hm in E; [exact E|]. right; right; left.
Defined.

End Pending.
