(* ===== verification/Cli.v ===== *)
(** * fangs: the operator's commands

    cmd/fangs-cli/internal/cli, over any storage backend.  A command takes its
    parsed flags and returns what it prints, which Print.v renders.
    The registry, the orchestrator's HTTP endpoint, the clock and random ids
    are arguments. *)
From Stdlib Require Import Ascii.
From stdpp Require Import prelude strings gmap list sorting.
From S2P Require Import Prelude GoTime Json Sql Storage Sqlite SqliteSpec NetIP Fingerprint Differ.
From S2P Require Import Proto Dispatcher Api Notifier Watcher Pending.

Module Cli.
Import (hints) SqliteSpec.SqliteSpec.
Import (hints) Sqlite.Sqlite.

(** ** Text (format.go); the ellipsis is three bytes of UTF-8 *)
Definition ellipsis : string := string_of_list ["226"%char; "128"%char; "166"%char].
Definition truncate (s : string) (n : nat) : string :=
  if String.length s <=? n then s
  else if n <=? 1 then slice_to s n
  else slice_to s (n - 1) +:+ ellipsis.
Definition shortID (id : string) : string := if String.length id <=? 12 then id else slice_to id 12.

(** ** Where the data lives (cli.go) *)
Section open.
Context {S : Type} (mkdir_all : string -> res unit) (dir : string -> string)
        (sqlite_open postgres_open : string -> res S) (migrate : S -> res S).

Definition openStore (kind sqlitePath pgDSN env_DSN : string) : res S :=
  if decide (kind = "sqlite") then
    match mkdir_all (dir sqlitePath) with
    | Err e => Err (Wrapf "create sqlite dir" e)
    | Ok _ => b ← sqlite_open sqlitePath; migrate b
    end
  else if decide (kind = "postgres") then
    let dsn := if decide (pgDSN = "") then env_DSN else pgDSN in
    if decide (dsn = "") then Err (Errorf "postgres backend requires -postgres-dsn or $FANGS_PG_DSN")
    else b ← postgres_open dsn; migrate b
  else Err (Errorf "unknown -storage").
End open.

Section commands.
Context {S : Type} `{Backend S}.

(** ** allow *)
Definition allowList (pkg : string) : M S (list AllowEntry) :=
  all ← ListAllowEntries; mret (if decide (pkg = "") then all else EntriesForPackage all pkg).

Definition check_allow (kind value : string) : res unit :=
  if decide (kind = "" \/ value = "") then Err (Errorf "allow add: -kind and -value required")
  else if decide (kind = AllowKindCIDR) then
    match NetIP.ParseCIDR value with
    | Some _ => Ok tt
    | None => Err (Wrapf "allow add: -value is not a valid CIDR" (Errorf "invalid CIDR address"))
    end
  else if decide (kind = AllowKindPath) then
    if HasPrefix value "/" then Ok tt else Err (Errorf "allow add: path values should be absolute (start with /)")
  else if decide (kind = AllowKindSNI) then Ok tt
  else Err (Errorf "allow add: unknown -kind").

Definition allowAdd (now : time) (id kind value pkg note : string) : M S AllowEntry :=
  match check_allow kind value with
  | Err e => fail e
  | Ok _ =>
      let entry := mkAllowEntry id (if decide (pkg = "") then AllowScopeGlobal else AllowScopePackage) pkg kind value note now in
      _ ← AddAllowEntry now entry; mret entry
  end.

Definition allowRemove (prefix : string) : M S AllowEntry := fun s =>
  match ResolveAllowPrefix prefix s with
  | (Err e, s) =>
      (Err (if errors_Is e ErrAmbiguous then Errorf "allow remove: prefix matches more than one entry; use a longer prefix"
            else if errors_Is e ErrNotFound then Errorf "allow remove: no entry matches" else e), s)
  | (Ok e, s) => (_ ← DeleteAllowEntry (Al_ID e); mret e) s
  end.

(** ** notifier *)
Definition notifierAdd (headers_ok : string -> bool) (now : time)
    (name url tmpl secretEnv minSev headers : string) (enabled : bool) : M S unit :=
  if decide (name = "" \/ url = "") then fail (Errorf "notifier add: -name and -url required")
  else if decide (tmpl ∉ ["slack"; "discord"; "generic"]) then fail (Errorf "notifier add: unknown -template")
  else if decide (minSev <> "" /\ minSev ∉ ["low"; "medium"; "high"; "critical"]) then
    fail (Errorf "notifier add: invalid -min-severity")
  else if bool_decide (headers <> "") && negb (headers_ok headers) then
    fail (Errorf "notifier add: -headers isn't a valid JSON string-map")
  else UpsertNotifier now (mkNotifierRow name url tmpl secretEnv headers minSev enabled zero_time zero_time).

Definition notifierList : M S (list NotifierRow) := ListNotifiers.

Definition notifierRemove (name : string) : M S unit := DeleteNotifier name.

Definition buildTestPayload (template : string) : res (json * string) :=
  if decide (template = "slack") then
    Ok (JObj [("text", JStr "FANGS notifier test — if you see this, your Slack webhook is wired correctly.")],
        "application/json")
  else if decide (template = "discord") then
    Ok (JObj [("username", JStr "FANGS");
              ("embeds", JArr [JObj [("title", JStr "FANGS notifier test");
                                     ("description", JStr "If you see this, your Discord webhook is wired correctly.");
                                     ("color", JNum 6266213)]])], "application/json")
  else if decide (template = "generic") then
    Ok (JObj [("source", JStr "fangs-orchestrator"); ("schema_version", JStr "v1"); ("test", JBool true);
              ("message", JStr "notifier test from fangs CLI")], "application/json")
  else Err (Errorf "unknown template").

(** [post] is the HTTP exchange: the status.  The URL and the status are
    printed before the status is judged. *)
Definition notifierPost (post : string -> json * string -> res Z) (name : string) : M S (string * Z) := fun s =>
  match GetNotifier name s with
  | (Err e, s) => (Err (Wrapf "notifier test" e), s)
  | (Ok target, s) =>
      (match buildTestPayload (Nt_Template target) with
       | Err e => Err e
       | Ok payload =>
           match post (Nt_URL target) payload with
           | Err e => Err (Wrapf "notifier test: POST failed" e)
           | Ok code => Ok (Nt_URL target, code)
           end
       end, s)
  end.

Definition accepted (code : Z) : bool := ((200 <=? code) && (code <? 300))%Z.
Definition notifierTest (post : string -> json * string -> res Z) (name : string) : M S Z :=
  '(_, code) ← notifierPost post name;
  if accepted code then mret code else fail (Errorf "test notification rejected").

Definition notifierHistory (runID : string) : M S (Run * list NotificationRow) := fun s =>
  if decide (runID = "") then (Err (Errorf "notifier history: -run required"), s) else
  let '(r, s) := GetRun runID s in
  let '(r, s) := match r with
                 | Err e => if errors_Is e ErrNotFound then ResolveRunPrefix runID s else (r, s)
                 | _ => (r, s)
                 end in
  match r with
  | Err e => (Err e, s)
  | Ok run => (rows ← ListNotificationsByRun (Run_ID run); mret (run, rows)) s
  end.

(** ** run, deviation, release, baseline list *)
Definition runList (pkg : string) (limit : Z) : M S (list Run) :=
  if decide (pkg = "") then ListRuns limit else ListRunsByPackage pkg limit.

Definition runShow (prefix : string) : M S (Run * list DeviationRow * Z) :=
  run ← ResolveRunPrefix prefix;
  devs ← ListDeviations (Run_ID run);
  n ← EventCount (Run_ID run);
  mret (run, devs, n).

Definition deviationList (pkg sev runID : string) (limit : Z) : M S (list DeviationRow) :=
  ListDeviationsFiltered (mkDeviationFilter pkg sev runID limit).

Definition deviationShow (prefix : string) : M S (DeviationRow * res EventRow) :=
  d ← ResolveDeviationPrefix prefix;
  evt ← attempt (GetEvent (Dev_EvidenceEventID d));
  mret (d, evt).

Definition releaseList (pkg : string) (limit : Z) : M S (list ReleaseRow) :=
  if decide (pkg = "") then fail (Errorf "release list: -package is required") else ListReleasesByPackage pkg limit.

Definition baselineList (pkg : string) : M S (list BaselineRow) :=
  if decide (pkg = "") then fail (Errorf "baseline list: -package is required") else LoadBaseline pkg.

(** ** baseline promote *)
Definition promoted_row (runID pkg : string) (fp : Fingerprint.Fingerprint) : BaselineRow :=
  mkBaselineRow pkg (Fingerprint.Category_ fp) (Fingerprint.Value fp) runID runID (Fingerprint.Count fp).

Definition baselinePromote (iter : list Fingerprint.Fingerprint -> list Fingerprint.Fingerprint) (prefix : string) :
    M S (Run * nat) :=
  run ← ResolveRunPrefix prefix;
  let runID := Run_ID run in
  if decide (Run_PackageName run = "") then fail (Errorf "baseline promote: run has empty package_name") else
  events ← ListEventsByRun runID 0;
  all ← attempt ListAllowEntries;
  let allEntries := match all with Ok l => l | Err _ => [] end in
  let filter := Fingerprint.NewFilter (EntriesForPackage allEntries (Run_PackageName run)) in
  let fps := Fingerprint.ExtractFingerprintsWith iter events (Some filter) in
  _ ← MergeBaseline runID (promoted_row runID (Run_PackageName run) <$> fps);
  _ ← MarkRunBaseline runID true;
  _ ← attempt (DeleteDeviationsForRun runID);
  mret (run, length fps).

(** ** scan submit *)

(** The request [submitScan] sends: the target runner and the job. *)
Definition scan_request (hostname runnerID pkg version : string) (duration : duration) : string * Job :=
  (if decide (runnerID = "") then hostname else runnerID,
   mkJob Api.zero_run_id "sandbox_scan" pkg version "" [] duration zero_time (Some (Watcher.BuildSandboxScan pkg version))).

Definition submitScan (post : string * Job -> M S Api.Response) (hostname runnerID pkg version : string)
    (duration : duration) : M S string := fun s =>
  match post (scan_request hostname runnerID pkg version duration) s with
  | (Err e, s) => (Err (Wrapf "POST" e), s)
  | (Ok resp, s) =>
      (if ((Api.rs_code resp <? 200) || (300 <=? Api.rs_code resp))%Z then Err (Errorf "orchestrator returned an error status")
       else match Api.rs_body resp with
            | Api.QueuedB id => Ok id
            | Api.NoBody => Err (Wrapf "decode orchestrator response" (Errorf "json"))
            | Api.JobB _ => Err (Wrapf "decode orchestrator response" (Errorf "json"))    (* its run_id is an array *)
            | _ => Ok ""                                                                  (* no run_id in the object *)
            end, s)
  end.

Definition scanSubmit (resolve : string -> string -> res Watcher.PackageVersion)
    (post : string * Job -> M S Api.Response) (hostname runnerID pkg version : string) (duration : duration)
    (skipValidate : bool) : M S string :=
  if decide (pkg = "" \/ version = "") then fail (Errorf "scan submit: -package and -version required") else
  let go := submitScan post hostname runnerID pkg version duration in
  if skipValidate then go else
  match resolve pkg version with
  | Ok _ => go
  | Err e => fail (if errors_Is e Watcher.ErrPackageNotFound then Errorf "scan submit: package not found"
                   else if errors_Is e Watcher.ErrVersionNotFound then Errorf "scan submit: version not found"
                   else Wrapf "scan submit: registry lookup failed" e)
  end.

(** ** package *)

(** What [package add] prints: the latest version, when it was looked up, and
    the run of the kickoff scan. *)
Definition packageAdd (resolve : string -> string -> res Watcher.PackageVersion)
    (post : string * Job -> M S Api.Response) (now now' : time) (hostname runnerID name : string)
    (duration : duration) (skipScan skipValidate : bool) : M S (string * option string) :=
  watched ← wrap_err "list watched" ListWatchedPackages;
  if decide (name ∈ Wp_Name <$> watched) then fail (Errorf "package is already watched") else
  match (if skipValidate then Ok "" else Watcher.pv_Version <$> resolve name "") with
  | Err e => fail (if errors_Is e Watcher.ErrPackageNotFound then Errorf "package add: not found"
                   else Wrapf "package add: registry lookup failed" e)
  | Ok latest =>
      _ ← AddWatchedPackage now name;
      _ ← (if decide (latest = "") then mret (Ok tt) else attempt (UpdatePackageCheck now' name latest));
      if decide (skipScan = false /\ latest <> "") then
        r ← attempt (submitScan post hostname runnerID name latest duration);
        mret (latest, match r with Ok id => Some id | Err _ => None end)
      else mret (latest, None)
  end.

Definition packageRemove (name : string) : M S unit := RemoveWatchedPackage name.
Definition packageWatched : M S (list WatchedPackage) := ListWatchedPackages.
Definition packageList : M S (list PackageSummary) := ListPackages.
End commands.

(** ** Promotion *)
Section promote.
Context {S : Type} `{Backend S} `{!BackendLaws S}.
Implicit Types (s : S).
Import Fingerprint.Fingerprint Differ.Differ.

Definition sound (s : S) : Prop := inv s /\ healthy s.

Lemma law_ok {A} (m : M S A) spec s :
  refines inv healthy view m spec -> sound s ->
  exists r s', m s = (r, s') /\ sound s' /\ spec (view s) r (view s').
Proof.
  intros Hm [Hi Hh]. specialize (Hm s Hi). destruct (m s) as [r s']. destruct Hm as (Hi' & Hh' & Hs).
  exists r, s'. split; [done|]. split; [by split; auto|]. by destruct Hs as [?|[? _]].
Qed.

Lemma law_query {A} (m : M S A) Q s :
  refines inv healthy view m (spec_query Q) -> sound s ->
  exists r s', m s = (r, s') /\ sound s' /\ view s' = view s /\ Q (view s) r.
Proof. intros Hm Hs. destruct (law_ok m _ s Hm Hs) as (r & s' & E & Hs' & Hv & HQ). eauto 10. Qed.

(** The store after a promotion. *)
Definition promoted (run : Run) (fps : list Fingerprint) (st : Store) : Store :=
  with_devs (filter (fun kv => Dev_RunID kv.2 <> Run_ID run) (st_devs st))
    (with_runs (<[Run_ID run := set_baseline_flag true run]> (st_runs st))
      (with_baseline (foldl (merge_one (Run_ID run)) (st_baseline st)
                        (promoted_row (Run_ID run) (Run_PackageName run) <$> fps)) st)).

Lemma baselinePromote_outcome iter prefix s s1 run :
  (forall l, iter l ≡ₚ l) -> sound s ->
  ResolveRunPrefix prefix s = (Ok run, s1) -> sound s1 -> view s1 = view s ->
  st_runs (view s) !! Run_ID run = Some run -> Run_PackageName run <> "" ->
  exists fps s', baselinePromote iter prefix s = (Ok (run, length fps), s') /\ sound s' /\
    run_fingerprints (view s) (Run_ID run) (Run_PackageName run) fps /\
    view s' = promoted run fps (view s).
Proof.
  intros Hit Hs Er Hs1 Hv1 Hrun Hpkg.
  destruct (law_query _ _ _ (ListEventsByRun_refines (Run_ID run) 0) Hs1) as (r2 & s2 & E2 & Hs2 & Hv2 & Q2).
  destruct Q2 as (evs & all & -> & Hall & Hsort & ->).
  destruct (law_query _ _ _ ListAllowEntries_refines Hs2) as (r3 & s3 & E3 & Hs3 & Hv3 & Q3).
  destruct Q3 as (entries & -> & Hent).
  set (fps := ExtractFingerprintsWith iter (limit_to 10000 all)
                (Some (NewFilter (EntriesForPackage entries (Run_PackageName run))))).
  destruct (law_ok _ _ _ (MergeBaseline_refines (Run_ID run) (promoted_row (Run_ID run) (Run_PackageName run) <$> fps)) Hs3)
    as (r4 & s4 & E4 & Hs4 & -> & Hv4).
  destruct (law_ok _ _ _ (MarkRunBaseline_refines (Run_ID run) true) Hs4) as (r5 & s5 & E5 & Hs5 & Q5).
  unfold spec_MarkRunBaseline in Q5. rewrite Hv4, Hv3, Hv2, Hv1 in Q5. simpl in Q5. rewrite Hrun in Q5.
  destruct Q5 as [-> Hv5].
  destruct (law_ok _ _ _ (DeleteDeviationsForRun_refines (Run_ID run)) Hs5) as (r6 & s6 & E6 & Hs6 & -> & Hv6).
  exists fps, s6. split_and_all.
  - unfold baselinePromote. step_ok Er. rewrite decide_False by done. step_ok E2.
    step_ok (attempt_run _ _ _ _ E3). fold fps. step_ok E4. step_ok E5. step_ok (attempt_run _ _ _ _ E6). done.
  - exact Hs6.
  - exists (limit_to 10000 all), all, entries, iter. rewrite Hv1 in Hall. rewrite Hv2, Hv1 in Hent.
    split_and_all; done || reflexivity.
  - rewrite Hv6, Hv5. reflexivity.
Qed.

(** Promoting a run: the run found for the prefix is flagged as baseline and its
    deviations are cleared, and the package's baseline is extended by exactly the run's
    fingerprints under the package's allowlist — every other baseline row, every other run
    and its deviations, all events and allow entries stay as they were. *)
Theorem baselinePromote_spec iter prefix s s1 run :
  (forall l, iter l ≡ₚ l) -> sound s ->
  ResolveRunPrefix prefix s = (Ok run, s1) -> sound s1 -> view s1 = view s ->
  st_runs (view s) !! Run_ID run = Some run -> Run_PackageName run <> "" ->
  exists fps s', baselinePromote iter prefix s = (Ok (run, length fps), s') /\ sound s' /\
    run_fingerprints (view s) (Run_ID run) (Run_PackageName run) fps /\
    dom (st_baseline (view s')) =
      list_to_set ((fun fp => (Run_PackageName run, Category_ fp, Value fp)) <$> fps) ∪ dom (st_baseline (view s)) /\
    (forall k, k ∉ (fun fp => (Run_PackageName run, Category_ fp, Value fp)) <$> fps ->
       st_baseline (view s') !! k = st_baseline (view s) !! k) /\
    st_runs (view s') = <[Run_ID run := set_baseline_flag true run]> (st_runs (view s)) /\
    st_devs (view s') = filter (fun kv => Dev_RunID kv.2 <> Run_ID run) (st_devs (view s)) /\
    st_events (view s') = st_events (view s) /\ st_allow (view s') = st_allow (view s).
Proof.
  intros Hit Hs Er Hs1 Hv1 Hrun Hpkg.
  destruct (baselinePromote_outcome iter prefix s s1 run Hit Hs Er Hs1 Hv1 Hrun Hpkg) as (fps & s' & E & Hs' & Hf & Hv).
  exists fps, s'. rewrite Hv. unfold promoted. simpl.
  assert (Hk : bl_key <$> (promoted_row (Run_ID run) (Run_PackageName run) <$> fps) =
               (fun fp => (Run_PackageName run, Category_ fp, Value fp)) <$> fps) by (by rewrite <- list_fmap_compose).
  split_and_all; try done.
  - by rewrite merge_dom, Hk.
  - intros k Hn. apply merge_lookup_ne. by rewrite Hk.
Qed.

Lemma promoted_baseline_ok run fps st :
  (forall fp, fp ∈ fps -> Category_ fp ∈ AllCategories) -> baseline_ok st -> baseline_ok (promoted run fps st).
Proof.
  intros Hc Hok. unfold baseline_ok, promoted. simpl.
  apply (baseline_ok_merge st _ (Run_ID run) (promoted_row (Run_ID run) (Run_PackageName run) <$> fps) Hok); [|done].
  apply Forall_fmap, Forall_forall. exact Hc.
Qed.

(** An analysis that finds nothing new. *)
Lemma silent_analysis iter newID clock runID (d : Differ S) run :
  (forall l, iter l ≡ₚ l) -> (forall i j, newID i = newID j -> i = j) -> good d ->
  st_runs (dview d) !! runID = Some run -> Run_PackageName run <> "" ->
  package_baseline (dview d) (Run_PackageName run) <> [] -> baseline_ok (dview d) ->
  (forall i, st_devs (dview d) !! newID i = None) ->
  (forall fps, run_fingerprints (dview d) runID (Run_PackageName run) fps ->
     forall k, k ∈ fp_key <$> fps -> k ∈ known_pairs (dview d) (Run_PackageName run)) ->
  exists d', AnalyzeRun iter newID clock runID d = (Ok 0, d') /\ devs_of (dview d') runID = [] /\
    st_runs (dview d') !! runID = Some (set_baseline_flag true run).
Proof.
  intros Hit Hinj Hd Hrun Hp Hb Hok Hids Hk.
  destruct (later_outcome iter newID clock runID d run Hit Hinj Hd Hrun Hp Hb Hok Hids)
    as (n & d' & fps & E & _ & _ & Hf & Hn & Hdev & _ & _ & Hruns & _).
  assert (Hnil : filter (fun fp => fp_key fp ∉ known_pairs (dview d) (Run_PackageName run)) fps = []).
  { apply filter_none. apply Forall_forall. intros fp Hfp Hnot. apply Hnot, (Hk fps Hf). by apply list_elem_of_fmap_2. }
  cbv zeta in Hn, Hdev. rewrite Hnil in Hn, Hdev. subst n. exists d'. split_and_all; [done| |].
  - apply Permutation_nil_r in Hdev. by destruct (devs_of (dview d') runID).
  - rewrite Hruns. rewrite decide_True by done. apply lookup_insert_eq.
Qed.

(** C9: What was promoted is not reported again.  After a run that shows at least one
    fingerprint is promoted, analysing it again — or any other run of the package that shows nothing the promoted run or the baseline had
    not — reports no deviation, leaves that run without deviations and flags it as baseline. *)
Theorem promote_silences iter iter' prefix s s1 run newID clock m runID run' fps' :
  (forall l, iter l ≡ₚ l) -> (forall l, iter' l ≡ₚ l) -> (forall i j, newID i = newID j -> i = j) -> sound s ->
  ResolveRunPrefix prefix s = (Ok run, s1) -> sound s1 -> view s1 = view s ->
  st_runs (view s) !! Run_ID run = Some run -> Run_PackageName run <> "" ->
  baseline_ok (view s) -> (forall i, st_devs (view s) !! newID i = None) ->
  st_runs (view s) !! runID = Some run' -> Run_PackageName run' = Run_PackageName run ->
  run_fingerprints (view s) runID (Run_PackageName run) fps' ->
  (forall fps, run_fingerprints (view s) (Run_ID run) (Run_PackageName run) fps -> fps <> [] /\
     forall k, k ∈ fp_key <$> fps' -> k ∈ fp_key <$> fps \/ k ∈ known_pairs (view s) (Run_PackageName run)) ->
  exists n s' d', baselinePromote iter prefix s = (Ok (run, n), s') /\
    AnalyzeRun iter' newID clock runID (mkDiffer s' m) = (Ok 0, d') /\
    devs_of (dview d') runID = [] /\
    exists r, st_runs (dview d') !! runID = Some r /\ Run_IsBaseline r = true.
Proof.
  intros Hit Hit' Hinj Hs Er Hs1 Hv1 Hrun Hpkg Hok Hids Hrun' Hpk Hf' Hsub.
  destruct (baselinePromote_outcome iter prefix s s1 run Hit Hs Er Hs1 Hv1 Hrun Hpkg) as (fps & s' & E & Hs' & Hf & Hv).
  destruct (Hsub fps Hf) as [Hne Hin].
  assert (Hok' : baseline_ok (view s')).
  { rewrite Hv. apply promoted_baseline_ok; [|done]. intros fp. by eapply fingerprint_category. }
  assert (Hknown : forall k, k ∈ fp_key <$> fps \/ k ∈ known_pairs (view s) (Run_PackageName run) ->
                   k ∈ known_pairs (view s') (Run_PackageName run)).
  { intros [c v] Hk. apply known_pairs_dom; [done|]. rewrite Hv. unfold promoted. simpl. rewrite merge_dom.
    apply elem_of_union. destruct Hk as [Hk|Hk]; [left|right; by apply known_pairs_dom].
    apply elem_of_list_to_set. apply list_elem_of_fmap in Hk as (fp & [= -> ->] & Hk).
    rewrite <- list_fmap_compose. apply list_elem_of_fmap. by exists fp. }
  set (run2 := if decide (runID = Run_ID run) then set_baseline_flag true run else run').
  assert (Hrun2 : st_runs (view s') !! runID = Some run2 /\ Run_PackageName run2 = Run_PackageName run).
  { rewrite Hv. unfold promoted, run2. simpl. case_decide as Hid; [subst runID; by rewrite lookup_insert_eq|].
    by rewrite lookup_insert_ne. }
  destruct Hrun2 as [Hrun2 Hpk2].
  destruct (silent_analysis iter' newID clock runID (mkDiffer s' m) run2 Hit' Hinj Hs' Hrun2) as (d' & EA & Hd & Hr).
  - by rewrite Hpk2.
  - rewrite Hpk2. intros Hb. destruct fps as [|fp fps]; [done|].
    assert (Hfp : fp_key fp ∈ fp_key <$> fp :: fps) by (rewrite fmap_cons; by left).
    specialize (Hknown _ (or_introl Hfp)). unfold dview in Hb. cbn [store] in Hb.
    unfold known_pairs in Hknown. rewrite Hb in Hknown. by apply not_elem_of_nil in Hknown.
  - exact Hok'.
  - intros i. unfold dview. cbn [store]. rewrite Hv. unfold promoted. simpl. apply map_lookup_filter_None. left. apply Hids.
  - rewrite Hpk2. unfold dview. cbn [store]. intros fps2 Hf2 k Hk. apply Hknown, (proj2 (Hsub fps Hf)).
    eapply (run_fingerprints_det (view s') (view s)); [| | |exact Hf2|exact Hf'|exact Hk].
    + intros id e. apply view_events_keyed. apply Hs'.
    + by rewrite Hv.
    + by rewrite Hv.
  - exists (length fps), s', d'. split_and_all; [done|done|done|]. by eexists.
Qed.
End promote.

(** ** Allow entries *)
Section allowing.
Import NetIP.NetIP Fingerprint.Fingerprint Differ.Differ.
Implicit Types (d : Sqlite.Sqlite.DB).

Lemma filter_entry es e :
  e ∈ es ->
  (forall n, cidr_of e = Some n -> In n (cidrs (NewFilter es))) /\
  (forall p, path_of e = Some p -> In p (paths (NewFilter es))) /\
  (forall n, sni_of e = Some n -> n ∈ snis (NewFilter es)).
Proof.
  intros He. unfold NewFilter.
  destruct (add_entries_parts es (mkFilter (omap ParseCIDR DefaultCDNAllowlist) [] [])) as (-> & -> & ->).
  split_and!; intros x Hx; rewrite ?in_app_iff, <- ?list_elem_of_In, ?elem_of_app; right; apply list_elem_of_omap; eauto.
Qed.

Lemma allowAdd_stored now id kind value pkg note d e d' :
  SqliteSpec.SqliteSpec.wf d -> allowAdd now id kind value pkg note d = (Ok e, d') ->
  check_allow kind value = Ok tt /\ SqliteSpec.SqliteSpec.wf d' /\
  exists t, st_allow (view d') !! id = Some
    (mkAllowEntry id (if decide (pkg = "") then AllowScopeGlobal else AllowScopePackage) pkg kind value note t).
Proof.
  intros Hwf. unfold allowAdd. destruct (check_allow kind value) as [[]|] eqn:Ec; [|done].
  set (entry := mkAllowEntry _ _ _ _ _ _ _). intros E. split; [done|].
  assert (Ea : exists t, insert_unique Al_ID (Sqlite.Sqlite.stamp_created now entry) (Sqlite.Sqlite.allowlists d) = Some t /\
            d' = (Sqlite.Sqlite.AddAllowEntry now entry d).2 /\ Sqlite.Sqlite.allowlists d' = t).
  { revert E. unfold M_bind. simpl. unfold mbind, M_bind. unfold Sqlite.Sqlite.AddAllowEntry. case_decide; [|done].
    destruct (insert_unique _ _ _) as [t|] eqn:Ei; [|done]. intros [= <- <-]. by exists t. }
  destruct Ea as (t & Ei & Ed & Et). subst d'.
  assert (Hwf' := SqliteSpec.SqliteSpec.wf_exec (SqliteSpec.SqliteSpec.MAddAllowEntry now entry) d Hwf). simpl in Hwf'.
  split; [done|]. exists (if IsZero now then now else now).
  change (tbl Al_ID (Sqlite.Sqlite.allowlists (Sqlite.Sqlite.AddAllowEntry now entry d).2) !! id =
          Some (Sqlite.Sqlite.stamp_created now entry)).
  apply tbl_lookup; [apply Hwf'|]. split; [|done]. rewrite Et.
  apply insert_unique_Some in Ei as (_ & _ & _ & ->); [|apply Hwf]. apply elem_of_app. right. by left.
Qed.

(** C26: An accepted "allow add" takes effect: from then on no run of the package it names
    (of any package when it names none) has a fingerprint the entry covers — a file access
    under an allowed path, a TLS host with the allowed name in any letter case, a
    destination in the allowed range. *)
Theorem allowAdd_applies now id kind value pkg note d e d' runID p fps fp :
  SqliteSpec.SqliteSpec.wf d -> allowAdd now id kind value pkg note d = (Ok e, d') ->
  pkg = "" \/ pkg = p -> run_fingerprints (view d') runID p fps -> fp ∈ fps ->
  (kind = AllowKindPath -> Category_ fp = CatFSPathRead \/ Category_ fp = CatFSPathWrite ->
     HasPrefix (Value fp) value = false) /\
  (kind = AllowKindSNI -> Category_ fp = CatNetHTTPSHost ->
     ToLower (TrimSpace (Value fp)) <> ToLower (TrimSpace value)) /\
  (kind = AllowKindCIDR -> Category_ fp = CatNetDestination ->
     exists ip port, Value fp = ip +:+ ":" +:+ decimal port /\
       forall n a, ParseCIDR value = Some n -> ParseIP ip = Some a -> Contains n a = false).
Proof.
  intros Hwf Ea Hp (evs & all & entries & it & _ & _ & _ & Hen & Hit & ->) Hfp.
  destruct (allowAdd_stored _ _ _ _ _ _ _ _ _ Hwf Ea) as (Hc & _ & t & Hst). set (entry := mkAllowEntry _ _ _ _ _ _ _) in Hst.
  assert (Hv : value <> ""). { intros ->. unfold check_allow in Hc. by rewrite decide_True in Hc by auto. }
  assert (Hin : entry ∈ EntriesForPackage entries p).
  { apply EntriesForPackage_elem. rewrite Hen. split; [by apply elem_of_values; exists id|].
    unfold entry. simpl. destruct Hp as [->| ->]; [by left|]. case_decide; auto. }
  destruct (filter_entry _ _ Hin) as (Hci & Hpa & Hsn).
  destruct (proj1 (fingerprint_iff it _ evs (Category_ fp) (Value fp) Hit) (ex_intro _ fp (conj Hfp (conj eq_refl eq_refl))))
    as (ev & _ & Hx & _).
  destruct (extract_unsuppressed _ _ _ _ Hx) as (H1 & H2 & H3). split_and!; intros -> Hcat.
  - specialize (H1 Hcat). specialize (Hpa value). unfold path_of in Hpa. simpl in Hpa. rewrite decide_True in Hpa by done.
    apply not_true_iff_false. intros Hpre. apply (eq_true_false_abs _ (proj2 (existsb_exists _ _) (ex_intro _ value (conj (Hpa eq_refl) Hpre))) H1).
  - specialize (H2 Hcat). apply bool_decide_eq_false in H2. intros Heq. apply H2. rewrite Heq. apply Hsn.
    unfold sni_of. simpl. by rewrite decide_True by done.
  - destruct (H3 Hcat) as (ip & port & -> & Hs). exists ip, port. split; [done|]. intros n a Hn Ha.
    unfold SuppressIP in Hs. rewrite Ha in Hs. apply not_true_iff_false. intros Hcon.
    apply (eq_true_false_abs _ (proj2 (existsb_exists _ _) (ex_intro _ n (conj (Hci n Hn) Hcon))) Hs).
Qed.

Lemma allowAdd_applies_witness :
  exists e d', allowAdd 5 "a1" AllowKindSNI "Evil.Example" "axios" "" history = (Ok e, d') /\
    forall fps fp, run_fingerprints (view d') "r2" "axios" fps -> fp ∈ fps -> Category_ fp = CatNetHTTPSHost ->
      ToLower (TrimSpace (Value fp)) <> "evil.example".
Proof.
  eexists _, _. split; [vm_compute; reflexivity|]. intros fps fp Hf Hin Hc.
  refine (proj1 (proj2 (allowAdd_applies 5 "a1" AllowKindSNI "Evil.Example" "axios" "" history _ _ "r2" "axios" fps fp
    _ _ _ Hf Hin)) eq_refl Hc).
  - apply history_good.
  - vm_compute. reflexivity.
  - by right.
Defined.
End allowing.

(** ** Submitting a scan *)
Section submitting.
Import Dispatcher.Dispatcher Api.Api.
Implicit Types (s : Server Sqlite.Sqlite.DB).

(** The exchange with a running orchestrator. *)
Definition post_to (t0 t1 now : time) (req : string * Job) : M (Server Sqlite.Sqlite.DB) Response := fun s =>
  let '(r, s') := handleQueueScan (Ok req) t0 t1 now s in (Ok r, s').

Definition scan_of (pkg version : string) (duration : duration) : Job :=
  (scan_request "" "r" pkg version duration).2.

(** "scan submit" against a running orchestrator.  The scan goes to the runner named with
    -runner, else to the runner whose id is the operator's hostname: if that one is
    registered, one sandbox job for the package and version is appended to its
    queue and the run id printed is the job's; if it is not — whatever other runners are
    registered — the command fails and the orchestrator is unchanged. *)
Theorem submitScan_spec hostname runnerID pkg version dur t0 t1 now s d :
  SqliteSpec.SqliteSpec.wf d -> store s = Some d ->
  let target := if decide (runnerID = "") then hostname else runnerID in
  let job := fill_job (defaultWatchedPaths s) t0 t1 (scan_of pkg version dur) in
  match runners s !! target with
  | None => exists e, submitScan (post_to t0 t1 now) hostname runnerID pkg version dur s = (Err e, s)
  | Some _ => target <> "" -> exists s',
      submitScan (post_to t0 t1 now) hostname runnerID pkg version dur s = (Ok (hex (jb_RunID job)), s') /\
      (forall r, jobs_of r (dispatcher s') = jobs_of r (dispatcher s) ++ (if decide (target = r) then [job] else [])) /\
      jb_PackageName job = pkg /\ jb_Version job = version /\
      jb_Sandbox job = Some (Watcher.BuildSandboxScan pkg version) /\
      exists d', store s' = Some d' /\ hex (jb_RunID job) ∈ Run_ID <$> Sqlite.Sqlite.runs d'
  end.
Proof.
  intros Hwf Hst target job. unfold submitScan, post_to, handleQueueScan, scan_request. fold target. unfold SubmitScan.
  destruct (runners s !! target) as [rr|] eqn:Er.
  2:{ case_decide; simpl; by eexists. }
  intros Ht. rewrite decide_False by done. rewrite Hst. eexists. split; [reflexivity|].
  split; [intros r; apply (jobs_enqueue r target job)|]. do 3 (split; [done|]).
  eexists. split; [reflexivity|]. simpl. unfold Sqlite.Sqlite.CreateRun. change (negb (IsValid _)) with false.
  unfold insert_unique. case_decide as Hin; [exact Hin|]. simpl. rewrite fmap_app, elem_of_app. right. by left.
Qed.

(** A runner is registered, and the operator's hostname is not its id. *)
Lemma submitScan_spec_witness :
  is_Some (runners wit_server !! "r1") /\
  (exists e, submitScan (post_to 7 8 9) "laptop" "" "left-pad" "1.0" 0 wit_server = (Err e, wit_server)) /\
  exists s', submitScan (post_to 7 8 9) "laptop" "r1" "left-pad" "1.0" 0 wit_server =
    (Ok "00000000000000070000000000000000", s').
Proof.
  split; [by eexists|]. split.
  - apply (submitScan_spec "laptop" "" "left-pad" "1.0" 0%Z 7%Z 8%Z 9%Z wit_server Sqlite.Sqlite.empty_db
             SqliteSpec.SqliteSpec.wf_empty eq_refl).
  - destruct (submitScan_spec "laptop" "r1" "left-pad" "1.0" 0%Z 7%Z 8%Z 9%Z wit_server Sqlite.Sqlite.empty_db
             SqliteSpec.SqliteSpec.wf_empty eq_refl ltac:(done)) as (s' & E & _). exists s'. rewrite E. reflexivity.
Defined.
End submitting.

(** ** Watching a package *)
Section watching.
Implicit Types (d : Sqlite.Sqlite.DB).
Context (resolve : string -> string -> res Watcher.PackageVersion) (post : string * Job -> M Sqlite.Sqlite.DB Api.Response).
Context (post_packages : forall req d, Sqlite.Sqlite.packages (post req d).2 = Sqlite.Sqlite.packages d).

Lemma submitScan_packages hostname runnerID pkg version dur d :
  Sqlite.Sqlite.packages (submitScan post hostname runnerID pkg version dur d).2 = Sqlite.Sqlite.packages d.
Proof.
  unfold submitScan. pose proof (post_packages (scan_request hostname runnerID pkg version dur) d) as Hp.
  by destruct (post _ d) as [[resp|e] d'].
Qed.

(** "package add" hands the package over to the watcher without a second scan.  When it
    succeeds, the package was not watched before and is afterwards; the other packages
    are unchanged; and the watcher, asking the same registry, does not take the version
    scanned at the addition for a new release — also when that kickoff scan failed. *)
Theorem packageAdd_seen now now' hostname runnerID name dur skipScan d v r d' :
  resolve name "" = Ok v -> Watcher.pv_Version v <> "" ->
  packageAdd resolve post now now' hostname runnerID name dur skipScan false d = (Ok (Watcher.pv_Version v, r), d') ->
  name ∉ Wp_Name <$> Sqlite.Sqlite.packages d /\
  exists p, Sqlite.Sqlite.packages d' = Sqlite.Sqlite.packages d ++ [p] /\ Wp_Name p = name /\
    Watcher.new_release (fun n => resolve n "") p = None.
Proof.
  intros Hv Hne. unfold packageAdd. cbv zeta.
  assert (El : wrap_err "list watched" ListWatchedPackages d = (Ok (order_by (key_le Wp_Name) (Sqlite.Sqlite.packages d)), d))
    by reflexivity.
  rewrite (M_bind_ok _ _ _ _ _ El). case_decide as Hin; [done|]. rewrite Hv. cbn [fmap res_fmap].
  assert (Hin' : name ∉ Wp_Name <$> Sqlite.Sqlite.packages d) by (by rewrite order_by_perm in Hin).
  set (p0 := mkWatchedPackage name now None ""). set (p := Sqlite.Sqlite.checked now' (Watcher.pv_Version v) p0).
  assert (Ea : AddWatchedPackage now name d = (Ok tt, Sqlite.Sqlite.set_packages (Sqlite.Sqlite.packages d ++ [p0]) d)).
  { simpl. unfold Sqlite.Sqlite.AddWatchedPackage, insert_unique. simpl. by rewrite decide_False. }
  rewrite (M_bind_ok _ _ _ _ _ Ea). set (d1 := Sqlite.Sqlite.set_packages _ d). destruct (decide (Watcher.pv_Version v = "")) as [Hz|_]; [by destruct (Hne Hz)|].
  assert (Eu : attempt (UpdatePackageCheck now' name (Watcher.pv_Version v)) d1 =
               (Ok (Ok tt), Sqlite.Sqlite.set_packages (Sqlite.Sqlite.packages d ++ [p]) d1)).
  { unfold attempt. simpl. unfold Sqlite.Sqlite.UpdatePackageCheck. do 2 f_equal.
    unfold update. simpl. rewrite fmap_app. f_equal; [|simpl; by rewrite decide_True].
    rewrite <- (list_fmap_id (Sqlite.Sqlite.packages d)) at 2. apply list_fmap_ext. intros i q Hq.
    case_decide as Hn; [|done]. exfalso. apply Hin'. rewrite <- Hn. eapply list_elem_of_fmap_2, list_elem_of_lookup_2, Hq. }
  rewrite (M_bind_ok _ _ _ _ _ Eu). set (d2 := Sqlite.Sqlite.set_packages _ d1).
  intros E. split; [done|]. exists p. split; [|split; [done|]].
  - case_decide; [|by injection E as _ <-].
    pose proof (submitScan_packages hostname runnerID name (Watcher.pv_Version v) dur d2) as Hp.
    unfold attempt, mbind, M_bind in E. destruct (submitScan _ _ _ _ _ _ d2) as [x d3] eqn:Es. simpl in E, Hp.
    injection E as _ <-. exact Hp.
  - unfold Watcher.new_release, p, Sqlite.Sqlite.checked, p0. cbn [Wp_Name Wp_LastSeenVersion]. rewrite Hv.
    destruct (decide (Watcher.pv_Version v = "")) as [Hz|_]; [by destruct (Hne Hz)|]. by rewrite decide_True.
Qed.
End watching.

(** The orchestrator is down; the release is not scanned, and will not be. *)
Lemma packageAdd_seen_witness :
  let resolve := fun n _ => Ok (Watcher.mkPackageVersion n "1.1" "" "" 0) in
  exists p d', packageAdd resolve (fun _ => fail (Errorf "connection refused")) 5 6 "laptop" "" "left-pad" 0 false false
      Sqlite.Sqlite.empty_db = (Ok ("1.1", None), d') /\
    Sqlite.Sqlite.packages d' = [p] /\ Watcher.new_release (fun n => resolve n "") p = None.
Proof.
  cbv zeta.
  destruct (packageAdd_seen (fun n _ => Ok (Watcher.mkPackageVersion n "1.1" "" "" 0))
    (fun _ => fail (Errorf "connection refused")) (fun _ _ => eq_refl) 5%Z 6%Z "laptop" "" "left-pad" 0%Z false
    Sqlite.Sqlite.empty_db (Watcher.mkPackageVersion "left-pad" "1.1" "" "" 0) None
    (Sqlite.Sqlite.set_packages [mkWatchedPackage "left-pad" 5 (Some 6%Z) "1.1"] Sqlite.Sqlite.empty_db)) as (_ & p & Hp & _ & Hr).
  - reflexivity.
  - done.
  - vm_compute. reflexivity.
  - exists p, (Sqlite.Sqlite.set_packages [mkWatchedPackage "left-pad" 5 (Some 6%Z) "1.1"] Sqlite.Sqlite.empty_db).
    split; [vm_compute; reflexivity|]. split; [exact Hp|exact Hr].
Defined.

(** ** A promotion on the SQLite backend: the second release of the history *)
Section instance.
Import Fingerprint.Fingerprint Differ.Differ.

Definition wit_store : Sqlite.Sqlite.DB := store after_first.
Definition wit_fps : list Fingerprint :=
  ExtractFingerprintsWith id (filter (fun e => Ev_RunID e = "r2") (Sqlite.Sqlite.events wit_store)) (Some (NewFilter [])).

Lemma wit_sound : sound wit_store.
Proof. apply after_first_good. Qed.

Lemma wit_run_fingerprints : run_fingerprints (view wit_store) "r2" "axios" wit_fps.
Proof.
  exists (filter (fun e => Ev_RunID e = "r2") (Sqlite.Sqlite.events wit_store)),
    (filter (fun e => Ev_RunID e = "r2") (Sqlite.Sqlite.events wit_store)), [], id.
  split_and!; try (vm_compute; reflexivity).
  - assert (forall l, Sorted ev_le l -> forall l', l = l' -> Sorted ev_le l') as Hs by (by intros ?? ? <-).
    eapply Hs; [|symmetry; vm_compute; reflexivity]. repeat constructor; unfold ev_le; simpl; lia.
Qed.

Lemma wit_fps_all fps : run_fingerprints (view wit_store) "r2" "axios" fps ->
  fps <> [] /\ forall k, k ∈ fp_key <$> wit_fps -> k ∈ fp_key <$> fps.
Proof.
  intros Hf. assert (Hk : forall k, k ∈ fp_key <$> wit_fps -> k ∈ fp_key <$> fps).
  { intros k. apply (run_fingerprints_det (view wit_store) (view wit_store) "r2" "axios"); try done.
    - intros i e. apply view_events_keyed. apply wit_sound.
    - apply wit_run_fingerprints. }
  split; [|done]. intros ->. specialize (Hk (CatNetDNS, "evil.example")).
  apply not_elem_of_nil in Hk; [done|]. apply (bool_decide_unpack _). vm_compute. exact I.
Qed.

Lemma wit_resolve : ResolveRunPrefix "r2" wit_store = (Ok wit_run2, wit_store).
Proof. vm_compute. reflexivity. Qed.

Lemma baselinePromote_spec_witness :
  exists n s', baselinePromote reverse "r2" wit_store = (Ok (wit_run2, n), s') /\
    st_runs (view s') !! "r2" = Some (set_baseline_flag true wit_run2).
Proof.
  destruct (baselinePromote_spec reverse "r2" wit_store wit_store wit_run2)
    as (fps & s' & E & _ & _ & _ & _ & Hr & _).
  - intros l. apply reverse_Permutation.
  - apply wit_sound.
  - apply wit_resolve.
  - apply wit_sound.
  - reflexivity.
  - vm_compute. reflexivity.
  - done.
  - exists (length fps), s'. split; [done|]. rewrite Hr. apply lookup_insert_eq.
Defined.

(** Without the promotion the same analysis reports evil.example. *)
Lemma promote_silences_witness :
  (exists d', AnalyzeRun id (ids "b") noon "r2" after_first = (Ok 1, d')) /\
  exists n s' d', baselinePromote id "r2" wit_store = (Ok (wit_run2, n), s') /\
    AnalyzeRun reverse (ids "b") noon "r2" (mkDiffer s' (Some [])) = (Ok 0, d') /\ devs_of (dview d') "r2" = [].
Proof.
  split; [eexists; vm_compute; reflexivity|].
  destruct (promote_silences id reverse "r2" wit_store wit_store wit_run2 (ids "b") noon (Some []) "r2" wit_run2 wit_fps)
    as (n & s' & d' & E & EA & Hd & _).
  - done.
  - intros l. apply reverse_Permutation.
  - apply ids_inj.
  - apply wit_sound.
  - apply wit_resolve.
  - apply wit_sound.
  - reflexivity.
  - vm_compute. reflexivity.
  - done.
  - apply after_first_baseline.
  - apply after_first_devs.
  - vm_compute. reflexivity.
  - done.
  - apply wit_run_fingerprints.
  - intros fps Hf. destruct (wit_fps_all fps Hf) as [Hne Hk]. split; [done|]. intros k Hin. left. by apply Hk.
  - exists n, s', d'. done.
Defined.
End instance.

End Cli.
