(* ===== verification/Print.v ===== *)
(** * fangs: what the commands print

    The output of every command of cmd/fangs-cli/internal/cli: the cells of
    its table (aligned by Tabwriter.v), its lines of text, or with -json the
    value it encodes.  A slice a backend never appended to is nil and encodes
    as null.  The location of a stored time (an offset from UTC), fmt's %q, the
    text of an error, the text of an indented JSON value and the bytes of a
    payload are arguments; JSON values stand for the text that encodes them. *)
From Stdlib Require Import Ascii.
From stdpp Require Import prelude strings gmap list.
From S2P Require Import Prelude GoTime Display Tabwriter Json Storage Pending Cli.

Module Print.
Import Display Tabwriter Cli.

(** Standard output, one value per call of renderJSON and one per text. *)
Inductive Out : Type := Text (s : string) | Doc (j : json).

Definition pluralS (n : nat) : string := if decide (n = 1) then "" else "s".

Section print.
Context (zone : time -> duration) (quote : string -> string) (Error : error -> string) (indent : json -> string)
        (raw : EventRow -> string).

(** ** The cells of a row *)
Definition local (t : time) : string := date_time (zone t) t.
Definition utc (t : time) : string := date_time 0 t.
Definition rfc (t : time) : string := rfc3339 (zone t) t.
Definition when (fmt : time -> string) (none : string) (t : option time) : string :=
  match t with Some t => fmt t | None => none end.

Definition run_row (r : Run) : list string :=
  [shortID (Run_ID r); truncate (Run_PackageName r) 24; Run_Version r; Run_State r;
   (if Run_IsBaseline r then "★" else "·"); when local "-" (Run_StartedAt r)].
Definition shown_dev_row (d : DeviationRow) : list string :=
  [shortID (Dev_ID d); Dev_Severity d; Dev_Category d; truncate (Dev_Value d) 60].
Definition deviation_row (d : DeviationRow) : list string :=
  [shortID (Dev_ID d); (if IsZero (Dev_DetectedAt d) then "-" else utc (Dev_DetectedAt d)); Dev_Severity d;
   Dev_Category d; truncate (Dev_Value d) 60; shortID (Dev_RunID d)].
Definition release_row (r : ReleaseRow) : list string :=
  [Rel_PackageName r; Rel_Version r; (if IsZero (Rel_PublishedAt r) then "-" else utc (Rel_PublishedAt r));
   utc (Rel_DiscoveredAt r); truncate (Rel_TarballSHA256 r) 16].
Definition baseline_row (b : BaselineRow) : list string :=
  [Bl_Category b; truncate (Bl_Value b) 60; decimal (Bl_OccurrenceCount b); shortID (Bl_FirstSeenRunID b);
   shortID (Bl_LastSeenRunID b)].
Definition watched_row (p : WatchedPackage) : list string :=
  [Wp_Name p; utc (Wp_AddedAt p); when utc "(never)" (Wp_LastCheckedAt p);
   (if decide (Wp_LastSeenVersion p = "") then "-" else Wp_LastSeenVersion p)].
Definition package_row (p : PackageSummary) : list string :=
  [Ps_Name p; decimal (Ps_RunsTotal p); decimal (Ps_RunsBaseline p); Ps_LatestVersion p;
   decimal (Ps_DeviationsLatest p); shortID (Ps_LatestRunID p)].
Definition allow_row (e : AllowEntry) : list string :=
  [shortID (Al_ID e); Al_Scope e; (if decide (Al_PackageName e = "") then "—" else Al_PackageName e); Al_Kind e;
   truncate (Al_Value e) 40; truncate (Al_Note e) 30; rfc (Al_CreatedAt e)].
Definition notifier_row (n : NotifierRow) : list string :=
  [Nt_Name n; Nt_Template n; truncate (Nt_URL n) 50; (if Nt_Enabled n then "yes" else "no");
   (if decide (Nt_MinSeverity n = "") then "any" else Nt_MinSeverity n);
   (if decide (Nt_SecretEnv n = "") then "no" else "$" +:+ Nt_SecretEnv n); rfc (Nt_UpdatedAt n)].
Definition history_row (n : NotificationRow) : list string :=
  [Nf_NotifierName n; decimal (Nf_Attempt n); Nf_Status n;
   (if (0 <? Nf_ResponseCode n)%Z then decimal (Nf_ResponseCode n) else "—"); decimal (Nf_DeviationCount n);
   match Nf_LastAttemptedAt n with Some t => rfc t | None => "—" end; truncate (Nf_ErrorMsg n) 40].
(** The CLI's copy of the dashboard's [relTime]. *)
Definition relTime (now t : time) : string :=
  if GoTime.IsZero t then Display.em_dash else
  let d := Display.since now t in
  if (d <? 0)%Z then "future"
  else if (d <? Minute)%Z then decimal (int_of (in_units Second d)) +:+ "s ago"
  else if (d <? Hour)%Z then decimal (int_of (in_units Minute d)) +:+ "m ago"
  else if (d <? 24 * Hour)%Z then decimal (int_of (in_units Hour d)) +:+ "h ago"
  else decimal (int_of (fdiv (in_units Hour d) (float64 24))) +:+ "d ago".
Lemma relTime_copy now t : relTime now t = Display.relTime now t.
Proof. reflexivity. Qed.

Definition pending_row (now : time) (r : Pending.pendingRow) : list string :=
  [Pending.Pn_MaxSeverity r; shortID (Run_ID (Pending.Pn_Run r)); Run_PackageName (Pending.Pn_Run r);
   Run_Version (Pending.Pn_Run r); decimal (Z.of_nat (Pending.Pn_DevCount r)); relTime now (Pending.Pn_LastDetected r);
   "fangs baseline promote " +:+ shortID (Run_ID (Pending.Pn_Run r))].

(** ** Values of -json: the exported fields, in their order *)
Definition time_json (t : time) : json := JStr (rfc3339nano_in (zone t) t).
Definition pointer_json (t : option time) : json := match t with Some t => time_json t | None => JNull end.

(** A slice built by append from nil. *)
Definition nil_slice {A} (f : A -> json) (l : list A) : json := match l with [] => JNull | _ => JArr (f <$> l) end.

Definition run_json (r : Run) : json :=
  JObj [("ID", JStr (Run_ID r)); ("PackageName", JStr (Run_PackageName r)); ("Version", JStr (Run_Version r));
        ("TarballSHA256", JStr (Run_TarballSHA256 r)); ("LockfileSHA256", JStr (Run_LockfileSHA256 r));
        ("NodeVersion", JStr (Run_NodeVersion r)); ("NPMVersion", JStr (Run_NPMVersion r));
        ("State", JStr (Run_State r)); ("Attempt", JNum (Run_Attempt r)); ("IsBaseline", JBool (Run_IsBaseline r));
        ("StartedAt", pointer_json (Run_StartedAt r)); ("FinishedAt", pointer_json (Run_FinishedAt r));
        ("FailureReason", JStr (Run_FailureReason r)); ("EventsEmitted", JNum (Run_EventsEmitted r));
        ("EventsDropped", JNum (Run_EventsDropped r)); ("DurationNS", JNum (Run_DurationNS r))].
Definition deviation_json (d : DeviationRow) : json :=
  JObj [("ID", JStr (Dev_ID d)); ("RunID", JStr (Dev_RunID d)); ("Category", JStr (Dev_Category d));
        ("Value", JStr (Dev_Value d)); ("EvidenceEventID", JNum (Dev_EvidenceEventID d));
        ("Severity", JStr (Dev_Severity d)); ("DetectedAt", time_json (Dev_DetectedAt d));
        ("NotifiedAt", pointer_json (Dev_NotifiedAt d)); ("Suppressed", JBool (Dev_Suppressed d))].
Definition baseline_json (b : BaselineRow) : json :=
  JObj [("PackageName", JStr (Bl_PackageName b)); ("Category", JStr (Bl_Category b)); ("Value", JStr (Bl_Value b));
        ("FirstSeenRunID", JStr (Bl_FirstSeenRunID b)); ("LastSeenRunID", JStr (Bl_LastSeenRunID b));
        ("OccurrenceCount", JNum (Bl_OccurrenceCount b))].
Definition release_json (r : ReleaseRow) : json :=
  JObj [("PackageName", JStr (Rel_PackageName r)); ("Version", JStr (Rel_Version r));
        ("TarballSHA256", JStr (Rel_TarballSHA256 r)); ("NPMIntegrity", JStr (Rel_NPMIntegrity r));
        ("PublishedAt", time_json (Rel_PublishedAt r)); ("DiscoveredAt", time_json (Rel_DiscoveredAt r))].
Definition watched_json (p : WatchedPackage) : json :=
  JObj [("Name", JStr (Wp_Name p)); ("AddedAt", time_json (Wp_AddedAt p));
        ("LastCheckedAt", pointer_json (Wp_LastCheckedAt p)); ("LastSeenVersion", JStr (Wp_LastSeenVersion p))].
Definition summary_json (p : PackageSummary) : json :=
  JObj [("Name", JStr (Ps_Name p)); ("RunsTotal", JNum (Ps_RunsTotal p)); ("RunsBaseline", JNum (Ps_RunsBaseline p));
        ("DeviationsLatest", JNum (Ps_DeviationsLatest p)); ("LatestRunID", JStr (Ps_LatestRunID p));
        ("LatestVersion", JStr (Ps_LatestVersion p))].
Definition allow_json (e : AllowEntry) : json :=
  JObj [("ID", JStr (Al_ID e)); ("Scope", JStr (Al_Scope e)); ("PackageName", JStr (Al_PackageName e));
        ("Kind", JStr (Al_Kind e)); ("Value", JStr (Al_Value e)); ("Note", JStr (Al_Note e));
        ("CreatedAt", time_json (Al_CreatedAt e))].
Definition notifier_json (n : NotifierRow) : json :=
  JObj [("Name", JStr (Nt_Name n)); ("URL", JStr (Nt_URL n)); ("Template", JStr (Nt_Template n));
        ("SecretEnv", JStr (Nt_SecretEnv n)); ("Headers", JStr (Nt_Headers n)); ("MinSeverity", JStr (Nt_MinSeverity n));
        ("Enabled", JBool (Nt_Enabled n)); ("CreatedAt", time_json (Nt_CreatedAt n)); ("UpdatedAt", time_json (Nt_UpdatedAt n))].
Definition notification_json (n : NotificationRow) : json :=
  JObj [("ID", JStr (Nf_ID n)); ("RunID", JStr (Nf_RunID n)); ("NotifierName", JStr (Nf_NotifierName n));
        ("Attempt", JNum (Nf_Attempt n)); ("Status", JStr (Nf_Status n));
        ("LastAttemptedAt", pointer_json (Nf_LastAttemptedAt n)); ("NextAttemptAt", pointer_json (Nf_NextAttemptAt n));
        ("ResponseCode", JNum (Nf_ResponseCode n)); ("ResponseBody", JStr (Nf_ResponseBody n));
        ("ErrorMsg", JStr (Nf_ErrorMsg n)); ("DeviationCount", JNum (Nf_DeviationCount n));
        ("CreatedAt", time_json (Nf_CreatedAt n))].
Definition pending_json (r : Pending.pendingRow) : json :=
  JObj [("Run", run_json (Pending.Pn_Run r)); ("DevCount", JNum (Z.of_nat (Pending.Pn_DevCount r)));
        ("MaxSeverity", JStr (Pending.Pn_MaxSeverity r)); ("FirstDetected", time_json (Pending.Pn_FirstDetected r));
        ("LastDetected", time_json (Pending.Pn_LastDetected r))].

(** ** The output of each command *)
Section outputs.
Context (asJSON : bool).

(** The lists. *)
Definition listing {A} (f : A -> json) (header : list string) (cells : A -> list string) (l : list A) : Out :=
  if asJSON then Doc (nil_slice f l) else Text (renderTable header (cells <$> l)).

Definition runList : list Run -> Out :=
  listing run_json ["RUN_ID"; "PACKAGE"; "VERSION"; "STATE"; "BASE"; "STARTED"] run_row.
Definition deviationList : list DeviationRow -> Out :=
  listing deviation_json ["DEV_ID"; "DETECTED"; "SEV"; "CATEGORY"; "VALUE"; "RUN_ID"] deviation_row.
Definition baselineList : list BaselineRow -> Out :=
  listing baseline_json ["CATEGORY"; "VALUE"; "COUNT"; "FIRST_SEEN"; "LAST_SEEN"] baseline_row.
Definition releaseList : list ReleaseRow -> Out :=
  listing release_json ["PACKAGE"; "VERSION"; "PUBLISHED"; "DISCOVERED"; "TARBALL_SHA"] release_row.
Definition packageWatched : list WatchedPackage -> Out :=
  listing watched_json ["PACKAGE"; "ADDED"; "LAST_CHECKED"; "LAST_SEEN"] watched_row.
Definition packageList : list PackageSummary -> Out :=
  listing summary_json ["PACKAGE"; "RUNS"; "BASELINES"; "LATEST_VERSION"; "LATEST_DEVS"; "LATEST_RUN"] package_row.

(** [filtered]: EntriesForPackage makes its slice. *)
Definition allowList (filtered : bool) (l : list AllowEntry) : Out :=
  if asJSON then Doc (if filtered then JArr (allow_json <$> l) else nil_slice allow_json l)
  else match l with
  | [] => Text (Fprintln "no allowlist entries." +:+
                Fprintln "  fangs allow add -kind cidr  -value 10.0.0.0/8 -note 'internal net'" +:+
                Fprintln "  fangs allow add -kind sni   -value telemetry.internal -package my-pkg")
  | _ => Text (renderTable ["ID"; "SCOPE"; "PACKAGE"; "KIND"; "VALUE"; "NOTE"; "CREATED"] (allow_row <$> l))
  end.
Definition notifierList (l : list NotifierRow) : Out :=
  if asJSON then Doc (nil_slice notifier_json l)
  else match l with
  | [] => Text (Fprintln "no notifiers configured. add one:" +:+
                Fprintln "  fangs notifier add -name soc-slack -url https://hooks.slack.com/... -template slack")
  | _ => Text (renderTable ["NAME"; "TEMPLATE"; "URL"; "ENABLED"; "MIN_SEV"; "HMAC"; "UPDATED"] (notifier_row <$> l))
  end.
Definition notifierHistory (run : Run) (l : list NotificationRow) : Out :=
  if asJSON then Doc (nil_slice notification_json l)
  else match l with
  | [] => Text (Fprintln ("no notification attempts recorded for run " +:+ shortID (Run_ID run)))
  | _ => Text (renderTable ["NOTIFIER"; "ATTEMPT"; "STATUS"; "HTTP"; "DEVS"; "LAST_AT"; "ERROR"] (history_row <$> l))
  end.
Definition pendingCmd (now : time) (l : list Pending.pendingRow) : Out :=
  if asJSON then Doc (JArr (pending_json <$> l))
  else match l with
  | [] => Text (Fprintln "no runs awaiting review.")
  | _ => Text (renderTable ["SEVERITY"; "RUN"; "PACKAGE"; "VERSION"; "FINDINGS"; "DETECTED"; "PROMOTE"] (pending_row now <$> l) +:+
               Fprintln "" +:+
               Fprintln (decimal (Z.of_nat (length l)) +:+ " run" +:+ pluralS (length l) +:+ " awaiting review."))
  end.

(** A pointer's line, when it is set. *)
Definition optional_line (label : string) (t : option time) : string :=
  match t with Some t => Fprintln (label +:+ utc t +:+ " UTC") | None => "" end.
Definition bool_text (b : bool) : string := if b then "true" else "false".

Definition runShow (p : Run * list DeviationRow * Z) : Out :=
  let '(run, devs, evtCount) := p in
  if asJSON then
    Doc (JObj [("deviations", nil_slice deviation_json devs); ("event_count", JNum evtCount); ("run", run_json run)])
  else Text (
    Fprintln ("Run " +:+ Run_ID run) +:+
    Fprintln ("  package:    " +:+ Run_PackageName run) +:+
    Fprintln ("  version:    " +:+ Run_Version run) +:+
    Fprintln ("  state:      " +:+ Run_State run) +:+
    Fprintln ("  attempt:    " +:+ decimal (Run_Attempt run)) +:+
    Fprintln ("  baseline:   " +:+ bool_text (Run_IsBaseline run)) +:+
    optional_line "  started_at: " (Run_StartedAt run) +:+
    optional_line "  finished_at: " (Run_FinishedAt run) +:+
    (if decide (Run_FailureReason run = "") then "" else Fprintln ("  failure:    " +:+ Run_FailureReason run)) +:+
    Fprintln ("  events:     " +:+ decimal evtCount) +:+
    Fprintln ("  deviations: " +:+ decimal (Z.of_nat (length devs))) +:+
    match devs with
    | [] => ""
    | _ => Fprintln "" +:+ renderTable ["DEV_ID"; "SEV"; "CATEGORY"; "VALUE"] (shown_dev_row <$> devs)
    end).

(** The evidence is a raw message: a payload that is no JSON cannot be
    encoded. *)
Definition deviationShow (p : DeviationRow * res EventRow) : res Out :=
  let '(d, evt) := p in
  if asJSON then
    match evt with
    | Err _ => Ok (Doc (JObj [("deviation", deviation_json d)]))
    | Ok evt =>
        match Ev_Data evt with
        | None => Err (Errorf "json: error calling MarshalJSON for type json.RawMessage")
        | Some data => Ok (Doc (JObj [("deviation", deviation_json d);
            ("evidence_event", JObj [("data", data); ("id", JNum (Ev_ID evt)); ("ts_ns", JNum (Ev_TsNS evt));
                                     ("type", JStr (Ev_Type evt))])]))
        end
    end
  else Ok (Text (
    Fprintln ("Deviation " +:+ Dev_ID d) +:+
    Fprintln ("  run_id:    " +:+ Dev_RunID d) +:+
    Fprintln ("  category:  " +:+ Dev_Category d) +:+
    Fprintln ("  value:     " +:+ Dev_Value d) +:+
    Fprintln ("  severity:  " +:+ Dev_Severity d) +:+
    optional_line "  detected:  " (if IsZero (Dev_DetectedAt d) then None else Some (Dev_DetectedAt d)) +:+
    Fprintln ("  suppressed: " +:+ bool_text (Dev_Suppressed d)) +:+ Fprintln "" +:+
    match evt with
    | Err e => Fprintln ("evidence event (id=" +:+ decimal (Dev_EvidenceEventID d) +:+ "): " +:+ Error e)
    | Ok evt =>
        Fprintln ("Evidence event #" +:+ decimal (Ev_ID evt) +:+ " (type=" +:+ Ev_Type evt +:+ ", ts_ns=" +:+
                  decimal (Ev_TsNS evt) +:+ "):") +:+
        Fprintln ("  " +:+ match Ev_Data evt with
                           | Some (JObj o) => indent (JObj o)
                           | Some JNull => indent JNull
                           | _ => raw evt
                           end)
    end)).

(** The commands that change something. *)
Definition baselinePromote (p : Run * nat) : Out :=
  let '(run, merged) := p in
  if asJSON then
    Doc (JObj [("fingerprints_merged", JNum (Z.of_nat merged)); ("package", JStr (Run_PackageName run));
               ("promoted", JBool true); ("run_id", JStr (Run_ID run))])
  else Text (Fprintln ("Promoted run " +:+ shortID (Run_ID run) +:+ " (package=" +:+ Run_PackageName run +:+ ") to baseline.") +:+
             Fprintln ("Merged " +:+ decimal (Z.of_nat merged) +:+ " fingerprints into baseline_fingerprints.")).

Definition packageAdd (orchestrator name : string) (skipScan : bool) (p : string * option string) : Out :=
  let '(latest, kickoff) := p in
  let runID := default "" kickoff in
  if asJSON then
    Doc (JObj ([("added", JBool true)] ++ (if decide (runID = "") then [] else [("kickoff_run_id", JStr runID)]) ++
               [("latest_version", JStr latest); ("package", JStr name)]))
  else Text (
    Fprintln ("added " +:+ quote name +:+ " to watched packages" +:+
              (if decide (latest = "") then "" else " (latest: " +:+ latest +:+ ")")) +:+
    (if decide (runID <> "") then
       Fprintln ("kickoff scan queued: run_id=" +:+ shortID runID) +:+
       Fprintln ("watch: " +:+ orchestrator +:+ "/ui/runs/" +:+ runID)
     else if skipScan then Fprintln "kickoff scan skipped (-skip-initial-scan)."
     else if decide (latest = "") then Fprintln "kickoff scan skipped (registry validation off, no version known)."
     else "")).

Definition packageRemove (name : string) : Out :=
  if asJSON then Doc (JObj [("package", JStr name); ("removed", JBool true)])
  else Text (Fprintln ("removed " +:+ quote name +:+ " from watched packages")).

Definition reportSubmit (orchestratorURL pkg version runID : string) : Out :=
  if asJSON then
    Doc (JObj [("package", JStr pkg); ("queued", JBool true); ("run_id", JStr runID); ("version", JStr version)])
  else Text (Fprintln ("queued scan run_id=" +:+ shortID runID +:+ " package=" +:+ pkg +:+ " version=" +:+ version) +:+
             Fprintln ("watch: " +:+ orchestratorURL +:+ "/ui/runs/" +:+ runID) +:+
             Fprintln ("  or:  fangs run show " +:+ shortID runID)).
End outputs.

(** These ignore -json. *)
Definition allowAdd (e : AllowEntry) : Out :=
  Text (Fprintln ("added " +:+ (if decide (Al_Scope e = AllowScopeGlobal) then "global " +:+ Al_Kind e
                                else Al_PackageName e +:+ "/" +:+ Al_Kind e) +:+
                  " allowlist entry " +:+ shortID (Al_ID e) +:+ " — " +:+ Al_Value e)).
Definition allowRemove (e : AllowEntry) : Out :=
  Text (Fprintln ("removed " +:+ Al_Kind e +:+ " allowlist entry " +:+ shortID (Al_ID e))).
Definition notifierAdd (name : string) : Out := Text (Fprintln ("notifier " +:+ quote name +:+ " saved")).
Definition notifierRemove (name : string) : Out := Text (Fprintln ("notifier " +:+ quote name +:+ " removed")).
Definition notifierTest (p : string * Z) : Out :=
  Text (Fprintln ("→ POST " +:+ p.1) +:+ Fprintln ("  HTTP " +:+ decimal p.2) +:+
        (if accepted p.2 then Fprintln "✓ test notification accepted" else "")).
End print.

(** [usage]. *)
Definition usage : string := "fangs - operator console for the FANGS NPM supply-chain monitor

Usage:
  fangs [global flags] <subcommand> [args]

Subcommands:
  run list [-package P] [-limit N]
  run show <run_id>
  deviation list [-package P] [-severity S] [-run-id R] [-limit N]
  deviation show <deviation_id>
  baseline list [-package P]
  baseline promote <run_id>
  package list                       all packages with run summaries
  package watched                    just the watched packages
  package add <name>                 add a package to the watcher
  package remove <name>              remove from the watcher
  release list -package P [-limit N] releases captured by the watcher
  notifier list                      configured webhook targets
  notifier add -name N -url U -template slack|discord|generic [-secret-env E] [-min-severity S] [-headers JSON]
  notifier remove <name>             delete a target
  notifier test <name>               fire a synthetic test notification
  notifier history -run R            delivery attempts for a run
  allow list [-package P]            allowlist entries (global + per-package)
  allow add -kind cidr|path|sni -value V [-package P] [-note N]
                                     scope = package when -package set, else global
  allow remove <id_prefix>           delete an entry by id (or unique prefix)
  scan submit -package P -version V [-orchestrator URL] [-runner ID]
                                     queue a one-off sandbox scan
  pending [-package P] [-min-severity S] [-limit N]
                                     runs awaiting baseline-promote (the triage queue)

Global flags:
  -storage      sqlite|postgres   (default: sqlite)
  -sqlite-path  PATH               (default: var/lib/fangs/fangs.db)
  -postgres-dsn DSN                (also reads $FANGS_PG_DSN)
  -json                            emit JSON instead of table

Examples:
  fangs package list
  fangs run list -package chalk -limit 10
  fangs deviation list -severity warn -limit 20
  fangs baseline promote 18b1f8...
".

(** ** What a value can do to the output *)

(** The value of a deviation is a string the analysed package chose; with a
    tab and a line break in it, one deviation prints as two. *)
Definition forging : DeviationRow :=
  mkDeviationRow "d1" "r1" "proc_new_exec" ("/bin/sh" +:+ tab_text +:+ "r1" +:+ newline_text +:+ "d2" +:+ tab_text +:+ "-" +:+
    tab_text +:+ "info" +:+ tab_text +:+ "fs_new_path" +:+ tab_text +:+ "/ok") 1 "warn" zero_time None false.
Definition honest (id cat sev value : string) : DeviationRow := mkDeviationRow id "r1" cat value 1 sev zero_time None false.

Example forged_row zone :
  deviationList zone false [forging] =
  deviationList zone false [honest "d1" "proc_new_exec" "warn" "/bin/sh"; honest "d2" "fs_new_path" "info" "/ok"].
Proof. vm_compute. reflexivity. Qed.

(** An empty list: "(none)", or null and not []. *)
Example empty_list zone :
  runList zone false [] = Text (Fprintln "(none)") /\ runList zone true [] = Doc JNull /\
  pendingCmd zone true 0 [] = Doc (JArr []).
Proof. done. Qed.
End Print.
