(* ===== verification/Args.v ===== *)
(** * fangs: the command line

    cmd/fangs-cli: [Run] of internal/cli/cli.go and the parsing halves of the
    subcommands, on Go's flag package; the commands themselves are in Cli.v.
    Modelled of the library: [FlagSet.Parse], [strconv.ParseBool],
    [strconv.ParseInt] with base 0 and [time.ParseDuration], whose float64
    product for a fraction of a unit is the argument [fraction]. *)
From Stdlib Require Import Ascii.
From stdpp Require Import prelude strings gmap list.
From S2P Require Import Prelude GoTime Json Sql Storage Sqlite SqliteSpec Proto Fingerprint Api Watcher Pending Tabwriter Cli Print.

Module Args.
Import (hints) SqliteSpec.SqliteSpec.

(** ** Values *)
Definition ParseBool (s : string) : option bool :=
  if decide (s ∈ ["1"; "t"; "T"; "TRUE"; "true"; "True"]) then Some true
  else if decide (s ∈ ["0"; "f"; "F"; "FALSE"; "false"; "False"]) then Some false
  else None.

(** A digit of base 36. *)
Definition digit36 (c : ascii) : option Z :=
  match digit_of c with
  | Some d => Some d
  | None => let n := ascii_Z (lower_ascii c) in if decide (97 <= n <= 122)%Z then Some (n - 97 + 10)%Z else None
  end.

(** The value of the digits, underscores skipped; whether there were any. *)
Fixpoint digits_val (base : Z) (l : list ascii) (n : Z) (us : bool) : option (Z * bool) :=
  match l with
  | [] => Some (n, us)
  | c :: l' =>
      if decide (c = "_"%char) then digits_val base l' n true else
      d ← digit36 c;
      if (d <? base)%Z then digits_val base l' (n * base + d)%Z us else None
  end.

(** strconv's underscoreOK after the sign: [i] is the last kind seen. *)
Inductive seen : Type := Start | Digit | Under | Other.
Fixpoint underscore_ok (hex : bool) (l : list ascii) (i : seen) : bool :=
  match l with
  | [] => match i with Under => false | _ => true end
  | c :: l' =>
      let is_digit := match digit_of c with
                      | Some _ => true
                      | None => hex && match digit36 c with Some d => (d <? 16)%Z | None => false end
                      end in
      if is_digit then underscore_ok hex l' Digit
      else if decide (c = "_"%char) then match i with Digit => underscore_ok hex l' Under | _ => false end
      else match i with Under => false | _ => underscore_ok hex l' Other end
  end.

(** Base and rest of an unsigned literal. *)
Definition base_of (l : list ascii) : Z * list ascii :=
  match l with
  | "0"%char :: l1 =>
      match l1 with
      | c :: _ :: _ =>
          let x := lower_ascii c in
          if decide (x = "b"%char) then (2%Z, drop 1 l1) else if decide (x = "o"%char) then (8%Z, drop 1 l1)
          else if decide (x = "x"%char) then (16%Z, drop 1 l1) else (8%Z, l1)
      | _ => (8%Z, l1)
      end
  | _ => (10%Z, l)
  end.

Definition underscores_fine (l : list ascii) : bool :=
  match l with
  | "0"%char :: c :: l' =>
      let x := lower_ascii c in
      if decide (x = "b"%char \/ x = "o"%char \/ x = "x"%char)
      then underscore_ok (bool_decide (x = "x"%char)) l' Digit else underscore_ok false l Start
  | _ => underscore_ok false l Start
  end.

Definition ParseUint0 (l : list ascii) : option Z :=
  match l with
  | [] => None
  | _ => let '(base, rest) := base_of l in
         '(n, us) ← digits_val base rest 0 false;
         if us && negb (underscores_fine l) then None else Some n
  end.

Definition sign_of (l : list ascii) : bool * list ascii :=
  match l with
  | "-"%char :: l' => (true, l')
  | "+"%char :: l' => (false, l')
  | _ => (false, l)
  end.

Definition ParseInt0 (s : string) : option Z :=
  let '(neg, l) := sign_of (list_of_string s) in
  n ← ParseUint0 l;
  let v := if neg : bool then (- n)%Z else n in
  if decide (- 2 ^ 63 <= v < 2 ^ 63)%Z then Some v else None.

Section durations.
(** uint64(float64(f) * (float64(unit) / scale)) *)
Context (fraction : Z -> Z -> Z -> Z).

Fixpoint leadingInt (l : list ascii) (x : Z) : option (Z * list ascii) :=
  match l with
  | c :: l' =>
      match digit_of c with
      | None => Some (x, l)
      | Some d => if (2 ^ 63 / 10 <? x)%Z then None
                  else let y := (x * 10 + d)%Z in if (2 ^ 63 <? y)%Z then None else leadingInt l' y
      end
  | [] => Some (x, [])
  end.

Fixpoint leadingFraction (l : list ascii) (x scale : Z) (overflow : bool) : Z * Z * list ascii :=
  match l with
  | c :: l' =>
      match digit_of c with
      | None => (x, scale, l)
      | Some d =>
          if overflow || ((2 ^ 63 - 1) / 10 <? x)%Z then leadingFraction l' x scale true
          else let y := (x * 10 + d)%Z in
               if (2 ^ 63 <? y)%Z then leadingFraction l' x scale true else leadingFraction l' y (scale * 10) false
      end
  | [] => (x, scale, [])
  end.

Definition unitMap (u : string) : option Z :=
  if decide (u = "ns") then Some 1%Z
  else if decide (u = "us" \/ u = string_of_list ["194"%char; "181"%char; "s"%char] \/
                  u = string_of_list ["206"%char; "188"%char; "s"%char]) then Some 1000%Z
  else if decide (u = "ms") then Some Millisecond
  else if decide (u = "s") then Some Second
  else if decide (u = "m") then Some Minute
  else if decide (u = "h") then Some (60 * Minute)%Z
  else None.

Definition is_number_char (c : ascii) : bool := bool_decide (c = "."%char) || match digit_of c with Some _ => true | None => false end.

Fixpoint unit_text (l : list ascii) : list ascii * list ascii :=
  match l with
  | c :: l' => if is_number_char c then ([], l) else let '(u, r) := unit_text l' in (c :: u, r)
  | [] => ([], [])
  end.

(** The digits after a point: their value, its scale, the rest and whether
    there were any. *)
Definition point_part (l : list ascii) : Z * Z * list ascii * bool :=
  match l with
  | "."%char :: l' => let '(f, scale, r) := leadingFraction l' 0 1 false in (f, scale, r, negb (length r =? length l'))
  | _ => (0%Z, 1%Z, l, false)
  end.

(** One number with its unit: the nanoseconds and the rest. *)
Definition one_unit (l : list ascii) : option (Z * list ascii) :=
  match l with
  | [] => None
  | c :: _ =>
      if negb (is_number_char c) then None else
      '(v, l1) ← leadingInt l 0;
      let pre := negb (length l1 =? length l) in
      let '(f, scale, l2, post) := point_part l1 in
      if negb pre && negb post then None else
      let '(u, rest) := unit_text l2 in
      if decide (u = []) then None else
      unit ← unitMap (string_of_list u);
      if (2 ^ 63 / unit <? v)%Z then None else
      let v := (v * unit + if (0 <? f)%Z then fraction f unit scale else 0)%Z in
      if (2 ^ 63 <? v)%Z then None else Some (v, rest)
  end.

(** Every round consumes a character at least. *)
Fixpoint units (fuel : nat) (l : list ascii) (d : Z) : option Z :=
  match l, fuel with
  | [], _ => Some d
  | _, O => None
  | _, S f => '(v, rest) ← one_unit l; if (2 ^ 63 <? d + v)%Z then None else units f rest (d + v)%Z
  end.

Definition ParseDuration (s : string) : option duration :=
  let '(neg, l) := sign_of (list_of_string s) in
  if decide (l = ["0"%char]) then Some 0%Z
  else if decide (l = []) then None
  else d ← units (length l) l 0;
       if neg : bool then Some (- d)%Z else if (2 ^ 63 - 1 <? d)%Z then None else Some d.

(** ** FlagSet *)
Inductive FlagValue : Type := VString (s : string) | VBool (b : bool) | VInt (n : Z) | VDuration (d : duration).
Definition FlagSet : Type := list (string * FlagValue).

Definition ErrHelp : error := Sentinel "flag: help requested".

Inductive token : Type := NotAFlag | Terminator | BadSyntax | AFlag (name : string) (value : option string).

(** The name and what follows the first equals sign that is not first. *)
Fixpoint cut_equals (first : bool) (l : list ascii) : list ascii * option (list ascii) :=
  match l with
  | [] => ([], None)
  | c :: l' => if negb first && bool_decide (c = "="%char) then ([], Some l')
               else let '(n, v) := cut_equals false l' in (c :: n, v)
  end.

Definition flag_name (l : list ascii) : token :=
  match l with
  | [] | "-"%char :: _ | "="%char :: _ => BadSyntax
  | _ => let '(n, v) := cut_equals true l in AFlag (string_of_list n) (string_of_list <$> v)
  end.

Definition token_of (s : string) : token :=
  match list_of_string s with
  | "-"%char :: "-"%char :: [] => Terminator
  | "-"%char :: "-"%char :: l => flag_name l
  | "-"%char :: c :: l => flag_name (c :: l)
  | _ => NotAFlag
  end.

Fixpoint lookup_flag (fs : FlagSet) (name : string) : option FlagValue :=
  match fs with [] => None | (n, v) :: fs' => if decide (n = name) then Some v else lookup_flag fs' name end.

Fixpoint set_flag (fs : FlagSet) (name : string) (v : FlagValue) : FlagSet :=
  match fs with
  | [] => []
  | (n, v') :: fs' => if decide (n = name) then (n, v) :: fs' else (n, v') :: set_flag fs' name v
  end.

(** [Value.Set]. *)
Definition Set_value (old : FlagValue) (text : string) : option FlagValue :=
  match old with
  | VString _ => Some (VString text)
  | VBool _ => VBool <$> ParseBool text
  | VInt _ => VInt <$> ParseInt0 text
  | VDuration _ => VDuration <$> ParseDuration text
  end.

Fixpoint Parse (args : list string) (fs : FlagSet) : res (FlagSet * list string) :=
  match args with
  | [] => Ok (fs, [])
  | s :: args' =>
      match token_of s with
      | NotAFlag => Ok (fs, args)
      | Terminator => Ok (fs, args')
      | BadSyntax => Err (Errorf "bad flag syntax")
      | AFlag name value =>
          match lookup_flag fs name with
          | None => Err (if decide (name = "help" \/ name = "h") then ErrHelp else Errorf "flag provided but not defined")
          | Some old =>
              let set text := match Set_value old text with
                              | Some v => Ok (set_flag fs name v)
                              | None => Err (Errorf "invalid value for flag")
                              end in
              match old, value with
              | VBool _, _ => match set (default "true" value) with Ok fs => Parse args' fs | Err e => Err e end
              | _, Some text => match set text with Ok fs => Parse args' fs | Err e => Err e end
              | _, None =>
                  match args' with
                  | [] => Err (Errorf "flag needs an argument")
                  | text :: args'' => match set text with Ok fs => Parse args'' fs | Err e => Err e end
                  end
              end
          end
      end
  end.
End durations.

Definition getS (fs : FlagSet) (name : string) : string := match lookup_flag fs name with Some (VString s) => s | _ => "" end.
Definition getB (fs : FlagSet) (name : string) : bool := match lookup_flag fs name with Some (VBool b) => b | _ => false end.
Definition getI (fs : FlagSet) (name : string) : Z := match lookup_flag fs name with Some (VInt n) => n | _ => 0%Z end.
Definition getD (fs : FlagSet) (name : string) : duration := match lookup_flag fs name with Some (VDuration d) => d | _ => 0%Z end.

(** ** The commands *)
Inductive Command : Type :=
  | CRunList (pkg : string) (limit : Z)
  | CRunShow (run_id : string)
  | CDeviationList (pkg sev run_id : string) (limit : Z)
  | CDeviationShow (id : string)
  | CBaselineList (pkg : string)
  | CBaselinePromote (run_id : string)
  | CPackageList
  | CPackageWatched
  | CPackageAdd (orchestrator runner : string) (skipScan skipValidate : bool) (duration : duration) (name : string)
  | CPackageRemove (name : string)
  | CReleaseList (pkg : string) (limit : Z)
  | CNotifierList
  | CNotifierAdd (name url tmpl secretEnv minSev headers : string) (enabled : bool)
  | CNotifierRemove (name : string)
  | CNotifierTest (name : string)
  | CNotifierHistory (run : string)
  | CAllowList (pkg : string)
  | CAllowAdd (kind value pkg note : string)
  | CAllowRemove (prefix : string)
  | CScanSubmit (pkg version orchestrator runner : string) (duration : duration) (skipValidate : bool)
  | CPending (pkg minSev : string) (limit : Z)
  | CHelp.

Section commands.
Context (fraction : Z -> Z -> Z -> Z).
Let Parse := Parse fraction.

Definition default_orchestrator : string := "http://127.0.0.1:8443".

(** A subcommand that takes its first argument as it is. *)
Definition first_arg (missing : string) (args : list string) (c : string -> Command) : res Command :=
  match args with [] => Err (Errorf missing) | x :: _ => Ok (c x) end.

(** A subcommand that parses flags and ignores what is left. *)
Definition with_flags (fs : FlagSet) (args : list string) (c : FlagSet -> res Command) : res Command :=
  match Parse args fs with Err e => Err e | Ok (fs, _) => c fs end.

Definition runCmd (args : list string) : res Command :=
  match args with
  | [] => Err (Errorf "run: missing subcommand (list|show)")
  | sub :: args =>
      if decide (sub = "list") then
        with_flags [("package", VString ""); ("limit", VInt 50)] args
          (fun fs => Ok (CRunList (getS fs "package") (getI fs "limit")))
      else if decide (sub = "show") then first_arg "run show: missing run_id argument" args CRunShow
      else Err (Errorf "run: unknown subcommand")
  end.

Definition deviationCmd (args : list string) : res Command :=
  match args with
  | [] => Err (Errorf "deviation: missing subcommand (list|show)")
  | sub :: args =>
      if decide (sub = "list") then
        with_flags [("package", VString ""); ("severity", VString ""); ("run-id", VString ""); ("limit", VInt 50)] args
          (fun fs => Ok (CDeviationList (getS fs "package") (getS fs "severity") (getS fs "run-id") (getI fs "limit")))
      else if decide (sub = "show") then first_arg "deviation show: missing deviation_id argument" args CDeviationShow
      else Err (Errorf "deviation: unknown subcommand")
  end.

Definition baselineCmd (args : list string) : res Command :=
  match args with
  | [] => Err (Errorf "baseline: missing subcommand (list|promote)")
  | sub :: args =>
      if decide (sub = "list") then
        with_flags [("package", VString "")] args (fun fs => Ok (CBaselineList (getS fs "package")))
      else if decide (sub = "promote") then first_arg "baseline promote: missing run_id argument" args CBaselinePromote
      else Err (Errorf "baseline: unknown subcommand")
  end.

Definition packageAdd (args : list string) : res Command :=
  match Parse args [("orchestrator", VString default_orchestrator); ("runner", VString "");
                    ("skip-initial-scan", VBool false); ("skip-registry-validate", VBool false);
                    ("duration", VDuration Minute)] with
  | Err e => Err e
  | Ok (fs, posArgs) =>
      first_arg "package add: missing package name" posArgs
        (CPackageAdd (getS fs "orchestrator") (getS fs "runner") (getB fs "skip-initial-scan")
           (getB fs "skip-registry-validate") (getD fs "duration"))
  end.

Definition packageCmd (args : list string) : res Command :=
  match args with
  | [] => Err (Errorf "package: missing subcommand (list|add|remove|watched)")
  | sub :: args =>
      if decide (sub = "list") then Ok CPackageList
      else if decide (sub = "add") then packageAdd args
      else if decide (sub = "remove" \/ sub = "rm") then first_arg "package remove: missing package name" args CPackageRemove
      else if decide (sub = "watched") then Ok CPackageWatched
      else Err (Errorf "package: unknown subcommand")
  end.

Definition releaseCmd (args : list string) : res Command :=
  match args with
  | [] => Err (Errorf "release: missing subcommand (list)")
  | sub :: args =>
      if decide (sub = "list") then
        with_flags [("package", VString ""); ("limit", VInt 50)] args
          (fun fs => Ok (CReleaseList (getS fs "package") (getI fs "limit")))
      else Err (Errorf "release: unknown subcommand")
  end.

Definition notifierAdd (args : list string) : res Command :=
  with_flags [("name", VString ""); ("url", VString ""); ("template", VString "generic"); ("secret-env", VString "");
              ("min-severity", VString ""); ("headers", VString ""); ("enabled", VBool true)] args
    (fun fs => Ok (CNotifierAdd (getS fs "name") (getS fs "url") (getS fs "template") (getS fs "secret-env")
                     (getS fs "min-severity") (getS fs "headers") (getB fs "enabled"))).
Definition notifierHistory (args : list string) : res Command :=
  with_flags [("run", VString "")] args (fun fs => Ok (CNotifierHistory (getS fs "run"))).

Definition notifierCmd (args : list string) : res Command :=
  match args with
  | [] => Err (Errorf "notifier: expected subcommand (list|add|remove|test|history)")
  | sub :: args =>
      if decide (sub = "list") then Ok CNotifierList
      else if decide (sub = "add") then notifierAdd args
      else if decide (sub = "remove" \/ sub = "rm") then first_arg "notifier remove: expected <name>" args CNotifierRemove
      else if decide (sub = "test") then first_arg "notifier test: expected <name>" args CNotifierTest
      else if decide (sub = "history") then notifierHistory args
      else Err (Errorf "notifier: unknown subcommand")
  end.

Definition allowAdd (args : list string) : res Command :=
  with_flags [("kind", VString ""); ("value", VString ""); ("package", VString ""); ("note", VString "")] args
    (fun fs => Ok (CAllowAdd (getS fs "kind") (getS fs "value") (getS fs "package") (getS fs "note"))).

Definition allowCmd (args : list string) : res Command :=
  match args with
  | [] => Err (Errorf "allow: expected subcommand (list|add|remove)")
  | sub :: args =>
      if decide (sub = "list") then
        with_flags [("package", VString "")] args (fun fs => Ok (CAllowList (getS fs "package")))
      else if decide (sub = "add") then allowAdd args
      else if decide (sub = "remove" \/ sub = "rm") then first_arg "allow remove: expected <id_prefix>" args CAllowRemove
      else Err (Errorf "allow: unknown subcommand")
  end.

Definition scanCmd (args : list string) : res Command :=
  match args with
  | [] => Err (Errorf "scan: expected subcommand (submit)")
  | sub :: args =>
      if decide (sub = "submit") then
        with_flags [("package", VString ""); ("version", VString ""); ("orchestrator", VString default_orchestrator);
                    ("runner", VString ""); ("duration", VDuration Minute); ("skip-registry-validate", VBool false)] args
          (fun fs => Ok (CScanSubmit (getS fs "package") (getS fs "version") (getS fs "orchestrator") (getS fs "runner")
                           (getD fs "duration") (getB fs "skip-registry-validate")))
      else Err (Errorf "scan: unknown subcommand")
  end.

Definition pendingCmd (args : list string) : res Command :=
  with_flags [("package", VString ""); ("min-severity", VString ""); ("limit", VInt 0)] args
    (fun fs => Ok (CPending (getS fs "package") (getS fs "min-severity") (getI fs "limit"))).

(** The switch of [Run] on the first argument. *)
Definition command (sub : string) (args : list string) : res Command :=
  if decide (sub = "run") then runCmd args
  else if decide (sub = "deviation") then deviationCmd args
  else if decide (sub = "baseline") then baselineCmd args
  else if decide (sub = "package") then packageCmd args
  else if decide (sub = "release") then releaseCmd args
  else if decide (sub = "notifier") then notifierCmd args
  else if decide (sub = "allow") then allowCmd args
  else if decide (sub = "scan") then scanCmd args
  else if decide (sub = "pending") then pendingCmd args
  else if decide (sub = "help" \/ sub = "-h" \/ sub = "--help") then Ok CHelp
  else Err (Errorf "unknown subcommand").

(** ** Run *)
Record Globals : Type := mkGlobals { g_storage : string; g_sqlite_path : string; g_postgres_dsn : string; g_json : bool }.

Definition global_flags : FlagSet :=
  [("storage", VString "sqlite"); ("sqlite-path", VString "var/lib/fangs/fangs.db"); ("postgres-dsn", VString "");
   ("json", VBool false)].

Definition globals_of (fs : FlagSet) : Globals :=
  mkGlobals (getS fs "storage") (getS fs "sqlite-path") (getS fs "postgres-dsn") (getB fs "json").

(** A command on the store: what it writes to standard output, its error and
    the store it leaves. *)
Definition Action (S : Type) : Type := S -> list Print.Out * res unit * S.

Section run.
Context {S : Type} (openStore : Globals -> res S) (perform : Globals -> Command -> Action S).

(** Standard output, the error returned and the store as it was closed, [None]
    when it was not opened. *)
Definition Run (args : list string) : list Print.Out * res unit * option S :=
  match Parse args global_flags with
  | Err e => ([], if errors_Is e ErrHelp then Ok tt else Err e, None)
  | Ok (_, []) => ([], Err (Errorf "no subcommand provided"), None)
  | Ok (fs, sub :: rest) =>
      let g := globals_of fs in
      match openStore g with
      | Err e => ([], Err (Wrapf "storage" e), None)
      | Ok s =>
          match command sub rest with
          | Err e => ([], Err e, Some s)
          | Ok c => let '(out, r, s) := perform g c s in (out, r, Some s)
          end
      end
  end.

(** The exit status. *)
Definition main (args : list string) : Z := if is_Ok (Run args).1.2 then 0 else 1.
End run.
End commands.

(** ** Carrying a command out

    The commands of Cli.v over a backend, printed by Print.v. *)
(** What a command takes from outside the store: the order of map iteration,
    the registry, the orchestrator (by its URL) and webhooks, the clock before
    and after, a random id, and the renderings of Print.v. *)
Record Env (S : Type) : Type := mkEnv {
  iter : list Fingerprint.Fingerprint -> list Fingerprint.Fingerprint;
  pending_iter : list Pending.pendingRow -> list Pending.pendingRow;
  resolve : string -> string -> res Watcher.PackageVersion;
  scans : string -> string * Job -> M S Api.Response;
  post : string -> json * string -> res Z;
  headers_ok : string -> bool;
  hostname : string;
  now : time;
  now' : time;
  id_ : string;
  zone : time -> duration;
  quote : string -> string;
  Error : error -> string;
  indent : json -> string;
  raw : EventRow -> string
}.
Arguments mkEnv {S}. Arguments iter {S}. Arguments pending_iter {S}. Arguments resolve {S}. Arguments scans {S}.
Arguments post {S}. Arguments headers_ok {S}. Arguments hostname {S}. Arguments now {S}. Arguments now' {S}.
Arguments id_ {S}. Arguments zone {S}. Arguments quote {S}. Arguments Error {S}. Arguments indent {S}. Arguments raw {S}.

Section perform.
Context {S : Type} `{Backend S} (env : Env S).

(** Run the command and print its result. *)
Definition report {A} (m : M S A) (out : A -> res Print.Out) : Action S := fun s =>
  match m s with
  | (Err e, s) => ([], Err e, s)
  | (Ok a, s) => match out a with Ok o => ([o], Ok tt, s) | Err e => ([], Err e, s) end
  end.
Definition prints {A} (m : M S A) (out : A -> Print.Out) : Action S := report m (fun a => Ok (out a)).

(** The status is printed before it is judged. *)
Definition notifierTest (name : string) : Action S := fun s =>
  match Cli.notifierPost (post env) name s with
  | (Err e, s) => ([], Err e, s)
  | (Ok p, s) => ([Print.notifierTest p],
                  if Cli.accepted p.2 then Ok tt else Err (Errorf "test notification rejected"), s)
  end.

Definition perform (g : Globals) (c : Command) : Action S :=
  let js := g_json g in
  match c with
  | CRunList pkg limit => prints (Cli.runList pkg limit) (Print.runList (zone env) js)
  | CRunShow run_id => prints (Cli.runShow run_id) (Print.runShow (zone env) js)
  | CDeviationList pkg sev run_id limit =>
      prints (Cli.deviationList pkg sev run_id limit) (Print.deviationList (zone env) js)
  | CDeviationShow id => report (Cli.deviationShow id) (Print.deviationShow (zone env) (Error env) (indent env) (raw env) js)
  | CBaselineList pkg => prints (Cli.baselineList pkg) (Print.baselineList js)
  | CBaselinePromote run_id => prints (Cli.baselinePromote (iter env) run_id) (Print.baselinePromote js)
  | CPackageList => prints Cli.packageList (Print.packageList js)
  | CPackageWatched => prints Cli.packageWatched (Print.packageWatched (zone env) js)
  | CPackageAdd orchestrator runner skipScan skipValidate duration name =>
      prints (Cli.packageAdd (resolve env) (scans env orchestrator) (now env) (now' env) (hostname env) runner name duration skipScan skipValidate)
        (Print.packageAdd (quote env) js orchestrator name skipScan)
  | CPackageRemove name => prints (Cli.packageRemove name) (fun _ => Print.packageRemove (quote env) js name)
  | CReleaseList pkg limit => prints (Cli.releaseList pkg limit) (Print.releaseList (zone env) js)
  | CNotifierList => prints Cli.notifierList (Print.notifierList (zone env) js)
  | CNotifierAdd name url tmpl secretEnv minSev headers enabled =>
      prints (Cli.notifierAdd (headers_ok env) (now env) name url tmpl secretEnv minSev headers enabled)
        (fun _ => Print.notifierAdd (quote env) name)
  | CNotifierRemove name => prints (Cli.notifierRemove name) (fun _ => Print.notifierRemove (quote env) name)
  | CNotifierTest name => notifierTest name
  | CNotifierHistory run => prints (Cli.notifierHistory run) (fun p => Print.notifierHistory (zone env) js p.1 p.2)
  | CAllowList pkg => prints (Cli.allowList pkg) (Print.allowList (zone env) js (bool_decide (pkg <> "")))
  | CAllowAdd kind value pkg note => prints (Cli.allowAdd (now env) (id_ env) kind value pkg note) Print.allowAdd
  | CAllowRemove prefix => prints (Cli.allowRemove prefix) Print.allowRemove
  | CScanSubmit pkg version orchestrator runner duration skipValidate =>
      prints (Cli.scanSubmit (resolve env) (scans env orchestrator) (hostname env) runner pkg version duration skipValidate)
        (Print.reportSubmit js orchestrator pkg version)
  | CPending pkg minSev limit =>
      prints (Pending.pendingCmd (pending_iter env) pkg minSev limit) (Print.pendingCmd (zone env) js (now' env))
  | CHelp => prints (mret tt) (fun _ => Print.Text Print.usage)
  end.
End perform.

(** ** Rendering a command line *)
Definition show_value (v : FlagValue) : string :=
  match v with
  | VString s => s
  | VBool b => if b then "true" else "false"
  | VInt n => decimal n
  | VDuration d => decimal d +:+ "ns"
  end.

Definition show_flag (f : string * FlagValue) : string := "-" +:+ f.1 +:+ "=" +:+ show_value f.2.

Definition show_globals (g : Globals) : FlagSet :=
  [("storage", VString (g_storage g)); ("sqlite-path", VString (g_sqlite_path g));
   ("postgres-dsn", VString (g_postgres_dsn g)); ("json", VBool (g_json g))].

(** The subcommand words, the flags and the arguments. *)
Definition show_command (c : Command) : list string * FlagSet * list string :=
  match c with
  | CRunList pkg limit => (["run"; "list"], [("package", VString pkg); ("limit", VInt limit)], [])
  | CRunShow x => (["run"; "show"], [], [x])
  | CDeviationList pkg sev run_id limit =>
      (["deviation"; "list"],
       [("package", VString pkg); ("severity", VString sev); ("run-id", VString run_id); ("limit", VInt limit)], [])
  | CDeviationShow x => (["deviation"; "show"], [], [x])
  | CBaselineList pkg => (["baseline"; "list"], [("package", VString pkg)], [])
  | CBaselinePromote x => (["baseline"; "promote"], [], [x])
  | CPackageList => (["package"; "list"], [], [])
  | CPackageWatched => (["package"; "watched"], [], [])
  | CPackageAdd orchestrator runner skipScan skipValidate duration name =>
      (["package"; "add"],
       [("orchestrator", VString orchestrator); ("runner", VString runner); ("skip-initial-scan", VBool skipScan);
        ("skip-registry-validate", VBool skipValidate); ("duration", VDuration duration)], ["--"; name])
  | CPackageRemove x => (["package"; "remove"], [], [x])
  | CReleaseList pkg limit => (["release"; "list"], [("package", VString pkg); ("limit", VInt limit)], [])
  | CNotifierList => (["notifier"; "list"], [], [])
  | CNotifierAdd name url tmpl secretEnv minSev headers enabled =>
      (["notifier"; "add"],
       [("name", VString name); ("url", VString url); ("template", VString tmpl); ("secret-env", VString secretEnv);
        ("min-severity", VString minSev); ("headers", VString headers); ("enabled", VBool enabled)], [])
  | CNotifierRemove x => (["notifier"; "remove"], [], [x])
  | CNotifierTest x => (["notifier"; "test"], [], [x])
  | CNotifierHistory run => (["notifier"; "history"], [("run", VString run)], [])
  | CAllowList pkg => (["allow"; "list"], [("package", VString pkg)], [])
  | CAllowAdd kind value pkg note =>
      (["allow"; "add"],
       [("kind", VString kind); ("value", VString value); ("package", VString pkg); ("note", VString note)], [])
  | CAllowRemove x => (["allow"; "remove"], [], [x])
  | CScanSubmit pkg version orchestrator runner duration skipValidate =>
      (["scan"; "submit"],
       [("package", VString pkg); ("version", VString version); ("orchestrator", VString orchestrator);
        ("runner", VString runner); ("duration", VDuration duration); ("skip-registry-validate", VBool skipValidate)], [])
  | CPending pkg minSev limit =>
      (["pending"], [("package", VString pkg); ("min-severity", VString minSev); ("limit", VInt limit)], [])
  | CHelp => (["help"], [], [])
  end.

Definition argv_tail (c : Command) : list string :=
  let '(words, flags, args) := show_command c in words ++ (show_flag <$> flags) ++ args.

Definition argv (g : Globals) (c : Command) : list string := (show_flag <$> show_globals g) ++ argv_tail c.

(** int and time.Duration are 64 bits wide. *)
Definition int64 (z : Z) : Prop := (- 2 ^ 63 <= z < 2 ^ 63)%Z.
Definition valid_value (v : FlagValue) : Prop :=
  match v with VInt z | VDuration z => int64 z | _ => True end.
Definition valid_command (c : Command) : Prop := Forall (fun f => valid_value f.2) (show_command c).1.2.

(** ** Numbers *)
Definition value_from (x : Z) (ds : list Z) : Z := foldl (fun x d => (x * 10 + d)%Z) x ds.
Definition decimal_of (z : Z) (ds : list Z) : Prop :=
  Forall (fun d => 0 <= d < 10)%Z ds /\ value_from 0 ds = z /\ ds <> [] /\ (head ds = Some 0%Z -> ds = [0%Z]).

Lemma dec_aux_digits fuel z acc :
  (0 <= z < 2 ^ Z.of_nat fuel)%Z -> fuel <> 0 ->
  exists ds, list_of_string (dec_aux fuel z acc) = (digit <$> ds) ++ list_of_string acc /\ decimal_of z ds.
Proof.
  revert z acc. induction fuel as [|f IH]; intros z acc Hz Hf; [done|]. cbn [dec_aux].
  pose proof (Z.mod_pos_bound z 10 ltac:(lia)) as Hm. pose proof (Z.div_mod z 10 ltac:(lia)) as Hd.
  destruct (Z.eqb_spec (z `div` 10) 0) as [E|E].
  - exists [(z `mod` 10)%Z]. split; [done|]. repeat split; [by apply Forall_singleton|cbn; lia|done|by intros [= ->]].
  - rewrite Nat2Z.inj_succ, Z.pow_succ_r in Hz by lia.
    destruct f as [|f]; [cbn in Hz; lia|].
    destruct (IH (z `div` 10)%Z (String (digit (z `mod` 10)) acc)) as (ds & Eds & H1 & H2 & H3 & H4); [lia..|].
    exists (ds ++ [(z `mod` 10)%Z]). rewrite Eds, fmap_app, <- app_assoc. split; [done|]. repeat split.
    + apply Forall_app; split; [done|]. by apply Forall_singleton.
    + unfold value_from in *. rewrite foldl_app, H2. cbn. lia.
    + by destruct ds.
    + intros Hh. destruct ds as [|d ds]; [done|]. specialize (H4 Hh) as [= -> ->]. by cbn in H2.
Qed.

Lemma decimal_digits_of z : (0 <= z)%Z -> exists ds, list_of_string (decimal z) = digit <$> ds /\ decimal_of z ds.
Proof.
  intros Hz. unfold decimal. destruct (Z.ltb_spec z 0); [lia|].
  destruct (dec_aux_digits (S (Z.to_nat (Z.log2 z))) z "") as (ds & E & Hds); [|done|].
  - split; [done|]. rewrite Nat2Z.inj_succ, Z2Nat.id by apply Z.log2_nonneg.
    destruct (decide (z = 0%Z)) as [->|]; [done|]. apply Z.log2_spec. lia.
  - exists ds. split; [|done]. rewrite E. apply app_nil_r.
Qed.

Lemma decimal_neg z : (z < 0)%Z -> list_of_string (decimal z) = "-"%char :: list_of_string (decimal (- z)).
Proof. intros Hz. unfold decimal. destruct (Z.ltb_spec z 0), (Z.ltb_spec (- z) 0); (lia || done). Qed.

Lemma digit_cases d (P : Z -> Prop) :
  P 0%Z -> P 1%Z -> P 2%Z -> P 3%Z -> P 4%Z -> P 5%Z -> P 6%Z -> P 7%Z -> P 8%Z -> P 9%Z -> (0 <= d < 10)%Z -> P d.
Proof.
  intros. assert (d = 0 \/ d = 1 \/ d = 2 \/ d = 3 \/ d = 4 \/ d = 5 \/ d = 6 \/ d = 7 \/ d = 8 \/ d = 9)%Z by lia.
  by destruct_or!; subst.
Qed.

Ltac by_digit d := pattern d; apply digit_cases; [done..|done].

Lemma digit36_digit d : (0 <= d < 10)%Z -> digit36 (digit d) = Some d.
Proof. intros Hd. by_digit d. Qed.
Lemma digit_not_under d : (0 <= d < 10)%Z -> digit d <> "_"%char.
Proof. intros Hd. by_digit d. Qed.
Lemma sign_of_digit d l : (0 <= d < 10)%Z -> sign_of (digit d :: l) = (false, digit d :: l).
Proof. intros Hd. by_digit d. Qed.
Lemma base_of_digit d l : (0 <= d < 10)%Z -> d <> 0%Z -> base_of (digit d :: l) = (10%Z, digit d :: l).
Proof. intros Hd Hn. revert Hn. by_digit d. Qed.
Lemma digit_number_char d : (0 <= d < 10)%Z -> is_number_char (digit d) = true.
Proof. intros Hd. by_digit d. Qed.

Lemma digits_val_decimal ds n us :
  Forall (fun d => 0 <= d < 10)%Z ds -> digits_val 10 (digit <$> ds) n us = Some (value_from n ds, us).
Proof.
  intros Hds. revert n. induction Hds as [|d ds Hd Hds IH]; intros n; [done|]. cbn [fmap list_fmap digits_val].
  rewrite decide_False by by apply digit_not_under. rewrite digit36_digit by done. cbn.
  destruct (Z.ltb_spec d 10); [|lia]. apply IH.
Qed.

Lemma ParseUint0_decimal z ds : decimal_of z ds -> ParseUint0 (digit <$> ds) = Some z.
Proof.
  intros (Hr & Hv & Hn & H0). destruct ds as [|d ds]; [done|].
  destruct (decide (d = 0%Z)) as [->|Hd]; [specialize (H0 eq_refl) as [= ->]; by rewrite <- Hv|].
  unfold ParseUint0. change (digit <$> d :: ds) with (digit d :: (digit <$> ds)).
  rewrite base_of_digit by (by inversion Hr || done). change (digit d :: (digit <$> ds)) with (digit <$> d :: ds).
  by rewrite digits_val_decimal, Hv.
Qed.

(** The sign and the digits of a rendered number. *)
Lemma sign_of_decimal z rest :
  exists ds, sign_of (list_of_string (decimal z) ++ rest) = (bool_decide (z < 0)%Z, (digit <$> ds) ++ rest) /\
             decimal_of (Z.abs z) ds.
Proof.
  destruct (decimal_digits_of (Z.abs z)) as (ds & E & Hds); [lia|]. exists ds. split; [|done].
  case_bool_decide as Hz.
  - rewrite decimal_neg by done. replace (- z)%Z with (Z.abs z) by lia. by rewrite E.
  - replace (Z.abs z) with z in E by lia. rewrite E. destruct Hds as (Hr & _ & Hn & _).
    destruct ds as [|d ds]; [done|]. apply sign_of_digit. by inversion Hr.
Qed.

Lemma ParseInt0_decimal z : int64 z -> ParseInt0 (decimal z) = Some z.
Proof.
  intros Hz. unfold ParseInt0. destruct (sign_of_decimal z []) as (ds & E & Hds). rewrite !app_nil_r in E.
  rewrite E. rewrite (ParseUint0_decimal _ _ Hds). cbn [mbind option_bind].
  replace (if bool_decide (z < 0)%Z then (- Z.abs z)%Z else Z.abs z) with z by (case_bool_decide; lia).
  by rewrite decide_True.
Qed.

(** ** Durations *)
Section duration_lemmas.
Context (fraction : Z -> Z -> Z -> Z).

Lemma value_from_le ds x : Forall (fun d => 0 <= d < 10)%Z ds -> (0 <= x)%Z -> (x <= value_from x ds)%Z.
Proof.
  intros Hds. revert x. induction Hds as [|d ds Hd Hds IH]; intros x Hx; [done|]. cbn.
  specialize (IH (x * 10 + d)%Z ltac:(lia)). unfold value_from in IH. lia.
Qed.

Lemma leadingInt_digits ds rest x :
  Forall (fun d => 0 <= d < 10)%Z ds -> (0 <= x)%Z -> (value_from x ds <= 2 ^ 63)%Z ->
  match rest with c :: _ => digit_of c = None | [] => True end ->
  leadingInt ((digit <$> ds) ++ rest) x = Some (value_from x ds, rest).
Proof.
  intros Hds Hx Hv Hr. revert x Hx Hv. induction Hds as [|d ds Hd Hds IH]; intros x Hx Hv; cbn -[Z.div].
  - destruct rest as [|c rest]; [done|]. cbn. by rewrite Hr.
  - rewrite digit_of_digit by done. pose proof (value_from_le ds (x * 10 + d) Hds ltac:(lia)) as Hle.
    cbn in Hv. unfold value_from in *. change (Z.pow_pos 2 63) with (2 ^ 63)%Z in *.
    destruct (Z.ltb_spec (2 ^ 63 / 10) x) as [Hlt|_].
    { exfalso. change (2 ^ 63 / 10)%Z with 922337203685477580%Z in Hlt. lia. }
    destruct (Z.ltb_spec (2 ^ 63) (x * 10 + d)); [lia|]. apply IH; lia.
Qed.

Lemma leadingInt_rest l x v r : leadingInt l x = Some (v, r) -> length r <= length l.
Proof.
  revert x. induction l as [|c l IH]; intros x; cbn -[Z.pow]; [by intros [= _ <-]|].
  destruct (digit_of c) as [d|]; [|intros [= _ <-]; done].
  repeat case_match; try done. intros Hl%IH. lia.
Qed.

Lemma leadingFraction_rest l x sc o : length (leadingFraction l x sc o).2 <= length l.
Proof.
  revert x sc o. induction l as [|c l IH]; intros x sc o; cbn -[Z.pow]; [done|].
  repeat case_match; cbn; first [lia | etrans; [apply IH|lia]].
Qed.

Lemma point_part_rest l : length (point_part l).1.2 <= length l.
Proof.
  destruct l as [|a l]; [done|]. pose proof (leadingFraction_rest l 0 1 false) as Hf.
  destruct a as [[] [] [] [] [] [] [] []]; try (cbn; lia).
  cbn -[leadingFraction]. destruct (leadingFraction l 0 1 false) as [[f sc] r]. cbn in *. lia.
Qed.

Lemma unit_text_length l : length (unit_text l).1 + length (unit_text l).2 = length l.
Proof.
  induction l as [|c l IH]; cbn; [done|]. case_match; [done|]. destruct (unit_text l). cbn in *. lia.
Qed.

Lemma one_unit_consumes l v rest : one_unit fraction l = Some (v, rest) -> length rest < length l.
Proof.
  unfold one_unit. destruct l as [|c l0] eqn:El; [done|]. rewrite <- El. clear El. case_match; [done|].
  destruct (leadingInt l 0) as [[w l1]|] eqn:E1; [|done]. apply leadingInt_rest in E1. cbn [mbind option_bind].
  pose proof (point_part_rest l1) as Hq. destruct (point_part l1) as [[[f sc] l2] post]. cbn in Hq. case_match; [done|].
  pose proof (unit_text_length l2) as Hu. destruct (unit_text l2) as [u r]. cbn in Hu.
  case_decide as Hne; [done|]. destruct (unitMap _) as [unit|]; [|done]. cbn [mbind option_bind].
  intros E2. destruct u; [done|]. cbn in Hu. repeat case_match; simplify_eq; lia.
Qed.

(** The fuel of ParseDuration is enough. *)
Lemma units_fuel f l d : length l <= f -> units fraction f l d = units fraction (length l) l d.
Proof.
  revert l d. induction f as [f IH] using lt_wf_ind. intros l d Hl.
  destruct l as [|c l]; [by destruct f|]. destruct f as [|f]; [cbn in Hl; lia|]. cbn [length units].
  destruct (one_unit fraction (c :: l)) as [[v r]|] eqn:E; [|done]. apply one_unit_consumes in E. cbn in E, Hl.
  cbn [mbind option_bind]. case_match; [done|].
  rewrite (IH f) by lia. destruct (decide (length l = f)) as [->|]; [by rewrite (IH f) by lia|].
  symmetry. apply IH; lia.
Qed.

Lemma one_unit_decimal z ds :
  decimal_of z ds -> (z <= 2 ^ 63)%Z -> one_unit fraction ((digit <$> ds) ++ ["n"%char; "s"%char]) = Some (z, []).
Proof.
  intros (Hr & Hv & Hn & _) Hz. pose proof (value_from_le ds 0 Hr ltac:(done)) as H0.
  pose proof (leadingInt_digits ds ["n"%char; "s"%char] 0 Hr ltac:(done) ltac:(lia) eq_refl) as El.
  rewrite Hv in El, H0. unfold one_unit.
  destruct ds as [|d ds]; [done|]. cbn [fmap list_fmap app] in *. inversion Hr; subst.
  rewrite digit_number_char, El by done. cbn -[Z.pow Z.mul Z.div Nat.eqb].
  rewrite length_app. cbn -[Z.pow Z.mul Z.div Nat.eqb Nat.add].
  destruct (Nat.eqb_spec 2 (S (length (digit <$> ds) + 2))); [lia|].
  cbn -[Z.pow Z.mul Z.div]. change (is_number_char "n"%char) with false. change (is_number_char "s"%char) with false.
  cbn -[Z.pow Z.mul Z.div unitMap]. change (unitMap _) with (Some 1%Z). cbn -[Z.pow Z.mul Z.div].
  change (foldl _ (0 * 10 + d)%Z ds) with (value_from 0 (d :: ds)).
  set (z := value_from 0 (d :: ds)) in *. clearbody z.
  change (2 ^ 63 / 1)%Z with (2 ^ 63)%Z.
  destruct (Z.ltb_spec (2 ^ 63) z); [lia|]. destruct (Z.ltb_spec (2 ^ 63) (z * 1 + 0)); [lia|]. do 2 f_equal. lia.
Qed.

Lemma units_one f l z : one_unit fraction l = Some (z, []) -> (z <= 2 ^ 63)%Z -> f <> 0 -> units fraction f l 0 = Some z.
Proof.
  intros E Hz Hf. destruct l as [|c l], f as [|f]; try done. cbn [units]. rewrite E. cbn [mbind option_bind].
  destruct (Z.ltb_spec (2 ^ 63) (0 + z)); [lia|]. by destruct f.
Qed.

Lemma ParseDuration_decimal z : int64 z -> ParseDuration fraction (decimal z +:+ "ns") = Some z.
Proof.
  intros Hz. unfold ParseDuration. destruct (sign_of_decimal z ["n"%char; "s"%char]) as (ds & E & Hds).
  replace (list_of_string (decimal z +:+ "ns")) with (list_of_string (decimal z) ++ ["n"%char; "s"%char])
    by (by rewrite list_of_string_app).
  rewrite E. set (l := (digit <$> ds) ++ _).
  assert (length l >= 3) as Hl.
  { subst l. rewrite length_app, length_fmap. destruct Hds as (_ & _ & Hn & _). destruct ds; [done|]. cbn. lia. }
  rewrite !decide_False by (intros Hl'; rewrite Hl' in Hl; cbn in Hl; lia). unfold int64 in Hz.
  rewrite (units_one _ _ (Z.abs z)) by (lia || apply (one_unit_decimal _ _ Hds); lia). cbn [mbind option_bind].
  case_bool_decide; [f_equal; lia|]. destruct (Z.ltb_spec (2 ^ 63 - 1) (Z.abs z)); [lia|]. f_equal; lia.
Qed.
End duration_lemmas.

(** ** Flags *)
Section flag_lemmas.
Context (fraction : Z -> Z -> Z -> Z).
Let Parse := Parse fraction.

Definition plain_name (n : string) : bool :=
  match list_of_string n with
  | [] | "-"%char :: _ | "="%char :: _ => false
  | l => bool_decide ("="%char ∉ l)
  end.

Lemma cut_equals_plain b l v :
  "="%char ∉ l -> (b = true -> l <> []) -> cut_equals b (l ++ "="%char :: v) = (l, Some v).
Proof.
  revert b. induction l as [|c l IH]; intros b Hl Hb; cbn.
  - destruct b; [by destruct Hb|done].
  - apply not_elem_of_cons in Hl as [Hc Hl]. rewrite (bool_decide_false (c = _)) by done.
    rewrite andb_false_r, IH by done. done.
Qed.

Lemma flag_name_plain n v :
  plain_name n = true -> flag_name (list_of_string n ++ "="%char :: list_of_string v) = AFlag n (Some v).
Proof.
  unfold plain_name. destruct (list_of_string n) as [|c l] eqn:E; [done|]. intros Hp.
  assert (c <> "-"%char /\ c <> "="%char /\ "="%char ∉ c :: l) as (H1 & H2 & H3).
  { destruct c as [[] [] [] [] [] [] [] []]; first [discriminate Hp | apply bool_decide_eq_true in Hp; done]. }
  assert (flag_name ((c :: l) ++ "="%char :: list_of_string v) =
          let '(n, v) := cut_equals true ((c :: l) ++ "="%char :: list_of_string v) in
          AFlag (string_of_list n) (string_of_list <$> v)) as ->.
  { destruct c as [[] [] [] [] [] [] [] []]; done. }
  rewrite cut_equals_plain by done. rewrite <- E. cbn. by rewrite !string_of_list_of_string.
Qed.

Lemma token_of_flag n v : plain_name n = true -> token_of ("-" +:+ n +:+ "=" +:+ v) = AFlag n (Some v).
Proof.
  intros Hp. rewrite <- (flag_name_plain n v Hp). unfold token_of. rewrite !list_of_string_app.
  unfold plain_name in Hp. destruct (list_of_string n) as [|c l]; [done|].
  destruct c as [[] [] [] [] [] [] [] []]; done.
Qed.

Definition same_kind (old new : FlagValue) : bool :=
  match old, new with
  | VString _, VString _ | VBool _, VBool _ | VInt _, VInt _ | VDuration _, VDuration _ => true
  | _, _ => false
  end.

Lemma Set_value_shown old v :
  same_kind old v = true -> valid_value v -> Set_value fraction old (show_value v) = Some v.
Proof.
  destruct old, v as [text|[]|k|d0]; try done; intros _ Hv; cbn.
  - by rewrite ParseInt0_decimal.
  - by rewrite ParseDuration_decimal.
Qed.

Lemma lookup_flag_at pre n v fs :
  n ∉ pre.*1 -> lookup_flag (pre ++ (n, v) :: fs) n = Some v.
Proof.
  induction pre as [|[m w] pre IH]; cbn; [by rewrite decide_True|].
  intros [Hm Hp]%not_elem_of_cons. rewrite decide_False by done. by apply IH.
Qed.

Lemma set_flag_at pre n v w fs :
  n ∉ pre.*1 -> set_flag (pre ++ (n, v) :: fs) n w = pre ++ (n, w) :: fs.
Proof.
  induction pre as [|[m u] pre IH]; cbn; [by rewrite decide_True|].
  intros [Hm Hp]%not_elem_of_cons. rewrite decide_False by done. by rewrite IH.
Qed.

(** The flags [vs] instead of the defaults [fs]. *)
Definition flags_fit (fs vs : FlagSet) : Prop :=
  Forall2 (fun f v => f.1 = v.1 /\ plain_name v.1 = true /\ same_kind f.2 v.2 = true) fs vs.

Lemma Parse_shown_app pre fs vs rest :
  flags_fit fs vs -> Forall (fun f => valid_value f.2) vs -> NoDup (pre ++ vs).*1 ->
  Parse ((show_flag <$> vs) ++ rest) (pre ++ fs) = Parse rest (pre ++ vs).
Proof.
  intros Hfit. revert pre. induction Hfit as [|[n old] [n' v] fs vs (Hn & Hp & Hk) _ IH]; intros pre Hv Hnd; [done|].
  cbn in Hn, Hp, Hk. subst n'. apply Forall_cons in Hv as [Hv Hvs]. cbn in Hv.
  assert (n ∉ pre.*1) as Hnin.
  { rewrite fmap_app in Hnd. apply NoDup_app in Hnd as (_ & Hd & _). intros Hin. apply (Hd n Hin). left. }
  specialize (IH (pre ++ [(n, v)]) Hvs). rewrite <- !app_assoc in IH. specialize (IH Hnd). cbn [app] in IH.
  rewrite <- IH. cbn [fmap list_fmap app]. subst Parse. unfold show_flag at 1. cbn [fst snd Args.Parse].
  rewrite token_of_flag, lookup_flag_at by done. unfold default, id.
  rewrite (Set_value_shown old v) by done. rewrite set_flag_at by done.
  by destruct old.
Qed.

Lemma Parse_shown fs vs rest :
  flags_fit fs vs -> Forall (fun f => valid_value f.2) vs -> NoDup vs.*1 ->
  Parse ((show_flag <$> vs) ++ rest) fs = Parse rest vs.
Proof. intros. by apply (Parse_shown_app [] fs vs). Qed.

Lemma Parse_stops s args fs : token_of s = NotAFlag -> Parse (s :: args) fs = Ok (fs, s :: args).
Proof. intros Hs. subst Parse. cbn [Args.Parse]. by rewrite Hs. Qed.
End flag_lemmas.

(** ** The round trip *)
Ltac fits := repeat (constructor; [by repeat split|]); by constructor.
Ltac distinct := apply (bool_decide_unpack _); vm_compute; exact I.

Lemma with_flags_shown fraction fs vs c :
  flags_fit fs vs -> Forall (fun f => valid_value f.2) vs -> NoDup vs.*1 ->
  with_flags fraction fs ((show_flag <$> vs) ++ []) c = c vs.
Proof. intros. unfold with_flags. by rewrite Parse_shown. Qed.

Lemma packageAdd_shown fraction orchestrator runner skipScan skipValidate duration name :
  Forall (fun f => valid_value f.2) (show_command (CPackageAdd orchestrator runner skipScan skipValidate duration name)).1.2 ->
  packageAdd fraction
    ((show_flag <$> [("orchestrator", VString orchestrator); ("runner", VString runner);
                     ("skip-initial-scan", VBool skipScan); ("skip-registry-validate", VBool skipValidate);
                     ("duration", VDuration duration)]) ++ ["--"; name]) =
  Ok (CPackageAdd orchestrator runner skipScan skipValidate duration name).
Proof.
  intros Hv. unfold packageAdd. rewrite Parse_shown; [reflexivity|fits|exact Hv|distinct].
Qed.

Lemma command_shown fraction c :
  valid_command c ->
  exists sub args, argv_tail c = sub :: args /\ token_of sub = NotAFlag /\ command fraction sub args = Ok c.
Proof.
  unfold valid_command, argv_tail.
  destruct c; cbn [show_command fst snd app]; intros Hv; (do 2 eexists; split; [reflexivity|]; split; [reflexivity|]);
    first [ reflexivity
          | refine (eq_trans (with_flags_shown _ _ _ _ _ Hv _) _); [fits|distinct|reflexivity]
          | exact (packageAdd_shown _ _ _ _ _ _ _ Hv) ].
Qed.

(** C40: every command an operator can mean has a command line that the tool
    reads as that command: after the global flags, the subcommand and its
    flags rendered as "-name=value" (durations in nanoseconds, and "--" before
    the package of [package add]), [Run] opens the store those globals select
    and carries out exactly that command on it, returning its output, its error and
    the store it leaves; the only requirement is that counts and durations fit in
    64 bits. *)
Theorem command_line_roundtrip fraction {S} (openStore : Globals -> res S) (perform : Globals -> Command -> Action S) g c :
  valid_command c ->
  Run fraction openStore perform (argv g c) =
  match openStore g with
  | Err e => ([], Err (Wrapf "storage" e), None)
  | Ok s => let '(out, r, s') := perform g c s in (out, r, Some s')
  end.
Proof.
  intros Hc. destruct (command_shown fraction c Hc) as (sub & args & E & Ht & Hcmd).
  unfold Run, argv. rewrite E, Parse_shown; [|fits| |distinct].
  - rewrite Parse_stops by done. rewrite Hcmd. by destruct g.
  - repeat (apply Forall_cons_2; [done|]). apply Forall_nil_2.
Qed.

(** ** Commands that only look *)
Definition looks (c : Command) : bool :=
  match c with
  | CRunList _ _ | CRunShow _ | CDeviationList _ _ _ _ | CDeviationShow _ | CBaselineList _ | CPackageList
  | CPackageWatched | CReleaseList _ _ | CNotifierList | CNotifierTest _ | CNotifierHistory _ | CAllowList _
  | CPending _ _ _ | CHelp => true
  | _ => false
  end.

Section looking.
Notation DB := Sqlite.Sqlite.DB.
Definition reads_only {A} (m : M DB A) : Prop := forall d, (m d).2 = d.

Lemma reads_ret {A} (a : A) : reads_only (mret a).
Proof. done. Qed.
Lemma reads_fail {A} e : reads_only (@fail DB A e).
Proof. done. Qed.
Lemma reads_bind {A B} (m : M DB A) (f : A -> M DB B) :
  reads_only m -> (forall a, reads_only (f a)) -> reads_only (m ≫= f).
Proof.
  intros Hm Hf d. specialize (Hm d). unfold mbind, M_bind. destruct (m d) as [[a|e] d'], Hm; [apply Hf|done].
Qed.
Lemma reads_attempt {A} (m : M DB A) : reads_only m -> reads_only (attempt m).
Proof. intros Hm d. specialize (Hm d). unfold attempt. by destruct (m d). Qed.

Lemma GetRun_reads id : reads_only (GetRun id).
Proof. intros d. unfold GetRun, SqliteSpec.SqliteSpec.sqlite_backend, Sqlite.Sqlite.GetRun. by case_match. Qed.

Lemma group_reads devs d : (Pending.group devs d).2 = d.
Proof.
  unfold Pending.group. generalize (∅ : gmap string Pending.pendingRow). induction devs as [|x devs IH]; intros rows; [done|].
  cbn [foldl]. unfold Pending.group_dev at 2. destruct (rows !! _); [apply IH|].
  pose proof (GetRun_reads (Dev_RunID x) d) as Hr. destruct (GetRun (Dev_RunID x) d) as [[run|e] d']; cbn in Hr; subst d'.
  - destruct (Run_IsBaseline run); apply IH.
  - apply IH.
Qed.

Lemma GetEvent_reads id : reads_only (GetEvent id).
Proof. intros d. unfold GetEvent, SqliteSpec.SqliteSpec.sqlite_backend, Sqlite.Sqlite.GetEvent. by case_match. Qed.

Lemma GetNotifier_reads name : reads_only (GetNotifier name).
Proof. intros d. unfold GetNotifier, SqliteSpec.SqliteSpec.sqlite_backend, Sqlite.Sqlite.GetNotifier. by case_match. Qed.

Lemma ResolveRunPrefix_reads p : reads_only (ResolveRunPrefix p).
Proof. done. Qed.

Lemma notifierPost_reads post name : reads_only (Cli.notifierPost post name).
Proof.
  intros d. unfold Cli.notifierPost. pose proof (GetNotifier_reads name d) as Hr.
  by destruct (GetNotifier name d) as [[t|e] d'].
Qed.

Lemma notifierHistory_reads run : reads_only (Cli.notifierHistory run).
Proof.
  intros d. unfold Cli.notifierHistory. case_decide; [done|]. pose proof (GetRun_reads run d) as Hr.
  destruct (GetRun run d) as [r d']. cbn in Hr. subst d'.
  assert (forall q : res Storage.Run * DB, q.2 = d ->
    (let '(r, s) := q in match r with Err e => (Err e, s) | Ok x => (rows ← ListNotificationsByRun (Run_ID x); mret (x, rows)) s end).2 = d) as Hq.
  { intros [[x|e] d'] Hd; cbn in Hd; subst; done. }
  apply Hq. destruct r as [x|e]; [done|]. destruct (errors_Is _ _); [apply ResolveRunPrefix_reads|done].
Qed.

Lemma pendingCmd_reads iter pkg minSev limit : reads_only (Pending.pendingCmd iter pkg minSev limit).
Proof.
  intros d. unfold Pending.pendingCmd. change (ListDeviationsFiltered ?f d) with (Sqlite.Sqlite.ListDeviationsFiltered f d).
  unfold Sqlite.Sqlite.ListDeviationsFiltered. match goal with |- context [Pending.group ?l d] => set (devs := l) end.
  pose proof (group_reads devs d) as Hg. by destruct (Pending.group devs d).
Qed.

Lemma report_reads {A} (m : M DB A) out d : reads_only m -> (report m out d).2 = d.
Proof.
  intros Hm. specialize (Hm d). unfold report. destruct (m d) as [[a|e] d'], Hm; [|done]. by destruct (out a).
Qed.

Lemma test_reads env name d : (notifierTest env name d).2 = d.
Proof.
  unfold notifierTest. pose proof (notifierPost_reads (post env) name d) as Hr.
  by destruct (Cli.notifierPost _ _ _) as [[p|e] d'].
Qed.

Ltac reads :=
  repeat first [ apply reads_ret | apply reads_fail | apply GetRun_reads | apply GetEvent_reads | apply test_reads
               | apply notifierHistory_reads | apply pendingCmd_reads | apply report_reads
               | apply reads_attempt | apply reads_bind; [|intros ?] | case_decide | (intros ?; reflexivity) ].

Lemma perform_looks env g c d : looks c = true -> (perform env g c d).2 = d.
Proof.
  intros Hc. destruct c; try discriminate Hc; unfold perform, prints, Cli.runList, Cli.runShow, Cli.deviationList,
    Cli.deviationShow, Cli.baselineList, Cli.packageList, Cli.packageWatched, Cli.releaseList, Cli.notifierList, Cli.allowList;
    reads.
Qed.

(** a command that only looks - the lists, show, history, the pending
    queue, a notifier test, help - leaves the SQLite database exactly as it
    was opened, whatever the command line that selects it and on every path:
    rows missing, prefixes ambiguous, a required flag absent, the webhook
    refusing. *)
Theorem looking_changes_nothing fraction openStore env args flags sub rest c d :
  Parse fraction args global_flags = Ok (flags, sub :: rest) ->
  command fraction sub rest = Ok c -> looks c = true ->
  openStore (globals_of flags) = Ok d ->
  (Run fraction openStore (perform env) args).2 = Some d.
Proof.
  intros Hp Hc Hl Ho. unfold Run. rewrite Hp, Ho, Hc.
  pose proof (perform_looks env (globals_of flags) c d Hl) as Hr.
  destruct (perform env _ c d) as [[out r] d']. cbn in *. by subst.
Qed.
End looking.

(** ** What the library's conventions do to the tool *)

(** Flags after the package's name are not read. *)
Lemma packageAdd_ignores fraction name rest :
  token_of name = NotAFlag ->
  packageAdd fraction (name :: rest) = Ok (CPackageAdd default_orchestrator "" false false Minute name).
Proof. intros Hn. unfold packageAdd. by rewrite Parse_stops. Qed.

(** "fangs help" opens the store; "fangs -h" does not. *)
Lemma help_opens_store fraction {S} (openStore : Globals -> res S) (perform : Globals -> Command -> Action S) e rest :
  openStore (globals_of global_flags) = Err e ->
  Run fraction openStore perform ("help" :: rest) = ([], Err (Wrapf "storage" e), None) /\
  Run fraction openStore perform ["-h"] = ([], Ok tt, None).
Proof. intros He. unfold Run. rewrite Parse_stops by done. by rewrite He. Qed.

(** "-h" after a subcommand is reported as a failure. *)
Lemma subcommand_help_fails fraction {S} (openStore : Globals -> res S) (perform : Globals -> Command -> Action S) s :
  openStore (globals_of global_flags) = Ok s ->
  main fraction openStore perform ["run"; "list"; "-h"] = 1%Z /\ main fraction openStore perform ["-h"] = 0%Z.
Proof. intros Hs. unfold main, Run. rewrite Parse_stops by done. rewrite Hs. done. Qed.

(** ** Concrete command lines *)
Definition wit_fraction (f unit scale : Z) : Z := (f * unit / scale)%Z.
Definition wit_open (g : Globals) : res Sqlite.Sqlite.DB :=
  if decide (g_storage g = "sqlite") then Ok Sqlite.Sqlite.empty_db else Err (Errorf "unknown -storage").

Example durations_parse :
  ParseDuration wit_fraction <$> ["90s"; "1h30m"; "1.5s"; "-2ms"; "0"; "5"; "1x"; ""; ".s"] =
  [Some (90 * Second)%Z; Some (90 * Minute)%Z; Some (1500 * Millisecond)%Z; Some (- (2 * Millisecond))%Z; Some 0%Z;
   None; None; None; None].
Proof. vm_compute. reflexivity. Qed.

Example ints_parse :
  ParseInt0 <$> ["50"; "-1"; "0x1F"; "010"; "1_000"; "_1"; "0b2"; "9223372036854775807"; "9223372036854775808"; ""] =
  [Some 50%Z; Some (-1)%Z; Some 31%Z; Some 8%Z; Some 1000%Z; None; None; Some 9223372036854775807%Z; None; None].
Proof. vm_compute. reflexivity. Qed.

Definition wit_env : Env Sqlite.Sqlite.DB :=
  mkEnv id id (fun _ _ => Err (Errorf "offline")) (fun _ _ => fail (Errorf "offline")) (fun _ _ => Err (Errorf "offline"))
    (fun _ => true) "host" 7%Z 8%Z "a1" (fun _ => 0%Z) id (fun _ => "error") (fun _ => "{}") (fun _ => "").
Definition wit_perform : Globals -> Command -> Action Sqlite.Sqlite.DB := perform wit_env.

Lemma command_line_roundtrip_witness :
  let g := mkGlobals "sqlite" "f.db" "" true in
  let c := CAllowAdd "sni" "a=b" "" "-x" in
  argv g c = ["-storage=sqlite"; "-sqlite-path=f.db"; "-postgres-dsn="; "-json=true";
              "allow"; "add"; "-kind=sni"; "-value=a=b"; "-package="; "-note=-x"] /\
  exists d, Run wit_fraction wit_open wit_perform (argv g c) =
              ([Print.Text (Tabwriter.Fprintln "added global sni allowlist entry a1 — a=b")], Ok tt, Some d) /\
            Sqlite.Sqlite.allowlists d = [mkAllowEntry "a1" AllowScopeGlobal "" "sni" "a=b" "-x" 7%Z].
Proof.
  split; [reflexivity|]. eexists. split.
  - rewrite (command_line_roundtrip wit_fraction wit_open wit_perform (mkGlobals "sqlite" "f.db" "" true)
               (CAllowAdd "sni" "a=b" "" "-x")); [reflexivity|].
    repeat (apply Forall_cons_2; [done|]). apply Forall_nil_2.
  - reflexivity.
Defined.

Lemma looking_changes_nothing_witness :
  let args := ["-json"; "notifier"; "history"; "--run"; "r1"] in
  let d := Sqlite.Sqlite.set_runs [SqliteSpec.SqliteSpec.wit_run] Sqlite.Sqlite.empty_db in
  (Run wit_fraction (fun _ => Ok d) wit_perform args).2 = Some d /\ Sqlite.Sqlite.runs d <> [].
Proof.
  split; [|done].
  eapply (looking_changes_nothing wit_fraction (fun _ => Ok _) wit_env); reflexivity.
Defined.
End Args.
