(* ===== verification/Triage.v ===== *)
(** * Triage from the command line

    The pending queue, the command it prints for each row, and what that
    command does to the queue: [fangs pending] and [fangs baseline promote]
    through [Run] of cmd/fangs-cli/internal/cli, from the words of a command
    line to its standard output, over the SQLite backend. *)
From Stdlib Require Import Ascii.
From stdpp Require Import prelude strings gmap list sorting.
From S2P Require Import Prelude GoTime Json Sql Storage Sqlite SqliteSpec Fingerprint Differ Pending Cli Tabwriter Print Args.

Module Triage.
Import Pending.Pending Cli.
Import (hints) SqliteSpec.SqliteSpec.
Import (hints) Sqlite.Sqlite.
Notation DB := Sqlite.DB.

(** ** Rows are determined by their deviations *)
Lemma rank_inj s t :
  0 < pendingSeverityRank s -> pendingSeverityRank s = pendingSeverityRank t -> s = t.
Proof. unfold pendingSeverityRank. repeat case_decide; subst; intros; congruence || lia. Qed.

Lemma row_of_det run ds ds' row row' :
  ds ≡ₚ ds' -> row_of run ds row -> row_of run ds' row' -> row = row'.
Proof.
  intros Hp [A1 A2 A3 A4 A5 A6 A7] [B1 B2 B3 B4 B5 B6 B7].
  rewrite <- Hp in B2, B4, B5, B7. setoid_rewrite <- Hp in B3. setoid_rewrite <- Hp in B6.
  apply list_elem_of_fmap in A4 as (a & Ea & Ha), A5 as (b & Eb & Hb), B4 as (a' & Ea' & Ha'), B5 as (b' & Eb' & Hb').
  pose proof (A3 _ Ha') as P1. pose proof (A3 _ Hb') as P2. pose proof (B3 _ Ha) as P3. pose proof (B3 _ Hb) as P4.
  assert (Pn_MaxSeverity row = Pn_MaxSeverity row') as Hs.
  { assert (forall x y : pendingRow, (Pn_MaxSeverity x = "" \/ (0 < pendingSeverityRank (Pn_MaxSeverity x) /\ Pn_MaxSeverity x ∈ Dev_Severity <$> ds)) ->
       (forall d, d ∈ ds -> pendingSeverityRank (Dev_Severity d) <= pendingSeverityRank (Pn_MaxSeverity y)) ->
       pendingSeverityRank (Pn_MaxSeverity x) <= pendingSeverityRank (Pn_MaxSeverity y)) as Hle.
    { intros x y [->|[_ Hx]] Hy; [change (pendingSeverityRank "") with 0; lia|].
      apply list_elem_of_fmap in Hx as (dv & -> & Hx). by apply Hy. }
    pose proof (Hle row row' A7 B6) as L1. pose proof (Hle row' row B7 A6) as L2.
    destruct A7 as [E|[Hpos _]]; [|apply rank_inj; lia].
    destruct B7 as [E'|[Hpos _]]; [congruence|]. symmetry. apply rank_inj; lia. }
  destruct row, row'. simpl in *. f_equal; congruence || lia.
Qed.

(** ** The queue of a database *)
Section queue.
Context (iter : list pendingRow -> list pendingRow) (Hiter : forall l, iter l ≡ₚ l).

(** What [fangs pending] lists. *)
Definition queue (d : DB) : list pendingRow :=
  sorted_rows iter (filter (fun r => pendingSeverityRank "" <= pendingSeverityRank (Pn_MaxSeverity r))
                      (map_to_list (group (window "" 5000 d) d).1).*2).

Lemma pendingCmd_queue d : pendingCmd iter "" "" 0 d = (Ok (queue d), d).
Proof. rewrite pendingCmd_eq. cbv zeta. by rewrite Args.group_reads. Qed.

(** A database with at most 5000 deviations is seen whole. *)
Definition seen_whole (d : DB) : Prop := length (Sqlite.deviations d) <= 5000.

Lemma window_whole d : SqliteSpec.wf d -> seen_whole d -> window "" 5000 d ≡ₚ Sqlite.deviations d.
Proof.
  intros Hwf Hw. unfold window. rewrite filter_all.
  - unfold limit_to. rewrite firstn_all2; [apply order_by_perm|]. rewrite order_by_perm. exact Hw.
  - eapply Forall_impl; [exact (SqliteSpec.wf_devs_fk _ Hwf)|]. intros dv [Hr _]. unfold Sqlite.dev_selected.
    cbn [DF_PackageName DF_Severity DF_RunID]. rewrite !bool_decide_true by done. cbn [orb andb]. rewrite !andb_true_r.
    apply existsb_exists. apply list_elem_of_fmap in Hr as (r & -> & Hr). exists r. split; [by apply list_elem_of_In|].
    by rewrite bool_decide_true.
Qed.

Lemma queue_elem d row :
  SqliteSpec.wf d -> seen_whole d ->
  row ∈ queue d <-> exists id run ds, awaiting (view d) id run /\ ds ≡ₚ of_run id (Sqlite.deviations d) /\
                     ds <> [] /\ row_of run ds row.
Proof.
  intros Hwf Hw. unfold queue. rewrite (sorted_rows_perm iter _ Hiter), list_elem_of_filter.
  pose proof (group_grouped (window "" 5000 d) d Hwf I) as Hg. destruct (group (window "" 5000 d) d) as [m d'].
  destruct Hg as (_ & _ & _ & Hg). cbn [fst].
  assert (forall id, of_run id (window "" 5000 d) ≡ₚ of_run id (Sqlite.deviations d)) as Hp.
  { intros id. unfold of_run. apply filter_Permutation. by apply window_whole. }
  split.
  - intros [_ Hr]. destruct (grouped_rows _ _ _ _ Hg Hr) as (id & run & Ha & Ho & _).
    exists id, run, (of_run id (window "" 5000 d)). split_and_all; [done|apply Hp| |done].
    intros E. rewrite E in Ho. pose proof (ro_first _ _ _ Ho) as Hf. by apply not_elem_of_nil in Hf.
  - intros (id & run & ds & Ha & Hds & Hne & Ho). split; [change (pendingSeverityRank "") with 0; lia|].
    destruct (grouped_complete _ _ _ id run Hg Ha) as (row' & Hr & Ho').
    + intros E. specialize (Hp id). rewrite E in Hp. apply Permutation_nil_l in Hp. rewrite <- Hp in Hds.
      by apply Permutation_nil_r in Hds.
    + assert (row = row') as ->; [|done]. eapply row_of_det; [|exact Ho|exact Ho']. by rewrite Hds, Hp.
Qed.

Lemma queue_nodup d : SqliteSpec.wf d -> NoDup (queue d).
Proof.
  intros Hwf. unfold queue. rewrite (sorted_rows_perm iter _ Hiter). apply NoDup_filter.
  pose proof (group_grouped (window "" 5000 d) d Hwf I) as Hg. destruct (group (window "" 5000 d) d) as [m d'].
  destruct Hg as (_ & _ & _ & Hg). cbn [fst]. eapply NoDup_fmap_1, grouped_nodup; [|exact Hg].
  intros id run. by apply view_runs_keyed.
Qed.
End queue.

(** ** What a promotion does to the queue *)
Lemma runs_keyed (d : DB) id r : SqliteSpec.wf d -> st_runs (view d) !! id = Some r -> Run_ID r = id.
Proof. intros Hwf. by apply view_runs_keyed. Qed.

Lemma promoted_devs d d' run fps id :
  SqliteSpec.wf d -> SqliteSpec.wf d' -> view d' = promoted run fps (view d) -> id <> Run_ID run ->
  of_run id (Sqlite.deviations d') ≡ₚ of_run id (Sqlite.deviations d).
Proof.
  intros Hwf Hwf' Hv Hid. pose proof (f_equal st_devs Hv) as E. unfold promoted in E. cbn in E.
  pose proof (SqliteSpec.wf_devs _ Hwf) as K. pose proof (SqliteSpec.wf_devs _ Hwf') as K'.
  unfold of_run. apply NoDup_Permutation; [apply NoDup_filter; exact (NoDup_fmap_1 Dev_ID _ K')|apply NoDup_filter; exact (NoDup_fmap_1 Dev_ID _ K)|].
  intros x. rewrite !list_elem_of_filter.
  assert (x ∈ Sqlite.deviations d' <-> x ∈ Sqlite.deviations d /\ Dev_RunID x <> Run_ID run) as ->; [|naive_solver].
  pose proof (tbl_lookup Dev_ID _ (Dev_ID x) x K) as L. pose proof (tbl_lookup Dev_ID _ (Dev_ID x) x K') as L'.
  rewrite E, map_lookup_filter_Some in L'. cbn [snd] in L'. naive_solver.
Qed.

Lemma promoted_length d d' run fps :
  SqliteSpec.wf d -> SqliteSpec.wf d' -> view d' = promoted run fps (view d) ->
  length (Sqlite.deviations d') <= length (Sqlite.deviations d).
Proof.
  intros Hwf Hwf' Hv. pose proof (f_equal st_devs Hv) as E. unfold promoted in E. cbn in E.
  pose proof (SqliteSpec.wf_devs _ Hwf) as K. pose proof (SqliteSpec.wf_devs _ Hwf') as K'.
  apply submseteq_length, NoDup_submseteq; [by apply (NoDup_fmap_1 Dev_ID)|].
  intros x Hx. pose proof (proj2 (tbl_lookup Dev_ID _ (Dev_ID x) x K') (conj Hx eq_refl)) as L.
  rewrite E, map_lookup_filter_Some in L. exact (proj1 (proj1 (tbl_lookup Dev_ID _ (Dev_ID x) x K) (proj1 L))).
Qed.

Lemma promoted_awaiting st run fps id r :
  awaiting (promoted run fps st) id r <-> awaiting st id r /\ id <> Run_ID run.
Proof.
  unfold awaiting, promoted. cbn. destruct (decide (id = Run_ID run)) as [->|Hne].
  - rewrite lookup_insert_eq. split; [|tauto]. intros [[= <-] Hb]. done.
  - rewrite lookup_insert_ne by done. tauto.
Qed.

Lemma promoted_queue iter iter' d d' run fps :
  (forall l, iter l ≡ₚ l) -> (forall l, iter' l ≡ₚ l) ->
  SqliteSpec.wf d -> SqliteSpec.wf d' -> seen_whole d ->
  view d' = promoted run fps (view d) ->
  queue iter' d' ≡ₚ filter (fun row => Run_ID (Pn_Run row) <> Run_ID run) (queue iter d).
Proof.
  intros Hi Hi' Hwf Hwf' Hw Hv.
  assert (seen_whole d') as Hw' by (pose proof (promoted_length _ _ _ _ Hwf Hwf' Hv); unfold seen_whole in *; lia).
  apply NoDup_Permutation; [by apply queue_nodup|by apply NoDup_filter, queue_nodup|].
  intros row. rewrite list_elem_of_filter, !queue_elem by done. rewrite Hv. split.
  - intros (id & r & ds & [Ha Hid]%promoted_awaiting & Hds & Hne & Ho). split.
    + rewrite (ro_run _ _ _ Ho). destruct Ha as [Ha _]. by rewrite (runs_keyed d id r Hwf Ha).
    + exists id, r, ds. split_and_all; [done| |done..]. by rewrite Hds, promoted_devs.
  - intros [Hr (id & r & ds & Ha & Hds & Hne & Ho)].
    assert (id <> Run_ID run) as Hid.
    { intros ->. destruct Ha as [Ha _]. rewrite (ro_run _ _ _ Ho) in Hr. by rewrite (runs_keyed d _ r Hwf Ha) in Hr. }
    exists id, r, ds. split_and_all; [by apply promoted_awaiting| |done..].
    rewrite Hds. symmetry. by eapply promoted_devs.
Qed.

(** ** The id a row shows *)
Lemma ToLower_app s t : ToLower (s +:+ t) = ToLower s +:+ ToLower t.
Proof. apply list_of_string_inj. by rewrite list_of_string_app, !SqliteSpec.list_of_ToLower, list_of_string_app, fmap_app. Qed.

Lemma shortID_prefix id : exists t, id = shortID id +:+ t.
Proof.
  unfold shortID. case_match; [exists ""; by rewrite string_app_nil_r|]. exists (slice_from id 12).
  apply list_of_string_inj. unfold slice_to, slice_from. rewrite list_of_string_app, !list_of_string_of_list. by rewrite take_drop.
Qed.

(** The short id of a run names it: no other run's id starts with it, in any
    case, and it holds no LIKE wildcard. *)
Definition short_unique (d : DB) (run : Run) : Prop :=
  Run_ID run <> "" /\ Forall SqliteSpec.no_wildcard (list_of_string (shortID (Run_ID run))) /\
  forall r, r ∈ Sqlite.runs d -> SqliteSpec.short_matches Run_ID (shortID (Run_ID run)) r -> r = run.

Lemma shown_id_resolves d run :
  SqliteSpec.wf d -> run ∈ Sqlite.runs d -> short_unique d run ->
  ResolveRunPrefix (shortID (Run_ID run)) d = (Ok run, d).
Proof.
  intros Hwf Hin (Hne & Hp & Hu). destruct (shortID_prefix (Run_ID run)) as [t Et].
  assert (SqliteSpec.short_matches Run_ID (shortID (Run_ID run)) run) as Hm.
  { unfold SqliteSpec.short_matches. apply HasPrefix_spec. exists (ToLower t). by rewrite <- ToLower_app, <- Et. }
  assert (shortID (Run_ID run) <> "") as Hs.
  { unfold shortID. case_match eqn:E; [done|]. destruct (Run_ID run) as [|c s]; done. }
  change (Sqlite.ResolveRunPrefix (shortID (Run_ID run)) d = (Ok run, d)). unfold Sqlite.ResolveRunPrefix.
  pose proof (SqliteSpec.resolve_prefix_spec Run_ID (Sqlite.runs d) _ (SqliteSpec.wf_runs _ Hwf) Hs Hp) as H.
  destruct (Sqlite.resolve _ _ _) as [r|e].
  - destruct H as (Hr & Hm' & _). by rewrite (Hu r Hr Hm').
  - destruct H as [[_ H]|(_ & r & r' & Hr & Hr' & Hd & Hm1 & Hm2)]; [by destruct (H run Hin)|].
    by rewrite (Hu r Hr Hm1), (Hu r' Hr' Hm2) in Hd.
Qed.

(** ** The command lines *)
Section lines.
Context (fraction : Z -> Z -> Z -> Z) (env : Args.Env DB) (openStore : Args.Globals -> res DB).
Let Run := Args.Run fraction openStore (Args.perform env).

(** The globals of a command line without global flags. *)
Definition default_globals : Args.Globals := Args.globals_of Args.global_flags.

Lemma Run_pending d :
  openStore default_globals = Ok d ->
  Run ["pending"] =
    ([Print.pendingCmd (Args.zone env) false (Args.now' env) (queue (Args.pending_iter env) d)], Ok tt, Some d).
Proof.
  intros Ho. subst Run. unfold Args.Run. rewrite Args.Parse_stops by done. fold default_globals. rewrite Ho.
  change (Args.command fraction "pending" []) with (Ok (Args.CPending "" "" 0)).
  unfold Args.perform, Args.prints, Args.report. by rewrite pendingCmd_queue.
Qed.

Lemma Run_promote d prefix r s :
  openStore default_globals = Ok d -> baselinePromote (Args.iter env) prefix d = (Ok r, s) ->
  Run ["baseline"; "promote"; prefix] = ([Print.baselinePromote false r], Ok tt, Some s).
Proof.
  intros Ho Hb. subst Run. unfold Args.Run. rewrite Args.Parse_stops by done. fold default_globals. rewrite Ho.
  change (Args.command fraction "baseline" ["promote"; prefix]) with (Ok (Args.CBaselinePromote prefix)).
  unfold Args.perform, Args.prints, Args.report. by rewrite Hb.
Qed.
End lines.

(** The command a row of the queue shows, in words. *)
Definition hint (run : Run) : list string := ["baseline"; "promote"; shortID (Run_ID run)].

Lemma hint_shown zone_now row : list.last (Print.pending_row zone_now row) = Some (Tabwriter.Join " " ("fangs" :: hint (Pn_Run row))).
Proof. reflexivity. Qed.

(** The rows of a queue, said of the database alone: one for each run that has
    deviations and was not promoted, with the number, the span and the highest
    severity of its deviations, in order. *)
Definition reviewed (d : DB) (rows : list pendingRow) : Prop :=
  Sorted row_le rows /\ NoDup (Run_ID ∘ Pn_Run <$> rows) /\
  forall row, row ∈ rows <-> exists id run ds, st_runs (view d) !! id = Some run /\ Run_IsBaseline run = false /\
    ds ≡ₚ of_run id (Sqlite.deviations d) /\ ds <> [] /\ row_of run ds row.

Lemma queue_reviewed iter d :
  (forall l, iter l ≡ₚ l) -> SqliteSpec.wf d -> seen_whole d -> reviewed d (queue iter d).
Proof.
  intros Hi Hwf Hw. split; [apply sorted_rows_sorted|]. split.
  - unfold queue. rewrite (sorted_rows_perm iter _ Hi).
    pose proof (group_grouped (window "" 5000 d) d Hwf I) as Hg. destruct (group (window "" 5000 d) d) as [m d'].
    destruct Hg as (_ & _ & _ & Hg). cbn [fst].
    eapply sublist_NoDup; [|apply fmap_sublist, sublist_filter]. eapply grouped_nodup; [|exact Hg].
    intros id run. by apply view_runs_keyed.
  - intros row. rewrite queue_elem by done. unfold awaiting. naive_solver.
Qed.

Lemma Run_promote_refused fraction env openStore d prefix e s :
  openStore default_globals = Ok d -> baselinePromote (Args.iter env) prefix d = (Err e, s) ->
  Args.Run fraction openStore (Args.perform env) ["baseline"; "promote"; prefix] = ([], Err e, Some s).
Proof.
  intros Ho Hb. unfold Args.Run. rewrite Args.Parse_stops by done. fold default_globals. rewrite Ho.
  change (Args.command fraction "baseline" ["promote"; prefix]) with (Ok (Args.CBaselinePromote prefix)).
  unfold Args.perform, Args.prints, Args.report. by rewrite Hb.
Qed.


(** Runs of two packages await review; the first is promoted. *)
Definition wit_runs : DB :=
  foldr SqliteSpec.exec Sqlite.empty_db
    [SqliteSpec.MWriteDeviations
       [mkDeviationRow "d1" "18b1f8aa01c2d3e4" "proc_new_exec" "/bin/nc" 1 "warn" 5 None false;
        mkDeviationRow "d2" "2" "tls_new_sni" "evil.test" 2 "warn" 7 None false];
     SqliteSpec.MAppendEvents "2" [SqliteSpec.wit_event 5%Z];
     SqliteSpec.MAppendEvents "18b1f8aa01c2d3e4" [SqliteSpec.wit_event 5%Z];
     SqliteSpec.MCreateRun 0%Z (mkRun "2" "ms" "2.1.3" "" "" "" "" "done" 1 false None None "" 0 0 0);
     SqliteSpec.MCreateRun 0%Z (mkRun "18b1f8aa01c2d3e4" "chalk" "5.3.0" "" "" "" "" "done" 1 false None None "" 0 0 0)].
Definition wit_shown : pendingRow :=
  mkPendingRow (Sqlite.stored_run 0 (mkRun "18b1f8aa01c2d3e4" "chalk" "5.3.0" "" "" "" "" "done" 1 false None None "" 0 0 0)) 1 "" 5%Z 5%Z.

Lemma wit_row : row_of (Pn_Run wit_shown) (of_run "18b1f8aa01c2d3e4" (Sqlite.deviations wit_runs)) wit_shown.
Proof. exact (row_of_start (Pn_Run wit_shown) (mkDeviationRow "d1" "18b1f8aa01c2d3e4" "proc_new_exec" "/bin/nc" 1 "warn" 5 None false)). Qed.

End Triage.
