(* ===== verification/RunnerMain.v ===== *)
(** * fangs-runner: the life of the process

    cmd/fangs-runner/main.go around the poll loop of Runner.v: the flags, the
    client ([New] of internal/runner/agent/client.go), the sensor attached once
    (SensorLife.v), the registration, and what has been released when the
    process ends.  [os.Exit] does not run deferred calls; a panic runs those of
    the goroutine it strikes, so one in the forwarder, which may send on the
    closed channel of a finished job ([forwarder_close_race] of Agent.v), ends
    the process without those of [main]. *)
From Stdlib Require Import Ascii.
From stdpp Require Import prelude strings gmap list.
From S2P Require Import Prelude GoTime Json Proto Wire Sensor SensorLife Api Agent Docker Runner Args.

Module RunnerMain.
Import Args.

(** ** The client *)
Record Options : Type := mkOptions {
  OrchestratorURL : string;
  RunnerID : string;
  Timeout : duration;
  TLSCAFile : string;
  TLSCertFile : string;
  TLSKeyFile : string
}.

Record Connection : Type := mkConnection {
  baseURL : string;
  http_timeout : duration;
  transport : Agent.transport;
  client : Agent.Client
}.

Section client.
Context (hostname : res string) (ReadFile : string -> res string) (usable : string -> bool)
        (LoadX509KeyPair : string -> string -> bool).

Definition New (opts : Options) : res Connection :=
  if decide (OrchestratorURL opts = "") then Err (Errorf "OrchestratorURL is required") else
  match (if decide (RunnerID opts = "") then hostname else Ok (RunnerID opts)) with
  | Err e => Err (Wrapf "default RunnerID from hostname" e)
  | Ok id =>
      let timeout := if decide (Timeout opts = 0%Z) then (30 * Second)%Z else Timeout opts in
      match Agent.buildClientTransport ReadFile usable LoadX509KeyPair (TLSCAFile opts) (TLSCertFile opts) (TLSKeyFile opts) with
      | Err e => Err (Wrapf "tls transport" e)
      | Ok tr => Ok (mkConnection (OrchestratorURL opts) timeout tr (Agent.new_client id))
      end
  end.
End client.

(** What the registration says of the machine: failures leave a blank name and
    the operating system's. *)
Definition hostname (Hostname : res string) : string := match Hostname with Ok h => h | Err _ => "" end.
Definition kernelVersion (ReadFile : string -> res string) (GOOS : string) : string :=
  match ReadFile "/proc/sys/kernel/osrelease" with Ok b => TrimSpace b | Err _ => GOOS +:+ "-unknown" end.
Definition machine_registration (Hostname : res string) (ReadFile : string -> res string) (GOOS : string) (c : Agent.Client) :
    RunnerRegistration :=
  Agent.registration c (hostname Hostname) (kernelVersion ReadFile GOOS).
Example soft_registration :
  machine_registration (Err (Errorf "uname")) (fun _ => Err (Errorf "open")) "linux" (Agent.new_client "r1") =
  mkRunnerRegistration "r1" "" ["sensor"] "linux-unknown" CurrentProtoVersion.
Proof. reflexivity. Qed.

(** ** Waiting *)

(** How long the call takes; [cancel] is when the context ends. *)
Definition sleepWithCtx (cancel : option duration) (d : duration) : duration :=
  if (d <=? 0)%Z then 0%Z else match cancel with Some c => Z.min c d | None => d end.

Definition heartbeat_period (c : Agent.Client) : duration :=
  if (Agent.heartbeatInterval c <=? 0)%Z then (30 * Second)%Z else Agent.heartbeatInterval c.

(** What the poll loop waits before it polls again. *)
Definition poll_pause (c : Agent.Client) (a : Agent.Answer) : duration :=
  match Agent.PollJob a with
  | Err _ => (2 * Second)%Z
  | Ok None => Agent.jobPollInterval c
  | Ok (Some _) => 0%Z
  end.

(** ** main *)
Definition runner_flags : FlagSet :=
  [("orchestrator", VString "http://127.0.0.1:8443"); ("runner-id", VString ""); ("tls-ca", VString "");
   ("tls-cert", VString ""); ("tls-key", VString ""); ("timeout", VDuration (30 * Second)%Z)].

Definition options_of (fs : FlagSet) : Options :=
  mkOptions (getS fs "orchestrator") (getS fs "runner-id") (getD fs "timeout") (getS fs "tls-ca") (getS fs "tls-cert")
    (getS fs "tls-key").

Definition sensor_options : SensorLife.Options := SensorLife.mkOptions "" true (5 * Second)%Z.

Inductive Ending : Type :=
  | Usage (e : error)                               (* [flag.Parse] ends the process *)
  | NoClient (e : error)
  | NoSensor (e : error)
  | NotRegistered (e : error)
  | Stopped (w : Runner.World)                      (* the context was cancelled *)
  | Crashed (w : Runner.World)                      (* a panic in a job *)
  | Killed (t : list Runner.Effect).                (* a panic in the forwarder, after the effects [t] *)

(** The exit status. *)
Definition status (e : Ending) : Z :=
  match e with
  | Usage e => if errors_Is e ErrHelp then 0 else 2
  | NoClient _ | NoSensor _ | NotRegistered _ => 1
  | Stopped _ => 0
  | Crashed _ | Killed _ => 2
  end.

Section main.
Context (fraction : Z -> Z -> Z -> Z) (hostname : res string) (ReadFile : string -> res string) (usable : string -> bool)
        (LoadX509KeyPair : string -> string -> bool) (k : SensorLife.Kernel) (registered : Agent.Answer)
        (Error : error -> string) (del : Z -> bool) (close_objs : option error).

(** The deferred [sens.Close]. *)
Definition close_sensor (s : SensorLife.Life) (w : Runner.World) : Runner.World * list SensorLife.Effect :=
  let '(_, s', tr) := SensorLife.Close del close_objs
    (SensorLife.mkLife (SensorLife.links s) (SensorLife.reader s) (Runner.sensor w) (SensorLife.loop0 s)
       (SensorLife.closed_once s) (SensorLife.closeErr s)) in
  (Runner.set_sensor (SensorLife.maps s') w, tr).

Definition closes_stream (e : Runner.Effect) : bool := match e with Runner.StreamClosed => true | _ => false end.

(** The poll loop and what is deferred around it; [None]: out of fuel.  When
    [die] is [Some (n, m)] the forwarder panics after [n] effects of the poll
    loop and, if these are all of them, [m] steps of the deferred close: the
    streamer it sends to must have been closed by then. *)
Definition serve (die : option (nat * nat)) (fuel : nat) (polls : list (Agent.Answer * Runner.JobEnv))
    (s : SensorLife.Life) (w : Runner.World) : option (Ending * list SensorLife.Effect) :=
  match Runner.poll_loop Error fuel polls w with
  | None => None
  | Some (crashed, w) =>
      let '(w', tr) := close_sensor s w in
      let finished := (if crashed : bool then Crashed w' else Stopped w', tr) in
      Some match die with
           | None => finished
           | Some (n, m) =>
               let t := take n (Runner.trace w) in
               if existsb closes_stream t
               then (Killed t, if length (Runner.trace w) <=? n then take m tr else [])
               else finished
           end
  end.

Definition main (die : option (nat * nat)) (fuel : nat) (polls : list (Agent.Answer * Runner.JobEnv)) (host : Docker.Docker.Exchange)
    (tree : Sandbox.Sandbox.Tree) (args : list string) : option (Ending * list SensorLife.Effect) :=
  match Parse fraction args runner_flags with
  | Err e => Some (Usage e, [])
  | Ok (fs, _) =>
      match New hostname ReadFile usable LoadX509KeyPair (options_of fs) with
      | Err e => Some (NoClient e, [])
      | Ok c =>
          let '(r, tr) := SensorLife.New k sensor_options in
          match r with
          | Err e => Some (NoSensor e, tr)
          | Ok s =>
              match Agent.Register registered (client c) with
              | (Err e, _) => Some (NotRegistered e, tr)
              | (Ok _, _) =>
                  '(e, tr') ← serve die fuel polls s (Runner.mkWorld (SensorLife.maps s) tree host None []); Some (e, tr ++ tr')
              end
          end
      end
  end.
End main.

(** ** The loop returns *)
Definition paced_env (env : Runner.JobEnv) : Prop :=
  Docker.Docker.paced (Runner.je_running env) /\ Docker.Docker.paced (Runner.je_placed env).

Lemma defer_returns cleanup body w : is_Some (body w) -> is_Some (Runner.defer cleanup body w).
Proof. intros Hb. unfold Runner.defer. by apply fmap_is_Some. Qed.

Lemma runJob_returns Error env fuel job w :
  paced_env env -> 2001 <= fuel -> is_Some (Runner.runJob Error env fuel job w).
Proof.
  intros [Hr Hp] Hf. unfold Runner.runJob. apply fmap_is_Some, defer_returns.
  destruct (jb_Sandbox job) as [sb|].
  - unfold Runner.run_sandbox. destruct (Sandbox.Sandbox.CreateParentCgroup _ _ _ _) as [[[[rel ab] id]|e] t]; [|eauto].
    destruct (Runner.add_cgroup _ _ _ _) as [[[]|e] w1]; [|eauto]. apply defer_returns.
    destruct (Docker.Docker.Launch_returns (Runner.je_daemon env) (Runner.je_unreachable env) (Runner.je_mountinfo env)
      (Runner.je_proc env) (Runner.je_stat env) (Runner.je_running env) (Runner.je_placed env) fuel
      (mkSandboxSpec (sb_Image sb) (sb_Command sb) (sb_Env sb) (sb_WorkingDir sb) (sb_User sb) (sb_NetworkMode sb)
         (sb_MemoryBytes sb) (sb_NanoCPUs sb) (sb_PidsLimit sb) (sb_PullPolicy sb) (sb_GracePeriod sb) rel)
      (Runner.docker w1) Hr Hp Hf) as [[[[h|e]|] x] E]; cbv zeta; rewrite E; eauto.
  - unfold Runner.run_cgroup. destruct (Runner.je_inode env _) as [id|e]; [|eauto].
    destruct (Runner.add_cgroup _ _ _ _) as [[[]|e] w1]; eauto.
Qed.

Lemma poll_loop_returns Error fuel polls w :
  Forall (fun p => paced_env p.2) polls -> 2001 <= fuel -> is_Some (Runner.poll_loop Error fuel polls w).
Proof.
  intros Hp Hf. revert w. induction Hp as [|[a env] polls He _ IH]; intros w; [eauto|]. cbn.
  destruct (Agent.PollJob a) as [[job|]|e]; [|apply IH..].
  destruct (runJob_returns Error env fuel job w He Hf) as [[[e| |] w1] ->]; eauto.
Qed.

(** ** The process *)
Definition idle : Sensor.Sensor.Sensor := Sensor.Sensor.mkSensor ∅ ∅ ∅.

(** What has happened by the time the process is over. *)
Definition over (polls : list (Agent.Answer * Runner.JobEnv)) (e : Ending) (tr : list SensorLife.Effect) : Prop :=
  let released w := SensorLife.open_after tr = SensorLife.nothing /\
    Sensor.Sensor.registered (Runner.sensor w) = ∅ /\ Runner.curRunHex w = None /\
    (Forall (fun p => Runner.undoes p.2) polls -> Runner.sensor w = idle) in
  let reported t n := Runner.posts t = take n (Runner.runIDHex <$> Runner.jobs polls) in
  let opened tr ls := SensorLife.open_after tr = SensorLife.mkOpen true true ls /\ SensorLife.tps `prefix_of` ls in
  match e with
  | Usage _ | NoClient _ => tr = []
  | NoSensor _ => SensorLife.open_after tr = SensorLife.nothing
  | NotRegistered _ => exists ls, opened tr ls
  | Stopped w => released w /\ reported (Runner.trace w) (length (Runner.jobs polls))
  | Crashed w => released w /\ exists n, reported (Runner.trace w) n
  | Killed t => Runner.StreamClosed ∈ t /\ (exists n, reported t n) /\
      exists tr0 tr1 ls, tr = tr0 ++ tr1 /\ opened tr0 ls /\ tr1 `prefix_of` SensorLife.tear_down true ls
  end.

Lemma posts_take n t : exists m, Runner.posts (take n t) = take m (Runner.posts t).
Proof.
  exists (length (Runner.posts (take n t))). rewrite <- (take_drop n t) at 3. rewrite Runner.posts_app.
  symmetry. apply take_app_length.
Qed.

Section lifecycle.
Context (Error : error -> string) (del : Z -> bool) (close_objs : option error).

Lemma serve_over die fuel polls s tr host tree :
  Forall (fun p => paced_env p.2) polls -> 2001 <= fuel ->
  SensorLife.open_after tr = SensorLife.mkOpen true true (SensorLife.links s) ->
  SensorLife.tps `prefix_of` SensorLife.links s -> SensorLife.closed_once s = false ->
  SensorLife.reader s = true -> SensorLife.maps s = idle ->
  exists e tr', serve Error del close_objs die fuel polls s (Runner.mkWorld (SensorLife.maps s) tree host None []) =
    Some (e, tr') /\ over polls e (tr ++ tr').
Proof.
  intros Hp Hf Ho Hl Hc Hr Hm. unfold serve.
  destruct (poll_loop_returns Error fuel polls (Runner.mkWorld (SensorLife.maps s) tree host None []) Hp Hf) as [[crashed w] E].
  rewrite E. apply Runner.poll_loop_clean in E as (Hs & Hcur & Hidle & n & Hn & Hlen); [|by rewrite Hm|done].
  cbn in Hn, Hidle. specialize (Hidle Hm).
  set (s' := SensorLife.mkLife (SensorLife.links s) (SensorLife.reader s) (Runner.sensor w) (SensorLife.loop0 s)
               (SensorLife.closed_once s) (SensorLife.closeErr s)).
  pose proof (SensorLife.Close_releases del close_objs s' tr Ho Hc Hr) as Hrel.
  assert (exists w', close_sensor del close_objs s w = (w', (SensorLife.Close del close_objs s').2) /\
            Sensor.Sensor.registered (Runner.sensor w') = ∅ /\ Runner.curRunHex w' = None /\
            Runner.trace w' = Runner.trace w /\
            (Forall (fun p => Runner.undoes p.2) polls -> Runner.sensor w' = idle)) as (w' & -> & H1 & H2 & H3 & H4).
  { eexists. split; [unfold close_sensor; fold s'; unfold SensorLife.Close; change (SensorLife.closed_once s') with (SensorLife.closed_once s);
      rewrite Hc; reflexivity|].
    cbn. split_and!; try done. intros Hu. by rewrite (Hidle Hu). }
  set (finished := (_, _)).
  assert (Hfin : over polls finished.1 (tr ++ finished.2)).
  { subst finished. unfold over. destruct crashed; simpl; rewrite H3, Hn.
    - split; [done|]. by exists n.
    - split; [done|]. specialize (Hlen eq_refl). by rewrite (take_ge _ n), take_ge by (rewrite length_fmap; lia). }
  destruct die as [[i m]|]; [|by eexists _, _].
  destruct (existsb closes_stream _) eqn:Hk; [|by eexists _, _]. eexists _, _. split; [reflexivity|].
  apply existsb_exists in Hk as (x & Hx & Hcx). split; [destruct x; try done; by apply list_elem_of_In|]. split.
  { destruct (posts_take i (Runner.trace w)) as [j Hj]. exists (j `min` n). by rewrite Hj, Hn, take_take. }
  eexists tr, _, (SensorLife.links s). split; [reflexivity|]. split; [done|].
  assert ((SensorLife.Close del close_objs s').2 = SensorLife.tear_down true (SensorLife.links s)) as ->.
  { unfold SensorLife.Close. change (SensorLife.closed_once s') with (SensorLife.closed_once s). rewrite Hc.
    simpl. by rewrite Hr. }
  destruct (_ <=? _); [apply prefix_take|apply prefix_nil].
Qed.

(** C34: the life of the runner process.  For any command line, answers of the
    kernel and of the orchestrator, and polls whose waits are really 5 ms
    apart, [main] ends, with 2001 as fuel for every job.  When it stops on a
    signal or crashes in a job, every probe, the ring buffer reader and the
    BPF objects are released, no cgroup or streamer is left
    registered, the kernel maps were empty unless a deletion failed, and the
    results posted are those of the jobs received, in order, all of them
    unless it crashed.  A sensor that cannot start leaves nothing open.  Two
    ends skip the deferred Close and leave the sensor open: a failed
    registration, which calls [os.Exit], and a panic of the forwarder, possible only
    after a job's streamer was closed, by which time a prefix of the results
    was posted. *)
Theorem runner_lifecycle fraction hostname ReadFile usable LoadX509KeyPair k registered die fuel polls host tree args :
  Forall (fun p => paced_env p.2) polls -> 2001 <= fuel ->
  exists e tr,
    main fraction hostname ReadFile usable LoadX509KeyPair k registered Error del close_objs die fuel polls host tree args =
      Some (e, tr) /\ over polls e tr.
Proof.
  intros Hp Hf. unfold main. destruct (Parse _ _ _) as [[fs rest]|e]; [|by repeat eexists].
  destruct (New _ _ _ _ _) as [c|e]; [|by repeat eexists].
  pose proof (SensorLife.New_outcome k sensor_options) as Hn. destruct (SensorLife.New k sensor_options) as [[s|e] tr];
    destruct Hn as [Hn _]; [|by repeat eexists].
  destruct Hn as (Ho & Hl & Hc & Hr & Hm).
  assert (SensorLife.tps `prefix_of` SensorLife.links s) as Htps by (rewrite Hl; by eexists).
  destruct (Agent.Register _ _) as [[u|e] c'].
  - destruct (serve_over die fuel polls s tr host tree Hp Hf Ho Htps Hc Hr Hm) as (e & tr' & -> & Hov). by repeat eexists.
  - eexists _, _. split; [reflexivity|]. by exists (SensorLife.links s).
Qed.
End lifecycle.

(** ** Its pace *)

(** Once registered with the orchestrator, the process beats every 30 s and
    never polls again at once: it waits 5 s after an empty answer and 2 s
    after an error, unless the context ends. *)
Lemma registered_pace {S} (reg : RunnerRegistration) now (srv : Api.Api.Server S) c u c' a :
  Agent.Register (Ok (Api.Api.handleRegister (Ok reg) now srv).1) c = (Ok u, c') ->
  heartbeat_period c' = (30 * Second)%Z /\
  match Agent.PollJob a with
  | Ok (Some _) => True
  | r => sleepWithCtx None (poll_pause c' a) = (if is_Ok r then 5 * Second else 2 * Second)%Z
  end.
Proof.
  unfold Api.Api.handleRegister. case_decide; [done|]. case_decide; [done|]. cbn. intros [= _ <-]. split; [done|].
  unfold poll_pause, sleepWithCtx. by destruct (Agent.PollJob a) as [[job|]|e].
Qed.

(** A runner that polls nothing, then one job, until it is interrupted. *)
Definition wit_kernel : SensorLife.Kernel :=
  SensorLife.mkKernel None true true None None (fun _ => None) (fun _ => false) (fun _ => None) None.
Definition wit_registered : Agent.Answer :=
  Ok (Api.Api.mkResponse 200 (Api.Api.RegistrationB (mkRegistrationAck true "orch" 0 0))).
Definition wit_polls : list (Agent.Answer * Runner.JobEnv) :=
  [(Ok (Api.Api.mkResponse 204 Api.Api.NoBody), Runner.wit_env);
   (Ok (Api.Api.mkResponse 200 (Api.Api.JobB Runner.wit_job)), Runner.wit_env)].
Definition wit_main (die : option (nat * nat)) (registered : Agent.Answer) (args : list string) : option (Ending * list SensorLife.Effect) :=
  main wit_fraction (Ok "host") (fun _ => Ok "") (fun _ => true) (fun _ _ => true) wit_kernel registered Runner.wit_text (fun _ => true) None
    die 2001 wit_polls [] ∅ args.

Example refused_registration :
  (fun p => (status p.1, SensorLife.o_reader (SensorLife.open_after p.2))) <$>
    wit_main None (Ok (Api.Api.mkResponse 500 Api.Api.NoBody)) [] = Some (1%Z, true).
Proof. vm_compute. reflexivity. Qed.

(** The forwarder dies in the middle of the report of the first job: the
    sensor is open and the report was not posted. *)
Example forwarder_kills :
  (fun p => (status p.1, match p.1 with Killed t => Some (Runner.posts t) | _ => None end,
             SensorLife.o_reader (SensorLife.open_after p.2))) <$>
    wit_main (Some (6, 0)) wit_registered [] = Some (2%Z, Some [], true).
Proof. vm_compute. reflexivity. Qed.

Lemma wit_polls_paced : Forall (fun p => paced_env p.2) wit_polls.
Proof. repeat (apply Forall_cons_2; [split; intros i; cbn; unfold Millisecond; lia|]). apply Forall_nil_2. Qed.

Lemma runner_lifecycle_witness :
  (exists e tr, wit_main None wit_registered ["-runner-id"; "r1"; "-timeout=5s"] = Some (e, tr) /\ status e = 0%Z /\
     over wit_polls e tr) /\
  (exists e tr, wit_main (Some (6, 0)) wit_registered [] = Some (e, tr) /\ status e = 2%Z /\ over wit_polls e tr).
Proof.
  assert (Hf : 2001 <= 2001) by (apply Nat.leb_le; vm_compute; reflexivity).
  split; [set (die := None); set (args := ["-runner-id"; "r1"; "-timeout=5s"])|set (die := Some (6, 0)); set (args := [])];
    (destruct (runner_lifecycle Runner.wit_text (fun _ => true) None wit_fraction (Ok "host") (fun _ => Ok "") (fun _ => true)
       (fun _ _ => true) wit_kernel wit_registered die 2001 wit_polls [] ∅ args wit_polls_paced Hf) as (e & tr & E & Ho);
     exists e, tr; split; [exact E|]; split; [|exact Ho]).
  - assert ((fun p => status p.1) <$> wit_main die wit_registered args = Some 0%Z) as Hst by (vm_compute; reflexivity).
    unfold wit_main in Hst. rewrite E in Hst. by injection Hst.
  - assert ((fun p => status p.1) <$> wit_main die wit_registered args = Some 2%Z) as Hst by (vm_compute; reflexivity).
    unfold wit_main in Hst. rewrite E in Hst. by injection Hst.
Defined.
End RunnerMain.
