(* ===== verification/Requests.v ===== *)
(** * Requests on the wire

    Where the clients' requests go.  The URLs of runner/agent/client.go and
    events.go and of the CLI's scan.go, composed with the orchestrator's mux:
    a request is built by [http.NewRequest], the mux cleans its path and
    matches segment by segment.  And the Engine API requests of
    sandbox/docker.go: the driver's options, and the method and URL of each of
    its calls. *)
From Stdlib Require Import Ascii.
From stdpp Require Import prelude strings gmap list.
From S2P Require Import Prelude GoTime Url Json Proto Dispatcher Api Serve Agent Sandbox Docker Args.

Module Requests.
Import Url.Url Serve.Serve.

(** ** The orchestrator's clients *)
Definition register_url (baseURL : string) : string := baseURL +:+ "/v1/runners/register".
Definition poll_url (baseURL runnerID : string) : string := baseURL +:+ "/v1/runners/" +:+ runnerID +:+ "/jobs".
Definition heartbeat_url (baseURL runnerID : string) : string := baseURL +:+ "/v1/runners/" +:+ runnerID +:+ "/heartbeat".
Definition result_url (baseURL runIDHex : string) : string := baseURL +:+ "/v1/runs/" +:+ runIDHex +:+ "/result".
Definition events_url (baseURL runIDHex : string) : string := baseURL +:+ "/v1/runs/" +:+ runIDHex +:+ "/events".
Definition scans_url (orchestratorURL : string) : string := orchestratorURL +:+ "/v1/scans".

(** What the mux makes of a path before it matches: a path with an empty or a
    dot segment is redirected to the clean one. *)
Definition dots (s : string) : bool := bool_decide (s = "." \/ s = "..").
Fixpoint clean (l : list string) : bool :=
  match l with
  | [] => true
  | [s] => negb (dots s)
  | s :: l' => negb (bool_decide (s = "") || dots s) && clean l'
  end.

Inductive Arrival : Type :=
  | BadURL                     (* no request is sent *)
  | Redirected                 (* to the clean path *)
  | Routed (o : Outcome Handler).

Definition arrive (mux : Mux Handler) (method url : string) : Arrival :=
  match wire_path url with
  | None => BadURL
  | Some w =>
      match EscapedPath w with
      | None => BadURL
      | Some p =>
          let segs := tail (split "/" (string_of_list p)) in
          if clean segs then Routed (ServeHTTP mux method (pathUnescape <$> segs)) else Redirected
      end
  end.

(** ** The Engine API

    The logger is left out, and of the HTTP client what it dials is kept. *)
Record DockerOptions : Type := mkDockerOptions { do_SocketPath : string; do_APIVersion : string }.
Record DockerDriver : Type := mkDockerDriver { socketPath : string; apiVersion : string }.
Definition NewDockerDriver (opts : DockerOptions) : DockerDriver :=
  mkDockerDriver (if decide (do_SocketPath opts = "") then "/var/run/docker.sock" else do_SocketPath opts)
                 (if decide (do_APIVersion opts = "") then "v1.41" else do_APIVersion opts).

Definition dial (d : DockerDriver) : string * string := ("unix", socketPath d).

Definition url (d : DockerDriver) (path : string) : string := "http://docker/" +:+ apiVersion d +:+ path.

Definition create_path (fromImage tag : string) : string :=
  "/images/create?" +:+ Encode [("fromImage", [fromImage]); ("tag", [tag])].
Definition image_path (image : string) : string := "/images/" +:+ PathEscape image +:+ "/json".
Definition stop_path (id : string) (seconds : Z) : string :=
  "/containers/" +:+ id +:+ "/stop?" +:+ Encode [("t", [decimal seconds])].
Definition remove_path (id : string) (force : bool) : string :=
  "/containers/" +:+ id +:+ "?" +:+ Encode (if force then [("force", ["true"])] else []).

(** The method and the path each call hands to [do]. *)
Definition call (e : Docker.Docker.Endpoint) : string * string :=
  match e with
  | Docker.Docker.ImagesCreate fromImage tag => ("POST", create_path fromImage tag)
  | Docker.Docker.ImageInspect image => ("GET", image_path image)
  | Docker.Docker.ContainersCreate => ("POST", "/containers/create")
  | Docker.Docker.ContainerStart id => ("POST", "/containers/" +:+ id +:+ "/start")
  | Docker.Docker.ContainerInspect id => ("GET", "/containers/" +:+ id +:+ "/json")
  | Docker.Docker.ContainerWait id => ("POST", "/containers/" +:+ id +:+ "/wait")
  | Docker.Docker.ContainerStop id seconds => ("POST", stop_path id seconds)
  | Docker.Docker.ContainerDelete id force => ("DELETE", remove_path id force)
  end.
Definition request (d : DockerDriver) (e : Docker.Docker.Endpoint) : string * string := ((call e).1, url d (call e).2).

(** ** Paths as segments *)
Fixpoint path_of (l : list string) : string :=
  match l with [] => "" | s :: l' => "/" +:+ s +:+ path_of l' end.

Lemma split_on_free c a acc rest :
  free_of c a -> split_on c (list_of_string a ++ rest) acc = split_on c rest (rev (list_of_string a) ++ acc).
Proof.
  revert acc. induction a as [|x a IH]; intros acc Ha; [done|]. apply Forall_cons in Ha as [Hx Ha].
  cbn -[list_of_string]. change (list_of_string (String x a)) with (x :: list_of_string a). cbn [app split_on rev].
  rewrite decide_False, (IH _ Ha) by done. by rewrite <- app_assoc.
Qed.

Lemma split_on_path l acc :
  Forall (free_of "/") l -> split_on "/" (list_of_string (path_of l)) acc = string_of_list (rev acc) :: l.
Proof.
  intros Hl. revert acc. induction Hl as [|s l Hs _ IH]; intros acc; [done|].
  change (list_of_string (path_of (s :: l))) with ("/"%char :: list_of_string (s +:+ path_of l)).
  cbn [split_on]. rewrite decide_True, list_of_string_app, split_on_free, IH by done.
  by rewrite app_nil_r, rev_involutive, string_of_list_of_string.
Qed.

Lemma split_path_of l : Forall (free_of "/") l -> split "/" (path_of l) = "" :: l.
Proof. intros H. unfold split. by rewrite split_on_path. Qed.

Lemma path_of_inj l k : Forall (free_of "/") l -> Forall (free_of "/") k -> path_of l = path_of k -> l = k.
Proof. intros Hl Hk E. apply split_path_of in Hl, Hk. rewrite E in Hl. congruence. Qed.

(** Two texts around the first occurrence of a byte. *)
Lemma cut_inj c a x b y :
  free_of c a -> free_of c b -> a +:+ String c x = b +:+ String c y -> a = b /\ x = y.
Proof.
  intros Ha Hb E. apply (f_equal list_of_string) in E. rewrite !list_of_string_app in E. simpl in E.
  pose proof (index_from_app c _ (list_of_string x) 0 Ha) as Hi. rewrite E, (index_from_app c _ _ 0 Hb) in Hi.
  simplify_eq. apply app_inj_1 in E as [E1 E2]; [|lia]. simplify_eq.
  split; by apply list_of_string_inj.
Qed.

(** ** A request for clean segments arrives with them *)
Definition quiet (c : ascii) : bool := negb (one_of "?#%" c || is_ctl c).
Definition plain_char (c : ascii) : bool := negb (one_of "/?#%" c || is_ctl c).
Definition plain (s : string) : Prop :=
  s <> "" /\ dots s = false /\ forallb plain_char (list_of_string s) = true.
Definition server_url (baseURL : string) : Prop :=
  exists host, (baseURL = "http://" +:+ host \/ baseURL = "https://" +:+ host) /\
               forallb plain_char (list_of_string host) = true.

Lemma plain_char_quiet c : plain_char c = true -> quiet c = true.
Proof.
  assert (H : implb (plain_char c) (quiet c) = true) by (by_bytes c). intros E. by rewrite E in H.
Qed.
Lemma plain_char_free c s : plain_char c = false -> forallb plain_char (list_of_string s) = true -> free_of c s.
Proof.
  intros Hc H. apply Forall_forall. intros x Hx%list_elem_of_In ->. rewrite forallb_forall in H.
  apply H in Hx. congruence.
Qed.
Lemma plain_quiet s : forallb plain_char (list_of_string s) = true -> forallb quiet (list_of_string s) = true.
Proof. rewrite !forallb_forall. intros H c Hc. by apply plain_char_quiet, H. Qed.
Lemma quiet_free c l : quiet c = false -> forallb quiet l = true -> Forall (fun x => x <> c) l.
Proof.
  intros Hc H. apply Forall_forall. intros x Hx%list_elem_of_In ->. rewrite forallb_forall in H.
  apply H in Hx. congruence.
Qed.
Lemma quiet_no_ctl l : forallb quiet l = true -> existsb is_ctl l = false.
Proof.
  induction l as [|c l IH]; [done|]. intros [Hc Hl]%andb_true_iff. simpl. rewrite (IH Hl), orb_false_r.
  unfold quiet in Hc. by apply negb_true_iff, orb_false_iff in Hc as [_ ->].
Qed.

Lemma path_quiet l : Forall plain l -> forallb quiet (list_of_string (path_of l)) = true.
Proof.
  induction 1 as [|s l (_ & _ & Hs) _ IH]; [done|].
  change (path_of (s :: l)) with ("/" +:+ (s +:+ path_of l)). rewrite !list_of_string_app, !forallb_app, IH.
  by rewrite (plain_quiet s Hs).
Qed.

Definition escaped (s : string) : string := string_of_list (escape encodePath (list_of_string s)).

Lemma escape_path l : escape encodePath (list_of_string (path_of l)) = list_of_string (path_of (escaped <$> l)).
Proof.
  induction l as [|s l IH]; [done|].
  change (path_of (s :: l)) with ("/" +:+ (s +:+ path_of l)).
  change (path_of (escaped <$> s :: l)) with ("/" +:+ (escaped s +:+ path_of (escaped <$> l))).
  rewrite !list_of_string_app, !escape_app, IH. unfold escaped at 2. by rewrite list_of_string_of_list.
Qed.

(** Either form of the path keeps the segments apart and gives them back. *)
Lemma kept s : plain s -> free_of "/" s /\ pathUnescape s = s.
Proof.
  intros (_ & _ & Hs). split; [by apply plain_char_free|]. unfold pathUnescape.
  rewrite unescape_plain; [apply string_of_list_of_string|done|by apply plain_char_free].
Qed.
Lemma unescape_segment l : unescape encodePathSegment l = unescape encodePath l.
Proof.
  induction l as [l IH] using (induction_ltof1 _ (@length ascii)). unfold ltof in IH.
  destruct l as [|c l]; [done|]. simpl. destruct (Ascii.eqb c "%").
  - destruct l as [|a [|b l]]; [done..|]. rewrite (IH l); [done|simpl; lia].
  - rewrite (IH l); [done|simpl; lia].
Qed.
Lemma escaped_kept s : plain s -> free_of "/" (escaped s) /\ pathUnescape (escaped s) = s.
Proof.
  intros (_ & _ & Hs). split.
  - unfold free_of, escaped. rewrite list_of_string_of_list. unfold escape. apply Forall_bind.
    eapply Forall_impl; [apply (plain_char_free "/" s); [done|exact Hs]|]. intros c Hc. cbn beta in Hc.
    assert (H : implb (negb (Ascii.eqb c "/")) (forallb (fun x => negb (Ascii.eqb x "/")) (escape_byte encodePath c)) = true)
      by (clear Hc; by_bytes c).
    rewrite (proj2 (Ascii.eqb_neq c "/") Hc) in H. simpl in H. rewrite forallb_forall in H.
    apply Forall_forall. intros x Hx%list_elem_of_In. apply H, negb_true_iff, Ascii.eqb_neq in Hx. done.
  - unfold pathUnescape, escaped. rewrite list_of_string_of_list, unescape_segment, unescape_escape.
    apply string_of_list_of_string.
Qed.

Lemma clean_kept f l : Forall plain l -> (forall s, plain s -> pathUnescape (f s) = s) -> clean (f <$> l) = true.
Proof.
  intros Hl Hf.
  assert (Hd : forall s, plain s -> f s <> "" /\ dots (f s) = false).
  { intros s Hs. pose proof (Hf s Hs) as E. destruct Hs as (Hne & Hd & _).
    split; [intros E'; by rewrite E' in E|].
    unfold dots in *. apply bool_decide_eq_false in Hd. apply bool_decide_eq_false.
    intros [E'|E']; rewrite E' in E; apply Hd; [by left|by right]. }
  induction Hl as [|s l Hs _ IH]; [done|]. destruct (Hd s Hs) as [Hne Hds].
  rewrite fmap_cons. destruct (f <$> l) as [|t r]; [simpl; by rewrite Hds|].
  change (negb (bool_decide (f s = "") || dots (f s)) && clean (t :: r) = true).
  by rewrite Hds, IH, bool_decide_false.
Qed.

Lemma wire_path_of base l : server_url base -> l <> [] -> Forall plain l ->
  wire_path (base +:+ path_of l) = EscapedPath (list_of_string (path_of l)).
Proof.
  intros (host & Hb & Hh) Hl Hp. set (L := list_of_string (path_of l)).
  assert (HL : exists r, L = "/"%char :: r) by (unfold L; destruct l; [done|by eexists]).
  pose proof (path_quiet l Hp) as Hq.
  assert (exists rest, base +:+ path_of l = rest +:+ host +:+ path_of l /\ forallb quiet (list_of_string rest) = true /\
                after_scheme (rest +:+ host +:+ path_of l) = Some (host +:+ path_of l)) as (scheme & E & Hs & Ha).
  { destruct Hb as [-> | ->]; rewrite string_app_assoc; eexists; (split; [reflexivity|]); (split; [done|]);
      [apply after_scheme_http|apply after_scheme_https]. }
  rewrite E. clear E Hb. unfold wire_path. rewrite before_free; cycle 1.
  { apply quiet_free; [done|]. by rewrite !list_of_string_app, !forallb_app, Hs, (plain_quiet host Hh), Hq. }
  rewrite quiet_no_ctl by (by rewrite !list_of_string_app, !forallb_app, Hs, (plain_quiet host Hh), Hq).
  rewrite string_of_list_of_string, Ha. cbn [mbind option_bind]. rewrite before_free; cycle 1.
  { apply quiet_free; [done|]. by rewrite list_of_string_app, forallb_app, (plain_quiet host Hh), Hq. }
  rewrite list_of_string_app. fold L. destruct HL as [r HL]. rewrite HL, from_app, <- HL by (by apply plain_char_free).
  unfold EscapedPath. destruct (unescape encodePath L) as [d|] eqn:Hd; [|done]. cbn [mbind option_bind].
  destruct (validEncoded L); [by rewrite HL|].
  destruct (escape encodePath d) eqn:Hed; [|done]. exfalso.
  apply (f_equal (unescape encodePath)) in Hed. rewrite unescape_escape in Hed. injection Hed as ->.
  rewrite HL in Hd. simpl in Hd. by destruct (unescape encodePath r).
Qed.

Lemma EscapedPath_of l : Forall plain l ->
  exists f, EscapedPath (list_of_string (path_of l)) = Some (list_of_string (path_of (f <$> l))) /\
            forall s, plain s -> free_of "/" (f s) /\ pathUnescape (f s) = s.
Proof.
  intros Hp. unfold EscapedPath. rewrite unescape_plain; [|done|apply quiet_free; [done|by apply path_quiet]].
  cbn [mbind option_bind]. destruct (validEncoded _).
  - exists id. rewrite list_fmap_id. split; [done|apply kept].
  - exists escaped. split; [by rewrite escape_path|apply escaped_kept].
Qed.

(** A URL of plain segments is routed by exactly those segments. *)
Lemma arrive_plain mux m base l : server_url base -> l <> [] -> Forall plain l ->
  arrive mux m (base +:+ path_of l) = Routed (ServeHTTP mux m l).
Proof.
  intros Hb Hl Hp. unfold arrive. rewrite wire_path_of by done.
  destruct (EscapedPath_of l Hp) as (f & E & Hf). rewrite E, (EscapedPath_wire _ _ E), string_of_list_of_string.
  rewrite split_path_of; cycle 1.
  { apply Forall_fmap. eapply Forall_impl; [exact Hp|]. intros s Hs. by apply Hf. }
  cbn [tail]. rewrite clean_kept by (done || intros; by apply Hf). f_equal. f_equal.
  rewrite <- list_fmap_compose. rewrite <- (list_fmap_id l) at 2. apply list_fmap_ext. intros i s Hs. simpl.
  apply Hf. rewrite Forall_lookup in Hp. eauto.
Qed.

(** ** Run ids and ids with a slash *)
Lemma hex_plain run : run <> [] -> plain (hex run).
Proof.
  intros Hr. unfold plain, hex. rewrite list_of_string_of_list.
  assert (Hb : forall b, (length (hex_byte b) =? 2) && forallb (fun c => plain_char c && negb (Ascii.eqb c ".")) (hex_byte b) = true)
    by (intros b; by_bytes b).
  assert (Hall : forallb (fun c => plain_char c && negb (Ascii.eqb c ".")) (run ≫= hex_byte) = true).
  { induction run as [|b r IH]; [done|]. change ((b :: r) ≫= hex_byte) with (hex_byte b ++ (r ≫= hex_byte)).
    rewrite forallb_app. specialize (Hb b) as [_ ->]%andb_true_iff.
    destruct r; [done|]. by apply IH. }
  destruct run as [|b r]; [done|]. change ((b :: r) ≫= hex_byte) with (hex_byte b ++ (r ≫= hex_byte)) in *.
  specialize (Hb b) as [Hlen%Nat.eqb_eq _]%andb_true_iff. destruct (hex_byte b) as [|c [|d [|? ?]]]; try done. cbn [app] in *.
  simpl in Hall. apply andb_true_iff in Hall as [Hc Hd]. apply andb_true_iff in Hc as [Hc Hdot].
  split_and!; [done| |].
  - apply bool_decide_false. apply negb_true_iff, Ascii.eqb_neq in Hdot. simpl. intros [E|E]; congruence.
  - simpl. rewrite Hc. simpl. apply andb_true_iff in Hd as [Hd1 Hd]. apply andb_true_iff in Hd1 as [-> _]. simpl.
    revert Hd. rewrite !forallb_forall. intros Hd x Hx. by apply Hd, andb_true_iff in Hx as [? _].
Qed.

(** A handler is only reached through a pattern that matches. *)
Lemma handled_pattern (mux : Mux Handler) m path h vs :
  conflict_free mux -> Forall (fun e => pat_method e.1 <> "") mux -> m <> "HEAD" ->
  ServeHTTP mux m path = Handled h vs -> exists p, (p, h) ∈ mux /\ matched (pat_segs p) path.
Proof.
  intros Hc Hm Hh. unfold ServeHTTP.
  destruct (find mux m path) as [[[p h'] ms]|] eqn:E; [|by repeat case_match].
  case_match; [done|]. intros [= <- _]. unfold find in E.
  assert (Hs : forall m', search path (node_of m' mux) = Some ((p, h'), ms) -> (p, h') ∈ mux /\ matched (pat_segs p) path).
  { intros m' E'. pose proof (search_most_specific mux m' path Hc) as Hms. rewrite E' in Hms.
    destruct Hms as (Hin & _ & Hmt & _). split; [done|by eexists]. }
  exists p. destruct (search path (node_of m mux)) as [r|] eqn:E1; [injection E as ->; by eapply Hs|].
  rewrite decide_False in E by done. by eapply Hs.
Qed.

Definition runner_patterns (mux : Mux Handler) : bool :=
  forallb (fun e : Pattern * Handler =>
    negb (bool_decide (pat_method e.1 = "")) &&
    (negb (bool_decide (e.2 = handlePollJob \/ e.2 = handleHeartbeat)) ||
     (negb (ends_multi (pat_segs e.1)) && (length (pat_segs e.1) =? 4)))) mux.

Lemma five_segments metrics ui mux m path h vs :
  orchestrator_mux metrics ui = Some mux -> conflict_free mux -> length path = 5 -> m <> "HEAD" ->
  h = handlePollJob \/ h = handleHeartbeat -> ServeHTTP mux m path <> Handled h vs.
Proof.
  intros E Hc Hl Hm Hh Hs.
  assert (Hp : runner_patterns mux = true) by (destruct metrics, ui; vm_compute in E; injection E as <-; vm_compute; reflexivity).
  unfold runner_patterns in Hp. rewrite forallb_forall in Hp.
  apply handled_pattern in Hs as (p & Hin & Hmt); [|done| |done]; cycle 1.
  { apply Forall_forall. intros e He%list_elem_of_In. apply Hp, andb_true_iff in He as [He _].
    by apply negb_true_iff, bool_decide_eq_false in He. }
  apply list_elem_of_In, Hp, andb_true_iff in Hin as [_ Hin]. simpl in Hin. rewrite bool_decide_true in Hin by done.
  simpl in Hin. apply andb_true_iff in Hin as [He Hn]. apply negb_true_iff in He.
  apply matched_length in Hmt; [|done]. apply Nat.eqb_eq in Hn. lia.
Qed.

(** ** The clients and the orchestrator *)
Ltac plains := repeat first [apply Forall_nil_2 | apply Forall_cons_2; [assumption|]].


(** C38: Client requests reach their handlers.  For an orchestrator URL of a
    scheme and a host, a runner id without '/', '?', '#', '%' and control
    characters that is not empty and not a dot segment, and any run id, every
    request of the runner's agent and of the CLI is routed to the handler
    meant for it with the very id in its path value, whatever the flags of the
    orchestrator.  The agent does not escape the id: when it has a slash in
    the middle, registering still reaches its handler and neither the polls
    nor the heartbeats of that runner ever reach theirs. *)
Theorem requests_arrive metrics ui base runner run :
  server_url base -> plain runner -> run <> [] ->
  exists mux, orchestrator_mux metrics ui = Some mux /\
    arrive mux "POST" (register_url base) = Routed (Handled handleRegister []) /\
    arrive mux "POST" (heartbeat_url base runner) = Routed (Handled handleHeartbeat [("id", runner)]) /\
    arrive mux "GET" (poll_url base runner) = Routed (Handled handlePollJob [("id", runner)]) /\
    arrive mux "POST" (scans_url base) = Routed (Handled handleQueueScan []) /\
    arrive mux "POST" (events_url base (hex run)) = Routed (Handled handleEvents [("run_id", hex run)]) /\
    arrive mux "POST" (result_url base (hex run)) = Routed (Handled handleScanResult [("run_id", hex run)]) /\
    forall rest, plain rest ->
      let slashed := runner +:+ "/" +:+ rest in
      (exists o, arrive mux "GET" (poll_url base slashed) = Routed o /\ forall vs, o <> Handled handlePollJob vs) /\
      (exists o, arrive mux "POST" (heartbeat_url base slashed) = Routed o /\ forall vs, o <> Handled handleHeartbeat vs).
Proof.
  intros Hb Hr Hrun%hex_plain. destruct (orchestrator_mux_ok metrics ui) as (mux & E & Hc). exists mux. split; [done|].
  assert (Ha : forall id, plain id -> Forall (answered mux) (api_endpoints id)).
  { intros id (Hid & _ & _). pose proof (endpoints_answered metrics ui mux id E Hc Hid) as Ha.
    unfold endpoints in Ha. by apply Forall_app in Ha as [Ha _]. }
  pose proof (Ha runner Hr) as Har. pose proof (Ha _ Hrun) as Hau. clear Ha.
  unfold api_endpoints, answered in Har, Hau. rewrite !Forall_cons in Har, Hau. simpl in Har, Hau.
  assert (Hlit : Forall plain ["v1"; "runners"; "register"; "heartbeat"; "jobs"; "scans"; "runs"; "events"; "result"])
    by (repeat constructor; done).
  rewrite !Forall_cons in Hlit.
  assert (Hroute : forall m l h vs, l <> [] -> Forall plain l -> ServeHTTP mux m l = Handled h vs ->
                     arrive mux m (base +:+ path_of l) = Routed (Handled h vs)).
  { intros m l h vs Hl Hp <-. by apply arrive_plain. }
  destruct_and! Hlit. destruct_and! Har. destruct_and! Hau. split_and!.
  - by apply (Hroute "POST" ["v1"; "runners"; "register"]); [|plains|].
  - by apply (Hroute "POST" ["v1"; "runners"; runner; "heartbeat"]); [|plains|].
  - by apply (Hroute "GET" ["v1"; "runners"; runner; "jobs"]); [|plains|].
  - by apply (Hroute "POST" ["v1"; "scans"]); [|plains|].
  - by apply (Hroute "POST" ["v1"; "runs"; hex run; "events"]); [|plains|].
  - by apply (Hroute "POST" ["v1"; "runs"; hex run; "result"]); [|plains|].
  - intros rest Hrest slashed.
    assert (Hs : forall last, base +:+ "/v1/runners/" +:+ slashed +:+ "/" +:+ last =
                              base +:+ path_of ["v1"; "runners"; runner; rest; last]).
    { intros last. cbn [path_of]. unfold slashed. rewrite !string_app_assoc, string_app_nil_r. reflexivity. }
    split; eexists; (split; [etransitivity; [refine (f_equal _ (Hs _))|apply arrive_plain; [done|done|plains]]|]);
      intros vs; eapply five_segments; eauto.
Qed.

Lemma requests_arrive_witness : exists mux, orchestrator_mux false true = Some mux /\
  arrive mux "GET" (poll_url "https://orch:8443" "build host 7") = Routed (Handled handlePollJob [("id", "build host 7")]).
Proof.
  destruct (requests_arrive false true "https://orch:8443" "build host 7" ["a"%char; "z"%char]) as (mux & E & _ & _ & H & _).
  - exists "orch:8443". split; [by right|done].
  - done.
  - discriminate.
  - by exists mux.
Defined.

(** Other ids the agent does not escape: a "?" ends the path, a "%" that
    starts no escape stops the request, a well formed one is decoded, and ".."
    is cleaned away. *)
Example unescaped_ids :
  (mux ← orchestrator_mux false false; Some
    ((fun id => arrive mux "GET" (poll_url "http://orch" id)) <$> ["a?b"; "50%"; "a%2Fb"; ".."; ""])) =
  Some [Routed NotFound; BadURL; Routed (Handled handlePollJob [("id", "a/b")]); Redirected; Redirected].
Proof. vm_compute. reflexivity. Qed.

(** ** The driver and the daemon *)
Import Docker.Docker Args.Args.

(** The ids the daemon hands out, and a timeout that is an int. *)
Definition wellformed (e : Docker.Docker.Endpoint) : Prop :=
  match e with
  | ContainerStart id | ContainerInspect id | ContainerWait id | ContainerDelete id _ => free_of "/" id /\ free_of "?" id
  | ContainerStop id seconds => free_of "/" id /\ free_of "?" id /\ int64 seconds
  | _ => True
  end.

(** The text after the last but one slash of the path, the query included. *)
Definition segments (e : Docker.Docker.Endpoint) : list string :=
  match e with
  | ImagesCreate f t => ["images"; "create?fromImage=" +:+ QueryEscape f +:+ "&tag=" +:+ QueryEscape t]
  | ImageInspect image => ["images"; PathEscape image; "json"]
  | ContainersCreate => ["containers"; "create"]
  | ContainerStart id => ["containers"; id; "start"]
  | ContainerInspect id => ["containers"; id; "json"]
  | ContainerWait id => ["containers"; id; "wait"]
  | ContainerStop id seconds => ["containers"; id; "stop?t=" +:+ QueryEscape (decimal seconds)]
  | ContainerDelete id force => ["containers"; id +:+ "?" +:+ (if force then "force=true" else "")]
  end.

Lemma call_segments e : (call e).2 = path_of (segments e).
Proof.
  destruct e as [f t|image| |id|id|id|id s|id force]; cbn [call snd segments path_of]; rewrite ?string_app_nil_r;
    try reflexivity. destruct force; reflexivity.
Qed.

Lemma segments_free e : wellformed e -> Forall (free_of "/") (segments e).
Proof.
  assert (Hq : forall s, free_of "/" (QueryEscape s)) by (intros s; apply QueryEscape_free; vm_compute; reflexivity).
  assert (Hp : forall s, free_of "/" (PathEscape s)) by (intros s; apply PathEscape_free; vm_compute; reflexivity).
  assert (Hl : forall s, forallb (fun c => negb (Ascii.eqb c "/")) (list_of_string s) = true -> free_of "/" s).
  { intros s H. apply Forall_forall. intros x Hx%list_elem_of_In. rewrite forallb_forall in H.
    by apply H, negb_true_iff, Ascii.eqb_neq in Hx. }
  intros Hw. destruct e as [f t|image| |id|id|id|id s|id force]; cbn [segments wellformed] in *; destruct_and?;
    repeat apply (Forall_cons_2 (free_of "/")); try apply (Forall_nil_2 (free_of "/")); rewrite ?free_of_app; split_and?;
    first [apply Hq|apply Hp|assumption|apply Hl; by try destruct force].
Qed.

Lemma segments_inj e1 e2 :
  (call e1).1 = (call e2).1 -> wellformed e1 -> wellformed e2 -> segments e1 = segments e2 -> e1 = e2.
Proof.
  assert (Ha : forall s, free_of "&" (QueryEscape s)) by (intros s; apply QueryEscape_free; vm_compute; reflexivity).
  destruct e1 as [f t|i| |id|id|id|id s|id b], e2 as [f' t'|i'| |id'|id'|id'|id' s'|id' b']; intros Hm Hw1 Hw2 E;
    try discriminate Hm; simpl in E; try (by simplify_eq).
  - injection E as E. apply (cut_inj "&" _ ("tag=" +:+ QueryEscape t) _ ("tag=" +:+ QueryEscape t')) in E as [E1 E2]; [|apply Ha..].
    injection E2 as E2. by apply QueryEscape_inj in E1, E2; subst.
  - injection E as E. by apply PathEscape_inj in E; subst.
  - injection E as -> E. apply QueryEscape_inj in E. destruct Hw1 as (_ & _ & H1), Hw2 as (_ & _ & H2).
    apply (f_equal ParseInt0) in E. rewrite !ParseInt0_decimal in E by done. by simplify_eq.
  - injection E as E. apply cut_inj in E as [-> E]; [|by apply Hw1|by apply Hw2]. by destruct b, b'.
Qed.

(** C32: The method and the URL the driver writes determine its call, and hold the image
    reference intact.  For any image, and for container ids without '/' and '?', two
    calls with the same request are the same call; the path is cut at its
    slashes into the segments the driver meant, whatever the image holds;
    the segment of an inspected image, and the query values of a pulled
    one, decode to exactly that reference and tag.  (This is about the text the
    driver sends.  A server that decoded %2F before cutting the path would
    see other segments; the daemon's router is not part of this program.) *)
Theorem docker_requests_distinct d e1 e2 :
  wellformed e1 -> wellformed e2 ->
  (request d e1 = request d e2 -> e1 = e2) /\
  (request d e1).2 = url d (path_of (segments e1)) /\ Forall (free_of "/") (segments e1) /\
  (forall image, e1 = ImageInspect image ->
     (request d e1).2 = url d ("/images/" +:+ PathEscape image +:+ "/json") /\ pathUnescape (PathEscape image) = image) /\
  (forall image tag, e1 = ImagesCreate image tag ->
     exists f t, (request d e1).2 = url d ("/images/create?fromImage=" +:+ f +:+ "&tag=" +:+ t) /\
       unescape encodeQueryComponent (list_of_string f) = Some (list_of_string image) /\
       unescape encodeQueryComponent (list_of_string t) = Some (list_of_string tag)).
Proof.
  intros Hw1 Hw2. split_and!.
  - unfold request, url. intros E. injection E as Hm Hp. apply segments_inj; [done..|].
    rewrite !call_segments in Hp. do 2 apply (inj (String.append _)) in Hp.
    apply path_of_inj; [by apply segments_free..|done].
  - unfold request. cbn [snd]. by rewrite call_segments.
  - by apply segments_free.
  - intros image ->. split; [reflexivity|apply PathEscape_undone].
  - intros image tag ->. exists (QueryEscape image), (QueryEscape tag). split; [reflexivity|].
    unfold QueryEscape. by rewrite !list_of_string_of_list, !unescape_escape.
Qed.

Lemma docker_requests_distinct_witness :
  request (NewDockerDriver (mkDockerOptions "" "")) (ImageInspect "../containers/ab") =
    ("GET", "http://docker/v1.41/images/..%2Fcontainers%2Fab/json") /\
  request (NewDockerDriver (mkDockerOptions "" "")) (ImageInspect "../containers/ab") <>
    request (NewDockerDriver (mkDockerOptions "" "")) (ContainerInspect "ab").
Proof.
  split; [vm_compute; reflexivity|]. intros E.
  apply (docker_requests_distinct (NewDockerDriver (mkDockerOptions "" ""))) in E; [discriminate|done|].
  split; by repeat constructor.
Defined.
End Requests.
