(* ===== verification/Ui.v ===== *)
(** * ui: the dashboard's pages

    internal/orchestrator/ui: ui.go (helpers), runs.go, deviations.go,
    overview.go, packages.go, allowlist.go, notifiers.go and config.go over any
    storage backend; the lineage and pending pages are Lineage.v and Pending.v.
    A handler returns the data its template is rendered with, or the status of
    an error page.  Map iteration orders are arguments; a Go map decoded from
    JSON is its entries, the last one of a key counting. *)
From Stdlib Require Import Ascii.
From stdpp Require Import prelude strings gmap list sorting.
From S2P Require Import Prelude GoTime Json Sql Storage Sqlite SqliteSpec Proto Api Lineage Fingerprint.

Module Ui.
Import Lineage.
Import (hints) SqliteSpec.SqliteSpec.
Import (hints) Sqlite.Sqlite.

(** ** Helpers (ui.go) *)
Definition chipOrderRank (t : string) : nat :=
  if decide (t = "exec") then 1
  else if decide (t = "net_connect") then 2
  else if decide (t = "dns_query") then 3
  else if decide (t = "tls_sni") then 4
  else if decide (t = "file_access") then 5
  else 99.

Definition chipColorClass (eventType : string) : string :=
  if decide (eventType = "file_access") then "chip-file"
  else if decide (eventType = "exec") then "chip-exec"
  else if decide (eventType = "net_connect") then "chip-net"
  else if decide (eventType = "dns_query") then "chip-dns"
  else if decide (eventType = "tls_sni") then "chip-tls"
  else "chip-info".

Definition severityClass (s : string) : string :=
  if decide (s = "critical") then "sev-critical"
  else if decide (s = "high") then "sev-high"
  else if decide (s = "medium") then "sev-medium"
  else if decide (s = "low") then "sev-low"
  else "sev-info".

Definition shortID (id : string) : string := if 12 <? String.length id then slice_to id 12 else id.
Definition truncate (s : string) (n : nat) : string :=
  if String.length s <=? n then s
  else slice_to s n +:+ string_of_list ["226"%char; "128"%char; "166"%char].
Definition derefTime (t : option time) : time := default zero_time t.
Definition joinStrings (sep : string) (l : list string) : string :=
  (foldl (fun '(out, first) s => (out +:+ (if first : bool then "" else sep) +:+ s, false)) ("", true) l).1.

(** An entry of a chip row: an event type and its count. *)
Abbreviation countEntry := (string * nat)%type.
Definition count_le (x y : countEntry) : Prop :=
  if decide (chipOrderRank x.1 = chipOrderRank y.1) then string_le x.1 y.1 = true
  else chipOrderRank x.1 < chipOrderRank y.1.
#[export] Instance count_le_dec x y : Decision (count_le x y).
Proof. unfold count_le. case_decide; apply _. Defined.
Definition rank_le (x y : countEntry) : Prop := chipOrderRank x.1 <= chipOrderRank y.1.
#[export] Instance rank_le_dec x y : Decision (rank_le x y).
Proof. unfold rank_le. apply _. Defined.

(** [order_by] is a stable sort. *)
Definition sortedCounts (iter : list countEntry -> list countEntry) (m : gmap string nat) : list countEntry :=
  order_by count_le (iter (map_to_list m)).

(** The insertion sort of allowlist.go, by swaps in place. *)
Definition string_gt (s t : string) : bool := negb (string_le s t).
Fixpoint sift (j : nat) (s : list string) : list string :=
  match j with
  | O => s
  | S j' => match s !! j', s !! j with
            | Some a, Some b => if string_gt a b then sift j' (<[j' := b]> (<[j := a]> s)) else s
            | _, _ => s
            end
  end.
Definition sortStrings (s : list string) : list string :=
  foldl (fun s i => sift i s) s (seq 1 (length s - 1)).

(** ** Request parameters *)
Definition Atoi (s : string) : option Z := ParseInt s.
Definition parseLimit (raw : string) (def max : Z) : Z :=
  if decide (raw = "") then def else
  match Atoi raw with
  | None => def
  | Some n => if (n <? 1)%Z then def else if (max <? n)%Z then max else n
  end.

(** The event id of a path: the sum wraps at 64 bits. *)
Definition parseInt64 (s : string) : option Z :=
  foldl (fun acc c => match acc, digit_of c with
                      | Some n, Some d => Some (wrapS 64 (wrapS 64 (n * 10) + d))
                      | _, _ => None
                      end) (Some 0%Z) (list_of_string s).

(** ** Reading event payloads (runs.go, deviations.go) *)
Section payload.
Context (conv_int : json -> Z).

Definition decode_map (data : jdata) : option (list (string * json)) := unmarshal_object data.

Definition asString (v : option json) : string := match v with Some (JStr s) => s | _ => "" end.
Definition asNumberStr (v : option json) : string :=
  match v with
  | Some (JNum n) => decimal (asInt conv_int (Some (JNum n)))
  | Some (JFrac l) => decimal (asInt conv_int (Some (JFrac l)))
  | _ => ""
  end.

Definition extractField (data : jdata) (f : string) : string :=
  match decode_map data with Some m => asString (field m f) | None => "" end.

Definition extractTags (data : jdata) : Z :=
  match decode_map data with
  | Some m => match field m "Header" with Some (JObj h) => asInt conv_int (field h "Tags") | _ => 0%Z end
  | None => 0%Z
  end.

Definition summarizeEvent (eventType : string) (data : jdata) : string :=
  match decode_map data with
  | None => ""
  | Some m =>
      if decide (eventType = "file_access") then asString (field m "PathName")
      else if decide (eventType = "exec") then asString (field m "BinaryPathStr")
      else if decide (eventType = "net_connect") then
        let ip := asString (field m "DestIP") in
        let port := asNumberStr (field m "DestPort") in
        if decide (port = "") then ip else ip +:+ ":" +:+ port
      else if decide (eventType = "dns_query") then asString (field m "QName")
      else if decide (eventType = "tls_sni") then asString (field m "SNI")
      else ""
  end.

(** [byte(int(n))] of the numbers, without the trailing zero bytes, in hex. *)
Definition hex_bytes (arr : list json) : list ascii :=
  omap (fun v => match v with
                 | JNum _ | JFrac _ => Some (ascii_of_N (Z.to_N (wrapU 8 (asInt conv_int (Some v)))))
                 | _ => None
                 end) arr.
Fixpoint drop_zeros (l : list ascii) : list ascii :=
  match l with
  | [] => []
  | b :: l' => if decide (b = "000"%char) then drop_zeros l' else l
  end.
Definition bytesToHex (arr : list json) : string := hex (reverse (drop_zeros (reverse (hex_bytes arr)))).

(** [delete(m, k)] and [m[k] = v]. *)
Definition map_delete (k : string) (m : list (string * json)) : list (string * json) :=
  filter (fun kv => kv.1 <> k) m.
Definition map_set (k : string) (v : json) (m : list (string * json)) : list (string * json) :=
  map_delete k m ++ [(k, v)].

Definition noise_keys : list string :=
  ["Path"; "BinaryPath"; "Argv"; "ArgvLens"; "DestAddr"; "Query"; "RawPayload"].

Definition strip_header (hdr : list (string * json)) : list (string * json) :=
  let hdr := map_delete "Comm" hdr in
  let hdr := match field hdr "RunID" with
             | Some (JArr arr) => map_set "RunID" (JStr (bytesToHex arr)) hdr
             | _ => hdr
             end in
  map_delete "Type" hdr.
Definition strip_ancestor (e : json) : json :=
  match e with JObj entry => JObj (map_delete "Comm" entry) | _ => e end.

Definition stripEventNoise (m : list (string * json)) : list (string * json) :=
  let m := foldl (fun m k => map_delete k m) m noise_keys in
  let m := match field m "Header" with
           | Some (JObj hdr) => map_set "Header" (JObj (strip_header hdr)) m
           | _ => m
           end in
  match field m "Ancestors" with
  | Some (JArr anc) => map_set "Ancestors" (JArr (strip_ancestor <$> anc)) m
  | _ => m
  end.

(** What is printed: an indented value, or the bytes as they are.  A payload
    [null] decodes to the nil map, which prints as null. *)
Inductive printed : Type := Indented (v : json) | AsIs.
Definition rawPrettyJSON (raw : jdata) : printed :=
  match raw with Some v => Indented v | None => AsIs end.
Definition prettyJSON (raw : jdata) : printed :=
  match raw with
  | Some (JObj m) => Indented (JObj (stripEventNoise m))
  | Some JNull => Indented JNull
  | _ => rawPrettyJSON raw
  end.
End payload.

(** ** Pages *)
Inductive page (A : Type) : Type := Page (data : A) | HttpError (code : Z).
Arguments Page {A}. Arguments HttpError {A}.

Record formattedEvent : Type := mkFormattedEvent {
  fe_ID : Z; fe_Type : string; fe_Comm : string; fe_Summary : string; fe_Tags : Z
}.

Record RunDetail : Type := mkRunDetail {
  rd_Run : Run; rd_Events : list formattedEvent; rd_EventCount : nat; rd_TotalEvents : nat;
  rd_Summary : list countEntry; rd_TypeFilter : string; rd_Deviations : list DeviationRow
}.
Record DeviationDetail : Type := mkDeviationDetail {
  dd_Deviation : DeviationRow; dd_Run : option Run; dd_Evidence : option EventRow; dd_JSON : option printed
}.
Record overviewStats : Type := mkOverviewStats {
  WatchedCount : nat; PackagesTotal : nat; RunsTotal : Z; RunsBaseline : Z;
  DeviationsTotal : nat; DeviationsPackages : nat; EventsDropped : Z
}.
Record AllowView : Type := mkAllowView {
  av_Global : list AllowEntry; av_ByPkg : gmap string (list AllowEntry); av_PkgList : list string;
  av_Total : nat; av_Filtered : nat
}.

Definition tally (events : list EventRow) : gmap string nat :=
  foldl (fun m e => <[Ev_Type e := default 0 (m !! Ev_Type e) + 1]> m) ∅ events.

Definition detailLimit : Z := 500.
Definition staleAfter : duration := (60 * Second)%Z.

Section pages.
Context {S : Type} `{Backend S}.
Context (iter : list countEntry -> list countEntry) (conv_int : json -> Z).

(** [or_nil]: a failed query is logged and its rows are nil. *)
Definition or_nil {A} (r : res (list A)) : list A := match r with Ok l => l | Err _ => [] end.

Definition handleRuns (pkg limit : string) (s : S) : (list Run * Z) * S :=
  let n := parseLimit limit 100 1000 in
  let '(r, s) := (if decide (pkg = "") then ListRuns n else ListRunsByPackage pkg n) s in
  ((or_nil r, n), s).

(** A row by its id or, when there is none, by a prefix of it; the status of
    the error page otherwise. *)
Definition by_id_or_prefix {A} (get resolve : string -> M S A) (id : string) (s : S) : (A + Z) * S :=
  match get id s with
  | (Ok a, s) => (inl a, s)
  | (Err e, s) =>
      if errors_Is e ErrNotFound then
        match resolve id s with
        | (Ok a, s) => (inl a, s)
        | (Err e, s) =>
            (inr (if errors_Is e ErrAmbiguous then 400 else if errors_Is e ErrNotFound then 404 else 500)%Z, s)
        end
      else (inr 500%Z, s)
  end.

Definition format_event (e : EventRow) : formattedEvent :=
  mkFormattedEvent (Ev_ID e) (Ev_Type e) (extractField (Ev_Data e) "CommStr")
    (summarizeEvent conv_int (Ev_Type e) (Ev_Data e)) (extractTags conv_int (Ev_Data e)).

(** The rows the ?type= filter leaves. *)
Definition of_type (typeFilter : string) (events : list EventRow) : list EventRow :=
  filter (fun e => typeFilter = "" \/ Ev_Type e = typeFilter) events.

Definition handleRunDetail (id typeFilter : string) (s : S) : page RunDetail * S :=
  if decide (id = "") then (HttpError 404, s) else
  match by_id_or_prefix GetRun ResolveRunPrefix id s with
  | (inr code, s) => (HttpError code, s)
  | (inl run, s) =>
      let '(r, s) := ListEventsByRun (Run_ID run) detailLimit s in
      let events := or_nil r in
      let summary := order_by rank_le (iter (map_to_list (tally events))) in
      let formatted := format_event <$> of_type typeFilter events in
      let '(d, s) := ListDeviations (Run_ID run) s in
      (Page (mkRunDetail run formatted (length formatted) (length events) summary typeFilter (or_nil d)), s)
  end.

Definition handleDeviations (pkg sev runID limit : string) (s : S) : list DeviationRow * S :=
  let '(r, s) := ListDeviationsFiltered (mkDeviationFilter pkg sev runID (parseLimit limit 100 1000)) s in
  (or_nil r, s).

Definition handleDeviationDetail (id : string) (s : S) : page DeviationDetail * S :=
  if decide (id = "") then (HttpError 404, s) else
  match by_id_or_prefix GetDeviation ResolveDeviationPrefix id s with
  | (inr code, s) => (HttpError code, s)
  | (inl dev, s) =>
      let '(evidence, s) :=
        if (0 <? Dev_EvidenceEventID dev)%Z then
          match GetEvent (Dev_EvidenceEventID dev) s with
          | (Ok e, s) => (Some e, s)
          | (Err _, s) => (None, s)
          end
        else (None, s) in
      let shown := match evidence with
                   | Some e => if (0 <? Ev_ID e)%Z then Some (prettyJSON conv_int (Ev_Data e)) else None
                   | None => None
                   end in
      let '(run, s) := GetRun (Dev_RunID dev) s in
      (Page (mkDeviationDetail dev (match run with Ok r => Some r | Err _ => None end) evidence shown), s)
  end.

Definition handleEventDetail (idStr : string) (s : S) : page (EventRow * printed) * S :=
  if decide (idStr = "") then (HttpError 404, s) else
  match parseInt64 idStr with
  | None => (HttpError 400, s)
  | Some id =>
      match GetEvent id s with
      | (Ok ev, s) => (Page (ev, prettyJSON conv_int (Ev_Data ev)), s)
      | (Err e, s) => (HttpError (if errors_Is e ErrNotFound then 404 else 500), s)
      end
  end.

(** [runnersFn] lists the registered runners, in iteration order. *)
Definition is_stale (now : time) (r : Api.RunnerSnapshot) : bool :=
  negb (IsZero (Api.sn_LastSeen r)) && (staleAfter <? now - Api.sn_LastSeen r)%Z.

Definition handleOverview (runnersFn : list Api.RunnerSnapshot) (now : time) (path : string) (s : S) :
    page (overviewStats * list (Api.RunnerSnapshot * bool) * list Run * list DeviationRow) * S :=
  if decide (path <> "/ui/") then (HttpError 404, s) else
  let '(watched, s) := ListWatchedPackages s in
  let '(pkgs, s) := ListPackages s in
  let '(dropped, s) := EventsDroppedTotal s in
  let '(devs, s) := ListDeviationsFiltered (mkDeviationFilter "" "" "" 0) s in
  let '(runs, s) := ListRuns 10 s in
  let '(recent, s) := ListDeviationsFiltered (mkDeviationFilter "" "" "" 10) s in
  let stats := mkOverviewStats (length (or_nil watched)) (length (or_nil pkgs))
    (foldl (fun n p => (n + Ps_RunsTotal p)%Z) 0%Z (or_nil pkgs))
    (foldl (fun n p => (n + Ps_RunsBaseline p)%Z) 0%Z (or_nil pkgs))
    (length (or_nil devs)) 0 (match dropped with Ok n => n | Err _ => 0%Z end) in
  let views := (fun r => (r, is_stale now r)) <$> order_by (key_le Api.sn_ID) runnersFn in
  (Page (stats, views, or_nil runs, or_nil recent), s).

Definition handlePackages (s : S) : (list PackageSummary * list string) * S :=
  let '(pkgs, s) := ListPackages s in
  let '(watched, s) := ListWatchedPackages s in
  ((order_by (key_le Ps_Name) (or_nil pkgs), Wp_Name <$> or_nil watched), s).

Definition handlePackageDetail (name : string) (s : S) :
    page (list Run * list ReleaseRow * list BaselineRow * nat) * S :=
  if decide (name = "") then (HttpError 404, s) else
  let '(runs, s) := ListRunsByPackage name 50 s in
  let '(releases, s) := ListReleasesByPackage name 50 s in
  let '(baseline, s) := LoadBaseline name s in
  (Page (or_nil runs, or_nil releases, or_nil baseline, length (or_nil baseline)), s).

Definition bucket (pkg : string) (v : list AllowEntry * gmap string (list AllowEntry)) (e : AllowEntry) :
    list AllowEntry * gmap string (list AllowEntry) :=
  if decide (pkg <> "" /\ Al_PackageName e <> "" /\ Al_PackageName e <> pkg) then v
  else if decide (Al_PackageName e = "") then (v.1 ++ [e], v.2)
  else (v.1, <[Al_PackageName e := default [] (v.2 !! Al_PackageName e) ++ [e]]> v.2).

Definition sumLens (m : list (list AllowEntry)) : nat := foldl (fun n v => n + length v) 0 m.

(** [keys] is the order the packages come out of the map in. *)
Definition handleAllowlist (keys : list string -> list string) (pkg : string) (s : S) : AllowView * S :=
  let '(r, s) := ListAllowEntries s in
  let '(glob, byPkg) := foldl (bucket pkg) ([], ∅) (or_nil r) in
  (mkAllowView glob byPkg (sortStrings (keys (map_to_list byPkg).*1)) (length (or_nil r))
     (length glob + sumLens (map_to_list byPkg).*2), s).

Definition handleNotifiers (s : S) : list NotifierRow * S :=
  let '(r, s) := ListNotifiers s in (or_nil r, s).

(** [YAMLExists] and the text, an error, or nothing without a path. *)
Inductive yaml_view : Type := NoPath | Text (raw : string) | Missing | Unreadable (e : error).
Definition handleConfig (ReadFile : string -> res string) (is_not_exist : error -> bool) (configPath : string)
    (paths : list WatchedPath) (s : S) : (list WatchedPath * yaml_view * option (list AllowEntry)) * S :=
  let yaml := if decide (configPath = "") then NoPath else
    match ReadFile configPath with
    | Ok raw => Text raw
    | Err e => if is_not_exist e then Missing else Unreadable e
    end in
  let '(r, s) := ListAllowEntries s in
  ((paths, yaml, match r with Ok l => Some l | Err _ => None end), s).
End pages.

(** ** Sorting *)
Lemma string_gt_le a b : string_gt a b = true -> string_le b a = true.
Proof. unfold string_gt. intros Hg%negb_true_iff. destruct (string_le_total a b); congruence. Qed.

Definition str_le (a b : string) : Prop := string_le a b = true.
#[local] Instance str_le_trans : Transitive str_le.
Proof. intros a b c. apply string_le_trans. Qed.

(** The sift moves [x] left past the larger strings of a sorted prefix. *)
Fixpoint insert_left (x : string) (r : list string) : list string :=
  match r with
  | [] => [x]
  | a :: r' => if string_gt a x then a :: insert_left x r' else x :: a :: r'
  end.

(** [r] is the prefix, last element first. *)
Lemma sift_insert r x k : sift (length r) (reverse r ++ x :: k) = reverse (insert_left x r) ++ k.
Proof.
  revert k. induction r as [|a r IH]; intros k; [done|]. cbn [length sift insert_left].
  rewrite reverse_cons, <- !app_assoc.
  assert (E1 : (reverse r ++ [a] ++ x :: k) !! length r = Some a)
    by (rewrite lookup_app_r by (rewrite length_reverse; lia); by rewrite length_reverse, Nat.sub_diag).
  assert (E2 : (reverse r ++ [a] ++ x :: k) !! S (length r) = Some x).
  { rewrite lookup_app_r by (rewrite length_reverse; lia). rewrite length_reverse.
    by replace (S (length r) - length r) with 1 by lia. }
  rewrite E1, E2. destruct (string_gt a x).
  - rewrite (insert_app_r_alt _ _ (S (length r))) by (rewrite length_reverse; lia).
    rewrite insert_app_r_alt by (rewrite length_reverse; lia). rewrite length_reverse.
    replace (S (length r) - length r) with 1 by lia. rewrite Nat.sub_diag. simpl.
    rewrite IH, reverse_cons, <- (assoc app). done.
  - by rewrite !reverse_cons, <- !(assoc app).
Qed.

Lemma insert_left_perm x r : insert_left x r ≡ₚ x :: r.
Proof.
  induction r as [|a r IH]; simpl; [done|]. destruct (string_gt a x); [|done]. rewrite IH. apply Permutation_swap.
Qed.

Lemma insert_left_sorted x r :
  StronglySorted (flip str_le) r -> StronglySorted (flip str_le) (insert_left x r).
Proof.
  induction 1 as [|a r Hr IH Ha]; simpl; [by repeat constructor|].
  destruct (string_gt a x) eqn:E.
  - constructor; [done|]. rewrite insert_left_perm. constructor; [by apply string_gt_le|done].
  - apply negb_false_iff in E. constructor; [by constructor|]. constructor; [exact E|].
    eapply Forall_impl; [exact Ha|]. intros y Hy. unfold flip, str_le in *. by eapply string_le_trans.
Qed.

(** After [n] rounds the first [n + 1] strings are sorted. *)
Lemma rounds_sorted a l :
  exists r, foldl (fun s i => sift i s) (a :: l) (seq 1 (length l)) = reverse r /\
    r ≡ₚ a :: l /\ StronglySorted (flip str_le) r.
Proof.
  assert (Hgen : forall k r, StronglySorted (flip str_le) r ->
            exists r', foldl (fun s i => sift i s) (reverse r ++ k) (seq (length r) (length k)) = reverse r' /\
              r' ≡ₚ r ++ k /\ StronglySorted (flip str_le) r').
  { induction k as [|x k IH]; intros r Hr; simpl.
    - exists r. by rewrite !app_nil_r.
    - rewrite sift_insert.
      assert (Hl : length (insert_left x r) = S (length r)) by (by rewrite insert_left_perm).
      rewrite <- Hl. destruct (IH (insert_left x r) (insert_left_sorted x r Hr)) as (r' & E & Hp & Hs).
      exists r'. split; [done|]. split; [|done]. rewrite Hp, insert_left_perm. simpl. by rewrite Permutation_middle. }
  destruct (Hgen l [a]) as (r & E & Hp & Hs); [by repeat constructor|]. by exists r.
Qed.

Lemma sortStrings_sorted s : sortStrings s ≡ₚ s /\ StronglySorted str_le (sortStrings s).
Proof.
  destruct s as [|a l]; [split; [done|constructor]|]. unfold sortStrings. replace (length (a :: l) - 1) with (length l) by (simpl; lia).
  destruct (rounds_sorted a l) as (r & -> & Hp & Hs). split; [by rewrite reverse_Permutation|].
  clear Hp. induction Hs as [|x r Hr IH Hx]; [constructor|]. rewrite reverse_cons. apply StronglySorted_app_2.
  - intros y z Hy ->%list_elem_of_singleton. rewrite Forall_forall in Hx. apply Hx. by rewrite reverse_Permutation in Hy.
  - exact IH.
  - by repeat constructor.
Qed.

(** The hand-written insertion sort sorts.  By in-place swaps it leaves the list the
    library sort would: the same strings in byte order, whatever order the
    map's keys came in. *)
Theorem sortStrings_reference s s' :
  s ≡ₚ s' ->
  sortStrings s ≡ₚ s /\ Sorted str_le (sortStrings s) /\
  sortStrings s = order_by (key_le id) s /\ sortStrings s' = sortStrings s.
Proof.
  intros Hp. destruct (sortStrings_sorted s) as [H1 H2], (sortStrings_sorted s') as [H1' H2'].
  assert (Hanti : forall a b, str_le a b -> str_le b a -> a = b) by apply string_le_antisym.
  split; [done|]. split; [by apply StronglySorted_Sorted|]. split.
  - apply (Sorted_unique_strong str_le); [by auto|by apply StronglySorted_Sorted| |by rewrite order_by_perm].
    assert (Total (key_le (A := string) id)) by (intros a b; apply string_le_total).
    apply (Sorted_merge_sort (key_le id)).
  - apply (StronglySorted_unique_strong str_le); [by auto|done|done|]. by rewrite H1, H1', Hp.
Qed.

Lemma sortStrings_reference_witness :
  sortStrings ["left-pad"; "axios"; "react"] = ["axios"; "left-pad"; "react"] /\
  sortStrings ["react"; "left-pad"; "axios"] = sortStrings ["left-pad"; "axios"; "react"].
Proof.
  split; [reflexivity|]. apply sortStrings_reference. apply (bool_decide_unpack _). vm_compute. exact I.
Defined.

(** ** Request parameters *)

(** Page parameters stay in bounds.  Whatever ?limit= holds — nothing, junk, a sign,
    more digits than an int has — the limit used is between 1 and the page's
    maximum, and is the number given when that is in range. *)
Theorem parseLimit_bounds raw def max :
  (1 <= def <= max)%Z ->
  (1 <= parseLimit raw def max <= max)%Z /\
  (forall n, Atoi raw = Some n -> (1 <= n <= max)%Z -> parseLimit raw def max = n).
Proof.
  intros Hd. unfold parseLimit. split.
  - case_decide; [lia|]. destruct (Atoi raw); [|lia]. destruct (Z.ltb_spec z 1), (Z.ltb_spec max z); lia.
  - intros n E Hn. rewrite decide_False by (intros ->; done). rewrite E.
    destruct (Z.ltb_spec n 1), (Z.ltb_spec max n); lia.
Qed.

Lemma parseLimit_bounds_witness :
  (1 <= parseLimit "99999999999999999999" 100 1000 <= 1000)%Z /\ parseLimit "250" 100 1000 = 250%Z.
Proof.
  split; [apply (parseLimit_bounds "99999999999999999999" 100 1000); lia|].
  apply (proj2 (parseLimit_bounds "250" 100 1000 ltac:(lia)) 250%Z); [reflexivity|lia].
Defined.

(** The number a string of digits denotes. *)
Definition digits_value (s : string) : option Z :=
  foldl (fun acc c => match acc, digit_of c with Some n, Some d => Some (n * 10 + d)%Z | _, _ => None end)
    (Some 0%Z) (list_of_string s).

Lemma wrapS_eqm x : exists k, wrapS 64 x = (x + k * 2 ^ 64)%Z.
Proof.
  unfold wrapS. exists (- ((x + 2 ^ (64 - 1)) / 2 ^ 64))%Z.
  pose proof (Z.div_mod (x + 2 ^ (64 - 1)) (2 ^ 64) ltac:(lia)). lia.
Qed.
Lemma wrapS_shift x k : wrapS 64 (x + k * 2 ^ 64) = wrapS 64 x.
Proof. unfold wrapS. rewrite <- Z.add_assoc, (Z.add_comm (k * _)), Z.add_assoc, Z.mod_add by lia. done. Qed.

Lemma parseInt64_fold l n :
  foldl (fun acc c => match acc, digit_of c with
                      | Some n, Some d => Some (wrapS 64 (wrapS 64 (n * 10) + d))
                      | _, _ => None end) (Some (wrapS 64 n)) l =
  wrapS 64 <$> foldl (fun acc c => match acc, digit_of c with Some n, Some d => Some (n * 10 + d)%Z | _, _ => None end)
                 (Some n) l.
Proof.
  revert n. induction l as [|c l IH]; intros n; cbn [foldl]; [done|].
  destruct (digit_of c) as [d|].
  - rewrite <- (IH (n * 10 + d)%Z). do 2 f_equal.
    destruct (wrapS_eqm n) as [k ->]. replace ((n + k * 2 ^ 64) * 10)%Z with (n * 10 + (k * 10) * 2 ^ 64)%Z by lia.
    rewrite wrapS_shift. destruct (wrapS_eqm (n * 10)) as [k' ->].
    replace (n * 10 + k' * 2 ^ 64 + d)%Z with (n * 10 + d + k' * 2 ^ 64)%Z by lia. by rewrite wrapS_shift.
  - clear IH. induction l as [|x l IH]; [done|exact IH].
Qed.

(** The event id of a path.  It is accepted exactly when every character is a digit, and is
    then the number written as long as that fits 64 bits; beyond, it wraps around,
    so that an id plus 2^64 opens the same event. *)
Theorem parseInt64_spec s :
  parseInt64 s = wrapS 64 <$> digits_value s /\
  (forall n, digits_value s = Some n -> (0 <= n < 2 ^ 63)%Z -> parseInt64 s = Some n) /\
  (forall t n, digits_value s = Some n -> digits_value t = Some (n + 2 ^ 64)%Z -> parseInt64 t = parseInt64 s).
Proof.
  assert (Hall : forall s, parseInt64 s = wrapS 64 <$> digits_value s).
  { intros u. unfold parseInt64, digits_value. change (Some 0%Z) with (Some (wrapS 64 0)) at 1. apply parseInt64_fold. }
  split; [apply Hall|]. split.
  - intros n Hn Hr. rewrite Hall, Hn. simpl. rewrite wrapS_small by (simpl; lia). done.
  - intros t n Hn Ht. rewrite !Hall, Hn, Ht. simpl. f_equal. replace (n + 2 ^ 64)%Z with (n + 1 * 2 ^ 64)%Z by lia.
    apply wrapS_shift.
Qed.

Lemma parseInt64_spec_witness :
  parseInt64 "42" = Some 42%Z /\ parseInt64 "18446744073709551658" = parseInt64 "42".
Proof.
  split.
  - apply (proj1 (proj2 (parseInt64_spec "42")) 42%Z); [reflexivity|lia].
  - apply (proj2 (proj2 (parseInt64_spec "42")) "18446744073709551658" 42%Z); reflexivity.
Defined.

(** ** Chip rows *)
#[local] Instance count_le_total : Total count_le.
Proof.
  intros [a n] [b m]. unfold count_le. simpl. repeat case_decide; try lia; [apply string_le_total|congruence..].
Qed.
#[local] Instance count_le_trans : Transitive count_le.
Proof.
  intros [a n] [b m] [c k]. unfold count_le. simpl. repeat case_decide; try lia; try congruence.
  apply string_le_trans.
Qed.
Lemma count_le_antisym x y : count_le x y -> count_le y x -> x.1 = y.1.
Proof.
  unfold count_le. repeat case_decide; try lia; [apply string_le_antisym|congruence..].
Qed.

(** Chip rows never reshuffle.  The row of a type-to-count map does not depend on the order
    the map is iterated in; it holds every type once with its count, by rank and then by
    name. *)
Theorem sortedCounts_stable iter iter' m :
  (forall l, iter l ≡ₚ l) -> (forall l, iter' l ≡ₚ l) ->
  sortedCounts iter m = sortedCounts iter' m /\
  Sorted count_le (sortedCounts iter m) /\ NoDup (sortedCounts iter m).*1 /\
  (forall t n, (t, n) ∈ sortedCounts iter m <-> m !! t = Some n).
Proof.
  intros Hi Hi'. unfold sortedCounts. split_and!.
  - apply (Sorted_unique_strong count_le); [|apply (Sorted_merge_sort _)..|by rewrite !order_by_perm, Hi, Hi'].
    intros [t n] [u k] H1 H2 Hle Hge. pose proof (count_le_antisym _ _ Hle Hge) as E. simpl in E. subst u.
    rewrite order_by_perm, Hi in H1. rewrite order_by_perm, Hi' in H2.
    apply elem_of_map_to_list in H1, H2. congruence.
  - apply (Sorted_merge_sort _).
  - rewrite order_by_perm, Hi. apply NoDup_fst_map_to_list.
  - intros t n. rewrite order_by_perm, Hi. apply elem_of_map_to_list.
Qed.

Lemma sortedCounts_stable_witness :
  sortedCounts reverse {["exec" := 3; "tls_sni" := 1; "mmap" := 2]} =
  sortedCounts id {["exec" := 3; "tls_sni" := 1; "mmap" := 2]}.
Proof. apply (sortedCounts_stable reverse id); [intros l; apply reverse_Permutation|done]. Defined.

(** ** The run page *)
Lemma tally_fold evs (m : gmap string nat) t :
  foldl (fun m e => <[Ev_Type e := default 0 (m !! Ev_Type e) + 1]> m) m evs !! t =
  match length (filter (fun e => Ev_Type e = t) evs) with
  | O => m !! t
  | S k => Some (default 0 (m !! t) + S k)
  end.
Proof.
  revert m. induction evs as [|e evs IH]; intros m; simpl; [done|]. rewrite IH, filter_cons.
  destruct (decide (Ev_Type e = t)) as [E|E].
  - subst t. rewrite lookup_insert_eq. simpl. destruct (length _); f_equal; lia.
  - rewrite lookup_insert_ne by done. done.
Qed.

Lemma tally_lookup evs t n : tally evs !! t = Some n -> n = length (filter (fun e => Ev_Type e = t) evs).
Proof. unfold tally. rewrite tally_fold, lookup_empty. destruct (length _); [done|]. simpl. by intros [= <-]. Qed.

Lemma sum_counts_insert t k (m : gmap string nat) :
  m !! t = None -> sum_list (map_to_list (<[t := k]> m)).*2 = k + sum_list (map_to_list m).*2.
Proof. intros Ht. by rewrite map_to_list_insert. Qed.

Lemma tally_sum evs (m : gmap string nat) :
  sum_list (map_to_list (foldl (fun m e => <[Ev_Type e := default 0 (m !! Ev_Type e) + 1]> m) m evs)).*2 =
  sum_list (map_to_list m).*2 + length evs.
Proof.
  revert m. induction evs as [|e evs IH]; intros m; simpl; [lia|]. rewrite IH.
  assert (E : forall t, sum_list (map_to_list (<[t := default 0 (m !! t) + 1]> m)).*2 = S (sum_list (map_to_list m).*2)).
  { intros t. destruct (m !! t) as [k|] eqn:Et; simpl default.
    - rewrite <- (insert_delete_id m t k Et) at 2.
      rewrite <- insert_delete_eq, !sum_counts_insert by apply lookup_delete_eq. lia.
    - rewrite sum_counts_insert by done. lia. }
  rewrite E. lia.
Qed.

Section run_page.
Implicit Types (d : Sqlite.Sqlite.DB).
Context (iter : list countEntry -> list countEntry) (conv_int : json -> Z).

(** The chips of the run page count what they show.  The counts of the chip row add up to
    the number of events listed; and following a chip renders the same run with the
    same row and exactly as many events as the chip said, all of its type. *)
Theorem run_chips id d p d' :
  (forall l, iter l ≡ₚ l) -> handleRunDetail iter conv_int id "" d = (Page p, d') ->
  sum_list (rd_Summary p).*2 = rd_TotalEvents p /\ rd_EventCount p = rd_TotalEvents p /\
  forall t n, (t, n) ∈ rd_Summary p -> t <> "" -> exists q d'',
    handleRunDetail iter conv_int id t d = (Page q, d'') /\
    rd_EventCount q = n /\ Forall (fun e => fe_Type e = t) (rd_Events q) /\
    rd_Run q = rd_Run p /\ rd_Summary q = rd_Summary p /\ rd_TotalEvents q = rd_TotalEvents p /\
    (forall e, e ∈ rd_Events q -> e ∈ rd_Events p).
Proof.
  intros Hi. unfold handleRunDetail. case_decide; [done|].
  destruct (by_id_or_prefix GetRun ResolveRunPrefix id d) as [[run|code] d1]; [|done].
  destruct (ListEventsByRun (Run_ID run) detailLimit d1) as [r d2]. set (evs := or_nil r).
  destruct (ListDeviations (Run_ID run) d2) as [dv d3]. intros [= <- <-].
  assert (Hall : of_type "" evs = evs) by (apply filter_all, Forall_forall; auto).
  cbn [rd_Summary rd_TotalEvents rd_EventCount rd_Events rd_Run]. rewrite Hall, length_fmap. split_and!.
  - rewrite order_by_perm, Hi. unfold tally. rewrite tally_sum, map_to_list_empty. done.
  - done.
  - intros t n Hin Ht. rewrite order_by_perm, Hi in Hin. apply elem_of_map_to_list, tally_lookup in Hin as ->.
    assert (Ef : of_type t evs = filter (fun e => Ev_Type e = t) evs) by (apply list_filter_iff; naive_solver).
    eexists _, _. split; [reflexivity|]. cbn [rd_Summary rd_TotalEvents rd_EventCount rd_Events rd_Run]. rewrite Ef, length_fmap.
    split_and!; try done.
    + apply Forall_fmap, Forall_forall. intros e [He _]%list_elem_of_filter. exact He.
    + intros e (x & -> & [_ Hx]%list_elem_of_filter)%list_elem_of_fmap. by apply list_elem_of_fmap_2.
Qed.
End run_page.

Definition wit_ev (t : string) : EventRow := mkEventRow 0 "" 5 t (Some (JObj [("CommStr", JStr "node")])).
Definition wit_db : Sqlite.Sqlite.DB :=
  foldl (fun d m => SqliteSpec.SqliteSpec.exec m d) Sqlite.Sqlite.empty_db
    [SqliteSpec.SqliteSpec.MCreateRun 1 (new_run "r1" "axios" "1.0" RunStatePending 1);
     SqliteSpec.SqliteSpec.MAppendEvents "r1" [wit_ev "exec"; wit_ev "dns_query"; wit_ev "exec"]].

Lemma run_chips_witness :
  exists p d' q d'', handleRunDetail id (fun _ => 0%Z) "r" "" wit_db = (Page p, d') /\
    handleRunDetail id (fun _ => 0%Z) "r" "exec" wit_db = (Page q, d'') /\
    rd_Summary p = [("exec", 2); ("dns_query", 1)] /\ rd_EventCount q = 2.
Proof.
  destruct (handleRunDetail id (fun _ => 0%Z) "r" "" wit_db) as [[p|c] d'] eqn:E; [|vm_compute in E; discriminate].
  assert (Hs : rd_Summary p = [("exec", 2); ("dns_query", 1)]) by (vm_compute in E; injection E as <- _; reflexivity).
  destruct (run_chips id (fun _ => 0%Z) "r" wit_db p d' (fun l => reflexivity l) E) as (_ & _ & H).
  destruct (H "exec" 2) as (q & d'' & Eq & Hc & _); [rewrite Hs; by left|done|].
  exists p, d', q, d''. done.
Defined.

(** ** The display of a payload *)
Lemma field_app o o' k : field (o ++ o') k = match field o' k with Some v => Some v | None => field o k end.
Proof.
  unfold field. rewrite foldl_app. generalize (foldl (fun acc kv => if decide (kv.1 = k) then Some kv.2 else acc) None o) as x.
  induction o' as [|kv o' IH] using rev_ind; intros x; [done|]. rewrite !foldl_app. simpl. case_decide; [done|]. apply IH.
Qed.

Lemma field_one kv k : field [kv] k = if decide (kv.1 = k) then Some kv.2 else None.
Proof. done. Qed.

Lemma field_delete o k k' : field (map_delete k o) k' = if decide (k = k') then None else field o k'.
Proof.
  induction o as [|kv o IH] using rev_ind; [by case_decide|]. unfold map_delete in *.
  rewrite filter_app, !field_app, IH, field_one. destruct (decide (kv.1 = k)) as [E|E].
  - rewrite filter_none by (apply Forall_singleton; tauto). simpl. repeat case_decide; congruence.
  - rewrite filter_all by (apply Forall_singleton; done). rewrite field_one. repeat case_decide; congruence.
Qed.

Lemma field_set o k v k' : field (map_set k v o) k' = if decide (k = k') then Some v else field o k'.
Proof.
  unfold map_set. rewrite field_app, field_delete. unfold field at 1. simpl. by repeat case_decide.
Qed.

Lemma field_deletes o ks k' :
  field (foldl (fun m k => map_delete k m) o ks) k' = if decide (k' ∈ ks) then None else field o k'.
Proof.
  revert o. induction ks as [|k ks IH]; intros o; cbn [foldl].
  - rewrite decide_False by apply not_elem_of_nil. done.
  - rewrite IH, field_delete. destruct (decide (k' ∈ ks)) as [Hin|Hin].
    + rewrite decide_True by (by right). done.
    + destruct (decide (k = k')) as [->|Hne]; [rewrite decide_True by (by left); done|].
      rewrite decide_False; [done|]. rewrite elem_of_cons. naive_solver.
Qed.


Section display.
Context (conv_int : json -> Z).

Definition plain (v : option json) : Prop := match v with Some (JArr _) => False | _ => True end.
Definition comm_free (v : json) : Prop := match v with JObj o => field o "Comm" = None | _ => True end.

Lemma strip_field m k :
  field (stripEventNoise conv_int m) k =
    if decide (k ∈ noise_keys) then None else
    if decide (k = "Header") then
      match field m k with Some (JObj hdr) => Some (JObj (strip_header conv_int hdr)) | v => v end
    else if decide (k = "Ancestors") then
      match field m k with Some (JArr anc) => Some (JArr (strip_ancestor <$> anc)) | v => v end
    else field m k.
Proof.
  unfold stripEventNoise. cbv zeta. set (m0 := foldl _ m noise_keys).
  assert (H0 : forall k', field m0 k' = if decide (k' ∈ noise_keys) then None else field m k') by (intros; apply field_deletes).
  assert (Hh : field m0 "Header" = field m "Header") by (rewrite H0; by vm_compute (decide _)).
  assert (Ha : field m0 "Ancestors" = field m "Ancestors") by (rewrite H0; by vm_compute (decide _)).
  set (m1 := match field m0 "Header" with Some (JObj hdr) => _ | _ => _ end).
  assert (H1 : forall k', field m1 k' = if decide (k' = "Header") then
      match field m "Header" with Some (JObj hdr) => Some (JObj (strip_header conv_int hdr)) | v => v end
      else field m0 k').
  { intros k'. unfold m1. rewrite Hh. destruct (decide (k' = "Header")) as [->|Hne].
    - destruct (field m "Header") as [[]|] eqn:E; rewrite ?field_set, ?Hh; try done; by case_decide.
    - destruct (field m "Header") as [[]|]; try done. rewrite field_set. by rewrite decide_False. }
  rewrite (H1 "Ancestors"), decide_False, Ha by done.
  assert (Hnh : "Header" ∉ noise_keys) by (apply (bool_decide_unpack _); vm_compute; exact I).
  assert (Hna : "Ancestors" ∉ noise_keys) by (apply (bool_decide_unpack _); vm_compute; exact I).
  destruct (decide (k = "Ancestors")) as [->|Hk].
  - rewrite (decide_False (P := "Ancestors" ∈ noise_keys)) by done. rewrite (decide_False (P := "Ancestors" = "Header")) by done.
    assert (Hma : field m1 "Ancestors" = field m "Ancestors") by (by rewrite H1, decide_False by done).
    destruct (field m "Ancestors") as [[]|] eqn:E; rewrite ?field_set, ?Hma; try done; by case_decide.
  - assert (E : field (match field m "Ancestors" with
                | Some (JArr anc) => map_set "Ancestors" (JArr (strip_ancestor <$> anc)) m1 | _ => m1 end) k = field m1 k).
    { destruct (field m "Ancestors") as [[]|]; try done. rewrite field_set. by rewrite decide_False. }
    rewrite E, H1. destruct (decide (k = "Header")) as [->|]; [by rewrite decide_False|]. apply H0.
Qed.
Lemma strip_header_field hdr k :
  field (strip_header conv_int hdr) k =
    if decide (k = "Comm" \/ k = "Type") then None else
    if decide (k = "RunID") then
      match field hdr k with Some (JArr arr) => Some (JStr (bytesToHex conv_int arr)) | v => v end
    else field hdr k.
Proof.
  unfold strip_header. cbv zeta. rewrite field_delete.
  assert (Hr : field (map_delete "Comm" hdr) "RunID" = field hdr "RunID") by (by rewrite field_delete, decide_False).
  rewrite Hr. destruct (decide ("Type" = k)) as [<-|Ht]; [by rewrite decide_True by auto|].
  set (h2 := match field hdr "RunID" with Some (JArr arr) => _ | _ => _ end).
  assert (H2 : field h2 k = if decide (k = "RunID") then
      match field hdr k with Some (JArr arr) => Some (JStr (bytesToHex conv_int arr)) | v => v end
    else field (map_delete "Comm" hdr) k).
  { unfold h2. destruct (decide (k = "RunID")) as [->|Hk].
    - destruct (field hdr "RunID") as [[]|] eqn:E; rewrite ?field_set, ?Hr; try done; by case_decide.
    - destruct (field hdr "RunID") as [[]|]; try done. rewrite field_set. by rewrite decide_False. }
  rewrite H2, field_delete. repeat case_decide; naive_solver.
Qed.

Lemma delete_delete k m : map_delete k (map_delete k m) = map_delete k m.
Proof. apply filter_all, Forall_forall. by intros kv [? _]%list_elem_of_filter. Qed.
Lemma strip_ancestor_idem e : strip_ancestor (strip_ancestor e) = strip_ancestor e.
Proof. destruct e; simpl; [done..|]. by rewrite delete_delete. Qed.

Lemma delete_absent k m : field m k = None -> map_delete k m = m.
Proof.
  intros Hk. apply filter_all. induction m as [|kv m IH] using rev_ind; [constructor|].
  rewrite field_app, field_one in Hk. case_decide; [done|]. apply Forall_app. split; [by apply IH|by constructor].
Qed.
Lemma strip_header_idem hdr : strip_header conv_int (strip_header conv_int hdr) = strip_header conv_int hdr.
Proof.
  set (h := strip_header conv_int hdr).
  assert (Hc : field h "Comm" = None) by (unfold h; rewrite strip_header_field; by rewrite decide_True by auto).
  assert (Ht : field h "Type" = None) by (unfold h; rewrite strip_header_field; by rewrite decide_True by auto).
  assert (Hr : forall arr, field h "RunID" <> Some (JArr arr)).
  { intros arr. unfold h. rewrite strip_header_field, decide_False, decide_True by (done || by intros [?|?]).
    by destruct (field hdr "RunID") as [[]|]. }
  unfold strip_header at 1. rewrite (delete_absent "Comm" h Hc). cbv zeta.
  destruct (field h "RunID") as [[]|] eqn:E; try (by apply delete_absent). by destruct (Hr l).
Qed.

(** The payload view drops noise and nothing else.  Of an object payload every field is shown as
    stored except that the raw arrays with a parsed twin are gone; the header keeps all
    but Comm and Type, with an array RunID in hex; each ancestor keeps all but Comm, and none
    is dropped.  Filtering what is shown once more changes no field. *)
Theorem stripEventNoise_spec m :
  let m' := stripEventNoise conv_int m in
  (forall k, k ∈ noise_keys -> field m' k = None) /\
  (forall k, k ∉ "Header" :: "Ancestors" :: noise_keys -> field m' k = field m k) /\
  (forall hdr, field m "Header" = Some (JObj hdr) -> exists hdr', field m' "Header" = Some (JObj hdr') /\
     field hdr' "Comm" = None /\ field hdr' "Type" = None /\
     (forall arr, field hdr "RunID" = Some (JArr arr) -> field hdr' "RunID" = Some (JStr (bytesToHex conv_int arr))) /\
     (forall k, k ∉ ["Comm"; "Type"; "RunID"] -> field hdr' k = field hdr k)) /\
  (forall anc, field m "Ancestors" = Some (JArr anc) -> exists anc', field m' "Ancestors" = Some (JArr anc') /\
     Forall2 (fun e e' => forall o, e = JObj o -> exists o', e' = JObj o' /\
                forall k, field o' k = if decide (k = "Comm") then None else field o k) anc anc') /\
  (forall k, field (stripEventNoise conv_int m') k = field m' k).
Proof.
  cbv zeta. assert (Hnh : "Header" ∉ noise_keys) by (apply (bool_decide_unpack _); vm_compute; exact I).
  assert (Hna : "Ancestors" ∉ noise_keys) by (apply (bool_decide_unpack _); vm_compute; exact I).
  split_and!.
  - intros k Hk. by rewrite strip_field, decide_True.
  - intros k Hk. rewrite !not_elem_of_cons in Hk. destruct Hk as (? & ? & ?). by rewrite strip_field, !decide_False.
  - intros hdr Eh. rewrite strip_field, decide_False, decide_True, Eh by done. eexists. split; [reflexivity|].
    split_and!.
    + rewrite strip_header_field. by rewrite decide_True by auto.
    + rewrite strip_header_field. by rewrite decide_True by auto.
    + intros arr Ea. rewrite strip_header_field, Ea. by rewrite decide_False by (by intros [?|?]).
    + intros k Hk. rewrite !not_elem_of_cons in Hk. destruct Hk as (? & ? & ? & _).
      rewrite strip_header_field. by rewrite !decide_False by naive_solver.
  - intros anc Ea. rewrite strip_field, decide_False, decide_False, decide_True, Ea by done.
    eexists. split; [reflexivity|]. apply Forall2_fmap_r, Forall_Forall2_diag, Forall_forall.
    intros e _ o ->. eexists. split; [reflexivity|]. intros k. rewrite field_delete. by repeat case_decide; subst.
  - intros k. rewrite (strip_field (stripEventNoise conv_int m)), (strip_field m).
    destruct (decide (k ∈ noise_keys)); [done|].
    destruct (decide (k = "Header")).
    { destruct (field m k) as [[]|]; try done. cbn match. by rewrite strip_header_idem. }
    destruct (decide (k = "Ancestors")); [|done]. destruct (field m k) as [[]|]; try done. cbn match.
    do 2 f_equal. rewrite <- list_fmap_compose. apply list_fmap_ext. intros ? ? _. apply strip_ancestor_idem.
Qed.
End display.

Lemma stripEventNoise_spec_witness :
  let m := [("Header", JObj [("PID", JNum 7); ("Comm", JArr [JNum 110]); ("RunID", JArr [JNum 24; JNum 178; JNum 0])]);
            ("PathName", JStr "/etc/passwd"); ("Path", JArr [JNum 47; JNum 0])] in
  stripEventNoise (fun _ => 0%Z) m =
    [("PathName", JStr "/etc/passwd"); ("Header", JObj [("PID", JNum 7); ("RunID", JStr "18b2")])] /\
  field (stripEventNoise (fun _ => 0%Z) m) "Path" = None.
Proof.
  cbv zeta. split; [vm_compute; reflexivity|].
  apply (proj1 (stripEventNoise_spec (fun _ => 0%Z) _)). by left.
Defined.

(** ** The allowlist page *)
Definition kept (pkg : string) (e : AllowEntry) : Prop := pkg = "" \/ Al_PackageName e = "" \/ Al_PackageName e = pkg.
#[local] Instance kept_dec pkg e : Decision (kept pkg e).
Proof. unfold kept. apply _. Defined.

Lemma bucket_kept pkg v e :
  bucket pkg v e = if decide (kept pkg e) then
                     if decide (Al_PackageName e = "") then (v.1 ++ [e], v.2)
                     else (v.1, <[Al_PackageName e := default [] (v.2 !! Al_PackageName e) ++ [e]]> v.2)
                   else v.
Proof.
  unfold bucket, kept. destruct (decide (pkg = "")), (decide (Al_PackageName e = "")), (decide (Al_PackageName e = pkg));
    repeat case_decide; tauto.
Qed.

Lemma sumLens_sum l : sumLens l = sum_list (length <$> l).
Proof.
  unfold sumLens. assert (forall n, foldl (fun n v => n + length v) n l = n + sum_list (length <$> l)) as E.
  { induction l as [|v l IH]; intros n; [simpl; lia|]. cbn [foldl]. rewrite IH, fmap_cons.
    change (sum_list (length v :: (length <$> l))) with (length v + sum_list (length <$> l)). lia. }
  by rewrite E.
Qed.

Lemma sumLens_insert (m : gmap string (list AllowEntry)) k e :
  sumLens (map_to_list (<[k := default [] (m !! k) ++ [e]]> m)).*2 = S (sumLens (map_to_list m).*2).
Proof.
  assert (Hnew : forall v (m : gmap string (list AllowEntry)), m !! k = None ->
            sumLens (map_to_list (<[k := v]> m)).*2 = length v + sumLens (map_to_list m).*2).
  { intros v m' Hm. rewrite !sumLens_sum. by rewrite map_to_list_insert. }
  destruct (m !! k) as [v|] eqn:E; simpl default.
  - rewrite <- (insert_delete_id m k v E) at 2.
    rewrite <- insert_delete_eq, !Hnew by apply lookup_delete_eq. rewrite length_app. simpl. lia.
  - by rewrite Hnew.
Qed.

Lemma bucket_buckets pkg es g m :
  let v := foldl (bucket pkg) (g, m) es in
  v.1 = g ++ filter (fun e => Al_PackageName e = "") es /\
  (forall k, k <> "" -> default [] (v.2 !! k) =
     default [] (m !! k) ++ filter (fun e => kept pkg e /\ Al_PackageName e = k) es) /\
  length v.1 + sumLens (map_to_list v.2).*2 = length g + sumLens (map_to_list m).*2 + length (filter (kept pkg) es).
Proof.
  cbv zeta. revert g m. induction es as [|e es IH]; intros g m; cbn [foldl].
  { split_and!; [by rewrite app_nil_r|intros; by rewrite app_nil_r|simpl; lia]. }
  rewrite bucket_kept. cbn [fst snd]. rewrite !filter_cons.
  destruct (decide (kept pkg e)) as [Hk|Hk].
  - destruct (decide (Al_PackageName e = "")) as [Hg|Hg].
    + destruct (IH (g ++ [e]) m) as (H1 & H2 & H3). split_and!.
      * by rewrite H1, <- app_assoc.
      * intros k Hne. rewrite H2, filter_cons, decide_False by (done || (intros [_ ?]; congruence)). done.
      * rewrite H3, length_app. simpl. lia.
    + destruct (IH g (<[Al_PackageName e := default [] (m !! Al_PackageName e) ++ [e]]> m)) as (H1 & H2 & H3). split_and!.
      * done.
      * intros k Hne. rewrite H2, filter_cons by done. destruct (decide (Al_PackageName e = k)) as [<-|Hx].
        -- rewrite lookup_insert_eq, decide_True by done. simpl. by rewrite <- app_assoc.
        -- rewrite lookup_insert_ne, decide_False by (done || by intros [_ ?]). done.
      * rewrite H3, sumLens_insert. simpl. lia.
  - assert (Al_PackageName e <> "") by (intros E; apply Hk; unfold kept; auto).
    rewrite decide_False by done. destruct (IH g m) as (H1 & H2 & H3). split_and!; try done.
    intros k Hne. rewrite H2, filter_cons, decide_False by (done || by intros [? _]). done.
Qed.

Lemma bucket_dom pkg es g m k :
  k ∈ dom (foldl (bucket pkg) (g, m) es).2 -> k ∈ dom m \/ k <> "".
Proof.
  revert g m. induction es as [|e es IH]; intros g m; cbn [foldl]; [by left|]. rewrite bucket_kept. cbn [fst snd].
  repeat case_decide; intros Hk; apply IH in Hk; try done. rewrite dom_insert in Hk. set_solver.
Qed.

Lemma filter_split {A} (P Q R : A -> Prop) `{!forall x, Decision (P x), !forall x, Decision (Q x), !forall x, Decision (R x)} l :
  (forall x, x ∈ l -> (R x <-> P x \/ Q x) /\ ~ (P x /\ Q x)) -> filter P l ++ filter Q l ≡ₚ filter R l.
Proof.
  induction l as [|x l IH]; intros Hx; [done|]. rewrite !filter_cons.
  specialize (IH (fun y Hy => Hx y (list_elem_of_further _ _ _ Hy))). destruct (Hx x (list_elem_of_here _ _)) as [Hr Hd].
  destruct (decide (P x)), (decide (Q x)), (decide (R x)); try tauto; simpl; rewrite <- ?Permutation_middle, ?IH; done.
Qed.

(** The allowlist page shows what the differ applies.  Narrowed to a package, the global
    entries and that package's bucket are together exactly the entries the analysis
    of the package's runs is filtered by, and "Filtered" counts them; without a
    package every entry is on the page; the packages are listed once each, in byte order. *)
Theorem allowlist_view keys pkg (d : Sqlite.Sqlite.DB) v d' :
  SqliteSpec.SqliteSpec.wf d -> (forall l, keys l ≡ₚ l) -> handleAllowlist keys pkg d = (v, d') ->
  (pkg <> "" -> av_Global v ++ default [] (av_ByPkg v !! pkg) ≡ₚ EntriesForPackage (Sqlite.Sqlite.allowlists d) pkg /\
     av_Filtered v = length (EntriesForPackage (Sqlite.Sqlite.allowlists d) pkg)) /\
  (pkg = "" -> av_Filtered v = av_Total v /\
     forall e, e ∈ Sqlite.Sqlite.allowlists d ->
       e ∈ av_Global v \/ exists l, av_ByPkg v !! Al_PackageName e = Some l /\ e ∈ l) /\
  Sorted str_le (av_PkgList v) /\ NoDup (av_PkgList v) /\ (forall k, k ∈ av_PkgList v <-> k ∈ dom (av_ByPkg v)).
Proof.
  intros Hwf Hk. unfold handleAllowlist.
  cbn [ListAllowEntries SqliteSpec.SqliteSpec.sqlite_backend Sqlite.Sqlite.ListAllowEntries or_nil].
  set (all := order_by _ (Sqlite.Sqlite.allowlists d)).
  assert (Hperm : all ≡ₚ Sqlite.Sqlite.allowlists d) by apply order_by_perm.
  destruct (bucket_buckets pkg all [] ∅) as (H1 & H2 & H3). destruct (foldl (bucket pkg) ([], ∅) all) as [glob byPkg] eqn:E.
  cbn [fst snd] in *. intros [= <- <-]. cbn [av_Global av_ByPkg av_PkgList av_Total av_Filtered].
  destruct (sortStrings_sorted (keys (map_to_list byPkg).*1)) as [Hp Hs].
  assert (Hp' : sortStrings (keys (map_to_list byPkg).*1) ≡ₚ (map_to_list byPkg).*1) by (by rewrite Hp, Hk).
  rewrite map_to_list_empty in H3. cbn in H3.
  assert (Hck : forall e, e ∈ all -> (Al_Scope e = AllowScopeGlobal /\ Al_PackageName e = "") \/
            (Al_Scope e = AllowScopePackage /\ Al_PackageName e <> "")).
  { intros e He. rewrite Hperm in He. destruct Hwf. elementwise. by destruct (wf_allow_check e He) as (_ & _ & ?). }
  assert (Hsc : forall e, e ∈ all -> (Al_Scope e = AllowScopeGlobal \/ Al_Scope e = AllowScopePackage /\ Al_PackageName e = pkg) <->
            (Al_PackageName e = "" \/ Al_PackageName e = pkg)).
  { intros e He. assert (AllowScopePackage <> AllowScopeGlobal) by done.
    destruct (Hck e He) as [[-> ->]|[-> ?]]; tauto. }
  split_and!.
  - intros Hne. rewrite H3, H1, H2 by done. rewrite lookup_empty. cbn [default app].
    assert (Hsel : forall P (HP : forall e, Decision (P e)),
              (forall e, e ∈ all -> P e <-> Al_PackageName e = "" \/ Al_PackageName e = pkg) ->
              filter (fun e => Al_PackageName e = "") all ++ filter (fun e => kept pkg e /\ Al_PackageName e = pkg) all
              ≡ₚ filter P all).
    { intros P HP HPe. apply filter_split. intros e He. rewrite HPe by done. unfold kept. split_and!; [tauto|].
      intros [E1 [_ E2]]. congruence. }
    assert (Hent : EntriesForPackage (Sqlite.Sqlite.allowlists d) pkg ≡ₚ EntriesForPackage all pkg)
      by (unfold EntriesForPackage; by rewrite Hperm).
    rewrite Hent. unfold EntriesForPackage. split.
    + apply (Hsel _ _ Hsc).
    + assert (Hkept : forall e, e ∈ all -> kept pkg e <-> Al_PackageName e = "" \/ Al_PackageName e = pkg)
        by (intros e _; unfold kept; tauto).
      etransitivity; [symmetry; apply Permutation_length, (Hsel _ _ Hkept)|apply Permutation_length, (Hsel _ _ Hsc)].
  - intros ->. split.
    + rewrite H3. f_equal. apply filter_all, Forall_forall. intros e _. by left.
    + intros e He. rewrite <- Hperm in He. destruct (decide (Al_PackageName e = "")) as [Hg|Hg].
      * left. rewrite H1. apply list_elem_of_filter. done.
      * right. specialize (H2 _ Hg). rewrite lookup_empty in H2. cbn [default app] in H2.
        assert (Hin : e ∈ default [] (byPkg !! Al_PackageName e)).
        { rewrite H2. apply list_elem_of_filter. split; [|done]. split; [by left|done]. }
        destruct (byPkg !! Al_PackageName e) as [l|]; [by exists l|]. by apply not_elem_of_nil in Hin.
  - by apply StronglySorted_Sorted.
  - rewrite Hp'. apply NoDup_fst_map_to_list.
  - intros k. rewrite Hp', elem_of_dom, list_elem_of_fmap. split.
    + intros ((k' & l) & -> & Hin%elem_of_map_to_list). by exists l.
    + intros [l Hl]. exists (k, l). split; [done|]. by apply elem_of_map_to_list.
Qed.

Definition wit_allow : Sqlite.Sqlite.DB :=
  foldl (fun d m => SqliteSpec.SqliteSpec.exec m d) Sqlite.Sqlite.empty_db
    [SqliteSpec.SqliteSpec.MAddAllowEntry 1 (mkAllowEntry "a" AllowScopeGlobal "" AllowKindSNI "x.example" "" 1);
     SqliteSpec.SqliteSpec.MAddAllowEntry 2 (mkAllowEntry "b" AllowScopePackage "axios" AllowKindSNI "y.example" "" 2);
     SqliteSpec.SqliteSpec.MAddAllowEntry 3 (mkAllowEntry "c" AllowScopePackage "react" AllowKindSNI "z.example" "" 3)].

Lemma allowlist_view_witness :
  length (Sqlite.Sqlite.allowlists wit_allow) = 3 /\
  exists v d', handleAllowlist reverse "axios" wit_allow = (v, d') /\ av_Filtered v = 2.
Proof.
  split; [vm_compute; reflexivity|]. destruct (handleAllowlist reverse "axios" wit_allow) as [v d'] eqn:E.
  exists v, d'. split; [done|].
  destruct (allowlist_view reverse "axios" wit_allow v d') as (H & _); [| |exact E|].
  - unfold wit_allow, foldl. repeat apply SqliteSpec.SqliteSpec.wf_exec. apply SqliteSpec.SqliteSpec.wf_empty.
  - intros l. apply reverse_Permutation.
  - destruct (H ltac:(done)) as [_ ->]. vm_compute. reflexivity.
Defined.
End Ui.
