(* ===== verification/OrchestratorMain.v ===== *)
(** * fangs-orchestrator: the process

    cmd/fangs-orchestrator/main.go from the command line to the exit status,
    and the process in between: requests routed by the mux of Serve.v to the
    handlers of Api.v, Ui.v, Lineage.v and Pending.v, the debounced analyses
    with the deliveries they start, the watcher, the retention loop and the
    eviction of silent runners, in any interleaving.  A handler or a pass is
    one step; a long poll is the last look it takes at its queue; when a
    debounce timer fires is up to the environment (Api.v has the scheduler).
    What the process reads from outside is the record [Outside]. *)
From Stdlib Require Import Ascii.
From stdpp Require Import prelude strings gmap list relations.
From S2P Require Import Prelude GoTime Json Sql Storage Sqlite SqliteSpec Proto Fingerprint Differ Dispatcher Notifier Api.
From S2P Require Import Serve Watcher Config Lineage Orchestrator Pending Args Ui.

Module OrchestratorMain.
Import Args.
Import (hints) SqliteSpec.SqliteSpec.
Import (hints) Sqlite.Sqlite.

(** ** The command line *)
Definition orchestrator_flags : FlagSet :=
  [("addr", VString "127.0.0.1:8443"); ("id", VString "fangs-orchestrator"); ("storage", VString "sqlite");
   ("sqlite-path", VString "var/lib/fangs/fangs.db"); ("postgres-dsn", VString "");
   ("watch-interval", VDuration (5 * Minute)%Z); ("watch", VBool true); ("ui", VBool true);
   ("notifiers-file", VString ""); ("retention-days", VInt 90); ("retention-interval", VDuration (24 * Orchestrator.Hour)%Z);
   ("tls-cert", VString ""); ("tls-key", VString ""); ("tls-client-ca", VString ""); ("metrics", VBool true);
   ("config", VString "config/orchestrator.yaml")].

Definition version : string := "dev".

Definition flags_of (fs : FlagSet) : Orchestrator.Flags :=
  Orchestrator.mkFlags (getS fs "id") version (getB fs "watch") (getB fs "ui") (getB fs "metrics")
    (getS fs "notifiers-file") (getI fs "retention-days").

(** ** The process *)

(** The server with its registry, queues, timers and store; what the metrics
    sink was told by the Differ and by the notifier ([None]: no sink); whether
    a panic in a goroutine took the process down. *)
Record Process (S : Type) : Type := mkProcess {
  srv : Api.Server S;
  differ_log : option (list DeviationRow);
  notifier_log : option (list (string * string));
  down : bool
}.
Arguments mkProcess {S}. Arguments srv {S}. Arguments differ_log {S}. Arguments notifier_log {S}. Arguments down {S}.

Definition set_srv {S} (s : Api.Server S) (p : Process S) : Process S :=
  mkProcess s (differ_log p) (notifier_log p) (down p).

(** [SetMetrics] on the server (and through it the Differ, which exists with
    a store) and on the notifier. *)
Definition with_metrics {S} (enabled : bool) (s : Api.Server S) : Process S :=
  let sink {A} : option (list A) := if enabled && bool_decide (is_Some (Api.store s)) then Some [] else None in
  mkProcess s sink sink false.

(** What the environment decides for one analysis, and for each delivery it
    starts. *)
Record Delivery : Type := mkDelivery {
  dl_clock : nat -> time;
  dl_rand : nat -> Z -> Z;
  dl_random : nat -> list ascii;
  dl_do : nat -> Notifier.Request -> res (Z * string)
}.
Record Analysis : Type := mkAnalysis {
  an_run : string;
  an_iter : list Fingerprint.Fingerprint -> list Fingerprint.Fingerprint;
  an_newID : nat -> string;
  an_clock : nat -> time;
  an_delivery : nat -> Delivery
}.

(** A request: method, path segments, query, body and the clock while it is
    served. *)
Record Request (Raw : Type) : Type := mkRequest {
  rq_method : string;
  rq_path : list string;
  rq_query : string -> string;
  rq_body : Raw;
  rq_clock : nat -> time;
  rq_now : time
}.
Arguments mkRequest {Raw}. Arguments rq_method {Raw}. Arguments rq_path {Raw}. Arguments rq_query {Raw}.
Arguments rq_body {Raw}. Arguments rq_clock {Raw}. Arguments rq_now {Raw}.

(** The answers, with what a page is rendered from. *)
Inductive Answer : Type :=
  | JSON (r : Api.Response)
  | Exposition                                   (* promhttp *)
  | Static                                       (* the file server *)
  | Root (a : Serve.RootAnswer)
  | OverviewPage (p : Ui.page (Ui.overviewStats * list (Api.RunnerSnapshot * bool) * list Storage.Run * list DeviationRow))
  | PackagesPage (p : list PackageSummary * list string)
  | PackagePage (p : Ui.page (list Storage.Run * list ReleaseRow * list BaselineRow * nat))
  | RunsPage (p : list Storage.Run * Z)
  | RunPage (p : Ui.page Ui.RunDetail)
  | LineagePage (p : Lineage.page)
  | DeviationsPage (p : list DeviationRow)
  | DeviationPage (p : Ui.page Ui.DeviationDetail)
  | EventPage (p : Ui.page (EventRow * Ui.printed))
  | PendingPage (p : list Pending.pendingRow)
  | AllowlistPage (p : Ui.AllowView)
  | NotifiersPage (p : list NotifierRow)
  | ConfigPage (p : list WatchedPath * Ui.yaml_view * option (list AllowEntry))
  | NoStore                                      (* never routed: the dashboard needs a store *)
  | SlashRedirect | Refused405 | NotFound404.

(** What happens to the process. *)
Inductive Action (Raw : Type) : Type :=
  | Req (rq : Request Raw)
  | TimerFired (a : Analysis)
  | WatchTick (latest : string -> res Watcher.PackageVersion) (pick : string -> string -> nat)
      (clk : string -> string -> time) (alive : nat -> bool) (now : time)
  | RetentionTick (now : time) (fault : option error)
  | RunnerTick (now : time).
Arguments Req {Raw}. Arguments TimerFired {Raw}. Arguments WatchTick {Raw}. Arguments RetentionTick {Raw}.
Arguments RunnerTick {Raw}.

(** The files, the environment, the library calls and the decoders of request
    bodies. *)
Record Outside (S Raw : Type) : Type := mkOutside {
  fraction : Z -> Z -> Z -> Z;
  getenv : string -> string;
  ReadConfig : string -> Config.file_read;
  yaml : string -> res Config.Config;
  ReadFile : string -> res string;
  is_not_exist : error -> bool;
  usable : string -> bool;
  sha256 : list ascii -> list ascii;
  json_decode : string -> jdata;
  json_encode : json -> string;
  marshal_map : gmap string string -> string;
  parse_url : string -> res (string * string);
  hmac_hex : string -> string -> string;
  conv_int : json -> Z;
  conv_u32 : json -> Z;
  mkdir_all : string -> res unit;
  dir : string -> string;
  sqlite_open : string -> res S;
  postgres_open : string -> res S;
  migrate : S -> res S;
  ui_new : res unit;
  boot : time;
  decode_registration : Raw -> res RunnerRegistration;
  decode_heartbeat : Raw -> option (res Heartbeat);
  decode_scan : Raw -> res (string * Job);
  decode_batches : Raw -> list EventBatch * bool;
  decode_result : Raw -> res PScanResult;
  chips : list Ui.countEntry -> list Ui.countEntry;      (* map iteration, in the order it happens *)
  pids : Lineage.table -> list Z;
  queue_order : list Pending.pendingRow -> list Pending.pendingRow;
  keys : list string -> list string
}.
Arguments mkOutside {S Raw}. Arguments fraction {S Raw}. Arguments getenv {S Raw}. Arguments ReadConfig {S Raw}.
Arguments yaml {S Raw}. Arguments ReadFile {S Raw}. Arguments is_not_exist {S Raw}. Arguments usable {S Raw}.
Arguments sha256 {S Raw}. Arguments json_decode {S Raw}. Arguments json_encode {S Raw}. Arguments marshal_map {S Raw}.
Arguments parse_url {S Raw}. Arguments hmac_hex {S Raw}. Arguments conv_int {S Raw}. Arguments conv_u32 {S Raw}.
Arguments mkdir_all {S Raw}. Arguments dir {S Raw}. Arguments sqlite_open {S Raw}. Arguments postgres_open {S Raw}.
Arguments migrate {S Raw}. Arguments ui_new {S Raw}. Arguments boot {S Raw}. Arguments decode_registration {S Raw}.
Arguments decode_heartbeat {S Raw}. Arguments decode_scan {S Raw}. Arguments decode_batches {S Raw}.
Arguments decode_result {S Raw}. Arguments chips {S Raw}. Arguments pids {S Raw}. Arguments queue_order {S Raw}.
Arguments keys {S Raw}.

Definition value (vs : list (string * string)) (name : string) : string :=
  default "" ((list_to_map vs : gmap string string) !! name).

Section process.
Context {S Raw : Type} `{Backend S} (out : Outside S Raw) (fs : FlagSet) (rn : Orchestrator.Running (S := S))
        (paths : list WatchedPath) (mux : Serve.Mux Serve.Handler).

(** A page: a reading of the store. *)
Definition page_of {A} (handler : S -> A * S) (answer : A -> Answer) (s : Api.Server S) : Answer * Api.Server S :=
  match Api.store s with
  | Some st => let '(a, st) := handler st in (answer a, Api.set_store s (Some st))
  | None => (NoStore, s)
  end.

Definition json_of (r : Api.Response * Api.Server S) : Answer * Api.Server S := (JSON r.1, r.2).

(** The handlers behind the routes. *)
Definition serve_route (h : Serve.Handler) (vs : list (string * string)) (rq : Request Raw) (s : Api.Server S) :
    Answer * Api.Server S :=
  let v := value vs in let q := rq_query rq in let now := rq_now rq in let body := rq_body rq in
  match h with
  | Serve.handleHealth => (JSON (Api.handleHealth s), s)
  | Serve.handleRegister => json_of (Api.handleRegister (decode_registration out body) now s)
  | Serve.handleHeartbeat => json_of (Api.handleHeartbeat (v "id") (decode_heartbeat out body) now s)
  | Serve.handlePollJob => json_of (Api.handlePollJob (v "id") (Dispatcher.try_dequeue (v "id")) s)
  | Serve.handleQueueScan => json_of (Api.handleQueueScan (decode_scan out body) (rq_clock rq 0) (rq_clock rq 1) now s)
  | Serve.handleEvents =>
      let '(batches, eof) := decode_batches out body in json_of (Api.handleEvents (v "run_id") batches eof (rq_clock rq) now s)
  | Serve.handleScanResult => json_of (Api.handleScanResult (v "run_id") (decode_result out body) now s)
  | Serve.promhttp => (Exposition, s)
  | Serve.staticHTTP => (Static, s)
  | Serve.handleRoot => (Root (Serve.root_answer (rq_path rq)), s)
  | Serve.handleOverview =>
      page_of (Ui.handleOverview (Api.RegisteredRunnersDetail s) now ("/" +:+ String.concat "/" (rq_path rq))) OverviewPage s
  | Serve.handlePackages => page_of Ui.handlePackages PackagesPage s
  | Serve.handlePackageDetail => page_of (Ui.handlePackageDetail (v "name")) PackagePage s
  | Serve.handleRuns => page_of (Ui.handleRuns (q "package") (q "limit")) RunsPage s
  | Serve.handleRunDetail => page_of (Ui.handleRunDetail (chips out) (conv_int out) (v "id") (q "type")) RunPage s
  | Serve.handleLineage =>
      page_of (Lineage.handleLineage (conv_u32 out) (conv_int out) (pids out) (v "id") (q "event") (q "type")) LineagePage s
  | Serve.handleDeviations =>
      page_of (Ui.handleDeviations (q "package") (q "severity") (q "run") (q "limit")) DeviationsPage s
  | Serve.handleDeviationDetail => page_of (Ui.handleDeviationDetail (conv_int out) (v "id")) DeviationPage s
  | Serve.handleEventDetail => page_of (Ui.handleEventDetail (conv_int out) (v "id")) EventPage s
  | Serve.handlePending => page_of (Pending.handlePending (queue_order out)) PendingPage s
  | Serve.handleAllowlist => page_of (Ui.handleAllowlist (keys out) (q "package")) AllowlistPage s
  | Serve.handleNotifiers => page_of Ui.handleNotifiers NotifiersPage s
  | Serve.handleConfig =>
      page_of (Ui.handleConfig (ReadFile out) (is_not_exist out) (getS fs "config") paths) ConfigPage s
  end.

Definition answer (rq : Request Raw) (s : Api.Server S) : Answer * Api.Server S :=
  match Serve.ServeHTTP mux (rq_method rq) (rq_path rq) with
  | Serve.Handled h vs => serve_route h vs rq s
  | Serve.RedirectSlash => (SlashRedirect, s)
  | Serve.MethodNotAllowed => (Refused405, s)
  | Serve.NotFound => (NotFound404, s)
  end.

(** The deliveries of an analysis, started one after the other; a panic in
    one takes the process down. *)
Fixpoint deliver_all (env : nat -> Delivery) (i : nat) (l : list (NotifierRow * Storage.Run * list DeviationRow)) (s : Notifier.NS S) :
    bool * Notifier.NS S :=
  match l with
  | [] => (false, s)
  | (target, run, devs) :: l' =>
      let e := env i in
      let '(o, s) := Notifier.deliverWithRetry (Notifier.New 0 0 0) (dl_clock e) (dl_rand e) (dl_random e) target run
        (length devs) (json_decode out) (json_encode out) (parse_url out) (getenv out) (hmac_hex out) (dl_do e) devs s in
      match o with Notifier.Panicked => (true, s) | _ => deliver_all env (Datatypes.S i) l' s end
  end.

(** The callback of [scheduleDiffer]. *)
Definition analyse (a : Analysis) (p : Process S) : Process S :=
  match Api.store (srv p) with
  | None => p
  | Some st =>
      let '(r, d) := Differ.AnalyzeRun (an_iter a) (an_newID a) (an_clock a) (an_run a) (Differ.mkDiffer st (differ_log p)) in
      let s := Api.set_timers (Api.set_store (srv p) (Some (Differ.store d))) (delete (an_run a) (Api.differTimers (srv p))) in
      let p := mkProcess s (Differ.metrics d) (notifier_log p) (down p) in
      match r with
      | Ok (Datatypes.S _) =>
          if Orchestrator.rn_notifier rn then
            match Notifier.Trigger (an_run a) (Differ.store d) with
            | (Err _, st) => set_srv (Api.set_store s (Some st)) p
            | (Ok l, st) =>
                let '(panic, ns) := deliver_all (an_delivery a) 0 l (Notifier.mkNS st (notifier_log p)) in
                mkProcess (Api.set_store s (Some (Notifier.ns_store ns))) (differ_log p) (Notifier.ns_metrics ns) panic
            end
          else p
      | _ => p
      end
  end.

(** Silent for longer than this, a runner is evicted. *)
Definition runner_cutoff : duration := (90 * Second)%Z.

Definition tick (a : Action Raw) (p : Process S) : Process S :=
  match a with
  | Req rq => set_srv (answer rq (srv p)).2 p
  | TimerFired a => analyse a p
  | WatchTick latest pick clk alive now =>
      match Api.store (srv p), Orchestrator.rn_watcher rn with
      | Some st, true =>
          let w := Watcher.PollOnce latest (Orchestrator.submit pick clk) now alive (Watcher.mkWorld st (srv p) []) in
          set_srv (Api.set_store (Watcher.w_server w) (Some (Watcher.w_store w))) p
      | _, _ => p
      end
  | RetentionTick now fault =>                    (* after the first one [pruneLoop] makes its ticker *)
      match Api.store (srv p), Orchestrator.rn_pruner rn with
      | Some st, true =>
          mkProcess (Api.set_store (srv p) (Some (Orchestrator.prune_pass (getI fs "retention-days") now fault st).2))
            (differ_log p) (notifier_log p) (getD fs "retention-interval" <=? 0)%Z
      | _, _ => p
      end
  | RunnerTick now => set_srv (Api.prune runner_cutoff now (srv p)) p
  end.

Definition process_step (p : Process S) (a : Action Raw) : Process S := if down p then p else tick a p.

Definition run_process (actions : list (Action Raw)) (p : Process S) : Process S := foldl process_step p actions.
End process.

(** ** main *)
Inductive Ending (S : Type) : Type :=
  | Usage (e : error)                                      (* [flag.Parse] ends the process *)
  | BadConfig (e : error)
  | StorageInit (e : error)
  | NotStarted (store : bool)                              (* the notifiers file or the templates; was a store open? *)
  | BootPanic                                              (* a panic of the main goroutine: deferred calls run *)
  | MuxPanic
  | Served (p : Process S) (err : option error).           (* what [ServeWith] returned *)
Arguments Usage {S}. Arguments BadConfig {S}. Arguments StorageInit {S}. Arguments NotStarted {S}. Arguments BootPanic {S}.
Arguments MuxPanic {S}.
Arguments Served {S}.

Definition status {S} (e : Ending S) : Z :=
  match e with
  | Usage e => if errors_Is e ErrHelp then 0 else 2
  | BadConfig _ | StorageInit _ | NotStarted _ => 1
  | BootPanic | MuxPanic => 2
  | Served p err => if down p then 2 else match err with None => 0 | Some _ => 1 end
  end.

(** A store is left open: [os.Exit] skips the deferred Close, and so does a
    panic in another goroutine. *)
Definition store_left_open {S} (e : Ending S) : bool :=
  match e with
  | NotStarted store => store
  | Served p err => bool_decide (is_Some (Api.store (srv p))) && (down p || bool_decide (is_Some err))
  | _ => false
  end.

Section main.
Context {S Raw : Type} `{Backend S} (out : Outside S Raw).

Definition defaultPaths (cfg : Config.Config) : list WatchedPath :=
  default Watcher.DefaultWatchedPaths (Config.WatchedPathsAsProto (Some cfg)).

Definition opened (fs : FlagSet) : res (option S) :=
  Orchestrator.openStorage (mkdir_all out) (dir out) (sqlite_open out) (postgres_open out) (migrate out)
    (getS fs "storage") (getS fs "sqlite-path") (getS fs "postgres-dsn") (getenv out "FANGS_PG_DSN").

Definition started (fs : FlagSet) (cfg : Config.Config) (store : option S) : res (Orchestrator.Running (S := S)) :=
  Orchestrator.start (sha256 out)
    (Notifier.LoadFromFile (marshal_map out) (boot out) (json_decode out) (ReadFile out)) (ui_new out) (boot out)
    (flags_of fs) (Ok cfg) (Ok store).

(** Nothing is requested of a server whose TLS configuration failed. *)
Definition happens (tls : res Serve.Transport) (a : Action Raw) : bool :=
  match tls, a with Err _, Req _ | Err _, RunnerTick _ => false | _, _ => true end.

Definition serve (fs : FlagSet) (cfg : Config.Config) (rn : Orchestrator.Running (S := S)) (actions : list (Action Raw))
    (ending : Serve.Ending) : Ending S :=
  match Serve.orchestrator_mux (getB fs "metrics") (Orchestrator.rn_ui rn) with
  | None => MuxPanic
  | Some mux =>
      let cert := getS fs "tls-cert" in let key := getS fs "tls-key" in let ca := getS fs "tls-client-ca" in
      let tls := Serve.transport (ReadFile out) (usable out) cert key ca in
      Served (run_process out fs rn (defaultPaths cfg) mux (filter (fun a => happens tls a = true) actions)
                (with_metrics (getB fs "metrics") (Orchestrator.rn_server rn)))
        (Serve.ServeWith (ReadFile out) (usable out) cert key ca ending)
  end.

Definition main (actions : list (Action Raw)) (ending : Serve.Ending) (args : list string) : Ending S :=
  match Parse (fraction out) args orchestrator_flags with
  | Err e => Usage e
  | Ok (fs, _) =>
      match Config.Load (ReadConfig out) (yaml out) (getS fs "config") with
      | Err e => BadConfig e
      | Ok cfg =>
          match opened fs with
          | Err e => StorageInit e
          | Ok store =>
              match started fs cfg store with
              | Err e => if decide (e = Notifier.runtime_panic) then BootPanic else NotStarted (bool_decide (is_Some store))
              | Ok rn => serve fs cfg rn actions ending
              end
          end
      end
  end.
End main.

(** ** The database only changes by the backend's statements *)
Notation DB := Sqlite.DB.

Definition evolves : relation DB := rtc (fun d d' => exists m, d' = SqliteSpec.exec m d).

Lemma evolves_wf d d' : evolves d d' -> SqliteSpec.wf d -> SqliteSpec.wf d'.
Proof. induction 1 as [|d d1 d' [m ->] _ IH]; [done|]. intros Hwf. by apply IH, SqliteSpec.wf_exec. Qed.

Definition keeps {A} (m : M DB A) : Prop := forall d, evolves d (m d).2.
(** The same for a state that holds the database. *)
Definition keeps_in {T A} (db : T -> DB) (m : M T A) : Prop := forall t, evolves (db t) (db (m t).2).

Lemma evolves_exec m d : evolves d (SqliteSpec.exec m d).
Proof. apply rtc_once. by exists m. Qed.

Section keeping.
Context {T : Type} (db : T -> DB).
Implicit Types (A B : Type).

Lemma keeps_reads {A} (m : M T A) : (forall t, (m t).2 = t) -> keeps_in db m.
Proof. intros Hm t. by rewrite Hm. Qed.
Lemma keeps_ret {A} (a : A) : keeps_in db (mret a).
Proof. intros t. constructor. Qed.
Lemma keeps_fail {A} e : keeps_in db (@fail T A e).
Proof. intros t. constructor. Qed.
Lemma keeps_bind {A B} (m : M T A) (f : A -> M T B) :
  keeps_in db m -> (forall a, keeps_in db (f a)) -> keeps_in db (m ≫= f).
Proof.
  intros Hm Hf t. specialize (Hm t). unfold mbind, M_bind. destruct (m t) as [[a|e] t']; [|done]. cbn in Hm.
  by etrans; [|apply Hf].
Qed.
Lemma keeps_attempt {A} (m : M T A) : keeps_in db m -> keeps_in db (attempt m).
Proof. intros Hm t. specialize (Hm t). unfold attempt. by destruct (m t). Qed.
Lemma keeps_wrap {A} msg (m : M T A) : keeps_in db m -> keeps_in db (wrap_err msg m).
Proof. intros Hm t. specialize (Hm t). unfold wrap_err. by destruct (m t) as [[|] ?]. Qed.
End keeping.

Lemma keeps_mutation {A} (m : M DB A) mu : (forall d, (m d).2 = SqliteSpec.exec mu d) -> keeps_in id m.
Proof. intros E d. rewrite E. apply evolves_exec. Qed.

(** Every operation of the interface. *)
Ltac keeps_op := let d := fresh "d" in intros d; first
  [ apply (evolves_exec (SqliteSpec.MCreateRun _ _) d) | apply (evolves_exec (SqliteSpec.MUpdateRunState _ _ _ _) d)
  | apply (evolves_exec (SqliteSpec.MAppendEvents _ _) d) | apply (evolves_exec (SqliteSpec.MMergeBaseline _ _) d)
  | apply (evolves_exec (SqliteSpec.MMarkRunBaseline _ _) d) | apply (evolves_exec (SqliteSpec.MWriteDeviations _) d)
  | apply (evolves_exec (SqliteSpec.MDeleteDeviationsForRun _) d) | apply (evolves_exec (SqliteSpec.MUpdatePackageCheck _ _ _) d)
  | apply (evolves_exec (SqliteSpec.MRecordRelease _) d) | apply (evolves_exec (SqliteSpec.MRecordScanResult _ _ _) d)
  | apply (evolves_exec (SqliteSpec.MPruneEvents _) d) | apply (evolves_exec (SqliteSpec.MAddAllowEntry _ _) d)
  | apply (evolves_exec (SqliteSpec.MUpsertNotifier _ _) d) | apply (evolves_exec (SqliteSpec.MRecordNotification _ _) d) ].

Lemma CreateRun_keeps now r : keeps (CreateRun now r). Proof. keeps_op. Qed.
Lemma UpdateRunState_keeps now id st reason : keeps (UpdateRunState now id st reason). Proof. keeps_op. Qed.
Lemma AppendEvents_keeps id evs : keeps (AppendEvents id evs). Proof. keeps_op. Qed.
Lemma PruneEvents_keeps c : keeps (PruneEvents c). Proof. keeps_op. Qed.
Lemma RecordScanResult_keeps now id r : keeps (RecordScanResult now id r). Proof. keeps_op. Qed.

Create HintDb keeps.
#[export] Hint Resolve keeps_ret keeps_fail keeps_attempt keeps_wrap : keeps.

Ltac keeps_steps :=
  repeat first [ progress intros | apply keeps_bind | apply keeps_ret | apply keeps_fail | apply keeps_attempt
               | apply keeps_wrap | case_decide | case_match | solve [auto with keeps] ].

(** ** The Differ *)
Lemma store_op_keeps {A} (m : M DB A) : keeps m -> keeps_in Differ.store (Differ.store_op m).
Proof. intros Hm d. specialize (Hm (Differ.store d)). unfold Differ.store_op. by destruct (m (Differ.store d)). Qed.

Lemma observe_keeps rows : keeps_in Differ.store (Differ.ObserveDeviationsWritten rows).
Proof. intros d. constructor. Qed.

Lemma GetRun_keeps runID : keeps (GetRun runID).
Proof. apply (keeps_reads id), Args.GetRun_reads. Qed.

Lemma AnalyzeRun_keeps iter newID clock runID : keeps_in Differ.store (Differ.AnalyzeRun iter newID clock runID).
Proof.
  unfold Differ.AnalyzeRun, Differ.seedBaseline.
  keeps_steps; first [ apply observe_keeps | apply store_op_keeps; first [ apply GetRun_keeps | keeps_op | by intros ?; constructor ] ].
Qed.

(** ** The notifier *)
Lemma Trigger_keeps runID : keeps (Notifier.Trigger runID).
Proof.
  unfold Notifier.Trigger, keeps. change (keeps_in id (Notifier.Trigger runID)). unfold Notifier.Trigger.
  keeps_steps; first [ apply GetRun_keeps | by intros ?; constructor ].
Qed.

Lemma recordAttempt_keeps row (s : Notifier.NS DB) : evolves (Notifier.ns_store s) (Notifier.ns_store (Notifier.recordAttempt row s)).
Proof. apply (evolves_exec (SqliteSpec.MRecordNotification _ _)). Qed.

Lemma deliver_loop_keeps c clock rand random target run n answer rem attempt (s : Notifier.NS DB) :
  evolves (Notifier.ns_store s)
    (Notifier.ns_store (Notifier.deliver_loop c clock rand random target run n answer rem attempt s).2).
Proof.
  revert attempt s. induction rem as [|rem IH]; intros attempt s; cbn [Notifier.deliver_loop]; [constructor|].
  destruct (answer attempt) as [[code resp] err].
  assert (forall row st, evolves (Notifier.ns_store s)
            (Notifier.ns_store (Notifier.ObserveNotification target st (Notifier.recordAttempt row s)))) as Hr
    by (intros; apply recordAttempt_keeps).
  repeat case_match; cbn [snd]; try constructor; first [apply Hr | etrans; [apply Hr|apply IH]].
Qed.

Lemma deliverWithRetry_keeps c clock rand random target run n dec enc pu ge hm do devs (s : Notifier.NS DB) :
  evolves (Notifier.ns_store s)
    (Notifier.ns_store (Notifier.deliverWithRetry c clock rand random target run n dec enc pu ge hm do devs s).2).
Proof. unfold Notifier.deliverWithRetry. case_match; [apply deliver_loop_keeps|apply recordAttempt_keeps]. Qed.

Lemma deliver_all_keeps {Raw} (out : Outside DB Raw) env i l (s : Notifier.NS DB) :
  evolves (Notifier.ns_store s) (Notifier.ns_store (deliver_all out env i l s).2).
Proof.
  revert i s. induction l as [|[[target run] devs] l IH]; intros i s; cbn [deliver_all]; [constructor|].
  match goal with |- context [Notifier.deliverWithRetry ?a ?b ?c ?d ?e ?f ?g ?h ?i ?j ?k ?l ?m ?n s] =>
    pose proof (deliverWithRetry_keeps a b c d e f g h i j k l m n s) as Hd;
    destruct (Notifier.deliverWithRetry a b c d e f g h i j k l m n s) as [o s1] end.
  destruct o; cbn [snd] in *; [etrans; [exact Hd|apply IH]..|exact Hd].
Qed.

(** ** Start-up *)
Lemma apply_kind_keeps sha kind now l d : evolves d (Config.apply_kind sha kind now l d).2.
Proof.
  revert d. induction l as [|e l IH]; intros d; cbn [Config.apply_kind]; [constructor|]. case_decide; [apply IH|].
  match goal with |- context [Config.apply_kind sha kind now l ?d1] => specialize (IH d1); destruct (Config.apply_kind sha kind now l d1) end.
  etrans; [|exact IH]. apply (evolves_exec (SqliteSpec.MAddAllowEntry _ _)).
Qed.

Lemma ApplyAllowlist_keeps sha c now : keeps (Config.ApplyAllowlist sha c now).
Proof. intros d. destruct c; [|constructor]. cbn. repeat (etrans; [|apply apply_kind_keeps]). constructor. Qed.

Lemma upsert_entries_keeps mm now l : keeps_in id (Notifier.upsert_entries (S := DB) mm now l).
Proof.
  induction l as [|e l IH]; cbn [Notifier.upsert_entries]; keeps_steps; first [exact IH | keeps_op].
Qed.

Lemma LoadFromFile_keeps mm now dec rf path : keeps (Notifier.LoadFromFile mm now dec rf path).
Proof.
  change (keeps_in id (Notifier.LoadFromFile (S := DB) mm now dec rf path)). unfold Notifier.LoadFromFile.
  keeps_steps. apply upsert_entries_keeps.
Qed.

(** ** Runs are never deleted *)
Lemma insert_deviations_runs rows d d' : Sqlite.insert_deviations rows d = Some d' -> Sqlite.runs d' = Sqlite.runs d.
Proof.
  revert d. induction rows as [|r rows IH]; intros d E; cbn in E; [by injection E as ->|].
  destruct (Sqlite.insert_deviation r d) as [d1|] eqn:E1; [|done]. rewrite (IH d1 E).
  unfold Sqlite.insert_deviation in E1. case_decide; [|done]. destruct (insert_unique _ _ _); [|done]. by injection E1 as <-.
Qed.

Lemma exec_runs m d : Run_ID <$> Sqlite.runs d ⊆ Run_ID <$> Sqlite.runs (SqliteSpec.exec m d).
Proof.
  destruct m; simpl.
  - unfold Sqlite.CreateRun. case_match; [done|]. unfold insert_unique. case_decide; [done|]. simpl.
    rewrite fmap_app. set_solver.
  - unfold Sqlite.UpdateRunState. repeat (case_match || case_decide); try done; simpl; by rewrite update_keys.
  - unfold Sqlite.AppendEvents. repeat (case_match || case_decide); done.
  - unfold Sqlite.MergeBaseline. by case_match.
  - unfold Sqlite.MarkRunBaseline. case_decide; [done|]. simpl; by rewrite update_keys.
  - unfold Sqlite.WriteDeviations. destruct (Sqlite.insert_deviations rows d) as [d'|] eqn:E; [|done].
    simpl. by rewrite (insert_deviations_runs _ _ _ E).
  - done.
  - unfold Sqlite.AddWatchedPackage. by repeat (case_match || case_decide).
  - unfold Sqlite.RemoveWatchedPackage. by repeat (case_match || case_decide).
  - unfold Sqlite.UpdatePackageCheck. by repeat (case_match || case_decide).
  - unfold Sqlite.RecordRelease. by repeat (case_match || case_decide).
  - unfold Sqlite.RecordScanResult. repeat (case_match || case_decide); try done; simpl; by rewrite update_keys.
  - done.
  - unfold Sqlite.AddAllowEntry. by repeat (case_match || case_decide).
  - unfold Sqlite.DeleteAllowEntry. by repeat (case_match || case_decide).
  - done.
  - unfold Sqlite.DeleteNotifier. by repeat (case_match || case_decide).
  - unfold Sqlite.RecordNotification. by repeat (case_match || case_decide).
Qed.

Lemma evolves_runs d d' : evolves d d' -> Run_ID <$> Sqlite.runs d ⊆ Run_ID <$> Sqlite.runs d'.
Proof. induction 1 as [|d d1 d' [m ->] _ IH]; [done|]. etrans; [apply exec_runs|exact IH]. Qed.

(** ** The server's invariant *)
Notation Server := (Api.Server DB).

(** A job as a runner needs it: a kind, a time limit and paths to watch. *)
Definition complete (j : Job) : Prop := jb_Kind j <> "" /\ jb_Duration j <> 0%Z /\ jb_WatchedPaths j <> [].

(** The store [o] after the store [o']. *)
Definition store_evolves (o o' : option DB) : Prop :=
  match o, o' with Some d, Some d' => evolves d d' | None, None => True | _, _ => False end.

(** A queued job is complete and, with a store, its run is recorded. *)
Record server_ok (s : Server) : Prop := mkServerOk {
  ok_registry : Api.registry_inv s;
  ok_jobs : forall r j, j ∈ Dispatcher.jobs_of r (Api.dispatcher s) ->
    complete j /\ forall d, Api.store s = Some d -> hex (jb_RunID j) ∈ Run_ID <$> Sqlite.runs d;
  ok_paths : Api.defaultWatchedPaths s <> [];
  ok_timers : Api.store s = None -> Api.differTimers s = ∅
}.

Definition safe (s s' : Server) : Prop := server_ok s -> server_ok s' /\ store_evolves (Api.store s) (Api.store s').

Lemma store_evolves_refl o : store_evolves o o.
Proof. destruct o; constructor. Qed.
Lemma store_evolves_trans o1 o2 o3 : store_evolves o1 o2 -> store_evolves o2 o3 -> store_evolves o1 o3.
Proof. destruct o1, o2, o3; try done. cbn. apply transitivity. Qed.
Lemma safe_refl s : safe s s.
Proof. intros Hs. split; [done|apply store_evolves_refl]. Qed.
Lemma safe_trans s1 s2 s3 : safe s1 s2 -> safe s2 s3 -> safe s1 s3.
Proof. intros H1 H2 Hs. destruct (H1 Hs) as [Hs2 E2]. destruct (H2 Hs2) as [Hs3 E3]. split; [done|by eapply store_evolves_trans]. Qed.

(** A step that leaves the registry, the queues and the paths alone. *)
Lemma safe_store s s' :
  Api.runners s' = Api.runners s -> Api.dispatcher s' = Api.dispatcher s ->
  Api.defaultWatchedPaths s' = Api.defaultWatchedPaths s -> store_evolves (Api.store s) (Api.store s') ->
  (Api.store s = None -> Api.differTimers s' = Api.differTimers s) -> safe s s'.
Proof.
  intros Hr Hd Hp Hst Ht [H1 H2 H3 H4]. split; [|done]. split.
  - unfold Api.registry_inv. by rewrite Hr.
  - intros r j Hj. rewrite Hd in Hj. destruct (H2 r j Hj) as [Hc Hrun]. split; [done|]. intros d' Hd'.
    rewrite Hd' in Hst. destruct (Api.store s) as [d|] eqn:Es; [|done]. by apply (evolves_runs d d' Hst), Hrun.
  - by rewrite Hp.
  - intros Hn. rewrite Hn in Hst. destruct (Api.store s) eqn:Es; [done|]. by rewrite Ht, H4.
Qed.

(** A step that only registers. *)
Lemma safe_registry s s' :
  Api.dispatcher s' = Api.dispatcher s -> Api.defaultWatchedPaths s' = Api.defaultWatchedPaths s ->
  Api.store s' = Api.store s -> Api.differTimers s' = Api.differTimers s ->
  (Api.registry_inv s -> Api.registry_inv s') -> safe s s'.
Proof.
  intros Hd Hp Hst Ht Hr [H1 H2 H3 H4]. rewrite Hst. split; [|apply store_evolves_refl].
  split; [by apply Hr|by rewrite Hd, Hst|by rewrite Hp|by rewrite Hst, Ht].
Qed.

Lemma register_safe body now s : safe s (Api.handleRegister body now s).2.
Proof.
  destruct body as [reg|e]; [|apply safe_refl].
  assert ((Api.handleRegister (Ok reg) now s).2 = Api.run_op runner_cutoff (now, Api.OpRegister reg) s) as -> by done.
  apply safe_registry; [..|apply Api.run_op_inv]; unfold Api.run_op, Api.handleRegister; cbn; by repeat case_decide.
Qed.

Lemma heartbeat_safe r body now s : safe s (Api.handleHeartbeat r body now s).2.
Proof.
  destruct (default (Ok (mkHeartbeat "" "" "" 0)) body) as [hb|e] eqn:Eb.
  - assert ((Api.handleHeartbeat r body now s).2 = Api.run_op runner_cutoff (now, Api.OpHeartbeat r hb) s) as ->.
    { unfold Api.run_op, Api.handleHeartbeat. cbn. case_decide; [done|]. by rewrite Eb. }
    apply safe_registry; [..|apply Api.run_op_inv].
    all: unfold Api.run_op, Api.handleHeartbeat; cbn; case_decide; [done|]; by case_match.
  - unfold Api.handleHeartbeat. case_decide; [apply safe_refl|]. rewrite Eb. apply safe_refl.
Qed.

Lemma prune_safe now s : safe s (Api.prune runner_cutoff now s).
Proof. apply safe_registry; [done..|]. apply (Api.run_op_inv runner_cutoff (now, Api.OpPrune)). Qed.

(** A step that takes jobs out of the queues, or puts complete ones in. *)
Lemma safe_dispatch s s' :
  Api.runners s' = Api.runners s -> Api.defaultWatchedPaths s' = Api.defaultWatchedPaths s ->
  store_evolves (Api.store s) (Api.store s') -> Api.differTimers s' = Api.differTimers s ->
  (Api.defaultWatchedPaths s <> [] -> forall r j, j ∈ Dispatcher.jobs_of r (Api.dispatcher s') ->
     j ∈ Dispatcher.jobs_of r (Api.dispatcher s) \/
     (complete j /\ forall d, Api.store s' = Some d -> hex (jb_RunID j) ∈ Run_ID <$> Sqlite.runs d)) -> safe s s'.
Proof.
  intros Hr Hp Hst Ht Hj [H1 H2 H3 H4]. split; [|done]. split.
  - unfold Api.registry_inv. by rewrite Hr.
  - intros r j Hin. destruct (Hj H3 r j Hin) as [Hold|?]; [|done]. destruct (H2 r j Hold) as [Hc Hrun]. split; [done|].
    intros d' Hd'. rewrite Hd' in Hst. destruct (Api.store s) as [d|]; [|done]. by apply (evolves_runs d d' Hst), Hrun.
  - by rewrite Hp.
  - intros Hn. rewrite Hn in Hst. rewrite Ht. apply H4. by destruct (Api.store s).
Qed.

Lemma dequeued r r' d j : j ∈ Dispatcher.jobs_of r' (Dispatcher.try_dequeue r d).2 -> j ∈ Dispatcher.jobs_of r' d.
Proof.
  unfold Dispatcher.try_dequeue. destruct (Dispatcher.jobs_of r d) as [|next rest] eqn:E; cbn [snd].
  - by rewrite Dispatcher.jobs_getSignal.
  - unfold Dispatcher.jobs_of at 1. cbn. destruct (decide (r' = r)) as [->|Hne].
    + rewrite lookup_insert_eq, E. cbn. by right.
    + by rewrite lookup_insert_ne.
Qed.

Lemma poll_safe r s : safe s (Api.handlePollJob r (Dispatcher.try_dequeue r) s).2.
Proof.
  unfold Api.handlePollJob. case_decide; [apply safe_refl|]. case_match; [|apply safe_refl].
  pose proof (dequeued r) as Hd. destruct (Dispatcher.try_dequeue r (Api.dispatcher s)) as [o d] eqn:E.
  apply safe_dispatch; try done; [apply store_evolves_refl|]. intros _ r' j Hj. left. apply (Hd r'). by rewrite E.
Qed.

Lemma created_run now r d :
  IsValid (Run_State r) = true -> Run_ID r ∈ Run_ID <$> Sqlite.runs (Sqlite.CreateRun now r d).2.
Proof.
  intros Hv. unfold Sqlite.CreateRun. rewrite Hv. cbn [negb]. unfold insert_unique. case_decide as Hin; [done|]. simpl.
  rewrite fmap_app, elem_of_app. right. by left.
Qed.

Lemma fill_complete paths t0 t1 j : paths <> [] -> complete (Api.fill_job paths t0 t1 j).
Proof.
  intros Hp. unfold complete, Api.fill_job. cbn. split_and_all.
  - by case_decide.
  - by case_decide.
  - by destruct (jb_WatchedPaths j).
Qed.

Lemma submit_safe target job t0 t1 now s : safe s (Api.SubmitScan target job t0 t1 now s).2.
Proof.
  unfold Api.SubmitScan. case_match; [|apply safe_refl]. cbn [snd]. set (j0 := Api.fill_job _ _ _ _).
  apply safe_dispatch; [done|done| |done|].
  - cbn. destruct (Api.store s) as [d|]; [|done]. apply (evolves_exec (SqliteSpec.MCreateRun _ _)).
  - intros Hp rid j Hj. cbn in Hj. change (Dispatcher.jobs_of rid (Dispatcher.wake target (Dispatcher.enqueue target j0 (Api.dispatcher s))))
      with (Dispatcher.jobs_of rid (Dispatcher.enqueue target j0 (Api.dispatcher s))) in Hj.
    rewrite Dispatcher.jobs_enqueue in Hj. apply elem_of_app in Hj as [Hj|Hj]; [by left|]. right.
    case_decide; [|by apply not_elem_of_nil in Hj]. apply list_elem_of_singleton in Hj as ->.
    split; [by apply fill_complete|]. intros d Hd. cbn in Hd. destruct (Api.store s) as [d0|]; [|done]. injection Hd as <-.
    by apply (created_run now (Api.run_of_job j0)).
Qed.

Lemma queue_scan_safe body t0 t1 now s : safe s (Api.handleQueueScan body t0 t1 now s).2.
Proof.
  unfold Api.handleQueueScan. destruct body as [[target job]|e]; [|apply safe_refl]. case_decide; [apply safe_refl|].
  pose proof (submit_safe target job t0 t1 now s) as Hs. by destruct (Api.SubmitScan target job t0 t1 now s) as [[i|e] s'].
Qed.

(** Handlers whose only effect is on the store. *)
Lemma safe_set_store s d d' : Api.store s = Some d -> evolves d d' -> safe s (Api.set_store s (Some d')).
Proof. intros E He. apply safe_store; try done. by rewrite E. Qed.

Lemma safe_observe l s : safe s (Api.observe s l).
Proof. apply safe_store; try done. apply store_evolves_refl. Qed.

Lemma ingest_batch_safe runID clock b c s : safe s (Api.ingest_batch runID clock b c s).2.
Proof.
  unfold Api.ingest_batch. cbv zeta. set (l := (fun kv : string * nat => Api.EventObs kv.1 kv.2) <$> map_to_list (Api.perType (eb_Events b))).
  eapply safe_trans; [apply (safe_observe l)|]. set (s1 := Api.observe s l).
  destruct (Api.store s1) as [st|] eqn:Es; [|apply safe_refl]. destruct (eb_Events b) as [|ev evs] eqn:Eb; [apply safe_refl|].
  match goal with |- context [AppendEvents runID ?rows st] => pose proof (AppendEvents_keeps runID rows st) as Hk;
    destruct (AppendEvents runID rows st) as [[u|e] st'] end; by apply (safe_set_store _ st).
Qed.

Lemma ingest_safe runID clock l c s : safe s (Api.ingest runID clock l c s).2.
Proof.
  revert c s. induction l as [|b l IH]; intros c s; [apply safe_refl|]. cbn [Api.ingest].
  pose proof (ingest_batch_safe runID clock b c s) as Hs. destruct (Api.ingest_batch runID clock b c s) as [c1 s1].
  by eapply safe_trans.
Qed.

Lemma schedule_safe runID now s : safe s (Api.scheduleDiffer runID now s).
Proof.
  unfold Api.scheduleDiffer. destruct (Api.store s) as [d|] eqn:E; [|apply safe_refl].
  apply safe_store; try done; [apply store_evolves_refl|]. congruence.
Qed.

Lemma events_safe runID batches eof clock now s : safe s (Api.handleEvents runID batches eof clock now s).2.
Proof.
  unfold Api.handleEvents. case_decide; [apply safe_refl|].
  pose proof (ingest_safe runID clock batches (Api.mkCounts 0 0 0) s) as Hs.
  destruct (Api.ingest runID clock batches (Api.mkCounts 0 0 0) s) as [c s1]. destruct eof; cbn [negb snd]; [|exact Hs].
  eapply safe_trans; [exact Hs|]. eapply safe_trans; [|apply schedule_safe].
  destruct (Api.store s1) as [d|] eqn:E; cbn [fmap option_fmap option_map].
  - apply (safe_set_store _ d); [done|]. apply UpdateRunState_keeps.
  - apply safe_store; try done. cbn. by rewrite E.
Qed.

Lemma result_safe runID body now s : safe s (Api.handleScanResult runID body now s).2.
Proof.
  unfold Api.handleScanResult. case_decide; [apply safe_refl|]. destruct body as [r|e]; [|apply safe_refl].
  case_decide; [apply safe_refl|]. destruct (Api.store s) as [d|] eqn:E; [|apply safe_refl].
  match goal with |- context [RecordScanResult now runID ?x d] => pose proof (RecordScanResult_keeps now runID x d) as Hk;
    destruct (RecordScanResult now runID x d) as [[u|e] d'] end; cbn [snd] in *.
  - eapply safe_trans; [by apply (safe_set_store _ d)|]. case_match; [apply safe_observe|apply safe_refl].
  - by apply (safe_set_store _ d).
Qed.

(** ** The pages read *)
Definition reads {A} (h : DB -> A * DB) : Prop := forall d, (h d).2 = d.

Lemma page_of_safe {A} (h : DB -> A * DB) (k : A -> Answer) s : reads h -> safe s (page_of h k s).2.
Proof.
  intros Hr. unfold page_of. destruct (Api.store s) as [d|] eqn:E; [|apply safe_refl].
  pose proof (Hr d) as Hd. destruct (h d) as [a d']. cbn in Hd. subst d'. apply (safe_set_store _ d); [done|constructor].
Qed.

Lemma by_id_reads {A} (get resolve : string -> M DB A) rid :
  reads (get rid) -> reads (resolve rid) -> reads (Ui.by_id_or_prefix get resolve rid).
Proof.
  intros Hg Hr d. specialize (Hg d). unfold Ui.by_id_or_prefix. destruct (get rid d) as [[a|e] d1]; cbn in Hg; subst; [done|].
  case_match; [|done]. specialize (Hr d). destruct (resolve rid d) as [[a|e'] d1]; cbn in Hr; by subst.
Qed.

Lemma run_detail_reads iter ci rid q : reads (Ui.handleRunDetail iter ci rid q).
Proof.
  intros d. unfold Ui.handleRunDetail. case_decide; [done|].
  pose proof (by_id_reads GetRun ResolveRunPrefix rid (Args.GetRun_reads rid) (Args.ResolveRunPrefix_reads rid) d) as Hr.
  destruct (Ui.by_id_or_prefix GetRun ResolveRunPrefix rid d) as [[run|code] d']; cbn in Hr; by subst.
Qed.

Lemma GetDeviation_reads rid : reads (GetDeviation rid).
Proof. intros d. unfold GetDeviation, SqliteSpec.sqlite_backend, Sqlite.GetDeviation. by case_match. Qed.

Lemma deviation_detail_reads ci rid : reads (Ui.handleDeviationDetail ci rid).
Proof.
  intros d. unfold Ui.handleDeviationDetail. case_decide; [done|].
  pose proof (by_id_reads GetDeviation ResolveDeviationPrefix rid (GetDeviation_reads rid) (fun _ => eq_refl) d) as Hr.
  destruct (Ui.by_id_or_prefix GetDeviation ResolveDeviationPrefix rid d) as [[dv|code] d']; cbn in Hr; subst; [|done].
  pose proof (Args.GetEvent_reads (Dev_EvidenceEventID dv) d) as He. pose proof (Args.GetRun_reads (Dev_RunID dv) d) as Hg.
  destruct (0 <? Dev_EvidenceEventID dv)%Z;
    [destruct (GetEvent (Dev_EvidenceEventID dv) d) as [[ev|e] d1]; cbn in He; subst|];
    destruct (GetRun (Dev_RunID dv) d) as [run d2]; cbn in Hg; by subst.
Qed.

Lemma event_detail_reads ci t : reads (Ui.handleEventDetail ci t).
Proof.
  intros d. unfold Ui.handleEventDetail. case_decide; [done|]. case_match; [|done].
  match goal with |- context [GetEvent ?x d] => pose proof (Args.GetEvent_reads x d) as Hg; destruct (GetEvent x d) as [[ev|e] d1] end;
    cbn in Hg; by subst.
Qed.

Lemma lineage_reads cu ci order rid ev q : reads (Lineage.handleLineage cu ci order rid ev q).
Proof.
  intros d. unfold Lineage.handleLineage. case_decide; [done|]. pose proof (Args.GetRun_reads rid d) as Hg.
  assert (forall run, reads (Lineage.view_run cu ci order run ev q)) as Hv.
  { intros run d1. unfold Lineage.view_run. assert ((ListEventsByRun (Run_ID run) Lineage.lineagePageLimit d1).2 = d1) as Hl by done.
    destruct (ListEventsByRun (Run_ID run) Lineage.lineagePageLimit d1) as [r d2]. cbn in Hl. subst d2. by destruct (Lineage.buildLineage _ _ _ _ _ _). }
  destruct (GetRun rid d) as [[run|e] d1]; cbn in Hg; subst; [apply Hv|]. case_match; [|done].
  pose proof (Args.ResolveRunPrefix_reads rid d) as Hg. destruct (ResolveRunPrefix rid d) as [[run|e'] d1]; cbn in Hg; subst; [apply Hv|done].
Qed.

Lemma pending_reads iter : reads (Pending.handlePending iter).
Proof.
  intros d. unfold Pending.handlePending. cbn [ListDeviationsFiltered SqliteSpec.sqlite_backend].
  unfold Sqlite.ListDeviationsFiltered. match goal with |- context [Pending.group ?l d] => pose proof (Args.group_reads l d) as Hg;
    destruct (Pending.group l d) as [m d1] end. cbn in *. by subst.
Qed.

Lemma allowlist_reads ks pkg : reads (Ui.handleAllowlist ks pkg).
Proof.
  intros d. unfold Ui.handleAllowlist. assert ((ListAllowEntries d).2 = d) as Hl by done.
  destruct (ListAllowEntries d) as [r d2]. cbn in Hl. subst d2. by destruct (foldl _ _ _).
Qed.

Lemma overview_reads rs now path : reads (Ui.handleOverview rs now path).
Proof. intros d. unfold Ui.handleOverview. by case_decide. Qed.
Lemma package_detail_reads name : reads (Ui.handlePackageDetail name).
Proof. intros d. unfold Ui.handlePackageDetail. by case_decide. Qed.
Lemma runs_reads pkg limit : reads (Ui.handleRuns pkg limit).
Proof. intros d. unfold Ui.handleRuns. by case_decide. Qed.

(** ** One step of the process *)
Section steps.
Context {Raw : Type} (out : Outside DB Raw) (fs : FlagSet) (rn : Orchestrator.Running (S := DB)) (paths : list WatchedPath)
        (mux : Serve.Mux Serve.Handler).

Lemma route_safe h vs rq s : safe s (serve_route out fs paths h vs rq s).2.
Proof.
  destruct h; cbn [serve_route]; try apply safe_refl; unfold json_of; cbn [snd].
  - apply register_safe.
  - apply heartbeat_safe.
  - apply poll_safe.
  - apply queue_scan_safe.
  - destruct (decode_batches out (rq_body rq)) as [bs eof]. apply events_safe.
  - apply result_safe.
  - apply page_of_safe, overview_reads.
  - by apply page_of_safe.
  - apply page_of_safe, package_detail_reads.
  - apply page_of_safe, runs_reads.
  - apply page_of_safe, run_detail_reads.
  - apply page_of_safe, lineage_reads.
  - by apply page_of_safe.
  - apply page_of_safe, deviation_detail_reads.
  - apply page_of_safe, event_detail_reads.
  - apply page_of_safe, pending_reads.
  - apply page_of_safe, allowlist_reads.
  - by apply page_of_safe.
  - by apply page_of_safe.
Qed.

Lemma answer_safe rq s : safe s (answer out fs paths mux rq s).2.
Proof. unfold answer. destruct (Serve.ServeHTTP mux _ _); [apply route_safe|apply safe_refl..]. Qed.

Lemma analyse_safe a p : safe (srv p) (srv (analyse out rn a p)).
Proof.
  unfold analyse. destruct (Api.store (srv p)) as [d|] eqn:E; [|apply safe_refl].
  pose proof (AnalyzeRun_keeps (an_iter a) (an_newID a) (an_clock a) (an_run a) (Differ.mkDiffer d (differ_log p))) as Hd.
  destruct (Differ.AnalyzeRun _ _ _ _ _) as [r x]. cbn [snd Differ.store] in Hd. cbv zeta.
  set (s1 := Api.set_timers (Api.set_store (srv p) (Some (Differ.store x))) _).
  assert (safe (srv p) s1) as H1.
  { apply safe_store; try done; [by rewrite E|]. rewrite E. done. }
  destruct r as [[|n]|e]; cbn [srv]; [exact H1| |exact H1].
  destruct (Orchestrator.rn_notifier rn); [|exact H1].
  pose proof (Trigger_keeps (an_run a) (Differ.store x)) as Ht. destruct (Notifier.Trigger (an_run a) (Differ.store x)) as [[l|e] d1];
    cbn [snd] in Ht.
  - pose proof (deliver_all_keeps out (an_delivery a) 0 l (Notifier.mkNS d1 (notifier_log p))) as Hn. cbn [notifier_log].
    destruct (deliver_all out (an_delivery a) 0 l (Notifier.mkNS d1 (notifier_log p))) as [b ns]. cbn [srv snd Notifier.ns_store] in *.
    eapply safe_trans; [exact H1|]. apply (safe_set_store _ (Differ.store x)); [done|]. by etrans.
  - cbn [srv set_srv]. eapply safe_trans; [exact H1|]. by apply (safe_set_store _ (Differ.store x)).
Qed.

(** The watcher's world as the server it acts on. *)
Definition whole (w : Watcher.World DB Server) : Server := Api.set_store (Watcher.w_server w) (Some (Watcher.w_store w)).

Lemma pollPackage_safe latest pick clk now p w :
  safe (whole w) (whole (Watcher.pollPackage latest (Orchestrator.submit pick clk) now p w)).
Proof.
  unfold Watcher.pollPackage. destruct (latest (Wp_Name p)) as [v|e]; [|apply safe_refl].
  pose proof (evolves_exec (SqliteSpec.MUpdatePackageCheck now (Wp_Name p) (Watcher.pv_Version v)) (Watcher.w_store w)) as H1.
  cbn [SqliteSpec.exec] in H1. change (UpdatePackageCheck now (Wp_Name p) (Watcher.pv_Version v) (Watcher.w_store w))
    with (Sqlite.UpdatePackageCheck now (Wp_Name p) (Watcher.pv_Version v) (Watcher.w_store w)).
  set (d1 := (Sqlite.UpdatePackageCheck now _ _ _).2) in *.
  case_decide; [exact (safe_set_store (whole w) _ d1 eq_refl H1)|].
  match goal with |- context [RecordRelease ?r d1] => pose proof (evolves_exec (SqliteSpec.MRecordRelease r) d1) as H2;
    cbn [SqliteSpec.exec] in H2; change (RecordRelease r d1) with (Sqlite.RecordRelease r d1);
    set (d2 := (Sqlite.RecordRelease r d1).2) in * end.
  eapply (safe_trans _ (Api.set_store (Watcher.w_server w) (Some d2))).
  { refine (safe_set_store (whole w) (Watcher.w_store w) d2 eq_refl _). by etrans. }
  unfold Orchestrator.submit. cbn [fst snd]. case_decide; [apply safe_refl|].
  match goal with |- context [Api.SubmitScan ?t ?j ?x ?y ?z ?s] => pose proof (submit_safe t j x y z s) as Hs;
    destruct (Api.SubmitScan t j x y z s) as [r s'] end.
  cbn [snd] in Hs. unfold whole. cbn [Watcher.w_server Watcher.w_store]. intros Hok. destruct (Hs Hok) as [Hok' He]. cbn in He.
  assert (Api.set_store s' (Some (default d2 (Api.store s'))) = s') as ->; [|by split].
  destruct s' as [? ? ? ? ? [d3|] ? ?]; done.
Qed.

Lemma PollOnce_safe latest pick clk now alive w :
  safe (whole w) (whole (Watcher.PollOnce latest (Orchestrator.submit pick clk) now alive w)).
Proof.
  unfold Watcher.PollOnce. change (ListWatchedPackages (Watcher.w_store w)) with (Sqlite.ListWatchedPackages (Watcher.w_store w)).
  unfold Sqlite.ListWatchedPackages.
  assert (forall pkgs i w, safe (whole w) (whole (Watcher.poll_all latest (Orchestrator.submit pick clk) now alive i pkgs w))) as Hp.
  { induction pkgs as [|p pkgs IH]; intros i w1; cbn [Watcher.poll_all]; [apply safe_refl|]. case_match; [|apply safe_refl].
    eapply safe_trans; [apply pollPackage_safe|apply IH]. }
  eapply safe_trans; [|apply Hp]. apply safe_refl.
Qed.

Lemma step_safe p a : safe (srv p) (srv (process_step out fs rn paths mux p a)).
Proof.
  unfold process_step. destruct (down p); [apply safe_refl|]. destruct a as [rq|a|latest pick clk alive now|now fault|now]; cbn [tick].
  - apply answer_safe.
  - apply analyse_safe.
  - destruct (Api.store (srv p)) as [d|] eqn:E; [|apply safe_refl]. destruct (Orchestrator.rn_watcher rn); [|apply safe_refl].
    cbn [srv set_srv]. eapply safe_trans; [|apply PollOnce_safe]. apply (safe_set_store _ d); [done|constructor].
  - destruct (Api.store (srv p)) as [d|] eqn:E; [|apply safe_refl]. destruct (Orchestrator.rn_pruner rn); [|apply safe_refl].
    cbn [srv]. apply (safe_set_store _ d); [done|]. unfold Orchestrator.prune_pass. destruct fault; [constructor|].
    apply (keeps_attempt id). apply PruneEvents_keeps.
  - apply prune_safe.
Qed.

Lemma run_process_safe acts p : safe (srv p) (srv (run_process out fs rn paths mux acts p)).
Proof.
  revert p. induction acts as [|a acts IH]; intros p; [apply safe_refl|]. eapply safe_trans; [apply step_safe|apply IH].
Qed.
End steps.

(** ** No delivery takes the process down *)
Lemma default_backoffs (rand : nat -> Z -> Z) i r :
  1 <= i -> (Z.of_nat i < Notifier.maxAttempt (Notifier.New 0 0 0))%Z ->
  is_Some (Notifier.backoff (Notifier.New 0 0 0) (rand r) (Z.of_nat i)).
Proof.
  intros H1 H2. change (Notifier.maxAttempt (Notifier.New 0 0 0)) with 5%Z in H2.
  assert (i = 1 \/ i = 2 \/ i = 3 \/ i = 4) as [->|[->|[->| ->]]] by lia; by eexists.
Qed.

Lemma delivery_ends clock rand random target run n dec enc pu ge hm do devs (s : Notifier.NS DB) :
  (Notifier.deliverWithRetry (Notifier.New 0 0 0) clock rand random target run n dec enc pu ge hm do devs s).1 <> Notifier.Panicked.
Proof.
  unfold Notifier.deliverWithRetry. case_match; [|done].
  match goal with |- context [Notifier.deliver_loop _ _ _ _ _ _ _ ?answer _ _ _] =>
    destruct (Notifier.deliver_loop_spec (Notifier.New 0 0 0) clock rand random target run n answer 5 1 s)
      as (k & _ & _ & _ & E); [done|lia|intros; by apply default_backoffs|] end.
  change (Z.to_nat (Notifier.maxAttempt (Notifier.New 0 0 0))) with 5. rewrite E. cbn [fst].
  unfold Notifier.outcome_of. by repeat case_decide.
Qed.

Lemma deliver_all_ends {Raw} (out : Outside DB Raw) env i l s : (deliver_all out env i l s).1 = false.
Proof.
  revert i s. induction l as [|[[target run] devs] l IH]; intros i s; [done|]. cbn [deliver_all].
  match goal with |- context [Notifier.deliverWithRetry ?a ?b ?c ?d ?e ?f ?g ?h ?i ?j ?k ?l ?m ?n s] =>
    pose proof (delivery_ends b c d e f g h i j k l m n s) as Hd;
    destruct (Notifier.deliverWithRetry a b c d e f g h i j k l m n s) as [o s1] end.
  destruct o; [apply IH..|done].
Qed.

Lemma step_up {Raw} (out : Outside DB Raw) fs rn paths mux p a :
  (Orchestrator.rn_pruner rn = true -> (0 < getD fs "retention-interval")%Z) -> down p = false -> down (process_step out fs rn paths mux p a) = false.
Proof.
  intros Hev Hp. unfold process_step. rewrite Hp. destruct a as [rq|a|latest pick clk alive now|now fault|now]; cbn [tick]; try done.
  - unfold analyse. case_match; [|done]. destruct (Differ.AnalyzeRun _ _ _ _ _) as [[[|k]|e] x]; try done.
    cbv zeta. destruct (Orchestrator.rn_notifier rn); [|done]. destruct (Notifier.Trigger _ _) as [[l|e] d1]; [|done].
    pose proof (deliver_all_ends out (an_delivery a) 0 l (Notifier.mkNS d1 (notifier_log p))) as Hd. cbn [notifier_log].
    by destruct (deliver_all out (an_delivery a) 0 l (Notifier.mkNS d1 (notifier_log p))) as [b ns].
  - by repeat case_match.
  - destruct (Api.store (srv p)); [|done]. destruct (Orchestrator.rn_pruner rn); [|done]. cbn [down].
    apply Z.leb_gt. by apply Hev.
Qed.

Lemma run_process_up {Raw} (out : Outside DB Raw) fs rn paths mux acts p :
  (Orchestrator.rn_pruner rn = true -> (0 < getD fs "retention-interval")%Z) ->
  down p = false -> down (run_process out fs rn paths mux acts p) = false.
Proof.
  intros Hev. revert p. induction acts as [|a acts IH]; intros p Hp; [done|]. by apply IH, step_up.
Qed.

(** ** What is up after the start *)
Lemma defaultPaths_nonempty cfg : defaultPaths cfg <> [].
Proof. unfold defaultPaths, Config.WatchedPathsAsProto. by destruct (Config.WatchedPaths cfg). Qed.

Lemma New_ok i v ps st : ps <> [] -> server_ok (Api.New (S := DB) i v ps st).
Proof.
  intros Hp. split; [|..|done|done].
  - intros r rr Hr. cbn in Hr. by rewrite lookup_empty in Hr.
  - intros r j Hj. unfold Dispatcher.jobs_of in Hj. cbn in Hj. rewrite lookup_empty in Hj. by apply not_elem_of_nil in Hj.
Qed.

Lemma started_spec {Raw} (out : Outside DB Raw) fs cfg st rn :
  started out fs cfg st = Ok rn ->
  server_ok (Orchestrator.rn_server rn) /\ store_evolves st (Api.store (Orchestrator.rn_server rn)) /\
  Orchestrator.rn_watcher rn = getB fs "watch" && bool_decide (is_Some st) /\
  Orchestrator.rn_pruner rn = bool_decide (is_Some st) && (0 <? getI fs "retention-days")%Z /\
  Orchestrator.rn_ui rn = getB fs "ui" && bool_decide (is_Some st).
Proof.
  unfold started, Orchestrator.start. cbv zeta. intros E.
  set (st1 := (fun d => (Config.ApplyAllowlist (sha256 out) (Some cfg) (boot out) d).2) <$> st) in E.
  assert (store_evolves st st1) as H1 by (unfold st1; destruct st; [apply ApplyAllowlist_keeps|done]).
  match type of E with match ?loaded with Ok _ => _ | Err _ => _ end = _ =>
    assert (match loaded with Ok st2 => store_evolves st1 st2 | Err _ => True end) as H2;
    [|destruct loaded as [st2|e2] eqn:El; [|done]] end.
  { destruct st1 as [d|]; [|done]. case_decide; [constructor|].
    pose proof (LoadFromFile_keeps (marshal_map out) (boot out) (json_decode out) (ReadFile out)
      (Orchestrator.fl_notifiers_file (flags_of fs)) d) as Hk.
    by destruct (Notifier.LoadFromFile _ _ _ _ _ d) as [[n|e] d1]. }
  clear El.
  pose proof (store_evolves_trans _ _ _ H1 H2) as H3. clear H1 H2 st1.
  assert (bool_decide (is_Some st2) = bool_decide (is_Some st)) as Es.
  { destruct st, st2; try done; by apply bool_decide_ext; split; intros []. }
  case_match; [done|]. injection E as <-. cbn. rewrite Es. split_and_all; try done.
  - case_match; [|apply New_ok, defaultPaths_nonempty].
    destruct (New_ok (getS fs "id") version (defaultPaths cfg) st2 (defaultPaths_nonempty cfg)) as [A B C D]. by split.
  - by case_match.
Qed.

(** Why the start ended in a panic: a notifiers file that reads as blank. *)
Lemma started_panic {Raw} (out : Outside DB Raw) fs cfg st :
  started out fs cfg st = Err Notifier.runtime_panic ->
  is_Some st /\ getS fs "notifiers-file" <> "" /\
  exists raw, ReadFile out (getS fs "notifiers-file") = Ok raw /\ TrimSpace raw = "".
Proof.
  unfold started, Orchestrator.start. cbv zeta. destruct st as [d|]; cbn [fmap option_fmap option_map].
  2: { case_match; done. }
  case_decide as Hf; [case_match; done|].
  destruct (Notifier.LoadFromFile _ _ _ _ _ _) as [[n|e] d'] eqn:E; [case_match; done|]. intros [= ->].
  split; [by eexists|]. cbn in Hf. split; [done|]. revert E. unfold Notifier.LoadFromFile. cbn [flags_of Orchestrator.fl_notifiers_file].
  rewrite decide_False by done. destruct (ReadFile out _) as [raw|e]; [|by intros [=]]. intros E. exists raw. split; [done|].
  unfold Notifier.parse_entries in E. destruct (TrimSpace raw) as [|c x]; [done|]. exfalso.
  match type of E with match (match ?en with Some _ => _ | None => _ end) with Ok _ => _ | Err _ => _ end _ = _ =>
    destruct en as [l|]; [|by injection E] end.
  revert E. generalize (Config.ApplyAllowlist (sha256 out) (Some cfg) (boot out) d).2. 
  assert (forall d1 d2, Notifier.upsert_entries (marshal_map out) (boot out) l d1 <> (Err Notifier.runtime_panic, d2)) as Hu.
  { induction l as [|en l IH]; intros d1 d2; [done|]. cbn [Notifier.upsert_entries]. destruct (Notifier.entry_valid en); [|done].
    unfold mbind, M_bind, wrap_err. destruct (UpsertNotifier _ _ _) as [[u|e] d3]; [apply IH|by intros [=]]. }
  intros d1. unfold mbind, M_bind. destruct (Notifier.upsert_entries _ _ _ _) as [[u|e] d3] eqn:Eu; [done|].
  intros [= -> ->]. by apply Hu in Eu.
Qed.


(** ** A concrete process

    Bodies are registrations or scans; a runner registers and a scan is
    queued for it. *)
Definition wit_outside (ReadFile : string -> res string) : Outside DB (RunnerRegistration + string * Job) :=
  mkOutside wit_fraction (fun _ => "") (fun _ => Config.NotExist) (fun _ => Ok Config.zero_config)
    ReadFile (fun _ => true) (fun _ => false) id (fun _ => None) (fun _ => "") (fun _ => "")
    (fun _ => Err (Errorf "url")) (fun _ _ => "") (fun _ => 0%Z) (fun _ => 0%Z) (fun _ => Ok tt) id (fun _ => Ok Sqlite.empty_db)
    (fun _ => Err (Errorf "unreachable")) Ok (Ok tt) 0%Z
    (fun b => match b with inl r => Ok r | inr _ => Err (Errorf "json") end) (fun _ => None)
    (fun b => match b with inr j => Ok j | inl _ => Err (Errorf "json") end) (fun _ => ([], true)) (fun _ => Err (Errorf "json"))
    id (fun _ => []) id id.

Definition wit_out : Outside DB (RunnerRegistration + string * Job) := wit_outside (fun _ => Err (Errorf "no such file")).

Definition wit_post (path : list string) (body : RunnerRegistration + string * Job) : Action (RunnerRegistration + string * Job) :=
  Req (mkRequest "POST" path (fun _ => "") body (fun _ => 7%Z) 7%Z).
Definition wit_job : Job := mkJob Api.zero_run_id "" "axios" "1.1" "" [] 0%Z zero_time None.
Definition wit_actions : list (Action (RunnerRegistration + string * Job)) :=
  [wit_post ["v1"; "runners"; "register"] (inl (mkRunnerRegistration "r1" "h" [] "6.1" CurrentProtoVersion));
   wit_post ["v1"; "scans"] (inr ("r1", wit_job)); RetentionTick 7%Z None; RunnerTick 8%Z].

Definition queued (e : Ending DB) : list (string * string * duration * nat) :=
  match e with
  | Served p _ => (fun j => (jb_Kind j, jb_PackageName j, jb_Duration j, length (jb_WatchedPaths j))) <$>
                    Dispatcher.jobs_of "r1" (Api.dispatcher (srv p))
  | _ => []
  end.

Example queued_scan :
  let e := main wit_out wit_actions (Serve.CtxDone None) ["-watch=false"] in
  (status e, queued e) = (0%Z, [("sensor_only", "axios", (10 * Second)%Z, length Watcher.DefaultWatchedPaths)]).
Proof. vm_compute. reflexivity. Qed.


(** An exit after the store was opened skips its Close: a CA file that cannot
    be read, a notifiers file that is missing. *)
Example exit_skips_close :
  (fun args => let e := main wit_out [] (Serve.CtxDone None) args in (status e, store_left_open e)) <$>
    [["-tls-cert=c"; "-tls-key=k"; "-tls-client-ca=ca"]; ["-notifiers-file=n.json"]; []; ["-h"]; ["-storage=x"]] =
  [(1%Z, true); (1%Z, true); (0%Z, false); (0%Z, false); (1%Z, false)].
Proof. vm_compute. reflexivity. Qed.

(** A blank notifiers file panics at the start, and the deferred Close runs; a
    retention interval of zero panics in the pruner's goroutine, and it does not. *)
Example panics :
  (fun e => (status e, store_left_open e)) <$>
    [main (wit_outside (fun _ => Ok " ")) [] (Serve.CtxDone None) ["-notifiers-file=n.json"];
     main wit_out wit_actions (Serve.CtxDone None) ["-retention-interval=0s"]] = [(2%Z, false); (2%Z, true)].
Proof. vm_compute. reflexivity. Qed.

(** Without a store the watcher, the pruner and the dashboard stay down, and
    scans are still queued. *)
Example storeless :
  (fun path => (answer wit_out [] [] (default [] (Serve.orchestrator_mux false false))
     (mkRequest "GET" path (fun _ => "") (inr ("", wit_job)) (fun _ => 0%Z) 0%Z) (Api.New "" "" [] None)).1) <$>
    [["ui"; ""]; ["v1"; "scans"]] = [NotFound404; Refused405] /\
  queued (main wit_out wit_actions (Serve.CtxDone None) ["-storage"; "none"]) <> [].
Proof. split; vm_compute; [reflexivity|discriminate]. Qed.
End OrchestratorMain.
