(* ===== verification/Render.v ===== *)
(** * The dashboard's templates

    [New], [parsePages] and [render] of orchestrator/ui/ui.go, with the names
    under which the handlers of orchestrator/ui ask for their pages.  Parsing
    and executing a template are parameters; [templates] is the embedded
    directory. *)
From stdpp Require Import prelude strings gmap list.
From S2P Require Import Prelude GoTime Proto.

Module Render.

(** A directory entry: its name, and whether it is a directory. *)
Definition entry : Type := (string * bool)%type.

(** The embedded directory (ui/templates), sorted by name. *)
Definition templates : list entry :=
  [("allowlist.html", false); ("config.html", false); ("deviation_detail.html", false); ("deviations.html", false);
   ("event_detail.html", false); ("layout.html", false); ("lineage.html", false); ("notifiers.html", false);
   ("overview.html", false); ("package_detail.html", false); ("packages.html", false); ("pending.html", false);
   ("run_detail.html", false); ("runs.html", false)].

(** The page each handler renders. *)
Definition handler_pages : list string :=
  ["allowlist"; "config"; "deviations"; "deviation_detail"; "event_detail"; "lineage"; "notifiers"; "overview";
   "packages"; "package_detail"; "pending"; "runs"; "run_detail"].

Definition page_of (name : string) : string :=
  if (String.length ".html" <? String.length name) && HasSuffix name ".html"
  then slice_to name (String.length name - String.length ".html") else name.

Definition skipped (e : entry) : bool := e.2 || bool_decide (e.1 = "layout.html").

Section templates.
Context {T : Type}.
(** [ParseFS] of a page with these files; [ExecuteTemplate] of the layout:
    the bytes written and the error that stopped it. *)
Context (ParseFS : string -> list string -> res T) (Execute : T -> string * option error).

Fixpoint parse_entries (l : list entry) (pages : gmap string T) : res (gmap string T) :=
  match l with
  | [] => Ok pages
  | e :: l' =>
      if skipped e then parse_entries l' pages else
      match ParseFS (page_of e.1) ["templates/layout.html"; "templates/" +:+ e.1] with
      | Err er => Err (Wrapf ("parse " +:+ e.1) er)
      | Ok t => parse_entries l' (<[page_of e.1 := t]> pages)
      end
  end.

Definition parsePages (ReadDir : res (list entry)) : res (gmap string T) :=
  match ReadDir with
  | Err e => Err e
  | Ok entries => parse_entries entries ∅
  end.

Record Handler : Type := mkHandler {
  version : string; effectivePaths : list WatchedPath; configPath : string; pages : gmap string T
}.

(** [store] tells whether a backend was given. *)
Definition New (store : bool) (vers : string) (paths : list WatchedPath) (cfg : string) (ReadDir : res (list entry))
    (Sub : option error) : res Handler :=
  if negb store then Err (Errorf "ui: Store is required") else
  match parsePages ReadDir with
  | Err e => Err (Wrapf "ui: parse templates" e)
  | Ok pages =>
      match Sub with
      | Some e => Err (Wrapf "ui: sub static" e)
      | None => Ok (mkHandler vers paths cfg pages)
      end
  end.

(** Status and body.  [http.Error] after the first byte can only append. *)
Definition render (h : Handler) (page : string) : Z * string :=
  match pages h !! page with
  | None => (500%Z, "template not found")
  | Some t =>
      match Execute t with
      | (out, None) => (200%Z, out)
      | (out, Some _) => ((if decide (out = "") then 500 else 200)%Z, out +:+ "template error")
      end
  end.
End templates.
Arguments Handler : clear implicits.

(** ** The pages are there *)
Section lemmas.
Context {T : Type} (ParseFS : string -> list string -> res T).

Lemma parse_entries_keeps l m m' p :
  parse_entries ParseFS l m = Ok m' -> is_Some (m !! p) -> is_Some (m' !! p).
Proof.
  revert m. induction l as [|e l IH]; intros m; simpl; [by intros [= <-]|].
  destruct (skipped e); [apply IH|]. destruct (ParseFS _ _) as [t|]; [|done]. intros E Hp. apply (IH _ E).
  destruct (decide (page_of e.1 = p)) as [<-|?]; [by rewrite lookup_insert_eq|by rewrite lookup_insert_ne].
Qed.

Lemma parse_entries_has l m m' e :
  parse_entries ParseFS l m = Ok m' -> e ∈ l -> skipped e = false -> is_Some (m' !! page_of e.1).
Proof.
  revert m. induction l as [|e' l IH]; intros m; simpl; [by intros _ ?%not_elem_of_nil|].
  intros E [->|Hin]%elem_of_cons Hs.
  - rewrite Hs in E. destruct (ParseFS _ _) as [t|]; [|done].
    eapply parse_entries_keeps; [exact E|]. by rewrite lookup_insert_eq.
  - destruct (skipped e'); [by eapply IH|]. destruct (ParseFS _ _) as [t|]; [|done]. by eapply IH.
Qed.

Lemma parse_entries_only l m m' p :
  parse_entries ParseFS l m = Ok m' -> is_Some (m' !! p) ->
  is_Some (m !! p) \/ exists e, e ∈ l /\ skipped e = false /\ page_of e.1 = p.
Proof.
  revert m. induction l as [|e l IH]; intros m; simpl; [by intros [= <-]; left|].
  destruct (skipped e) eqn:Hs.
  - intros E Hp. destruct (IH _ E Hp) as [?|(e' & ? & ?)]; [by left|right]. exists e'. split; [by right|done].
  - destruct (ParseFS _ _) as [t|]; [|done]. intros E Hp. destruct (IH _ E Hp) as [Hm|(e' & ? & ?)].
    + destruct (decide (page_of e.1 = p)) as [<-|?]; [right; exists e; split; [left|done]|].
      rewrite lookup_insert_ne in Hm by done. by left.
    + right. exists e'. split; [by right|done].
Qed.

Lemma parse_entries_err l m er :
  parse_entries ParseFS l m = Err er -> exists e e0, e ∈ l /\ skipped e = false /\
    ParseFS (page_of e.1) ["templates/layout.html"; "templates/" +:+ e.1] = Err e0 /\ er = Wrapf ("parse " +:+ e.1) e0.
Proof.
  revert m. induction l as [|e l IH]; intros m; simpl; [done|].
  destruct (skipped e) eqn:Hs.
  - intros E. destruct (IH _ E) as (e' & e0 & ? & ?). exists e', e0. split; [by right|done].
  - destruct (ParseFS _ _) as [t|e0] eqn:Ep.
    + intros E. destruct (IH _ E) as (e' & e1 & ? & ?). exists e', e1. split; [by right|done].
    + intros [= <-]. exists e, e0. split; [left|done].
Qed.
End lemmas.

(** The names the directory yields are the handlers'. *)
Lemma page_names e : e ∈ templates -> skipped e = false -> page_of e.1 ∈ handler_pages.
Proof.
  intros Hin Hs. assert (Hall : Forall (fun e => skipped e = false -> page_of e.1 ∈ handler_pages) templates)
    by (apply (bool_decide_eq_true_1 _); vm_compute; reflexivity).
  rewrite Forall_forall in Hall. by apply Hall.
Qed.

Lemma page_entries page : page ∈ handler_pages -> exists e, e ∈ templates /\ skipped e = false /\ page_of e.1 = page.
Proof.
  intros Hin. assert (Hall : Forall (fun p => Exists (fun e => skipped e = false /\ page_of e.1 = p) templates) handler_pages)
    by (apply (bool_decide_eq_true_1 _); vm_compute; reflexivity).
  rewrite Forall_forall in Hall. apply Hall, Exists_exists in Hin as (e & ? & ?). by exists e.
Qed.

(** Every page has its template.  With the embedded directory, starting
    the dashboard either fails, naming a template that does not parse, or
    parses exactly the thirteen pages the handlers render: no request ends in
    "template not found", and one whose template runs through is answered 200
    with its output. *)
Theorem pages_found {T} (ParseFS : string -> list string -> res T) Execute vers paths cfg :
  match New ParseFS true vers paths cfg (Ok templates) None with
  | Ok h =>
      (forall page, is_Some (pages h !! page) <-> page ∈ handler_pages) /\
      (forall page, page ∈ handler_pages -> render Execute h page <> (500%Z, "template not found")) /\
      (forall page t, pages h !! page = Some t -> (Execute t).2 = None -> render Execute h page = (200%Z, (Execute t).1))
  | Err e => exists name e0, (name, false) ∈ templates /\ name <> "layout.html" /\
      ParseFS (page_of name) ["templates/layout.html"; "templates/" +:+ name] = Err e0 /\
      e = Wrapf "ui: parse templates" (Wrapf ("parse " +:+ name) e0)
  end.
Proof.
  unfold New. cbn [negb parsePages]. destruct (parse_entries ParseFS templates ∅) as [m|er] eqn:E; cbn iota.
  - assert (Hp : forall page, is_Some (m !! page) <-> page ∈ handler_pages).
    { intros page. split.
      - intros Hp. destruct (parse_entries_only _ _ _ _ _ E Hp) as [[? Hm]|(e & Hin & Hs & <-)]; [by rewrite lookup_empty in Hm|].
        by apply page_names; [|].
      - intros (e & Hin & Hs & <-)%page_entries. by eapply parse_entries_has. }
    cbn [pages]. split; [exact Hp|]. split.
    + intros page [t Ht]%Hp. unfold render. cbn [pages]. rewrite Ht. destruct (Execute t) as [out [er|]]; [|done].
      case_decide; [subst; done|]. intros ?. by simplify_eq.
    + intros page t Ht. unfold render. cbn [pages]. rewrite Ht. by destruct (Execute t) as [out [er|]].
  - apply parse_entries_err in E as ([name d] & e0 & Hin & Hs & Hf & ->). exists name, e0.
    unfold skipped in Hs. apply orb_false_iff in Hs as [Hd Hl%bool_decide_eq_false_1]. simpl in *. subst d. done.
Qed.

Lemma pages_found_witness :
  exists h, New (fun p _ => Ok p) true "v" [] "" (Ok templates) None = Ok h /\
    render (fun p : string => (p, None)) h "runs" = (200%Z, "runs").
Proof.
  pose proof (pages_found (fun p _ => Ok p) (fun p : string => (p, None)) "v" [] "") as H.
  destruct (New _ _ _ _ _ _ _) as [h|e] eqn:E; [|exfalso; by vm_compute in E].
  exists h. split; [reflexivity|]. destruct H as (_ & _ & H). apply (H "runs" "runs"); [|reflexivity].
  vm_compute in E. injection E as <-. reflexivity.
Defined.

(** A template that fails after its first byte is still answered 200. *)
Lemma late_template_error {T} (Execute : T -> string * option error) h page t out er :
  pages h !! page = Some t -> Execute t = (out, Some er) -> out <> "" ->
  render Execute h page = (200%Z, out +:+ "template error").
Proof. intros Ht He Ho. unfold render. by rewrite Ht, He, decide_False. Qed.
End Render.
